(* ===== verification/_CoqProject ===== *)
-Q . S2P
Prelude.v
PyStr.v
PyVal.v
PyRe.v
Utils.v
Config.v
Job.v
FakeRunner.v
Task.v
Environments.v
Gerrit.v
Status.v
Hub.v
Stream.v
FakeStream.v
Verdict.v
StatusLife.v
ChangeRequest.v
Root.v
RootInv.v
RootStop.v
RootTask.v
RootTasks.v
RootSpec.v
RootLive.v
RootShutdown.v
Coro.v
AsyncSSH.v
VirshStorage.v
VirshVM.v
VirshHost.v
VirshBuild.v
VirshNet.v
BridgeRace.v
BridgeSim.v
ImageRace.v
VirshProvider.v
Runner.v
VirshSite.v
Metadata.v
Startup.v
