(* ===== verification/Prelude.v ===== *)
(** * Rally-CI: a verification library

    Rally-CI is a continuous-integration daemon.  Services listen for code-review events; an event of a configured project
    becomes a task with jobs; each job gets a runner, which boots virtual machines on libvirt hosts over ssh, runs scripts
    in them and gives them back; the result of the task is published as a review; a status page shows what is going on.
    The whole daemon runs on one asyncio event loop owned by the root object.

    ** The parts and the files that model them

    - [Prelude], [PyStr], [PyVal], [PyRe]: what the code uses of Python.  Exceptions and results ([res]), the state and
      error monad [se], strings, paths, [str.format] (fields, attributes and items, conversions and the string format
      specifications), decoding of UTF-8, values ([pyval]), dictionaries as association lists with Python's insertion
      order (keys that are no strings are coded as strings), and regular expressions (a parser and a backtracking matcher for the patterns of the sources).
    - [Utils] ([utils.py]), [Config] ([config.py]): random names and addresses, [retry]; sections, instances, logging.
    - [Job] ([job.py]), [FakeRunner] ([runners/fake.py]): a job and the interface of its runner ([RunnerOps], [RunnerOk]),
      with the fake runner as an instance.
    - [Task] ([task.py]), [Environments] ([environments/]): construction of a task, variables from the event, the review
      command, cleanup.
    - [Gerrit], [Stream] ([services/gerrit.py]): events to tasks, duplicates, rechecks, the reading loop; [run] and [cleanup] of
      the service over a file or an ssh stream.
    - [FakeStream] ([streams/fake.py]): a stream that replays a file for ever.
    - [Verdict]: from an event to its review, [Task()], [Job.run] and [Task.cleanup] put together.
    - [Status], [StatusLife] ([services/status.py], [common/periodictask.py]): clients, broadcasts, finished tasks, the statistics
      timer; [run] and [cleanup] of the service against the root's handler lists.
    - [Hub]: the handlers of the root and of tasks and jobs joined to the status service and to the page
      ([services/index.html]) of every client: what is sent, and what the page makes of it.
    - [ChangeRequest] ([cr.py]): the older change request class and why it cannot build a job.
    - [Root], [RootInv], [RootStop], [RootTask], [RootTasks], [RootSpec], [RootLive], [RootShutdown] ([root.py] and [Task.run]): the
      event loop as a transition system on futures, done callbacks, [asyncio.wait] calls and the queue of ready handles.
    - [Coro]: coroutines with a shared state that may fail to return ([co S A := S -> option (res A * S)]); the rules
      [within] (what is kept) and [ends] (that it returns).
    - [AsyncSSH] ([common/asyncssh.py]): the ssh client over a world of connections, processes and a clock ([World]).
    - [VirshStorage], [VirshVM], [VirshHost], [VirshBuild], [VirshNet], [VirshProvider] ([providers/virsh.py]): the storage
      backends (class [Storage]), virtual machines, hosts with images, locks and bridges, and the choice of a host (class
      [Hosts]).
    - [BridgeRace], [ImageRace]: the bridges and the images of a host under concurrent jobs, step relations whose steps are the
      suspensions of [_get_bridge], [cleanup_net], [get_vms], [destroy] and of [build_image]; [BridgeSim] relates the functions
      of [VirshHost] and [VirshVM] to the steps.
    - [Runner] ([runners/ssh.py]): the ssh runner over the class [Vms].
    - [VirshSite]: the interfaces [Hosts] and [Vms] implemented by the hosts and VMs above, several hosts on one world.
    - [Metadata] ([MetadataServer] of [providers/virsh.py]): what a booting VM is told.
    - [Startup] ([daemon.py], [Root.run] up to the stop event, [Provider.start] and [stop], the metadata server's [start] and
      [stop]): which parts are started, and in what order.

    ** State, effects, integers

    Code that cannot suspend is a function on [se] or [res]; exceptions are values and a handler sees the state the body
    left.  The daemon's concurrency is in [Root.v]: every callback and every resumption of a coroutine is one atomic handle,
    and what objects do inside [run()] and [cleanup()] is an arbitrary environment.  The provider's coroutines run under
    locks or on their own objects and are modelled one at a time, but for the bridges and images, which jobs share
    ([BridgeRace], [ImageRace]); in [VirshBuild] a lock that its own holder asks for again is a coroutine that
    never returns ([None]), in [ImageRace] a job that waits for itself.  Python
    integers are unbounded ([Z]); times are rationals ([Q]).

    ** What the theorems show

    - Events and tasks: one live task per change, with cleanups in progress (a cleanup removes the key first and then
      publishes, two steps of [Gerrit.sstep]); the vote of an event's review from what its jobs did, end to end; the
      review command, votes and comments; the jobs and variables of a task; what cleanup does, and that every handler is called; which events are lost and when.
    - Root: a refinement of a life cycle of six stages by every run of the event loop; each object is cleaned up exactly once
      unless the shutdown loop drops it; a task ends only after its jobs, and is in the registry of tasks until just
      before its cleanup begins; everything has ended when the loop stops, until then
      it is never stuck, and it does stop once no new work arrives (a lexicographic measure); a run in which the shutdown loop
      does drop a cleanup.
    - Status: the page of every client mirrors the daemon's tasks and jobs, and what of this holds when sends raise (which
      may change from step to step); every message has the type the page expects; the
      service leaves the root's handler lists as it found them; what a late client and a dead socket cause.
    - Job and runners: the final status and error for every way a runner can end; the order of the scripts and the result of
      the ssh runner; which failures leave the VMs behind.
    - ssh: waiting for a host ends; the outcome of a command for every exit status and option.
    - Provider: bridges get fresh numbers and are shared by name within a job; destroying a VM frees exactly the unused
      bridges; concurrent jobs get names that are free by the code's own expression, and no bridge is deleted while VMs boot or are
      registered for it unless a cleanup has failed, and how one fails; the functions of the host implement that model, given what [ip] does;
      a chosen host has room, and choosing ends when a host gets room; images build whenever their parents form no
      cycle, with every lock released, and a job deadlocks with itself when they do; concurrent builds end, never block each other for good
      and give complete images unless a build has failed outside its handler; a whole job ends.
    - Start-up: exactly the first configured services are started, and in order, however far [Root.run] gets.
    - Configuration, metadata, utilities: accepted documents and the sections they give, the keys a VM receives, [retry].

    ** Fuel

    [wait] and [get_ip] loop with a sleep of at least a second up to a timeout, so [timeout + 2] rounds are enough; that they
    never run out is part of [ssh_wait_terminates] and of the termination theorems of [VirshBuild] and [VirshSite].
    [build_image] recurses along parent images: fuel above the length of the chain is enough ([build_image_terminates]).
    [Provider.get_vms] has a bound on its rounds, and [provider_waits_for_room] says how many are enough.  The matcher of
    [PyRe] takes its fuel from the length of the subject, its parser from the length of the pattern.

    ** What is not modelled

    YAML, JSON, argparse, importlib, [random] and [uuid], the file system, the web framework, ssh, virsh and the commands on
    the hosts are parameters.  Log messages are left out.  A subprocess is taken to end, with an exit status or an
    exception; cancellation reaches a coroutine of the provider only as such an exception.  The page's DOM is left out: its
    model is the lists of tasks and jobs it draws.  Strings that only go to the log ([__str__], [__repr__]) are left out.  Not
    modelled: [providers/lxc.py], a constructor and two methods that do nothing; without a [Provider] class no configuration
    can use it.  [streams/fake.py] is modelled although it cannot be loaded: its base class is of a module that is not in
    the repository, so the handling of a line is a parameter.  Cancellation of a provider's coroutine is modelled where a
    command raises it and, in [ImageRace], while a job waits for an image's lock; not at the sleeps of [get_vms] and
    [build_image]. *)

From Stdlib Require Export Ascii ZArith Lia.
From stdpp Require Export base tactics option list strings gmap.
From stdpp Require Import options.

(** ** Python exceptions

    The exception classes the code raises, catches or lets escape. *)
Inductive exn : Type :=
| KeyError
| ValueError
| TypeError
| AttributeError
| IndexError
| UnboundLocalError
| UnicodeDecodeError
| RuntimeError
| OSError (errno : nat)
| ConnectionError
| SSHError
| TimeoutError
| CancelledError
| ClientDisconnectedError
| ExceptionMsg (msg : string)
| KeyboardInterrupt.

(** [isinstance(e, Exception)].  The code uses [asyncio.async], a syntax error from Python 3.7 on;
    before 3.8 [CancelledError] derives from [Exception]. *)
Definition is_Exception (e : exn) : bool :=
  match e with KeyboardInterrupt => false | _ => true end.

#[global] Instance exn_eq_dec : EqDecision exn.
Proof. solve_decision. Defined.

(** ** Results: a value or a raised exception *)
Inductive res (A : Type) : Type :=
| Ok (a : A)
| Raise (e : exn).
Arguments Ok {A} a.
Arguments Raise {A} e.

#[global] Instance res_eq_dec {A} `{EqDecision A} : EqDecision (res A).
Proof. solve_decision. Defined.

#[global] Instance res_ret : MRet res := fun A a => Ok a.
#[global] Instance res_bind : MBind res :=
  fun A B f m => match m with Ok a => f a | Raise e => Raise e end.
#[global] Instance res_fmap : FMap res :=
  fun A B f m => match m with Ok a => Ok (f a) | Raise e => Raise e end.

(** [try: m except Exception: h] *)
Definition try_except {A} (m : res A) (h : exn -> res A) : res A :=
  match m with
  | Ok a => Ok a
  | Raise e => if is_Exception e then h e else Raise e
  end.

Definition is_Ok {A} (m : res A) : Prop := exists a, m = Ok a.

#[global] Instance is_Ok_dec {A} (m : res A) : Decision (is_Ok m).
Proof.
  refine (match m with Ok a => left _ | Raise e => right _ end);
    [eexists; done | intros [? ?]; done].
Defined.

Lemma res_bind_Ok {A B} (m : res A) (f : A -> res B) b :
  (m ≫= f) = Ok b <-> exists a, m = Ok a /\ f a = Ok b.
Proof. destruct m; simpl; naive_solver. Qed.

Lemma res_bind_Raise {A B} (m : res A) (f : A -> res B) e :
  (m ≫= f) = Raise e <-> m = Raise e \/ exists a, m = Ok a /\ f a = Raise e.
Proof. destruct m; simpl; naive_solver. Qed.

Lemma is_Ok_bind {A B} (m : res A) (f : A -> res B) :
  is_Ok (m ≫= f) <-> exists a, m = Ok a /\ is_Ok (f a).
Proof. destruct m; unfold is_Ok; simpl; naive_solver. Qed.

(** A monadic map and a monadic left fold, for the [for] loops that can raise. *)
Fixpoint res_map {A B} (f : A -> res B) (l : list A) : res (list B) :=
  match l with
  | [] => Ok []
  | x :: l => y ← f x; ys ← res_map f l; Ok (y :: ys)
  end.

Fixpoint res_fold {A B} (f : B -> A -> res B) (b : B) (l : list A) : res B :=
  match l with
  | [] => Ok b
  | x :: l => b' ← f b x; res_fold f b' l
  end.

Lemma res_map_Ok {A B} (f : A -> res B) l ys :
  res_map f l = Ok ys <-> Forall2 (fun x y => f x = Ok y) l ys.
Proof.
  revert ys. induction l as [|x l IH]; intros ys; simpl.
  - split; [intros [= <-]; constructor | by inversion 1].
  - rewrite res_bind_Ok. setoid_rewrite res_bind_Ok. split.
    + intros (y & Hy & ys' & Hys & [= <-]). constructor; [done | by apply IH].
    + inversion 1 as [|? y ? ys' Hy Hys]; subst. exists y. split; [done|].
      exists ys'. split; [by apply IH | done].
Qed.

Lemma res_fold_app {A B} (f : B -> A -> res B) b l1 l2 :
  res_fold f b (l1 ++ l2) = (b' ← res_fold f b l1; res_fold f b' l2).
Proof. revert b. induction l1 as [|x l1 IH]; intros b; simpl; [done|]. destruct (f b x); simpl; auto. Qed.

(** An invariant of the accumulator holds after the whole loop. *)
Lemma res_fold_ind {A B} (P : list A -> B -> Prop) (f : B -> A -> res B) b l b' :
  P [] b ->
  (forall pre x b1 b2, P pre b1 -> f b1 x = Ok b2 -> P (pre ++ [x]) b2) ->
  res_fold f b l = Ok b' -> P l b'.
Proof.
  intros H0 Hstep. revert b'. induction l as [|x l IH] using rev_ind; intros b' Hf.
  - by injection Hf as <-.
  - rewrite res_fold_app in Hf. apply res_bind_Ok in Hf as (b1 & Hb1 & Hf). simpl in Hf.
    apply res_bind_Ok in Hf as (b2 & Hb2 & [= <-]). eauto.
Qed.

(** ** State and exceptions

    Python code that mutates objects and may raise: the state survives an exception. *)
Definition se (S A : Type) : Type := S -> res A * S.

#[global] Instance se_ret {S} : MRet (se S) := fun A a s => (Ok a, s).
#[global] Instance se_bind {S} : MBind (se S) :=
  fun A B f m s =>
    match m s with
    | (Ok a, s') => f a s'
    | (Raise e, s') => (Raise e, s')
    end.

Section StateExn.
Context {S A : Type}.
Definition se_get : se S S := fun s => (Ok s, s).
Definition se_modify (f : S -> S) : se S unit := fun s => (Ok tt, f s).
Definition se_raise (e : exn) : se S A := fun s => (Raise e, s).
Definition se_lift (r : res A) : se S A := fun s => (r, s).

(** [try: m except ...: h e] where [h e] is [None] for the exceptions no clause catches. *)
Definition se_catch (m : se S A) (h : exn -> option (se S A)) : se S A := fun s =>
  match m s with
  | (Raise e, s') => match h e with Some k => k s' | None => (Raise e, s') end
  | r => r
  end.

(** [try: m finally: f] for a finaliser that cannot raise. *)
Definition se_finally (m : se S A) (f : S -> S) : se S A := fun s => let '(r, s') := m s in (r, f s').
End StateExn.

(** [try: m except Exception: log]: only what is not an [Exception] escapes. *)
Lemma se_catch_log {S} (m : se S unit) s e s' :
  se_catch m (fun e => if is_Exception e then Some (mret tt) else None) s = (Raise e, s') -> is_Exception e = false.
Proof.
  unfold se_catch. destruct (m s) as [[[]|e1] s1]; [done|].
  destruct (is_Exception e1) eqn:He; [done|]. by intros [= -> _].
Qed.

(** [for x in l: f x] *)
Fixpoint se_iter {S A} (f : A -> se S unit) (l : list A) : se S unit :=
  match l with
  | [] => mret tt
  | x :: l => _ ← f x; se_iter f l
  end.

Lemma se_bind_eq {S A B} (m : se S A) (f : A -> se S B) s :
  (m ≫= f) s = match m s with (Ok a, s') => f a s' | (Raise e, s') => (Raise e, s') end.
Proof. done. Qed.

(** A relation between states that every iteration keeps holds after the loop, however it ends. *)
Lemma se_iter_inv {S A} (P : S -> Prop) (f : A -> se S unit) l s :
  P s -> (forall x s, x ∈ l -> P s -> P (f x s).2) -> P (se_iter f l s).2.
Proof.
  revert s. induction l as [|x l IH]; intros s Hs Hf; simpl; [done|]. rewrite se_bind_eq.
  pose proof (Hf x s (list_elem_of_here _ _) Hs) as H. destruct (f x s) as [[[]|e] s']; [|done].
  apply IH; [done|]. intros y s'' Hy. apply Hf. by apply list_elem_of_further.
Qed.

(** ** Tactics *)

(** Decompose successful and failing binds in the context. *)
Ltac res_inv :=
  repeat match goal with
  | H : (_ ≫= _) = Ok _ |- _ => apply res_bind_Ok in H; destruct H as (? & ? & ?)
  | H : Ok _ = Ok _ |- _ => injection H as H; subst
  | H : Ok _ = Raise _ |- _ => discriminate H
  | H : Raise _ = Ok _ |- _ => discriminate H
  | H : Some _ = Some _ |- _ => injection H as H; subst
  end.

(** ** Generic list lemmas *)

(** The last [n] elements of a list (a [collections.deque(maxlen=n)] after appends). *)
Definition lastn {A} (n : nat) (l : list A) : list A := drop (length l - n) l.

Lemma lastn_all {A} n (l : list A) : length l <= n -> lastn n l = l.
Proof. intros H. unfold lastn. by replace (length l - n) with 0 by lia. Qed.

Lemma length_lastn {A} n (l : list A) : length (lastn n l) = min n (length l).
Proof. unfold lastn. rewrite length_drop. lia. Qed.

Lemma lastn_snoc {A} n (l : list A) x : lastn n (lastn n l ++ [x]) = lastn n (l ++ [x]).
Proof.
  unfold lastn. rewrite !length_app, length_drop. simpl.
  destruct (decide (length l <= n)).
  - replace (length l - n) with 0 by lia. simpl. f_equal. lia.
  - rewrite !drop_app, drop_drop, length_drop. f_equal; f_equal; lia.
Qed.

(** One step of a concrete run: a constructor of the step relation, its premises evaluated. *)
Tactic Notation "now_step" uconstr(c) :=
  eapply relations.rtc_l; [try eexists; eapply c; first [reflexivity | vm_compute; congruence | by apply (bool_decide_unpack _); vm_compute] |].
