(* ===== verification/PyStr.v ===== *)
(** * Python strings

    The [str] operations the code uses, on [string] (one [ascii] per character, code points below
    256): [split], [join], [replace], [splitlines], [strip], [bytes.decode], [cgi.escape], [str.format] with named
    fields, conversions and format specifications, [os.path.join] and [str] of an integer.  The lemmas are the ones the components need:
    splitting and joining are inverse, the pieces of a split contain no separator, escaping removes
    the markup characters. *)

From stdpp Require Import pretty.
From S2P Require Import Prelude.
From stdpp Require Import options.

Declare Scope py_scope.
Delimit Scope py_scope with py.

Implicit Types (s t : string) (c d : ascii).

Lemma string_app_cons c s t : String c s +:+ t = String c (s +:+ t).
Proof. done. Qed.

(** Characters of a string, and back. *)
Fixpoint chars s : list ascii :=
  match s with "" => [] | String c s => c :: chars s end.

Fixpoint of_chars (l : list ascii) : string :=
  match l with [] => "" | c :: l => String c (of_chars l) end.

Lemma of_chars_chars s : of_chars (chars s) = s.
Proof. induction s; simpl; congruence. Qed.
Lemma chars_of_chars l : chars (of_chars l) = l.
Proof. induction l; simpl; congruence. Qed.
Lemma chars_app s t : chars (s +:+ t) = chars s ++ chars t.
Proof. induction s as [|c s IH]; [done|]. rewrite string_app_cons. simpl. by rewrite IH. Qed.
Lemma of_chars_app k l : of_chars (k ++ l) = of_chars k +:+ of_chars l.
Proof. induction k as [|c k IH]; [done|]. simpl. by rewrite IH, string_app_cons. Qed.
Lemma length_chars s : length (chars s) = String.length s.
Proof. induction s; simpl; congruence. Qed.

Lemma string_app_assoc s t u : (s +:+ t) +:+ u = s +:+ t +:+ u.
Proof. induction s as [|c s IH]; [done|]. rewrite !string_app_cons. by f_equal. Qed.
Lemma string_app_nil_r s : s +:+ "" = s.
Proof. induction s as [|c s IH]; [done|]. rewrite string_app_cons. by f_equal. Qed.
Create HintDb pystr.
#[export] Hint Rewrite chars_app chars_of_chars of_chars_chars of_chars_app
  string_app_assoc string_app_nil_r : pystr.

(** [s == t] *)
Definition str_eqb s t : bool := bool_decide (s = t).

Lemma str_eqb_true s t : str_eqb s t = true <-> s = t.
Proof. apply bool_decide_eq_true. Qed.
Lemma str_eqb_false s t : str_eqb s t = false <-> s <> t.
Proof. apply bool_decide_eq_false. Qed.
Lemma str_eqb_refl s : str_eqb s s = true.
Proof. by apply bool_decide_eq_true. Qed.
#[export] Hint Rewrite str_eqb_refl : pystr.

(** [c in s] *)
Definition in_str c s : bool := bool_decide (c ∈ chars s).

(** [s.split(c)]: at least one piece, empty pieces kept. *)
Fixpoint split c s : list string :=
  match s with
  | "" => [""]
  | String d s =>
      if bool_decide (d = c) then "" :: split c s
      else match split c s with
           | [] => [String d ""]
           | p :: ps => String d p :: ps
           end
  end.

(** [s.split(c, n)]: at most [n] splits. *)
Fixpoint split_max c n s : list string :=
  match s with
  | "" => [""]
  | String d s =>
      if bool_decide (d = c) then
        match n with
        | 0 => [String d s]
        | S n => "" :: split_max c n s
        end
      else match split_max c n s with
           | [] => [String d ""]
           | p :: ps => String d p :: ps
           end
  end.

(** [sep.join(l)] *)
Fixpoint join (sep : string) (l : list string) : string :=
  match l with
  | [] => ""
  | [s] => s
  | s :: l => s +:+ sep +:+ join sep l
  end.

Lemma split_not_nil c s : split c s <> [].
Proof. destruct s as [|d s]; simpl; [done|]. case_bool_decide; [done|]. by destruct (split c s). Qed.

Lemma join_cons sep s l : l <> [] -> join sep (s :: l) = s +:+ sep +:+ join sep l.
Proof. by destruct l. Qed.

Lemma join_cons_char sep d p ps : join sep (String d p :: ps) = String d (join sep (p :: ps)).
Proof. by destruct ps. Qed.

Lemma join_empty_snoc l s : join "" (l ++ [s]) = join "" l +:+ s.
Proof.
  induction l as [|x l IH]; [reflexivity|]. change ((x :: l) ++ [s]) with (x :: (l ++ [s])).
  rewrite join_cons by (by destruct l). rewrite IH. destruct l as [|y l]; [reflexivity|].
  rewrite (join_cons "" x (y :: l)) by done. by rewrite !string_app_assoc.
Qed.

Lemma join_split c s : join (String c "") (split c s) = s.
Proof.
  induction s as [|d s IH]; [done|]. cbn [split]. case_bool_decide as Hd; subst.
  - rewrite join_cons by apply split_not_nil. by rewrite IH.
  - destruct (split c s) as [|p ps] eqn:Hs; [by apply split_not_nil in Hs|].
    by rewrite join_cons_char, IH.
Qed.

Lemma split_no_sep c s : Forall (fun p => c ∉ chars p) (split c s).
Proof.
  induction s as [|d s IH]; cbn [split].
  - repeat constructor. apply not_elem_of_nil.
  - case_bool_decide as Hd; [constructor; [apply not_elem_of_nil | done]|].
    destruct (split c s) as [|p ps]; inversion IH; subst; repeat constructor; try done; cbn [chars];
      rewrite not_elem_of_cons; split; congruence || (try done; apply not_elem_of_nil).
Qed.

Lemma split_single c s : c ∉ chars s -> split c s = [s].
Proof.
  induction s as [|d s IH]; [done|]. cbn [chars split]. rewrite not_elem_of_cons. intros [Hd Hs].
  rewrite bool_decide_false by congruence. by rewrite IH.
Qed.

Lemma split_app_sep c s t : c ∉ chars s -> split c (s +:+ String c t) = s :: split c t.
Proof.
  induction s as [|d s IH]; cbn [chars]; intros Hs.
  - change (split c (String c t) = "" :: split c t). cbn [split]. by rewrite bool_decide_true.
  - apply not_elem_of_cons in Hs as [Hd Hs]. rewrite string_app_cons. cbn [split].
    rewrite bool_decide_false by congruence. by rewrite IH.
Qed.

Lemma split_join c l : l <> [] -> Forall (fun p => c ∉ chars p) l -> split c (join (String c "") l) = l.
Proof.
  intros Hne Hl. induction Hl as [|p ps Hp Hps IH]; [done|]. destruct ps as [|q ps].
  - by apply split_single.
  - rewrite join_cons by done. change (String c "" +:+ ?u) with (String c u).
    rewrite split_app_sep by done. by rewrite IH.
Qed.

(** [s.replace(c, d)] for one-character arguments. *)
Definition replace_char c d s : string := of_chars ((fun x => if bool_decide (x = c) then d else x) <$> chars s).

(** ["".join([x for x in s if p x])] *)
Definition filter_str (p : ascii -> bool) s : string := of_chars (List.filter p (chars s)).

(** Strings whose characters all satisfy [p]. *)
Definition all_chars (p : ascii -> Prop) s : Prop := Forall p (chars s).

(** Two strings that are each a run of characters with a property followed by a run without it. *)
Lemma span_split (p : ascii -> bool) (k l n m : string) :
  all_chars (fun c => p c = true) k -> all_chars (fun c => p c = true) l ->
  all_chars (fun c => p c = false) n -> all_chars (fun c => p c = false) m ->
  k +:+ n = l +:+ m -> k = l /\ n = m.
Proof.
  unfold all_chars. revert l. induction k as [|c k IH]; intros [|d l]; cbn [chars]; intros Hk Hl Hn Hm Heq.
  - done.
  - change (n = String d (l +:+ m)) in Heq. subst n. apply Forall_cons in Hl as [Hd _].
    cbn [chars] in Hn. apply Forall_cons in Hn as [Hd' _]. congruence.
  - change (String c (k +:+ n) = m) in Heq. subst m. apply Forall_cons in Hk as [Hc _].
    cbn [chars] in Hm. apply Forall_cons in Hm as [Hc' _]. congruence.
  - change (String c (k +:+ n) = String d (l +:+ m)) in Heq. injection Heq as -> Heq.
    apply Forall_cons in Hk as [_ Hk]. apply Forall_cons in Hl as [_ Hl].
    destruct (IH l Hk Hl Hn Hm Heq) as [-> ->]. done.
Qed.

Lemma filter_str_all p s : all_chars (fun c => p c = true) (filter_str p s).
Proof.
  unfold all_chars, filter_str. autorewrite with pystr. apply List.Forall_forall.
  intros x Hx. by apply filter_In in Hx as [_ ?].
Qed.

Lemma filter_str_id p s : all_chars (fun c => p c = true) s -> filter_str p s = s.
Proof.
  unfold all_chars, filter_str. induction s as [|c s IH]; [done|]. cbn [chars].
  intros [Hc Hs]%Forall_cons. simpl. rewrite Hc. simpl. by rewrite IH.
Qed.

(** [str(n)] *)
Definition str_of_Z (n : Z) : string := pretty n.
Definition str_of_nat (n : nat) : string := pretty n.

(** [cgi.escape(s)] with the default [quote=False]: ampersand first, then the angle brackets. *)
Definition escape_char c : string :=
  if bool_decide (c = "&"%char) then "&amp;"
  else if bool_decide (c = "<"%char) then "&lt;"
  else if bool_decide (c = ">"%char) then "&gt;"
  else String c "".

Fixpoint escape s : string :=
  match s with "" => "" | String c s => escape_char c +:+ escape s end.

Lemma escape_char_safe c : all_chars (fun d => d <> "<"%char /\ d <> ">"%char) (escape_char c).
Proof.
  unfold all_chars, escape_char. repeat case_bool_decide; repeat (constructor; try done).
Qed.

Lemma escape_safe s : all_chars (fun d => d <> "<"%char /\ d <> ">"%char) (escape s).
Proof.
  unfold all_chars. induction s as [|c s IH]; [constructor|]. simpl. autorewrite with pystr.
  apply Forall_app. split; [apply escape_char_safe | done].
Qed.

Lemma escape_id s :
  all_chars (fun d => d <> "<"%char /\ d <> ">"%char /\ d <> "&"%char) s -> escape s = s.
Proof.
  unfold all_chars. induction s as [|c s IH]; [done|]. cbn [chars escape].
  intros [(? & ? & ?) Hs]%Forall_cons. unfold escape_char. rewrite !bool_decide_false by done.
  rewrite IH by done. done.
Qed.

(** [os.path.join(a, b)]: an absolute [b] discards [a]; otherwise one slash between them. *)
Definition starts_slash s : bool := match s with String "/" _ => true | _ => false end.

Definition last_char s : option ascii := last (chars s).

Definition path_join (a b : string) : string :=
  if starts_slash b then b
  else match last_char a with
       | None => b
       | Some "/"%char => a +:+ b
       | Some _ => a +:+ "/" +:+ b
       end.

(** [os.path.join(a, *bs)] *)
Definition path_joins (a : string) (bs : list string) : string := fold_left path_join bs a.

(** [os.path.split(p)[1]]: what follows the last slash. *)
Definition path_tail (p : string) : string := default "" (last (split "/" p)).

(** Whitespace of [str.strip()]. *)
Definition is_space c : bool :=
  match c with
  | " " | "009" | "010" | "011" | "012" | "013" | "028" | "029" | "030" | "031" | "133" | "160" => true
  | _ => false
  end%char.

Fixpoint lstrip s : string :=
  match s with
  | "" => ""
  | String c s' => if is_space c then lstrip s' else s
  end.

Definition rev_str s : string := of_chars (reverse (chars s)).

Definition strip s : string := rev_str (lstrip (rev_str (lstrip s))).

(** [bytes.decode()]: strict UTF-8, without overlong forms and surrogates; [None] for bytes that are not.  A character
    beyond the 256 the strings of the model have is read as a question mark. *)
Definition cont (c : ascii) : bool := let n := nat_of_ascii c in (128 <=? n) && (n <=? 191).
Definition in_bytes (a b : nat) (c : ascii) : bool := let n := nat_of_ascii c in (a <=? n) && (n <=? b).

Fixpoint utf8_chars (l : list ascii) : option (list ascii) :=
  match l with
  | [] => Some []
  | a :: l1 =>
      if in_bytes 0 127 a then cons a <$> utf8_chars l1
      else match l1 with
      | b :: l2 =>
          if in_bytes 194 195 a && cont b then
            cons (ascii_of_nat (64 * (nat_of_ascii a - 192) + (nat_of_ascii b - 128))) <$> utf8_chars l2
          else if in_bytes 196 223 a && cont b then cons "?"%char <$> utf8_chars l2
          else match l2 with
          | c :: l3 =>
              if (in_bytes 224 224 a && in_bytes 160 191 b || in_bytes 237 237 a && in_bytes 128 159 b ||
                  (in_bytes 225 236 a || in_bytes 238 239 a) && cont b) && cont c
              then cons "?"%char <$> utf8_chars l3
              else match l3 with
              | d :: l4 =>
                  if (in_bytes 240 240 a && in_bytes 144 191 b || in_bytes 244 244 a && in_bytes 128 143 b ||
                      in_bytes 241 243 a && cont b) && cont c && cont d
                  then cons "?"%char <$> utf8_chars l4
                  else None
              | [] => None
              end
          | [] => None
          end
      | [] => None
      end
  end.

Definition decode s : res string :=
  match utf8_chars (chars s) with Some l => Ok (of_chars l) | None => Raise UnicodeDecodeError end.

(** Text without bytes above 127 is itself. *)
Lemma decode_ascii s : all_chars (fun c => in_bytes 0 127 c = true) s -> decode s = Ok s.
Proof.
  unfold all_chars, decode. intros H. assert (utf8_chars (chars s) = Some (chars s)) as ->.
  { induction H as [|c l Hc _ IH]; [done|]. cbn [utf8_chars]. by rewrite Hc, IH. }
  by rewrite of_chars_chars.
Qed.

(** [s.splitlines()]: line boundaries are removed, a carriage return and the newline after it are one
    boundary, and a final boundary does not start an empty line. *)
Definition is_linebreak c : bool :=
  match c with
  | "010" | "011" | "012" | "013" | "028" | "029" | "030" | "133" => true
  | _ => false
  end%char.

Fixpoint splitlines_aux (cur : string) s : list string :=
  match s with
  | "" => if bool_decide (cur = "") then [] else [rev_str cur]
  | String c s' =>
      if is_linebreak c then
        match c, s' with
        | "013"%char, String "010"%char s'' => rev_str cur :: splitlines_aux "" s''
        | _, _ => rev_str cur :: splitlines_aux "" s'
        end
      else splitlines_aux (String c cur) s'
  end.

Definition splitlines s : list string := splitlines_aux "" s.

(** [s.endswith(c)] and [s[:-1]] *)
Definition ends_with c s : bool := bool_decide (last_char s = Some c).
Definition drop_last s : string := of_chars (removelast (chars s)).

Lemma drop_last_snoc s c : drop_last (s +:+ String c "") = s.
Proof.
  unfold drop_last. autorewrite with pystr. cbn [chars]. by rewrite removelast_last, of_chars_chars.
Qed.

Lemma ends_with_drop_last c s : ends_with c s = true -> drop_last s +:+ String c "" = s.
Proof.
  unfold ends_with, last_char, drop_last. rewrite bool_decide_eq_true. intros H.
  apply last_Some in H as [l Hl]. rewrite <- (of_chars_chars s), Hl, chars_of_chars, removelast_last.
  by rewrite of_chars_app.
Qed.

(** ** [s.format(a1=v1, ...)] with string arguments *)

(** The digits at the start of a string, as a number, and what follows them. *)
Fixpoint read_nat (n : option nat) s : option nat * string :=
  match s with
  | String c s' =>
      let k := nat_of_ascii c in
      if (48 <=? k) && (k <=? 57) then read_nat (Some (10 * default 0 n + (k - 48))) s' else (n, s)
  | "" => (n, "")
  end.

Definition is_align c : bool := match c with "<" | ">" | "^" | "=" => true | _ => false end%char.

(** [format(v, spec)] of a string: [[[fill]align][0][width][.precision][s]]; anything else is a [ValueError], as is the
    alignment of numbers, which a leading zero asks for. *)
Definition format_spec (spec v : string) : res string :=
  let '(fill, align, s) :=
    match spec with
    | String f (String a s) => if is_align a then (Some f, Some a, s) else
                                 if is_align f then (None, Some f, String a s) else (None, None, spec)
    | String a "" => if is_align a then (None, Some a, "") else (None, None, spec)
    | "" => (None, None, "")
    end in
  let '(fill, align, s) :=
    match fill, s with
    | None, String "0" s' => (Some "0"%char, Some (default "="%char align), s')
    | _, _ => (fill, align, s)
    end in
  let '(width, s) := read_nat None s in
  prec ← match s with
         | String "." s' => let '(p, s'') := read_nat None s' in
                            match p with Some n => Ok (Some n, s'') | None => Raise ValueError end
         | _ => Ok (None, s)
         end;
  let '(prec, s) := prec in
  if negb (str_eqb s "" || str_eqb s "s") then Raise ValueError
  else match align with
  | Some "="%char => Raise ValueError
  | _ =>
      let cs := match prec with Some n => take n (chars v) | None => chars v end in
      let pad := default 0 width - length cs in
      let f := default " "%char fill in
      let left := match align with Some ">"%char => pad | Some "^"%char => Nat.div pad 2 | _ => 0 end in
      Ok (of_chars (replicate left f ++ cs ++ replicate (pad - left) f))
  end.

(** [repr(v)] and [ascii(v)] of a string. *)
Definition hex_digit (n : nat) : ascii := ascii_of_nat (if n <? 10 then n + 48 else n + 87).
Definition repr_char (ascii_only : bool) (q c : ascii) : string :=
  let n := nat_of_ascii c in
  if bool_decide (c = q \/ c = "\"%char) then String "\" (String c "")
  else if bool_decide (c = "009"%char) then "\t"
  else if bool_decide (c = "010"%char) then "\n"
  else if bool_decide (c = "013"%char) then "\r"
  else if (n <? 32) || ((127 <=? n) && (n <=? 160)) || (n =? 173) || (ascii_only && (128 <=? n))
  then String "\" (String "x" (String (hex_digit (Nat.div n 16)) (String (hex_digit (Nat.modulo n 16)) "")))
  else String c "".
Definition py_repr (ascii_only : bool) v : string :=
  let q := if bool_decide ("'"%char ∈ chars v /\ "034"%char ∉ chars v) then "034"%char else "'"%char in
  String q (join "" (repr_char ascii_only q <$> chars v) +:+ String q "").

(** The three parts of a replacement field: the name up to an exclamation mark or a colon outside brackets, the
    conversion, the format specification. *)
Fixpoint field_name (bracket : bool) s : string * string :=
  match s with
  | "" => ("", "")
  | String c s' =>
      if negb bracket && bool_decide (c = "!"%char \/ c = ":"%char) then ("", s)
      else let '(n, r) := field_name (if bracket then negb (bool_decide (c = "]"%char)) else bool_decide (c = "["%char)) s' in
           (String c n, r)
  end.

Definition field_parts s : res (string * option ascii * string) :=
  let '(n, r) := field_name false s in
  if bool_decide ("{"%char ∈ chars n) then Raise ValueError
  else match r with
  | "" => Ok (n, None, "")
  | String ":" spec => Ok (n, None, spec)
  | String _ (String c "") => Ok (n, Some c, "")
  | String _ (String c (String ":" spec)) => Ok (n, Some c, spec)
  | _ => Raise ValueError
  end.

(** The value a field names: an argument, or a character of one; the other attributes and positional arguments do not
    exist. *)
Fixpoint until_access s : string * string :=
  match s with
  | "" => ("", "")
  | String c s' => if bool_decide (c = "."%char \/ c = "["%char) then ("", s)
                   else let '(n, r) := until_access s' in (String c n, r)
  end.
Definition field_value (args : list (string * string)) (n : string) : res string :=
  let '(first, access) := until_access n in
  if str_eqb (read_nat None first).2 "" then Raise IndexError
  else match list_find (fun kv => kv.1 = first) args with
  | None => Raise KeyError
  | Some (_, (_, v)) =>
      match access with
      | "" => Ok v
      | String "[" a =>
          match read_nat None a with
          | (Some i, "]") => match chars v !! i with Some c => Ok (String c "") | None => Raise IndexError end
          | (_, String "]" _) => Raise ValueError
          | _ => Raise TypeError
          end
      | _ => Raise AttributeError
      end
  end.

Definition convert (conv : option ascii) v : res string :=
  match conv with
  | None | Some "s"%char => Ok v
  | Some "r"%char => Ok (py_repr false v)
  | Some "a"%char => Ok (py_repr true v)
  | _ => Raise ValueError
  end.

(** One field; [sub] expands the fields inside its specification. *)
Definition format_field (sub : string -> res string) (args : list (string * string)) (f : string) : res string :=
  p ← field_parts f;
  v ← field_value args p.1.1;
  v ← convert p.1.2 v;
  spec ← sub p.2;
  format_spec spec v.

(** The template: outside a field, or inside one with its text so far (reversed) and the number of open braces in it. *)
Fixpoint fmt (sub : string -> res string) (args : list (string * string)) (field : option (nat * string)) s : res string :=
  match field, s with
  | None, "" => Ok ""
  | None, String "{" (String "{" s') => r ← fmt sub args None s'; Ok (String "{" r)
  | None, String "}" (String "}" s') => r ← fmt sub args None s'; Ok (String "}" r)
  | None, String "{" s' => fmt sub args (Some (0, "")) s'
  | None, String "}" _ => Raise ValueError
  | None, String c s' => r ← fmt sub args None s'; Ok (String c r)
  | Some _, "" => Raise ValueError
  | Some (0, f), String "}" s' => v ← format_field sub args (rev_str f); r ← fmt sub args None s'; Ok (v +:+ r)
  | Some (S k, f), String "}" s' => fmt sub args (Some (k, String "}" f)) s'
  | Some (k, f), String "{" s' => fmt sub args (Some (S k, String "{" f)) s'
  | Some (k, f), String c s' => fmt sub args (Some (k, String c f)) s'
  end.

Definition expand (k : string -> res string) spec : res string := if bool_decide ("{"%char ∈ chars spec) then k spec else Ok spec.

(** Fields may be nested in specifications once. *)
Definition format (tpl : string) (args : list (string * string)) : res string :=
  fmt (expand (fmt (expand (fun _ => Raise ValueError)) args None)) args None tpl.

Example format_ex : format "- {name} : {success}{{}}" [("success", "ok"); ("name", "py27")] = Ok "- py27 : ok{}".
Proof. vm_compute. reflexivity. Qed.
Example format_specs : format "{name:>6}|{name!r:*^8}|{name:.2}|{name[3]}" [("name", "py27")] = Ok "  py27|*'py27'*|py|7".
Proof. vm_compute. reflexivity. Qed.
Example format_nested : format "{name:{align}6}|" [("name", "py27"); ("align", "<")] = Ok "py27  |".
Proof. vm_compute. reflexivity. Qed.
Example format_errors : (fun t => format t [("name", "py27")]) <$> ["{nam}"; "{}"; "{name"; "}"; "{name:d}"; "{name!x}"; "{name.x}"] =
  [Raise KeyError; Raise IndexError; Raise ValueError; Raise ValueError; Raise ValueError; Raise ValueError; Raise AttributeError].
Proof. vm_compute. reflexivity. Qed.
Example decode_ex : decode (String "195" (String "169" "t")) = Ok (String "233" "t") /\ decode (String "192" "t") = Raise UnicodeDecodeError.
Proof. split; reflexivity. Qed.
Example splitlines_ex :
  splitlines ("a" +:+ String "010" ("" +:+ String "013" (String "010" ("b" +:+ String "010" "")))) = ["a"; ""; "b"].
Proof. reflexivity. Qed.
Example path_join_ex : path_joins "/" ["ci"; "rally"; "vda"] = "/ci/rally/vda".
Proof. reflexivity. Qed.
Example split_max_ex : split_max "/" 3 "refs/changes/12/345/6" = ["refs"; "changes"; "12"; "345/6"].
Proof. reflexivity. Qed.
