(* ===== verification/PyVal.v ===== *)
(** * Python dictionaries and JSON/YAML values

    A [dict] is an association list in iteration order: assignment to a present key keeps its place,
    a new key goes last.  [dict_ok] (no key twice) is the representation invariant and every operation
    keeps it.  [pyval] is the type of decoded JSON events and YAML configuration entries, with the
    subscripting, [get], [in] and truth-value operations and the exceptions they raise. *)

From Stdlib Require Import QArith.
From S2P Require Import Prelude PyStr.
From stdpp Require Import options.
Open Scope nat_scope.

Section Dict.
Context {K V : Type} `{EqDecision K}.
Implicit Types (d e : list (K * V)) (k : K) (v : V).

Fixpoint dict_get d k : option V :=
  match d with
  | [] => None
  | (k', v) :: d => if decide (k' = k) then Some v else dict_get d k
  end.

Fixpoint dict_set d k v : list (K * V) :=
  match d with
  | [] => [(k, v)]
  | (k', v') :: d => if decide (k' = k) then (k', v) :: d else (k', v') :: dict_set d k v
  end.

Fixpoint dict_del d k : list (K * V) :=
  match d with
  | [] => []
  | (k', v') :: d => if decide (k' = k) then d else (k', v') :: dict_del d k
  end.

Definition dict_keys d : list K := d.*1.
Definition dict_values d : list V := d.*2.

(** [k in d] *)
Definition dict_mem d k : bool := bool_decide (is_Some (dict_get d k)).

(** [d.setdefault(k, v)] (the updated dictionary) *)
Definition dict_setdefault d k v : list (K * V) :=
  match dict_get d k with Some _ => d | None => dict_set d k v end.

(** [d.update(e)] *)
Definition dict_update d e : list (K * V) := fold_left (fun d kv => dict_set d kv.1 kv.2) e d.

Definition dict_ok d : Prop := NoDup (dict_keys d).

Lemma dict_get_set d k k' v :
  dict_get (dict_set d k v) k' = if decide (k = k') then Some v else dict_get d k'.
Proof.
  induction d as [|[k1 v1] d IH]; simpl; [done|].
  destruct (decide (k1 = k)) as [->|Hne]; simpl; [by repeat case_decide|].
  rewrite IH. repeat case_decide; congruence.
Qed.

Lemma dict_get_set_eq d k v : dict_get (dict_set d k v) k = Some v.
Proof. rewrite dict_get_set. by case_decide. Qed.
Lemma dict_get_set_ne d k k' v : k <> k' -> dict_get (dict_set d k v) k' = dict_get d k'.
Proof. intros. rewrite dict_get_set. by case_decide. Qed.

Lemma dict_get_None d k : dict_get d k = None <-> k ∉ dict_keys d.
Proof.
  unfold dict_keys. induction d as [|[k1 v1] d IH]; simpl; [split; [intros _; apply not_elem_of_nil | done]|].
  rewrite not_elem_of_cons. case_decide; [naive_solver | rewrite IH; naive_solver].
Qed.

Lemma dict_get_Some_keys d k : is_Some (dict_get d k) <-> k ∈ dict_keys d.
Proof.
  destruct (dict_get d k) eqn:E.
  - split; [|by eexists]. intros _. destruct (decide (k ∈ dict_keys d)) as [?|Hn]; [done|].
    apply dict_get_None in Hn. congruence.
  - apply dict_get_None in E. split; [by intros [? ?] | done].
Qed.

Lemma dict_get_elem d k v : dict_get d k = Some v -> (k, v) ∈ d.
Proof.
  induction d as [|[k1 v1] d IH]; simpl; [done|]. case_decide; intros; simplify_eq; set_solver.
Qed.

Lemma dict_get_lookup d k v : dict_ok d -> (k, v) ∈ d -> dict_get d k = Some v.
Proof.
  unfold dict_ok, dict_keys. induction d as [|[k1 v1] d IH]; simpl; [set_solver|].
  intros [Hk Hd]%NoDup_cons [[= -> ->]|Hin]%elem_of_cons; [by case_decide|].
  case_decide; [|by auto]. subst. exfalso. apply Hk. apply list_elem_of_fmap. by exists (k, v).
Qed.

Lemma dict_keys_set d k v :
  dict_keys (dict_set d k v) = if decide (k ∈ dict_keys d) then dict_keys d else dict_keys d ++ [k].
Proof.
  unfold dict_keys. induction d as [|[k1 v1] d IH]; [done|]. cbn [dict_set].
  - destruct (decide (k1 = k)) as [->|Hne]; csimpl.
    + rewrite decide_True by set_solver. done.
    + rewrite IH. repeat case_decide; set_solver.
Qed.

Lemma dict_ok_set d k v : dict_ok d -> dict_ok (dict_set d k v).
Proof.
  unfold dict_ok. rewrite dict_keys_set. case_decide; [done|]. intros.
  apply NoDup_app. split; [done|]. split; [set_solver | apply NoDup_singleton].
Qed.

Lemma dict_set_new d k v : k ∉ dict_keys d -> dict_set d k v = d ++ [(k, v)].
Proof.
  unfold dict_keys. induction d as [|[k1 v1] d IH]; simpl; [done|]. rewrite not_elem_of_cons.
  intros [? ?]. case_decide; [congruence|]. by rewrite IH.
Qed.

Lemma Forall_dict_set (P : K * V -> Prop) d k v : Forall P d -> P (k, v) -> Forall P (dict_set d k v).
Proof. induction 1 as [|[k1 v1] d H1 Hd IH]; intros Hk; cbn; [by constructor|]. case_decide; subst; constructor; auto. Qed.

Lemma elem_of_dict_keys_set d k k' v : k' ∈ dict_keys (dict_set d k v) <-> k' = k \/ k' ∈ dict_keys d.
Proof. rewrite dict_keys_set. case_decide; set_solver. Qed.

Lemma dict_keys_del d k : dict_ok d -> forall k', k' ∈ dict_keys (dict_del d k) <-> k' ∈ dict_keys d /\ k' <> k.
Proof.
  unfold dict_ok, dict_keys. induction d as [|[k1 v1] d IH]; simpl; [set_solver|].
  intros [Hk Hd]%NoDup_cons k'. case_decide; subst; simpl; [set_solver|].
  rewrite !elem_of_cons, IH by done. naive_solver.
Qed.

Lemma dict_del_sublist d k : dict_del d k `sublist_of` d.
Proof.
  induction d as [|[k1 v1] d IH]; simpl; [done|]. case_decide; [by apply sublist_cons | by apply sublist_skip].
Qed.

Lemma dict_ok_del d k : dict_ok d -> dict_ok (dict_del d k).
Proof.
  unfold dict_ok, dict_keys. intros H. eapply sublist_NoDup; [done|].
  apply fmap_sublist, dict_del_sublist.
Qed.

Lemma dict_get_del d k k' : dict_ok d ->
  dict_get (dict_del d k) k' = if decide (k = k') then None else dict_get d k'.
Proof.
  intros Hd. case_decide; subst.
  - apply dict_get_None. rewrite dict_keys_del by done. tauto.
  - clear Hd. induction d as [|[k1 v1] d IH]; simpl; [done|].
    repeat (case_decide; simpl); try congruence.
Qed.

Lemma dict_ok_update d e : dict_ok d -> dict_ok (dict_update d e).
Proof.
  unfold dict_update. revert d. induction e as [|[k v] e IH]; intros d Hd; simpl; [done|].
  by apply IH, dict_ok_set.
Qed.

(** A key of the argument wins over the receiver's entry, the others keep theirs. *)
Lemma dict_get_update d e k : dict_ok e ->
  dict_get (dict_update d e) k =
    match dict_get e k with Some v => Some v | None => dict_get d k end.
Proof.
  unfold dict_update, dict_ok, dict_keys. revert d.
  induction e as [|[k1 v1] e IH]; intros d; simpl; [done|].
  intros [Hk He]%NoDup_cons. rewrite IH by done. rewrite dict_get_set. case_decide; subst; [|done].
  by rewrite (proj2 (dict_get_None e k)).
Qed.

Lemma dict_ok_setdefault d k v : dict_ok d -> dict_ok (dict_setdefault d k v).
Proof. unfold dict_setdefault. case_match; [done | apply dict_ok_set]. Qed.

Lemma dict_get_setdefault d k k' v :
  dict_get (dict_setdefault d k v) k' =
    if decide (k = k') then Some (default v (dict_get d k)) else dict_get d k'.
Proof.
  unfold dict_setdefault. destruct (dict_get d k) eqn:E; [|apply dict_get_set].
  case_decide; by subst.
Qed.
End Dict.

#[export] Hint Resolve dict_ok_set dict_ok_del dict_ok_update dict_ok_setdefault : pystr.
#[export] Hint Rewrite @dict_get_set_eq @dict_get_set @dict_get_setdefault : pystr.

(** [list.remove(x)]: the first occurrence, [ValueError] when there is none. *)
Fixpoint list_remove {A} `{EqDecision A} (x : A) (l : list A) : res (list A) :=
  match l with
  | [] => Raise ValueError
  | y :: l => if decide (x = y) then Ok l else l ← list_remove x l; Ok (y :: l)
  end.

(** ** Values *)
Inductive pyval : Type :=
| PNone
| PBool (b : bool)
| PInt (n : Z)
| PFloat (q : Q)
| PStr (s : string)
| PList (l : list pyval)
| PDict (d : list (string * pyval)).

Notation pydict := (list (string * pyval)).

(** [bool(v)] *)
Definition truthy (v : pyval) : bool :=
  match v with
  | PNone => false
  | PBool b => b
  | PInt n => negb (Z.eqb n 0)
  | PFloat q => negb (Qeq_bool q 0)
  | PStr s => negb (str_eqb s "")
  | PList l => match l with [] => false | _ => true end
  | PDict d => match d with [] => false | _ => true end
  end.

(** The key a value is in a dictionary.  Keys are kept as strings: a number, a truth value or [None] is told apart from the
    strings by a leading NUL, which no YAML text has, and equal numbers are equal keys; lists and dictionaries are not
    hashable. *)
Definition num_key (q : Q) : string :=
  let q := Qred q in
  String "000" (str_of_Z (Qnum q) +:+ (if Pos.eqb (Qden q) 1 then "" else "/" +:+ str_of_Z (Zpos (Qden q)))).
Definition dict_key (v : pyval) : res string :=
  match v with
  | PStr s => Ok s
  | PNone => Ok (String "000" "None")
  | PBool b => Ok (num_key (if b then 1 else 0))
  | PInt n => Ok (num_key (inject_Z n))
  | PFloat q => Ok (num_key q)
  | PList _ | PDict _ => Raise TypeError
  end.

Example dict_key_ex : dict_key (PBool true) = dict_key (PInt 1) /\ dict_key (PInt 27) = dict_key (PFloat 27) /\
  dict_key (PInt 27) <> dict_key (PStr "27").
Proof. split_and!; [reflexivity | reflexivity | done]. Qed.

(** [v[k]] for a string key: only dictionaries accept one. *)
Definition getitem (v : pyval) (k : string) : res pyval :=
  match v with
  | PDict d => match dict_get d k with Some x => Ok x | None => Raise KeyError end
  | _ => Raise TypeError
  end.

(** [v.get(k, dflt)] *)
Definition get (v : pyval) (k : string) (dflt : pyval) : res pyval :=
  match v with
  | PDict d => Ok (default dflt (dict_get d k))
  | _ => Raise AttributeError
  end.

(** The same operations on a known dictionary. *)
Definition dgetitem (d : pydict) (k : string) : res pyval := getitem (PDict d) k.
Definition dget (d : pydict) (k : string) (dflt : pyval) : pyval := default dflt (dict_get d k).

(** [for x in v]: lists iterate over their items, dictionaries over their keys, strings over their
    characters; the rest is not iterable. *)
Definition iter (v : pyval) : res (list pyval) :=
  match v with
  | PList l => Ok l
  | PDict d => Ok (PStr <$> dict_keys d)
  | PStr s => Ok ((fun c => PStr (String c "")) <$> chars s)
  | _ => Raise TypeError
  end.

(** [a + b] on strings; the other combinations the code can meet raise [TypeError] or are outside
    its use. *)
Definition str_add (a b : pyval) : res string :=
  match a, b with
  | PStr s, PStr t => Ok (s +:+ t)
  | _, _ => Raise TypeError
  end.

(** A value used where a string method is called on it. *)
Definition as_str (v : pyval) : res string :=
  match v with PStr s => Ok s | _ => Raise AttributeError end.

Definition as_dict (v : pyval) : res pydict :=
  match v with PDict d => Ok d | _ => Raise AttributeError end.

Lemma getitem_Ok v k x : getitem v k = Ok x <-> exists d, v = PDict d /\ dict_get d k = Some x.
Proof. destruct v; simpl; try naive_solver. case_match; naive_solver. Qed.

(** [v == s] for a string constant *)
Definition is_str (v : pyval) (s : string) : bool :=
  match v with PStr t => str_eqb t s | _ => false end.

Lemma is_str_true v s : is_str v s = true <-> v = PStr s.
Proof. destruct v; simpl; try naive_solver. rewrite str_eqb_true. naive_solver. Qed.
