(* ===== verification/PyRe.v ===== *)
(** * Python regular expressions

    The fragment of [re] the code uses: literals, [.], classes, [\d], [\s], groups, alternation,
    greedy [*], [+], [?] and the anchors.  [parse] turns a pattern string into the syntax tree,
    [matches] enumerates the ways a pattern can match at a position, in the order a backtracking
    matcher tries them, and [search]/[match_] return the first one.  [line_search] characterises
    the search for a whole-line literal under [re.MULTILINE]. *)

From stdpp Require Import pretty.
From S2P Require Import Prelude PyStr.
From stdpp Require Import options.

Inductive cls : Type :=
| CLit (c : ascii)
| CAny
| CDigit
| CSpace
| CRange (a b : ascii).

Inductive re : Type :=
| REmpty
| RSet (l : list cls)
| RSeq (r1 r2 : re)
| RAlt (r1 r2 : re)
| RStar (r : re)
| RPlus (r : re)
| ROpt (r : re)
| RGroup (n : nat) (r : re)
| RBol
| REol.

Definition is_digit (c : ascii) : bool := (48 <=? nat_of_ascii c)%nat && (nat_of_ascii c <=? 57)%nat.

Definition in_cls (c : ascii) (k : cls) : bool :=
  match k with
  | CLit d => bool_decide (c = d)
  | CAny => negb (bool_decide (c = "010"%char))
  | CDigit => is_digit c
  | CSpace => is_space c
  | CRange a b => (nat_of_ascii a <=? nat_of_ascii c)%nat && (nat_of_ascii c <=? nat_of_ascii b)%nat
  end.

(** A position in the subject: the character before it, the rest, the groups captured so far (the
    latest first). *)
Record mstate := MState { prev : option ascii; rest : list ascii; caps : list (nat * list ascii) }.

Section Match.
Context (multiline : bool).

Definition at_bol (s : mstate) : bool :=
  match prev s with
  | None => true
  | Some c => multiline && bool_decide (c = "010"%char)
  end.

Definition at_eol (s : mstate) : bool :=
  match rest s with
  | [] => true
  | c :: l => bool_decide (c = "010"%char) && (multiline || bool_decide (l = []))
  end.

(** Iterate a one-step matcher greedily; an iteration that consumes nothing is not repeated. *)
Definition star_loop (step : mstate -> list mstate) : nat -> mstate -> list mstate :=
  fix go n s :=
    match n with
    | 0 => [s]
    | S n =>
        flat_map (fun s' => if length (rest s') <? length (rest s) then go n s' else []) (step s) ++ [s]
    end.

Fixpoint matches (r : re) (s : mstate) : list mstate :=
  match r with
  | REmpty => [s]
  | RSet l =>
      match rest s with
      | [] => []
      | c :: l' => if existsb (in_cls c) l then [MState (Some c) l' (caps s)] else []
      end
  | RSeq r1 r2 => flat_map (matches r2) (matches r1 s)
  | RAlt r1 r2 => matches r1 s ++ matches r2 s
  | RStar r => star_loop (matches r) (length (rest s)) s
  | RPlus r => flat_map (fun s' => star_loop (matches r) (length (rest s')) s') (matches r s)
  | ROpt r => matches r s ++ [s]
  | RGroup n r =>
      (fun s' => MState (prev s') (rest s')
                   ((n, take (length (rest s) - length (rest s')) (rest s)) :: caps s'))
        <$> matches r s
  | RBol => if at_bol s then [s] else []
  | REol => if at_eol s then [s] else []
  end.

(** Leftmost match, scanning from a position. *)
Fixpoint search_from (r : re) (p : option ascii) (l : list ascii) : option mstate :=
  match matches r (MState p l []) with
  | s :: _ => Some s
  | [] => match l with [] => None | c :: l => search_from r (Some c) l end
  end.

Definition search (r : re) (subject : string) : option mstate := search_from r None (chars subject).

Definition match_ (r : re) (subject : string) : option mstate :=
  head (matches r (MState None (chars subject) [])).

(** [pattern.search(subject, pos)] of a compiled pattern. *)
Definition search_pos (r : re) (pos : nat) (subject : string) : option mstate :=
  let l := chars subject in search_from r (last (take pos l)) (drop pos l).
End Match.

(** [m.group(n)] *)
Definition group (s : mstate) (n : nat) : option string :=
  of_chars <$> (snd <$> (snd <$> list_find (fun kv => kv.1 = n) (caps s))).

(** ** Parsing patterns *)

Definition parse_escape (c : ascii) : option cls :=
  match c with
  | "d" => Some CDigit
  | "s" => Some CSpace
  | "." | "\" | "+" | "*" | "?" | "(" | ")" | "[" | "]" | "|" | "^" | "$" | "/" | "-" | ":" => Some (CLit c)
  | _ => None
  end%char.

(** The items of a bracketed class up to the closing bracket. *)
Fixpoint parse_class (l : list ascii) : option (list cls * list ascii) :=
  match l with
  | [] => None
  | "]"%char :: l => Some ([], l)
  | "\"%char :: c :: l => k ← parse_escape c; '(ks, l) ← parse_class l; Some (k :: ks, l)
  | a :: "-"%char :: b :: l =>
      if bool_decide (b = "]"%char) then Some ([CLit a; CLit "-"%char], l)
      else '(ks, l) ← parse_class l; Some (CRange a b :: ks, l)
  | c :: l => '(ks, l) ← parse_class l; Some (CLit c :: ks, l)
  end.

(** [parse_alt fuel n l]: an alternation, with [n] groups already opened; returns the tree, the number
    of groups and what follows.  A character costs at most two nested calls (an opening parenthesis: one
    for the alternation, one for its first sequence), so twice the length of the pattern plus two is
    enough fuel. *)
Fixpoint parse_alt (fuel : nat) (n : nat) (l : list ascii) : option (re * nat * list ascii) :=
  match fuel with
  | 0 => None
  | S fuel =>
      '(r, n, l) ← parse_seq fuel n l;
      match l with
      | "|"%char :: l => '(r', n, l) ← parse_alt fuel n l; Some (RAlt r r', n, l)
      | _ => Some (r, n, l)
      end
  end
with parse_seq (fuel : nat) (n : nat) (l : list ascii) : option (re * nat * list ascii) :=
  match fuel with
  | 0 => None
  | S fuel =>
      let postfix r n l :=
        let '(r, l) :=
          match l with
          | "*"%char :: l => (RStar r, l)
          | "+"%char :: l => (RPlus r, l)
          | "?"%char :: l => (ROpt r, l)
          | _ => (r, l)
          end in
        '(r', n, l) ← parse_seq fuel n l; Some (RSeq r r', n, l) in
      match l with
      | [] => Some (REmpty, n, [])
      | ")"%char :: _ | "|"%char :: _ => Some (REmpty, n, l)
      | "("%char :: "?"%char :: _ => None
      | "("%char :: l =>
          let g := S n in
          '(r, n, l) ← parse_alt fuel g l;
          match l with ")"%char :: l => postfix (RGroup g r) n l | _ => None end
      | "["%char :: "^"%char :: _ => None
      | "["%char :: l => '(ks, l) ← parse_class l; postfix (RSet ks) n l
      | "\"%char :: c :: l => k ← parse_escape c; postfix (RSet [k]) n l
      | "\"%char :: [] => None
      | "."%char :: l => postfix (RSet [CAny]) n l
      | "^"%char :: l => postfix RBol n l
      | "$"%char :: l => postfix REol n l
      | "*"%char :: _ | "+"%char :: _ | "?"%char :: _ | "{"%char :: _ => None
      | c :: l => postfix (RSet [CLit c]) n l
      end
  end.

(** [re.compile(p)]; [None] for an invalid pattern or one outside the fragment. *)
Definition parse (p : string) : option re :=
  match parse_alt (2 * String.length p + 2) 0 (chars p) with
  | Some (r, _, []) => Some r
  | _ => None
  end.

(** [bool(re.search(p, s, re.MULTILINE))] *)
Definition multiline_search (p s : string) : res bool :=
  match parse p with
  | Some re => Ok (bool_decide (is_Some (search true re s)))
  | None => Raise (ExceptionMsg "re.error")
  end.

Definition IFACE_RE_src : string := "\d+: ([a-z]+)(\d+): .*".

Example parse_iface :
  (r ← parse IFACE_RE_src; s ← match_ false r "12: tmpbr30: <BROADCAST>";
   Some (group s 1, group s 2)) = Some (Some "tmpbr", Some "30").
Proof. vm_compute. reflexivity. Qed.

Example search_pos_ex :
  (r ← parse ".*load average: (\d+\.\d+),.*";
   s ← search_pos false r 8 "16:51:56 up 83 days, load average: 70.23, 124.89"; group s 1) = Some "70.23".
Proof. vm_compute. reflexivity. Qed.

(** ** Whole-line literals under [re.MULTILINE] *)

Definition nl : ascii := "010"%char.

Fixpoint lits (w : string) (k : re) : re :=
  match w with "" => k | String c w => RSeq (RSet [CLit c]) (lits w k) end.

(** The tree of the pattern [^w$]. *)
Definition line_re (w : string) : re := RSeq RBol (lits w (RSeq REol REmpty)).

Lemma split_cons_nl s : split nl (String nl s) = "" :: split nl s.
Proof. cbn [split]. by rewrite bool_decide_true. Qed.

Lemma split_cons_other c d s :
  d <> c -> exists p ps, split c s = p :: ps /\ split c (String d s) = String d p :: ps.
Proof.
  intros Hd. destruct (split c s) as [|p ps] eqn:E; [by apply split_not_nil in E|].
  exists p, ps. split; [done|]. cbn [split]. rewrite bool_decide_false by done. by rewrite E.
Qed.

Lemma matches_lits w s p cs :
  nl ∉ chars w ->
  matches true (lits w (RSeq REol REmpty)) (MState p (chars s) cs) <> [] <-> head (split nl s) = Some w.
Proof.
  revert s p. induction w as [|c w IH]; intros s p Hw.
  - simpl. destruct s as [|d s]; [done|]. destruct (decide (d = nl)) as [->|Hd].
    + rewrite split_cons_nl. done.
    + destruct (split_cons_other nl d s Hd) as (q & qs & _ & ->). unfold at_eol. simpl.
      rewrite bool_decide_false by done. naive_solver.
  - cbn [chars] in Hw. apply not_elem_of_cons in Hw as [Hc Hw].
    destruct s as [|d s]; [naive_solver|]. cbn [lits matches rest chars caps existsb in_cls].
    destruct (decide (d = c)) as [->|Hd].
    + rewrite bool_decide_true by done. cbn [orb flat_map]. rewrite app_nil_r, IH by done.
      destruct (split_cons_other nl c s) as (q & qs & -> & ->); [congruence|]. naive_solver.
    + rewrite bool_decide_false by done. cbn [orb flat_map]. split; [done|].
      destruct (decide (d = nl)) as [->|Hn]; [rewrite split_cons_nl; naive_solver|].
      destruct (split_cons_other nl d s Hn) as (q & qs & _ & ->). naive_solver.
Qed.

Lemma matches_line w s p :
  nl ∉ chars w ->
  matches true (line_re w) (MState p (chars s) []) <> [] <->
    (p = None \/ p = Some nl) /\ head (split nl s) = Some w.
Proof.
  intros Hw. unfold line_re. cbn [matches]. unfold at_bol. cbn [prev]. destruct p as [c|].
  - destruct (decide (c = nl)) as [->|Hc].
    + rewrite bool_decide_true by done. cbn [andb flat_map]. rewrite app_nil_r, matches_lits by done. naive_solver.
    + rewrite bool_decide_false by done. cbn [andb flat_map]. naive_solver.
  - cbn [flat_map]. rewrite app_nil_r, matches_lits by done. naive_solver.
Qed.

Lemma search_from_line w s p :
  nl ∉ chars w ->
  is_Some (search_from true (line_re w) p (chars s)) <->
    ((p = None \/ p = Some nl) /\ head (split nl s) = Some w) \/ w ∈ tail (split nl s).
Proof.
  intros Hw. revert p. induction s as [|c s IH]; intros p.
  - pose proof (matches_line w "" p Hw) as Hm. cbn [chars search_from] in *.
    destruct (matches _ _ _) as [|m ms]; rewrite <- Hm; simpl; split.
    + by intros [? ?].
    + intros [?|H]; [done | by apply not_elem_of_nil in H].
    + by left.
    + by eexists.
  - pose proof (matches_line w (String c s) p Hw) as Hm. cbn [chars search_from] in *.
    destruct (matches _ _ _) as [|m ms]; rewrite <- Hm; [|split; [by left | by eexists]].
    rewrite IH. destruct (decide (c = nl)) as [->|Hc].
    + rewrite split_cons_nl. cbn [tail]. destruct (split nl s) as [|q qs] eqn:E; [by apply split_not_nil in E|].
      cbn [head tail]. rewrite elem_of_cons. naive_solver.
    + destruct (split_cons_other nl c s Hc) as (q & qs & -> & ->). cbn [tail]. naive_solver.
Qed.

(** Searching for [^w$] with [re.MULTILINE] succeeds exactly when some line of the subject is [w]. *)
Lemma line_search w s :
  nl ∉ chars w -> is_Some (search true (line_re w) s) <-> w ∈ split nl s.
Proof.
  intros Hw. unfold search. rewrite search_from_line by done.
  destruct (split nl s) as [|q qs] eqn:E; [by apply split_not_nil in E|].
  cbn [head tail]. rewrite elem_of_cons. naive_solver.
Qed.

(** ** Literal patterns with one anchor *)

(** Characters without a special meaning. *)
Definition plain (c : ascii) : bool := negb (bool_decide (c ∈ chars "\.+*?()[]{}|^$")).
Definition plain_str (w : string) : bool := forallb plain (chars w).

(** What follows a literal is not a repetition. *)
Definition no_postfix (l : list ascii) : bool :=
  match l with "*"%char :: _ | "+"%char :: _ | "?"%char :: _ => false | _ => true end.

Lemma plain_no_postfix c l : plain c = true -> no_postfix (c :: l) = true.
Proof. by destruct c as [[] [] [] [] [] [] [] []]. Qed.

Lemma parse_seq_lit fuel n c l : plain c = true -> no_postfix l = true ->
  parse_seq (S fuel) n (c :: l) = ('(r, n, l) ← parse_seq fuel n l; Some (RSeq (RSet [CLit c]) r, n, l)).
Proof.
  intros Hc Hl.
  assert (forall r : re, match l with
    | "*"%char :: l => (RStar r, l) | "+"%char :: l => (RPlus r, l) | "?"%char :: l => (ROpt r, l) | _ => (r, l) end = (r, l)) as Hp.
  { intros r. destruct l as [|d l]; [done|]. by destruct d as [[] [] [] [] [] [] [] []]. }
  destruct c as [[] [] [] [] [] [] [] []]; try discriminate Hc; cbn [parse_seq]; by rewrite Hp.
Qed.

Lemma parse_seq_lits w fuel n l : plain_str w = true -> no_postfix l = true ->
  parse_seq (String.length w + fuel) n (chars w ++ l) = ('(r, n, l) ← parse_seq fuel n l; Some (lits w r, n, l)).
Proof.
  unfold plain_str. induction w as [|c w IH]; intros Hw Hl.
  - simpl. by destruct (parse_seq fuel n l) as [[[? ?] ?]|].
  - cbn [chars forallb] in Hw. apply andb_true_iff in Hw as [Hc Hw]. cbn [chars String.length Nat.add app].
    rewrite parse_seq_lit; [|done|].
    + rewrite IH by done. by destruct (parse_seq fuel n l) as [[[? ?] ?]|].
    + destruct w as [|d w]; [done|]. cbn [chars forallb] in Hw. apply andb_true_iff in Hw as [Hd _]. by apply plain_no_postfix.
Qed.

(** More fuel gives the same tree: the two patterns below are parsed with their exact need. *)
Lemma parse_bol w : plain_str w = true -> parse ("^" +:+ w) = Some (RSeq RBol (lits w REmpty)).
Proof.
  intros Hw. unfold parse. rewrite string_app_cons. cbn [chars String.length].
  replace (2 * S (String.length ("" +:+ w)) + 2) with (S (S (String.length w + (String.length w + 2))))
    by (change ("" +:+ w) with w; lia).
  change ("" +:+ w) with w. cbn [parse_alt]. remember (String.length w + (String.length w + 2)) as k eqn:Hk.
  assert (parse_seq (S k) 0 ("^"%char :: chars w) =
    ('(r, n, l) ← parse_seq k 0 (chars w); Some (RSeq RBol r, n, l))) as ->.
  { cbn [parse_seq]. destruct w as [|d w]; [done|]. cbn [chars plain_str forallb] in Hw.
    unfold plain_str in Hw. cbn [chars forallb] in Hw. apply andb_true_iff in Hw as [Hd _].
    by destruct d as [[] [] [] [] [] [] [] []]. }
  subst k. rewrite <- (app_nil_r (chars w)), parse_seq_lits by done.
  replace (String.length w + 2) with (S (S (String.length w))) by lia. done.
Qed.

Lemma parse_eol w : plain_str w = true -> parse (w +:+ "$") = Some (lits w (RSeq REol REmpty)).
Proof.
  intros Hw. unfold parse. rewrite <- length_chars, chars_app, length_app, length_chars. cbn [chars length].
  replace (2 * (String.length w + 1) + 2) with (S (String.length w + (S (S (S (String.length w)))))) by lia.
  cbn [parse_alt]. rewrite parse_seq_lits by done. done.
Qed.

(** A literal consumes exactly itself. *)
Lemma matches_lits_prefix w k s p cs :
  matches true (lits w k) (MState p (chars s) cs) <> [] <->
    exists t, s = w +:+ t /\ matches true k (MState (default p (Some <$> last (chars w))) (chars t) cs) <> [].
Proof.
  revert s p. induction w as [|c w IH]; intros s p.
  - simpl. split; [intros; by exists s | by intros (t & -> & ?)].
  - destruct s as [|d s].
    + split; [done | by intros (t & [=] & _)].
    + cbn [lits matches rest chars caps existsb in_cls]. destruct (decide (d = c)) as [->|Hd].
      * rewrite bool_decide_true by done. cbn [orb flat_map]. rewrite app_nil_r, IH.
        assert (default p (Some <$> last (chars (String c w))) = default (Some c) (Some <$> last (chars w))) as Hl.
        { cbn [chars]. rewrite last_cons. by destruct (last (chars w)). }
        cbn [chars] in Hl. rewrite Hl. split; [intros (t & -> & ?); by exists t|].
        intros (t & Ht & ?). exists t. rewrite string_app_cons in Ht. by injection Ht as ->.
      * rewrite bool_decide_false by done. cbn [orb flat_map]. split; [done|]. intros (t & Ht & _). rewrite string_app_cons in Ht. congruence.
Qed.

(** A prefix without a newline is a prefix of the first line. *)
Lemma prefix_head_line w s : nl ∉ chars w ->
  (exists t, s = w +:+ t) <-> exists l t, head (split nl s) = Some l /\ l = w +:+ t.
Proof.
  intros Hw. revert s. induction w as [|c w IH]; intros s.
  - split; [|by intros; exists s]. intros _. destruct (split nl s) as [|l ls] eqn:E; [by apply split_not_nil in E|]. by exists l, l.
  - cbn [chars] in Hw. apply not_elem_of_cons in Hw as [Hc Hw]. destruct s as [|d s].
    + split; [by intros (t & [=]) | intros (l & t & [= <-] & [=])].
    + setoid_rewrite string_app_cons. destruct (decide (d = nl)) as [->|Hd].
      * rewrite split_cons_nl. split; [intros (t & [= ? _]); congruence | intros (l & t & [= <-] & [=])].
      * destruct (split_cons_other nl d s Hd) as (q & qs & Eq & ->). specialize (IH Hw s). rewrite Eq in IH.
        split.
        -- intros (t & [= -> ->]). destruct (proj1 IH) as (l & t' & [= <-] & ->); [eauto|]. eauto.
        -- intros (l & t & [= <-] & [= -> ->]). destruct (proj2 IH) as [t' ->]; [eauto|]. eauto.
Qed.

(** Searching for a pattern that looks at the first line from a line start, or from anywhere. *)
Lemma search_from_bol r (L : string -> Prop) s p :
  (forall s p, matches true r (MState p (chars s) []) <> [] <->
     (p = None \/ p = Some nl) /\ exists l, head (split nl s) = Some l /\ L l) ->
  is_Some (search_from true r p (chars s)) <->
    ((p = None \/ p = Some nl) /\ exists l, head (split nl s) = Some l /\ L l) \/ exists l, l ∈ tail (split nl s) /\ L l.
Proof.
  intros Hr. revert p. induction s as [|c s IH]; intros p.
  - pose proof (Hr "" p) as Hm. cbn [chars search_from] in *.
    destruct (matches _ _ _) as [|m ms]; rewrite <- Hm; [|split; [by left | by eexists]].
    split; [by intros [? ?]|]. intros [?|(l & H & _)]; [done | by apply not_elem_of_nil in H].
  - pose proof (Hr (String c s) p) as Hm. cbn [chars search_from] in *.
    destruct (matches _ _ _) as [|m ms]; rewrite <- Hm; [|split; [by left | by eexists]].
    rewrite IH. destruct (decide (c = nl)) as [->|Hc].
    + rewrite split_cons_nl. cbn [tail]. destruct (split nl s) as [|q qs] eqn:Es; [by apply split_not_nil in Es|].
      cbn [head tail]. setoid_rewrite elem_of_cons. naive_solver.
    + destruct (split_cons_other nl c s Hc) as (q & qs & -> & ->). cbn [tail]. naive_solver.
Qed.

Lemma search_from_any r (L : string -> Prop) s p :
  (forall s p, matches true r (MState p (chars s) []) <> [] <-> exists l, head (split nl s) = Some l /\ L l) ->
  is_Some (search_from true r p (chars s)) <-> exists l u t, l ∈ split nl s /\ l = u +:+ t /\ L t.
Proof.
  intros Hr. revert p. induction s as [|c s IH]; intros p.
  - pose proof (Hr "" p) as Hm. cbn [chars search_from split head] in *. destruct (matches _ _ _) as [|m ms]; split.
    + by intros [? ?].
    + intros (l & u & t & ->%list_elem_of_singleton & E & HL). exfalso. symmetry in E.
      destruct u as [|? u]; [|done]. change (t = "") in E. subst t. by apply Hm; [eauto|].
    + intros _. destruct (proj1 Hm) as (l & [= <-] & HL); [done|]. exists "", "", "". split; [by apply list_elem_of_singleton | done].
    + by eexists.
  - pose proof (Hr (String c s) p) as Hm. cbn [chars search_from] in *. destruct (decide (c = nl)) as [->|Hc].
    + rewrite split_cons_nl in *. cbn [head] in Hm. destruct (matches _ _ _) as [|m ms].
      * rewrite IH. setoid_rewrite elem_of_cons. split; [naive_solver|].
        intros (l & u & t & [->|?] & E & HL); [|eauto 10]. exfalso. symmetry in E.
        destruct u as [|? u]; [|done]. change (t = "") in E. subst t. by apply Hm; [eauto|].
      * split; [|by eexists]. intros _. destruct (proj1 Hm) as (l & [= <-] & HL); [done|]. exists "", "", "".
        split; [apply list_elem_of_here | done].
    + destruct (split_cons_other nl c s Hc) as (q & qs & Eq & Es). rewrite Es in *. cbn [head] in Hm. rewrite Eq in IH.
      destruct (matches _ _ _) as [|m ms].
      * rewrite IH. setoid_rewrite elem_of_cons. split.
        -- intros (l & u & t & [->|?] & -> & HL); [|eauto 10]. exists (String c (u +:+ t)), (String c u), t. auto.
        -- intros (l & u & t & [->|?] & E & HL); [|eauto 10]. destruct u as [|d u].
           ++ change (String c q = t) in E. subst t. exfalso. by apply Hm; [eauto|].
           ++ rewrite string_app_cons in E. injection E as <- ->. eauto 10.
      * split; [|by eexists]. intros _. destruct (proj1 Hm) as (l & [= <-] & HL); [done|].
        exists (String c q), "", (String c q). split; [apply list_elem_of_here | done].
Qed.

Lemma bool_decide_Ok_true (P : Prop) `{Decision P} : Ok (bool_decide P) = Ok true <-> P.
Proof. destruct (bool_decide_reflect P); naive_solver. Qed.

(** [re.search("^" + w, s, re.MULTILINE)]: some line starts with [w]. *)
Lemma search_line_prefix w s : plain_str w = true -> nl ∉ chars w ->
  multiline_search ("^" +:+ w) s = Ok true <-> exists l t, l ∈ split nl s /\ l = w +:+ t.
Proof.
  intros Hp Hw. unfold multiline_search. rewrite (parse_bol w Hp), bool_decide_Ok_true. unfold search.
  rewrite (search_from_bol _ (fun l => exists t, l = w +:+ t)).
  - destruct (split nl s) as [|q qs] eqn:E; [by apply split_not_nil in E|]. cbn [head tail].
    setoid_rewrite elem_of_cons. naive_solver.
  - intros s1 p. cbn [matches]. unfold at_bol. cbn [prev].
    assert (matches true (lits w REmpty) (MState p (chars s1) []) <> [] <->
      exists l, head (split nl s1) = Some l /\ exists t, l = w +:+ t) as Hm.
    { rewrite matches_lits_prefix. pose proof (prefix_head_line w s1 Hw) as Hl. cbn [matches]. naive_solver. }
    destruct p as [c|]; [|cbn [flat_map]; rewrite app_nil_r, Hm; naive_solver].
    cbn [andb]. case_bool_decide as Hc; cbn [flat_map]; rewrite ?app_nil_r, ?Hm; naive_solver.
Qed.

(** [re.search(w + "$", s, re.MULTILINE)]: some line ends with [w]. *)
Lemma search_line_suffix w s : plain_str w = true -> nl ∉ chars w ->
  multiline_search (w +:+ "$") s = Ok true <-> exists l t, l ∈ split nl s /\ l = t +:+ w.
Proof.
  intros Hp Hw. unfold multiline_search. rewrite (parse_eol w Hp), bool_decide_Ok_true. unfold search.
  rewrite (search_from_any _ (fun l => l = w)).
  - naive_solver.
  - intros s1 p. rewrite matches_lits by done. naive_solver.
Qed.

Lemma plain_str_app v w : plain_str (v +:+ w) = plain_str v && plain_str w.
Proof. unfold plain_str. by rewrite chars_app, forallb_app. Qed.

(** ** The first match

    A backtracking matcher takes the first way that works: the rules below find it for sequences, groups and greedy
    repetitions of a class of characters. *)

Section First.
Context (ml : bool).

Definition first_match (r : re) (s s' : mstate) : Prop := head (matches ml r s) = Some s'.

Lemma first_seq r1 r2 s s1 s2 : first_match r1 s s1 -> first_match r2 s1 s2 -> first_match (RSeq r1 r2) s s2.
Proof.
  unfold first_match. cbn [matches]. destruct (matches ml r1 s) as [|m ms]; [done|]. intros [= ->]. cbn [flat_map].
  by destruct (matches ml r2 s1).
Qed.

Lemma first_empty s : first_match REmpty s s.
Proof. done. Qed.

Lemma first_set ks c l p cs : existsb (in_cls c) ks = true -> first_match (RSet ks) (MState p (c :: l) cs) (MState (Some c) l cs).
Proof. unfold first_match. cbn. by intros ->. Qed.

Lemma first_group n r p l q l' cs cs' : first_match r (MState p l cs) (MState q l' cs') ->
  first_match (RGroup n r) (MState p l cs) (MState q l' ((n, take (length l - length l') l) :: cs')).
Proof. unfold first_match. cbn [matches]. destruct (matches ml r _) as [|m ms]; [done|]. intros [= ->]. done. Qed.

Lemma star_loop_S step n s : star_loop step (S n) s =
  flat_map (fun s' => if length (rest s') <? length (rest s) then star_loop step n s' else []) (step s) ++ [s].
Proof. done. Qed.

(** A group captures what its pattern consumed. *)
Lemma first_group_app n r p w t q cs cs' : first_match r (MState p (w ++ t) cs) (MState q t cs') ->
  first_match (RGroup n r) (MState p (w ++ t) cs) (MState q t ((n, w) :: cs')).
Proof. intros H%(first_group n). by rewrite length_app, Nat.add_sub, take_app_length in H. Qed.

Lemma first_star_set ks w : forall n p t cs, Forall (fun c => existsb (in_cls c) ks = true) w ->
  match t with c :: _ => existsb (in_cls c) ks = false | [] => True end -> length w <= n ->
  exists q, head (star_loop (matches ml (RSet ks)) n (MState p (w ++ t) cs)) = Some (MState q t cs).
Proof.
  induction w as [|c w IH]; intros n p t cs Hw Ht Hn.
  - exists p. destruct n as [|n]; [done|]. cbn. destruct t as [|d t]; [done|]. by rewrite Ht.
  - destruct n as [|n]; [cbn in Hn; lia|]. apply Forall_cons in Hw as [Hc Hw]. destruct (IH n (Some c) t cs) as [q Hq]; [done..|cbn in Hn; lia|].
    exists q. rewrite star_loop_S. cbn [matches rest caps app]. rewrite Hc. cbn [flat_map rest]. rewrite app_nil_r.
    rewrite (proj2 (Nat.ltb_lt _ _)) by (cbn; lia).
    by destruct (star_loop _ _ _).
Qed.

Lemma first_plus_set ks w t p cs : w <> [] -> Forall (fun c => existsb (in_cls c) ks = true) w ->
  match t with c :: _ => existsb (in_cls c) ks = false | [] => True end ->
  exists q, first_match (RPlus (RSet ks)) (MState p (w ++ t) cs) (MState q t cs).
Proof.
  intros Hn Hw Ht. destruct w as [|c w]; [done|]. apply Forall_cons in Hw as [Hc Hw].
  destruct (first_star_set ks w (length (w ++ t)) (Some c) t cs) as [q Hq]; [done..|rewrite length_app; lia|].
  exists q. unfold first_match. cbn. rewrite Hc. cbn [flat_map]. rewrite app_nil_r. exact Hq.
Qed.

(** A repetition of a class matches something, and captures nothing. *)
Lemma star_set_caps ks n : forall s, exists s', head (star_loop (matches ml (RSet ks)) n s) = Some s' /\ caps s' = caps s.
Proof.
  induction n as [|n IH]; intros s; [by exists s|]. rewrite star_loop_S. cbn [matches]. destruct (rest s) as [|c l]; [by exists s|].
  destruct (existsb _ _); [|by exists s]. cbn [flat_map]. rewrite app_nil_r. case_match; [|by exists s].
  destruct (IH (MState (Some c) l (caps s))) as (s' & Hs & Hc). exists s'. split; [by destruct (star_loop _ _ _) | done].
Qed.
End First.

(** ** Decimal numbers *)

Lemma pretty_N_go_digits x s :
  all_chars (fun c => is_digit c = true) s -> all_chars (fun c => is_digit c = true) (pretty_N_go x s).
Proof.
  revert s. induction (N.lt_wf_0 x) as [x _ IH]; intros s Hs.
  destruct (decide (x = 0)%N) as [->|Hx]; [by rewrite pretty_N_go_0|].
  rewrite pretty_N_go_step by lia. apply IH; [apply N.div_lt; lia|].
  unfold all_chars in *. cbn [chars]. constructor; [|done]. unfold pretty_N_char. by repeat case_match.
Qed.

Lemma str_of_Z_digits z : (0 <= z)%Z -> all_chars (fun c => is_digit c = true) (str_of_Z z).
Proof.
  intros Hz. unfold str_of_Z. destruct z as [|p|p]; [| |lia].
  - by repeat constructor.
  - apply (pretty_N_go_digits (Npos p) ""). constructor.
Qed.
