(* ===== verification/Utils.v ===== *)
(** * [rallyci/utils.py]

    Random names and MAC addresses, directory creation, the tagged output streams and [retry].  The
    random generator is a function [rnd] from the number of the draw to the drawn number; a draw
    below [n] is [rnd i mod n]. *)

From S2P Require Import Prelude PyStr PyVal.
From stdpp Require Import options.

(** [string.ascii_letters], [string.digits] *)
Definition ascii_letters : string := "abcdefghijklmnopqrstuvwxyzABCDEFGHIJKLMNOPQRSTUVWXYZ".
Definition digits : string := "0123456789".

Section Random.
Context (rnd : nat -> nat).

(** [random.sample(population, k)]: each draw takes an element out of the pool, the last element of the
    pool taking its place; more draws than elements is a [ValueError].  [i] counts the draws. *)
Fixpoint sample_pool (i k : nat) (pool : list ascii) : list ascii :=
  match k with
  | 0 => []
  | S k =>
      let j := rnd i mod length pool in
      match pool !! j, last pool with
      | Some x, Some y => x :: sample_pool (S i) k (removelast (<[j := y]> pool))
      | _, _ => []
      end
  end.

Definition random_sample (population : string) (k : nat) : res string :=
  if decide (k <= String.length population) then Ok (of_chars (sample_pool 0 k (chars population)))
  else Raise ValueError.

Definition get_rnd_name (prefix : string) (length : nat) : res string :=
  let prefix := "_rci_" +:+ prefix in
  suffix ← random_sample ascii_letters length;
  Ok (prefix +:+ suffix).

(** ["%02x" % n] for [0 <= n <= 255] *)
Definition hexdigit (n : nat) : ascii := default "0"%char (chars "0123456789abcdef" !! n).
Definition hex02 (n : nat) : string := String (hexdigit (n / 16)) (String (hexdigit (n mod 16)) "").

Definition get_rnd_mac : string :=
  let mac5 := (fun i => hex02 (rnd i mod 256)) <$> seq 0 5 in
  "02:" +:+ join ":" mac5.
End Random.

Section Makedirs.
(** [os.makedirs] on the file system of the host. *)
Context (os_makedirs : string -> res unit).

Definition EEXIST : nat := 17.

Definition makedirs (args : list string) : res unit :=
  match args with
  | [] => Raise TypeError
  | a :: bs =>
      match os_makedirs (path_joins a bs) with
      | Raise (OSError errno) => if decide (errno <> EEXIST) then Raise (OSError errno) else Ok tt
      | r => r
      end
  end.
End Makedirs.

(** The writer objects given to the SSH code: each line goes to the callback with the stream number. *)
Record Stdout (R : Type) := MkStdout { so_cb : Z * string -> R; so_num : Z }.
Arguments MkStdout {R}. Arguments so_cb {R}. Arguments so_num {R}.

Definition write {R} (o : Stdout R) (line : string) : R := so_cb o (so_num o, line).

Definition get_stdouterr {R} (cb : Z * string -> R) : list (string * Stdout R) :=
  [("stdout", MkStdout cb 1); ("stderr", MkStdout cb 2)].

(** [retry(fun)]: [f i] is the outcome of the [i]-th call.  Returns the result, the number of calls and
    the seconds slept.  The loop variable of [except Exception as e] is deleted when the handler ends, so
    the final [raise e] finds [e] unbound. *)
Fixpoint retry_loop {A} (f : nat -> res A) (i n : nat) : res A * nat * nat :=
  match n with
  | 0 => (Raise UnboundLocalError, i, i)
  | S n =>
      match f i with
      | Ok a => (Ok a, S i, i)
      | Raise e => if is_Exception e then retry_loop f (S i) n else (Raise e, S i, i)
      end
  end.

Definition retry {A} (f : nat -> res A) : res A * nat * nat := retry_loop f 0 4.

(** ** Random names *)

Lemma removelast_insert_perm (l : list ascii) j x y :
  l !! j = Some x -> last l = Some y -> x :: removelast (<[j := y]> l) ≡ₚ l.
Proof.
  intros Hj Hl. apply last_Some in Hl as [l' ->].
  destruct (decide (j < length l')) as [Hlt|Hge].
  - rewrite insert_app_l by done. rewrite removelast_last. rewrite lookup_app_l in Hj by done.
    rewrite insert_take_drop by done. rewrite <- (take_drop_middle l' j x Hj) at 3.
    rewrite <- app_assoc. cbn [app]. rewrite <- (Permutation_middle (take j l') (drop (S j) l' ++ [y]) x).
    apply perm_skip. rewrite <- Permutation_middle, app_assoc. apply Permutation_cons_append.
  - apply lookup_lt_Some in Hj as Hlen. rewrite length_app in Hlen. simpl in Hlen.
    assert (j = length l') as -> by lia. rewrite list_lookup_middle in Hj by done. injection Hj as ->.
    rewrite insert_app_r_alt by lia. rewrite Nat.sub_diag. simpl. rewrite removelast_last.
    by rewrite Permutation_app_comm.
Qed.

(** The sample together with some remainder is a permutation of the pool. *)
Lemma sample_pool_perm rnd i k pool :
  k <= length pool ->
  length (sample_pool rnd i k pool) = k /\ exists r, sample_pool rnd i k pool ++ r ≡ₚ pool.
Proof.
  revert i pool. induction k as [|k IH]; intros i pool Hk; simpl; [by split; [|exists pool]|].
  assert (is_Some (pool !! (rnd i mod length pool))) as [x Hx].
  { apply lookup_lt_is_Some. apply Nat.mod_upper_bound. lia. }
  destruct (last pool) as [y|] eqn:Hl; [|apply last_None in Hl; subst; simpl in Hk; lia].
  rewrite Hx. pose proof (removelast_insert_perm _ _ _ _ Hx Hl) as Hp.
  destruct (IH (S i) (removelast (<[rnd i mod length pool := y]> pool))) as [Hlen [r Hr]].
  { apply Permutation_length in Hp. simpl in Hp. lia. }
  simpl. split; [lia|]. exists r. by rewrite Hr.
Qed.

Lemma NoDup_ascii_letters : NoDup (chars ascii_letters).
Proof. apply (bool_decide_unpack _). vm_compute. exact I. Qed.

(** Concrete random source for examples. *)
Definition rnd_ex (i : nat) : nat := 7 * i + 3.

(** a random name is the prefix ["_rci_"], the given prefix and a suffix of the asked length made of
    pairwise different ASCII letters, for every length up to the 52 letters there are. *)
Theorem get_rnd_name_shape rnd prefix n :
  n <= 52 ->
  exists suffix,
    get_rnd_name rnd prefix n = Ok ("_rci_" +:+ prefix +:+ suffix) /\
    String.length suffix = n /\ NoDup (chars suffix) /\
    all_chars (fun c => c ∈ chars ascii_letters) suffix.
Proof.
  intros Hn. unfold get_rnd_name, random_sample. rewrite decide_True by done.
  destruct (sample_pool_perm rnd 0 n (chars ascii_letters) Hn) as [Hlen [r Hr]].
  exists (of_chars (sample_pool rnd 0 n (chars ascii_letters))). cbn [mbind res_bind].
  unfold all_chars. rewrite <- length_chars, chars_of_chars. split; [by rewrite string_app_assoc|]. split; [done|].
  pose proof NoDup_ascii_letters as Hnd. rewrite <- Hr in Hnd. apply NoDup_app in Hnd as [? _].
  split; [done|]. apply Forall_forall. intros c Hc. rewrite <- Hr. set_solver.
Qed.

Lemma get_rnd_name_too_long rnd prefix n : 52 < n -> get_rnd_name rnd prefix n = Raise ValueError.
Proof. intros Hn. unfold get_rnd_name, random_sample. by rewrite decide_False by (cbn; lia). Qed.

Lemma get_rnd_name_shape_witness :
  10 <= 52 /\ exists suffix,
    get_rnd_name rnd_ex "JOB" 10 = Ok ("_rci_" +:+ "JOB" +:+ suffix) /\
    String.length suffix = 10 /\ NoDup (chars suffix) /\
    all_chars (fun c => c ∈ chars ascii_letters) suffix.
Proof. split; [lia | apply (get_rnd_name_shape rnd_ex "JOB" 10); lia]. Defined.

(** ** MAC addresses *)

Definition unhex (c : ascii) : option nat := fst <$> list_find (fun d => d = c) (chars "0123456789abcdef").

Definition unhex02 (s : string) : option nat :=
  match s with
  | String a (String b "") => x ← unhex a; y ← unhex b; Some (16 * x + y)
  | _ => None
  end.

Lemma unhex_hex02 n : n < 256 -> unhex02 (hex02 n) = Some n.
Proof.
  intros Hn. assert (Forall (fun n => unhex02 (hex02 n) = Some n) (seq 0 256)) as Hall.
  { apply (bool_decide_unpack _). vm_compute. exact I. }
  rewrite Forall_forall in Hall. apply Hall. apply elem_of_seq. lia.
Qed.

Lemma hexdigit_not_colon n : hexdigit n <> ":"%char.
Proof.
  unfold hexdigit. do 16 (destruct n as [|n]; [discriminate|]). discriminate.
Qed.

Lemma hex02_no_colon n : ":"%char ∉ chars (hex02 n).
Proof.
  unfold hex02. cbn [chars]. rewrite !not_elem_of_cons.
  repeat split; try apply not_elem_of_nil; intros H; symmetry in H; by apply hexdigit_not_colon in H.
Qed.

Lemma get_rnd_mac_split rnd :
  split ":" (get_rnd_mac rnd) = "02" :: ((fun i => hex02 (rnd i mod 256)) <$> seq 0 5).
Proof.
  unfold get_rnd_mac. change ("02:" +:+ ?u) with ("02" +:+ String ":" u).
  rewrite split_app_sep by (cbn; set_solver). f_equal. apply split_join; [done|].
  apply Forall_fmap, Forall_true. intros i. apply hex02_no_colon.
Qed.

(** a random MAC address is six two-digit hexadecimal octets, the first one 02 (a locally administered
    unicast address) and the other five the drawn bytes, so two draws give the same address only when
    all five bytes agree. *)
Theorem get_rnd_mac_octets rnd :
  unhex02 <$> split ":" (get_rnd_mac rnd) = Some 2 :: ((fun i => Some (rnd i mod 256)) <$> seq 0 5) /\
  String.length (get_rnd_mac rnd) = 17.
Proof.
  split; [|done]. rewrite get_rnd_mac_split. cbn [fmap list_fmap]. f_equal.
  rewrite <- list_fmap_compose. apply list_fmap_ext. intros _ i _. unfold compose.
  apply unhex_hex02, Nat.mod_upper_bound. lia.
Qed.

(** ** Retries *)

(** The outcome of a call that [retry] catches. *)
Definition caught {A} (r : res A) : Prop := exists e, r = Raise e /\ is_Exception e = true.

Lemma retry_loop_spec {A} (f : nat -> res A) i n :
  (exists j, i <= j < i + n /\ (forall k, i <= k < j -> caught (f k)) /\ ~ caught (f j) /\
             retry_loop f i n = (f j, S j, j)) \/
  ((forall k, i <= k < i + n -> caught (f k)) /\ retry_loop f i n = (Raise UnboundLocalError, i + n, i + n)).
Proof.
  revert i. induction n as [|n IH]; intros i; simpl.
  - right. split; [intros; lia|]. by rewrite Nat.add_0_r.
  - destruct (f i) as [a|e] eqn:E; [|destruct (is_Exception e) eqn:He].
    + left. exists i. rewrite E. split_and!; [lia|lia|intros; lia| |done]. intros (? & ? & ?). done.
    + destruct (IH (S i)) as [(j & Hj & Hc & Hn & ->)|(Hc & ->)].
      * left. exists j. split_and!; [lia|lia| |done|done]. intros k Hk.
        destruct (decide (k = i)) as [->|]; [by exists e | apply Hc; lia].
      * right. split; [|by rewrite Nat.add_succ_r]. intros k Hk.
        destruct (decide (k = i)) as [->|]; [by exists e | apply Hc; lia].
    + left. exists i. rewrite E. split_and!; [lia|lia|intros; lia| |done]. intros (? & [= <-] & ?). congruence.
Qed.

(** [retry] calls the function until a call returns (or raises something that is not an [Exception]),
    at most four times and with one second of sleep per failed call; when all four calls fail, the final
    [raise e] raises [UnboundLocalError], not the exception of the last call. *)
Theorem retry_spec {A} (f : nat -> res A) :
  (exists j, j < 4 /\ (forall k, k < j -> caught (f k)) /\ ~ caught (f j) /\ retry f = (f j, S j, j)) \/
  ((forall k, k < 4 -> caught (f k)) /\ retry f = (Raise UnboundLocalError, 4, 4)).
Proof.
  destruct (retry_loop_spec f 0 4) as [(j & ? & Hc & ? & ?)|(Hc & ?)]; [left; exists j|right];
    split_and!; try done; try lia; intros; apply Hc; lia.
Qed.

(** [makedirs] hides exactly the error of a directory that exists already. *)
Lemma makedirs_spec os_makedirs a bs :
  makedirs os_makedirs (a :: bs) =
    (if decide (os_makedirs (path_joins a bs) = Raise (OSError EEXIST)) then Ok tt
     else os_makedirs (path_joins a bs)).
Proof.
  unfold makedirs. destruct (os_makedirs _) as [[]|e]; [done|].
  destruct e; try done. repeat case_decide; simplify_eq; done.
Qed.
