(* ===== verification/Config.v ===== *)
(** * [rallyci/config.py]

    Loading: the decoded YAML document (a list of one-entry dictionaries) becomes the sections of
    [data]; named entries of a section form a dictionary, unnamed ones a list.  Then the logging
    configuration, the cache of imported modules and the construction of the configured instances.

    A name may be any scalar ([dict_key]); an unhashable one raises [TypeError] like in the code. *)

From S2P Require Import Prelude PyStr PyVal.
From stdpp Require Import options.

(** ** [Config.__init__]: the sections *)

(** The two branches of the loop body: an entry with a name, an entry without. *)
Definition add_named (data : pydict) (key : string) (name value : pyval) : res pydict :=
  let data := dict_setdefault data key (PDict []) in
  match dict_key name, dict_get data key with
  | Ok n, Some (PDict sect) =>
      if dict_mem sect n then Raise ValueError
      else Ok (dict_set data key (PDict (dict_set sect n value)))
  | _, _ => Raise TypeError
  end.

Definition add_unnamed (data : pydict) (key : string) (value : pyval) : res pydict :=
  let data := dict_setdefault data key (PList []) in
  match dict_get data key with
  | Some (PList sect) => Ok (dict_set data key (PList (sect ++ [value])))
  | _ => Raise AttributeError
  end.

(** The body of the loop over [self.raw_data]. *)
Definition add_item (data : pydict) (item : pyval) : res pydict :=
  d ← as_dict item;
  if decide (1 < length d) then Raise ValueError
  else
    match d with
    | [] => Raise IndexError
    | (key, value) :: _ =>
        name ← get value "name" PNone;
        if truthy name then add_named data key name value else add_unnamed data key value
    end.

Definition load_data (raw : list pyval) : res pydict := res_fold add_item [] raw.

(** ** [_configure_logging] *)

Record handler := Handler {
  h_class : string; h_level : string; h_formatter : string;
  h_stream : option string; h_filename : option pyval }.

Record args := Args { verbose : bool; quiet : bool }.

(** [handlers]: the handlers dictionary; [root_handlers]: the handler names of the root logger, whose
    level is DEBUG. *)
Record logging_conf := Logging {
  handlers : list (string * handler); root_handlers : list string; root_level : string }.

Definition LOGGING : logging_conf :=
  Logging [("console", Handler "logging.StreamHandler" "INFO" "standard" (Some "ext://sys.stdout") None)]
          ["console"] "DEBUG".

Definition upper_char (c : ascii) : ascii :=
  let n := nat_of_ascii c in
  if decide (97 <= n <= 122) then ascii_of_nat (n - 32) else c.
Definition upper (s : string) : string := of_chars (upper_char <$> chars s).

Definition get_handler (key : string) (value : pyval) : handler :=
  Handler "logging.handlers.RotatingFileHandler" (upper key) "standard" None (Some value).

Definition default_log : list string := ["debug"; "error"; "info"].

Definition set_level (h : handler) (l : string) : handler :=
  Handler (h_class h) l (h_formatter h) (h_stream h) (h_filename h).

Definition apply_args (a : args) (c : logging_conf) : res logging_conf :=
  if quiet a then
    hs ← list_remove "console" (root_handlers c);
    Ok (Logging (handlers c) hs (root_level c))
  else if verbose a then
    match dict_get (handlers c) "console" with
    | Some h => Ok (Logging (dict_set (handlers c) "console" (set_level h "DEBUG")) (root_handlers c) (root_level c))
    | None => Raise KeyError
    end
  else Ok c.

Definition add_log (c : logging_conf) (kv : string * pyval) : res logging_conf :=
  let '(key, value) := kv in
  if bool_decide (key ∈ default_log) then
    Ok (Logging (dict_set (handlers c) key (get_handler key value)) (root_handlers c ++ [key]) (root_level c))
  else Raise ValueError.

(** The argument of [logging.config.dictConfig]. *)
Definition configure_logging (a : args) (data : pydict) : res logging_conf :=
  c ← apply_args a LOGGING;
  let section := dget data "logging" PNone in
  if truthy section then
    match section with
    | PList (PDict s :: _) => res_fold add_log c s
    | PList (_ :: _) => Raise TypeError
    | PDict _ => Raise KeyError
    | _ => Raise TypeError
    end
  else Ok c.

(** [Config.__init__] after the command line and the file are read. *)
Definition init (a : args) (raw : list pyval) : res (pydict * logging_conf) :=
  data ← load_data raw;
  c ← configure_logging a data;
  Ok (data, c).

(** ** Modules and instances *)
Section Modules.
Context {M : Type}.
(** [importlib.import_module] *)
Context (import_module : string -> res M).

(** [_get_module]: the cache, the names imported so far (the latest first). *)
Record mstore := MStore { modules : list (string * M); imported : list string }.

Definition get_module (st : mstore) (name : string) : res M * mstore :=
  match dict_get (modules st) name with
  | Some m => (Ok m, st)
  | None =>
      match import_module name with
      | Ok m => (Ok m, MStore (dict_set (modules st) name m) (name :: imported st))
      | Raise e => (Raise e, MStore (modules st) (name :: imported st))
      end
  end.

(** The loop of [iter_instances] and [iter_providers]: for each configuration of the section, the module
    it names and the configuration it is instantiated with. *)
Fixpoint instances (st : mstore) (cfgs : list pyval) : res (list (M * pyval)) * mstore :=
  match cfgs with
  | [] => (Ok [], st)
  | cfg :: cfgs =>
      match getitem cfg "module" with
      | Ok (PStr name) =>
          match get_module st name with
          | (Ok m, st) =>
              match instances st cfgs with
              | (Ok l, st) => (Ok ((m, cfg) :: l), st)
              | r => r
              end
          | (Raise e, st) => (Raise e, st)
          end
      | Ok _ => (Raise TypeError, st)
      | Raise e => (Raise e, st)
      end
  end.

Definition section_values (data : pydict) (section : string) : res (list pyval) :=
  match dget data section (PDict []) with
  | PDict d => Ok (dict_values d)
  | _ => Raise AttributeError
  end.

Definition iter_instances (st : mstore) (data : pydict) (section : string) : res (list (M * pyval)) * mstore :=
  match section_values data section with
  | Ok cfgs => instances st cfgs
  | Raise e => (Raise e, st)
  end.

Definition iter_providers (st : mstore) (data : pydict) : res (list (M * pyval)) * mstore :=
  match section_values data "provider" with
  | Ok cfgs => instances st cfgs
  | Raise e => (Raise e, st)
  end.

(** [get_instance(cfg, ...)] *)
Definition get_instance (st : mstore) (cfg : pyval) : res (M * pyval) * mstore :=
  match getitem cfg "module" with
  | Ok (PStr name) =>
      match get_module st name with
      | (Ok m, st) => (Ok (m, cfg), st)
      | (Raise e, st) => (Raise e, st)
      end
  | Ok _ => (Raise TypeError, st)
  | Raise e => (Raise e, st)
  end.
End Modules.
Arguments MStore {M}. Arguments modules {M}. Arguments imported {M}.

(** ** What a document means *)

(** The section, the optional name (as a key) and the value of a well-formed entry. *)
Definition item_entry (item : pyval) : option (string * (option string * pyval)) :=
  match item with
  | PDict [(key, PDict v)] =>
      let name := dget v "name" PNone in
      if truthy name then
        match dict_key name with Ok n => Some (key, (Some n, PDict v)) | Raise _ => None end
      else Some (key, (None, PDict v))
  | _ => None
  end.

(** The entries of one section, in document order. *)
Definition section_items (key : string) (raw : list pyval) : list (option string * pyval) :=
  snd <$> List.filter (fun e => str_eqb e.1 key) (omap item_entry raw).

(** A section as the document determines it: all entries named, no name twice; or all unnamed. *)
Definition sect_spec (items : list (option string * pyval)) (o : option pyval) : Prop :=
  match o with
  | None => items = []
  | Some (PDict e) => e <> [] /\ dict_ok e /\ items = (fun nv => (Some nv.1, nv.2)) <$> e
  | Some (PList l) => l <> [] /\ items = (fun v => (None, v)) <$> l
  | Some _ => False
  end.

(** [add_item] in terms of the entry it reads. *)
Lemma add_item_entry data item :
  match item_entry item with
  | None => ~ is_Ok (add_item data item)
  | Some (key, (Some n, v)) => add_item data item = add_named data key (PStr n) v
  | Some (key, (None, v)) => add_item data item = add_unnamed data key v
  end.
Proof.
  unfold item_entry, add_item.
  destruct item as [| | | | | |d]; try (by intros [? ?]).
  cbn [as_dict mbind res_bind].
  destruct d as [|[key value] [|? ?]]; [by intros [? ?]| |].
  2: { rewrite decide_True by (simpl; lia). destruct value; by intros [? ?]. }
  rewrite decide_False by (simpl; lia).
  destruct value as [| | | | | |v]; try (by intros [? ?]).
  cbn [get mbind res_bind]. unfold dget.
  set (name := default PNone (dict_get v "name")). destruct (truthy name); [|done].
  destruct (dict_key name) as [n|e] eqn:Hk; [unfold add_named; by rewrite Hk|].
  unfold add_named. rewrite Hk. by intros [? ?].
Qed.

Lemma dict_set_setdefault (data : pydict) key v w :
  dict_set (dict_setdefault data key v) key w = dict_set data key w.
Proof.
  unfold dict_setdefault. destruct (dict_get data key) eqn:Hk; [done|].
  induction data as [|[k1 v1] data IH]; simpl in *; [by rewrite decide_True|].
  case_decide; [done|]. simpl. rewrite decide_False by done. by rewrite IH.
Qed.

Lemma add_named_eq data key n v :
  add_named data key (PStr n) v =
    match default (PDict []) (dict_get data key) with
    | PDict d => if dict_mem d n then Raise ValueError else Ok (dict_set data key (PDict (dict_set d n v)))
    | _ => Raise TypeError
    end.
Proof.
  unfold add_named. cbn [dict_key]. rewrite dict_get_setdefault, decide_True by done.
  destruct (default (PDict []) (dict_get data key)); try done. case_match; [done|]. by rewrite dict_set_setdefault.
Qed.

Lemma add_unnamed_eq data key v :
  add_unnamed data key v =
    match default (PList []) (dict_get data key) with
    | PList l => Ok (dict_set data key (PList (l ++ [v])))
    | _ => Raise AttributeError
    end.
Proof.
  unfold add_unnamed. rewrite dict_get_setdefault, decide_True by done.
  repeat case_match; simplify_eq/=; try done. by rewrite dict_set_setdefault.
Qed.

Lemma section_items_snoc key raw item :
  section_items key (raw ++ [item]) =
    section_items key raw ++
      match item_entry item with
      | Some (k, e) => if str_eqb k key then [e] else []
      | None => []
      end.
Proof.
  unfold section_items. rewrite omap_app. cbn [omap list_omap].
  rewrite List.filter_app, fmap_app. f_equal. destruct (item_entry item) as [[k e]|]; [|done].
  simpl. by destruct (str_eqb k key).
Qed.

(** The sections of a loaded document are the ones its entries determine. *)
Lemma add_item_sections raw data item data' :
  (forall key, sect_spec (section_items key raw) (dict_get data key)) ->
  add_item data item = Ok data' ->
  forall key, sect_spec (section_items key (raw ++ [item])) (dict_get data' key).
Proof.
  intros IH Hadd key. rewrite section_items_snoc.
  pose proof (add_item_entry data item) as He. rewrite Hadd in He.
  destruct (item_entry item) as [[k [[n|] v]]|]; [| |exfalso; apply He; by eexists].
  - rewrite add_named_eq in He. specialize (IH k) as IHk.
    destruct (default (PDict []) (dict_get data k)) as [| | | | | |d] eqn:Hd; try done.
    destruct (dict_mem d n) eqn:Hm; [done|]. injection He as ->.
    rewrite dict_get_set. unfold str_eqb. case_decide; [subst; rewrite bool_decide_true by done|].
    + apply bool_decide_eq_false in Hm. rewrite <- eq_None_not_Some in Hm.
      apply dict_get_None in Hm as Hn. rewrite dict_set_new by done.
      assert (dict_ok d /\ section_items key raw = (fun nv => (Some nv.1, nv.2)) <$> d) as [Hok ->].
      { destruct (dict_get data key) as [[]|]; simplify_eq/=; try naive_solver. by split; [constructor|]. }
      split_and!; [by destruct d | |by rewrite fmap_app].
      rewrite <- (dict_set_new _ _ v) by done. by apply dict_ok_set.
    + rewrite bool_decide_false by done. by rewrite app_nil_r.
  - rewrite add_unnamed_eq in He. specialize (IH k) as IHk.
    destruct (default (PList []) (dict_get data k)) as [| | | | |l|] eqn:Hd; try done.
    injection He as ->.
    rewrite dict_get_set. unfold str_eqb. case_decide; [subst; rewrite bool_decide_true by done|].
    + assert (section_items key raw = (fun v => (None, v)) <$> l) as ->.
      { destruct (dict_get data key) as [[]|]; simplify_eq/=; naive_solver. }
      split; [by destruct l | by rewrite fmap_app].
    + rewrite bool_decide_false by done. by rewrite app_nil_r.
Qed.

Lemma load_data_spec raw data :
  load_data raw = Ok data -> forall key, sect_spec (section_items key raw) (dict_get data key).
Proof.
  intros H. refine (res_fold_ind (fun pre data => forall key, sect_spec (section_items key pre) (dict_get data key))
                      add_item [] raw data _ _ H); [done|].
  intros. by eapply add_item_sections.
Qed.

(** A section the loader accepts. *)
Definition sect_ok (items : list (option string * pyval)) : Prop := exists o, sect_spec items o.

Lemma sect_ok_app_inv items e : sect_ok (items ++ [e]) -> sect_ok items.
Proof.
  intros [o Ho]. destruct o as [[| | | | |l|d]|]; simpl in Ho; try done.
  - destruct Ho as [Hl Heq]. destruct l as [|v l _] using rev_ind; [done|].
    rewrite fmap_app in Heq. apply app_inj_tail in Heq as [-> _].
    destruct l; [by exists None | by exists (Some (PList (p :: l)))].
  - destruct Ho as (Hd & Hok & Heq). destruct d as [|nv d _] using rev_ind; [done|].
    rewrite fmap_app in Heq. apply app_inj_tail in Heq as [-> _].
    destruct d as [|nv' d]; [by exists None|]. exists (Some (PDict (nv' :: d))).
    split_and!; [done| |done]. revert Hok. unfold dict_ok, dict_keys. rewrite fmap_app. by intros [? _]%NoDup_app.
  - by destruct items.
Qed.

(** The value a section has is determined by its entries. *)
Lemma sect_spec_extend items e o :
  sect_spec items o -> sect_ok (items ++ [e]) ->
  match e with
  | (Some n, v) => exists d, default (PDict []) o = PDict d /\ dict_mem d n = false
  | (None, v) => exists l, default (PList []) o = PList l
  end.
Proof.
  intros Ho [o' Ho'].
  destruct o' as [[| | | | |l'|d']|]; simpl in Ho'; try done; [| |by destruct items].
  - destruct Ho' as [Hne Heq]. destruct l' as [|v l' _] using rev_ind; [done|].
    rewrite fmap_app in Heq. apply app_inj_tail in Heq as [-> ->].
    destruct o as [[| | | | |l|d]|]; simpl in *; try done; eauto.
    destruct Ho as (Hd & _ & Heq). destruct d as [|? d], l' as [|? l']; done.
  - destruct Ho' as (Hne & Hok & Heq). destruct d' as [|[n v] d' _] using rev_ind; [done|].
    rewrite fmap_app in Heq. apply app_inj_tail in Heq as [-> ->]. simpl.
    assert (default (PDict []) o = PDict d') as ->.
    { destruct o as [[| | | | |l|d]|]; simpl in Ho; try done.
      - destruct Ho as (Hl & Heq). destruct l as [|? l], d' as [|? d']; done.
      - destruct Ho as (Hd & _ & Heq). simpl. f_equal. symmetry. revert Heq. apply list_fmap_eq_inj.
        intros [??] [??] [=]; by subst.
      - by destruct d'. }
    exists d'. split; [done|]. apply bool_decide_eq_false. rewrite <- eq_None_not_Some. apply dict_get_None.
    revert Hok. unfold dict_ok, dict_keys. rewrite fmap_app, NoDup_app. set_solver.
Qed.

Lemma load_data_complete raw :
  Forall (fun item => is_Some (item_entry item)) raw -> (forall key, sect_ok (section_items key raw)) ->
  is_Ok (load_data raw).
Proof.
  unfold load_data. induction raw as [|item raw IH] using rev_ind; intros Hall Hsect; [by eexists|].
  apply Forall_app in Hall as [Hall Hit]. rewrite Forall_singleton in Hit.
  assert (is_Ok (res_fold add_item [] raw)) as [data Hdata].
  { apply IH; [done|]. intros key. specialize (Hsect key). rewrite section_items_snoc in Hsect.
    destruct (item_entry item) as [[k e]|]; try destruct (str_eqb k key);
      [by eapply sect_ok_app_inv|by rewrite app_nil_r in Hsect|by rewrite app_nil_r in Hsect]. }
  rewrite res_fold_app, Hdata. cbn [mbind res_bind res_fold].
  pose proof (load_data_spec _ _ Hdata) as Hs. pose proof (add_item_entry data item) as He.
  destruct Hit as [[k e] Hit]. rewrite Hit in He. specialize (Hsect k).
  rewrite section_items_snoc, Hit in Hsect. rewrite str_eqb_refl in Hsect.
  pose proof (sect_spec_extend _ _ _ (Hs k) Hsect) as Hext.
  destruct e as [[n|] v]; rewrite He.
  - destruct Hext as (d & Hd & Hm). rewrite add_named_eq, Hd, Hm. by eexists.
  - destruct Hext as (l & Hl). rewrite add_unnamed_eq, Hl. by eexists.
Qed.

Lemma load_data_items raw data :
  load_data raw = Ok data -> Forall (fun item => is_Some (item_entry item)) raw.
Proof.
  intros H. refine (res_fold_ind (fun pre _ => Forall (fun item => is_Some (item_entry item)) pre)
                      add_item [] raw data _ _ H); [by constructor|].
  intros pre item d1 d2 Hpre Hadd. apply Forall_app. split; [done|]. apply Forall_singleton.
  pose proof (add_item_entry d1 item) as He. destruct (item_entry item); [by eexists|].
  exfalso. apply He. by eexists.
Qed.

(** loading accepts exactly the documents whose entries are all single-key dictionaries with a
    dictionary value, and whose sections are each either fully named without a repeated name or fully
    unnamed; every other document raises. *)
Theorem load_data_accepts raw :
  is_Ok (load_data raw) <->
    Forall (fun item => is_Some (item_entry item)) raw /\ forall key, sect_ok (section_items key raw).
Proof.
  split.
  - intros [data H]. split; [by eapply load_data_items|]. intros key. eexists. by apply load_data_spec.
  - intros [? ?]. by apply load_data_complete.
Qed.

(** C27: after a successful load, a section of the configuration holds precisely its entries of the
    document: a dictionary from name to entry (no name twice), or the list of the entries, in document
    order; sections the document does not have are absent. *)
Theorem load_data_sections raw data :
  load_data raw = Ok data -> forall key, sect_spec (section_items key raw) (dict_get data key).
Proof. apply load_data_spec. Qed.

Definition raw_ex : list pyval :=
  [PDict [("job", PDict [("name", PStr "noop"); ("timeout", PInt 5)])];
   PDict [("logging", PDict [("debug", PStr "/tmp/d.log")])];
   PDict [("job", PDict [("name", PStr "py27")])]].

Lemma load_data_sections_witness :
  exists data, load_data raw_ex = Ok data /\
    sect_spec (section_items "job" raw_ex) (dict_get data "job").
Proof.
  eexists. split; [reflexivity|]. apply (load_data_sections raw_ex). reflexivity.
Defined.

(** ** Logging *)

Definition console_level (a : args) : string := if negb (quiet a) && verbose a then "DEBUG" else "INFO".

Lemma apply_args_spec a :
  exists c, apply_args a LOGGING = Ok c /\
    root_handlers c = (if quiet a then [] else ["console"]) /\
    h_level <$> dict_get (handlers c) "console" = Some (console_level a).
Proof. unfold console_level. destruct a as [[] []]; eexists; by split_and!. Qed.

Lemma add_logs_spec c s :
  match res_fold add_log c s with
  | Ok c' =>
      Forall (fun key => key ∈ default_log) (dict_keys s) /\
      root_handlers c' = root_handlers c ++ dict_keys s /\
      forall key, dict_get (handlers c') key =
        match dict_get (dict_update [] s) key with
        | Some v => Some (get_handler key v)
        | None => dict_get (handlers c) key
        end
  | Raise e => e = ValueError /\ Exists (fun key => key ∉ default_log) (dict_keys s)
  end.
Proof.
  unfold dict_keys. induction s as [|[key v] s IH] using rev_ind; simpl.
  - by rewrite app_nil_r.
  - rewrite res_fold_app, !fmap_app. unfold dict_update. rewrite fold_left_app. simpl.
    destruct (res_fold add_log c s) as [c'|e]; simpl.
    + destruct IH as (Hall & Hr & Hh). case_bool_decide as Hk; simpl.
      * split_and!; [by apply Forall_app; split; [|apply Forall_singleton]|by rewrite Hr, <- app_assoc|].
        intros k. rewrite !dict_get_set. case_decide; [by subst|]. apply Hh.
      * split; [done|]. apply Exists_app. right. by constructor.
    + destruct IH as [-> ?]. split; [done|]. apply Exists_app. by left.
Qed.

(** with a logging section, the root logger gets the console handler (unless quiet, with the level
    verbose asks for) and one rotating-file handler per key of the section, in order, with the upper-cased
    key as its level and the configured file; the configuration is rejected with [ValueError] exactly when
    some key is not one of debug, error and info. *)
Theorem configure_logging_spec a data s more :
  dict_get data "logging" = Some (PList (PDict s :: more)) -> dict_ok s ->
  match configure_logging a data with
  | Ok c =>
      Forall (fun key => key ∈ default_log) (dict_keys s) /\
      root_handlers c = (if quiet a then [] else ["console"]) ++ dict_keys s /\
      (forall key v, dict_get s key = Some v -> dict_get (handlers c) key = Some (get_handler key v)) /\
      h_level <$> dict_get (handlers c) "console" = Some (console_level a)
  | Raise e => e = ValueError /\ Exists (fun key => key ∉ default_log) (dict_keys s)
  end.
Proof.
  intros Hd Hs. unfold configure_logging. destruct (apply_args_spec a) as (c0 & -> & Hr & Hl).
  cbn [mbind res_bind]. unfold dget. rewrite Hd. simpl.
  pose proof (add_logs_spec c0 s) as H. destruct (res_fold add_log c0 s) as [c|e]; [|done].
  destruct H as (Hall & Hrh & Hh). rewrite Hr in Hrh. split_and!; [done|done| |].
  - intros key v Hkv. by rewrite Hh, dict_get_update, Hkv by done.
  - rewrite Hh, dict_get_update by done. destruct (dict_get s "console") eqn:E; [|done].
    apply dict_get_elem, (list_elem_of_fmap_2 fst) in E. rewrite Forall_forall in Hall.
    apply Hall in E. exfalso. revert E. apply (bool_decide_unpack _). vm_compute. exact I.
Qed.

Definition data_ex : pydict := [("logging", PList [PDict [("debug", PStr "d.log"); ("error", PStr "e.log")]])].

Lemma configure_logging_spec_witness :
  exists c, configure_logging (Args true false) data_ex = Ok c /\
    root_handlers c = ["console"; "debug"; "error"] /\
    dict_get (handlers c) "error" = Some (get_handler "error" (PStr "e.log")).
Proof.
  pose proof (configure_logging_spec (Args true false) data_ex
                [("debug", PStr "d.log"); ("error", PStr "e.log")] [] eq_refl) as H.
  eexists. split; [reflexivity|].
  assert (dict_ok [("debug", PStr "d.log"); ("error", PStr "e.log")]) as Hok.
  { apply (bool_decide_unpack _). vm_compute. exact I. }
  specialize (H Hok). destruct (configure_logging _ _) as [c|e] eqn:E in H.
  - injection E as <-. destruct H as (_ & Hr & Hh & _). split; [exact Hr|]. by apply Hh.
  - discriminate E.
Defined.

(** ** The module cache *)

Section ModuleLemmas.
Context {M : Type} (import_module : string -> res M).

(** The cache holds what the import returned, and a cached name was imported. *)
Definition cache_ok (st : mstore (M := M)) : Prop :=
  forall name m, dict_get (modules st) name = Some m -> import_module name = Ok m /\ name ∈ imported st.

(** A name whose import succeeds was imported at most once, and only if it is cached. *)
Definition imports_ok (st : mstore (M := M)) : Prop :=
  forall name m, import_module name = Ok m ->
    count_occ String.eq_dec (imported st) name = if dict_get (modules st) name then 1 else 0.

Lemma get_module_spec st name r st' :
  cache_ok st -> imports_ok st -> get_module import_module st name = (r, st') ->
  r = import_module name /\ cache_ok st' /\ imports_ok st'.
Proof.
  unfold get_module. intros Hc Hi. destruct (dict_get (modules st) name) as [m|] eqn:E.
  - intros [= <- <-]. split; [|done]. by apply Hc in E as [-> _].
  - destruct (import_module name) as [m|e] eqn:Em; intros [= <- <-]; (split; [done|]); split.
    + intros n m'. simpl. rewrite dict_get_set. case_decide; subst; intros Hx; simplify_eq; [set_solver|].
      apply Hc in Hx. set_solver.
    + intros n m' Hm'. simpl. rewrite dict_get_set. specialize (Hi n m' Hm').
      destruct (String.eq_dec name n) as [->|]; case_decide; simplify_eq; [by rewrite Hi, E|done].
    + intros n m' H. simpl. apply Hc in H. set_solver.
    + intros n m' Hm'. simpl. specialize (Hi n m' Hm').
      destruct (String.eq_dec name n) as [->|]; [congruence|done].
Qed.

Lemma instances_spec st cfgs r st' :
  cache_ok st -> imports_ok st -> instances import_module st cfgs = (r, st') ->
  cache_ok st' /\ imports_ok st' /\
  forall l, r = Ok l ->
    Forall2 (fun cfg mc => mc.2 = cfg /\ exists name, getitem cfg "module" = Ok (PStr name) /\
                             import_module name = Ok mc.1) cfgs l.
Proof.
  revert st r st'. induction cfgs as [|cfg cfgs IH]; intros st r st' Hc Hi; simpl.
  - intros [= <- <-]. split_and!; [done|done|]. intros l [= <-]. constructor.
  - destruct (getitem cfg "module") as [[]|e] eqn:Eg; try (intros [= <- <-]; split_and!; done).
    destruct (get_module import_module st s) as [rm st1] eqn:Em.
    destruct (get_module_spec _ _ _ _ Hc Hi Em) as (-> & Hc1 & Hi1).
    destruct (import_module s) as [m|e] eqn:Es; [|intros [= <- <-]; split_and!; done].
    destruct (instances import_module st1 cfgs) as [rl st2] eqn:El.
    destruct (IH _ _ _ Hc1 Hi1 El) as (Hc2 & Hi2 & Hl).
    destruct rl as [l|e]; intros [= <- <-]; split_and!; try done.
    intros ? [= <-]. constructor; [split; [done|by exists s]|by apply Hl].
Qed.
End ModuleLemmas.

(** creating the instances of a section from a fresh cache gives, when it succeeds, one instance
    per configured entry, in order, each built from the module its entry names, and imports each
    importable module at most once however many entries name it. *)
Theorem iter_instances_spec {M} (import_module : string -> res M) data section l st :
  iter_instances import_module (MStore [] []) data section = (Ok l, st) ->
  exists cfgs, section_values data section = Ok cfgs /\ l.*2 = cfgs /\
    Forall (fun mc => exists name, getitem mc.2 "module" = Ok (PStr name) /\ import_module name = Ok mc.1) l /\
    forall name m, import_module name = Ok m -> count_occ String.eq_dec (imported st) name <= 1.
Proof.
  unfold iter_instances. destruct (section_values data section) as [cfgs|e]; [|done]. intros H.
  destruct (instances_spec import_module (MStore [] []) cfgs (Ok l) st) as (_ & Hi & Hl); try done.
  specialize (Hl l eq_refl). exists cfgs. split_and!; [done| | |].
  - clear -Hl. induction Hl as [|cfg [m c] cfgs l [Heq _] _ IH]; csimpl in *; [done|]. by subst.
  - clear -Hl. induction Hl as [|cfg [m c] cfgs l [Heq ?] _ IH]; simpl in *; [done|]. subst. by constructor.
  - intros name m Hm. rewrite (Hi name m Hm). case_match; lia.
Qed.

Definition data_srv : pydict :=
  [("service", PDict [("a", PDict [("module", PStr "rallyci.services.gerrit")]);
                      ("b", PDict [("module", PStr "rallyci.services.gerrit")])])].

Lemma iter_instances_spec_witness :
  exists l st, iter_instances (fun s => Ok s) (MStore [] []) data_srv "service" = (Ok l, st) /\
    count_occ String.eq_dec (imported st) "rallyci.services.gerrit" <= 1.
Proof.
  do 2 eexists. split; [reflexivity|].
  edestruct (iter_instances_spec (fun s => Ok s) data_srv "service") as (? & _ & _ & _ & H); [reflexivity|].
  by eapply H.
Defined.
