(* ===== verification/Job.v ===== *)
(** * [rallyci/job.py]

    A job of a task: construction from the configuration, status changes announced to the root's
    handlers, the run under a timeout, and the summary sent to the web clients.

    The runner is an interface: [RunnerOps] gives what [Job] uses of a runner object, and [RunnerOk] is what
    a runner promises about the job it runs.  Time stamps ([time.time()]) are rationals. *)

From Stdlib Require Import QArith Qround.
From S2P Require Import Prelude PyStr PyVal Utils.
From stdpp Require Import options.
Open Scope nat_scope.

Definition SAFE_CHARS : string := ascii_letters +:+ digits +:+ "_".

Definition get_valid_filename (name : string) : string :=
  let name := replace_char " " "_" name in
  filter_str (fun c => in_str c SAFE_CHARS) name.

(** [v * 60] *)
Definition py_mul60 (v : pyval) : res pyval :=
  match v with
  | PInt n => Ok (PInt (n * 60))
  | PBool b => Ok (PInt (if b then 60 else 0))
  | PFloat q => Ok (PFloat (q * 60))
  | PStr s => Ok (PStr (Nat.iter 60 (String.append s) ""))
  | PList l => Ok (PList (concat (replicate 60 l)))
  | PNone | PDict _ => Raise TypeError
  end.

(** [v.copy()] *)
Definition py_copy (v : pyval) : res pyval :=
  match v with PDict _ | PList _ => Ok v | _ => Raise AttributeError end.

(** [int(q)] of a float: truncation towards zero. *)
Definition int_of_float (q : Q) : Z := Z.quot (Qnum q) (Zpos (Qden q)).

(** [started_at] and [runner] are attributes [run] creates; [None] while they do not exist. *)
Record job (R : Type) := MkJob {
  voting : bool; error : pyval; queued_at : Q; name : string; config : pyval; timeout : pyval;
  id : string; env : pyval; status : string; finished_at : Q; log_path : string;
  started_at : option Q; runner : option R }.
Arguments MkJob {R}. Arguments voting {R}. Arguments error {R}. Arguments queued_at {R}. Arguments name {R}.
Arguments config {R}. Arguments timeout {R}. Arguments id {R}. Arguments env {R}. Arguments status {R}.
Arguments finished_at {R}. Arguments log_path {R}. Arguments started_at {R}. Arguments runner {R}.

Section Setters.
Context {R : Type}.
Implicit Types (j : job R).
Definition set_voting b j := MkJob b (error j) (queued_at j) (name j) (config j) (timeout j) (id j) (env j)
  (status j) (finished_at j) (log_path j) (started_at j) (runner j).
Definition set_error v j := MkJob (voting j) v (queued_at j) (name j) (config j) (timeout j) (id j) (env j)
  (status j) (finished_at j) (log_path j) (started_at j) (runner j).
Definition set_env v j := MkJob (voting j) (error j) (queued_at j) (name j) (config j) (timeout j) (id j) v
  (status j) (finished_at j) (log_path j) (started_at j) (runner j).
Definition set_status_attr s j := MkJob (voting j) (error j) (queued_at j) (name j) (config j) (timeout j) (id j)
  (env j) s (finished_at j) (log_path j) (started_at j) (runner j).
Definition set_finished t j := MkJob (voting j) (error j) (queued_at j) (name j) (config j) (timeout j) (id j)
  (env j) (status j) t (log_path j) (started_at j) (runner j).
Definition set_started t j := MkJob (voting j) (error j) (queued_at j) (name j) (config j) (timeout j) (id j)
  (env j) (status j) (finished_at j) (log_path j) (Some t) (runner j).
Definition set_runner (r : R) j := MkJob (voting j) (error j) (queued_at j) (name j) (config j) (timeout j) (id j)
  (env j) (status j) (finished_at j) (log_path j) (started_at j) (Some r).
End Setters.

(** [d[name]] for a name taken from a configuration list. *)
Definition getitem_key (v : pyval) (k : pyval) : res pyval :=
  n ← dict_key k; getitem v n.

(** [Job(event, name)]: [data] is the configuration, [event_id] the identifier of the task, [rnd] the random
    source, [now] the clock. *)
Definition new_job {R} (data : pydict) (rnd : nat -> nat) (now : Q) (event_id : string) (job_name : pyval)
    : res (job R) :=
  jobs ← dgetitem data "job";
  cfg ← getitem_key jobs job_name;
  t ← get cfg "timeout" (PInt 90);
  t ← py_mul60 t;
  id ← get_rnd_name rnd "JOB" 10;
  env ← get cfg "env" (PDict []);
  env ← py_copy env;
  match job_name with
  | PStr n => Ok (MkJob true (PInt 254) now n cfg t id env "__init__" 0%Q (path_join event_id n) None None)
  | _ => Raise TypeError
  end.

(** ** Running *)

(** A job being run, and the statuses announced so far (oldest first). *)
Record jst (R : Type) := JSt { jb : job R; announced : list string }.
Arguments JSt {R}. Arguments jb {R}. Arguments announced {R}.

(** What the code uses of a runner: the module's constructor (through [config.get_instance]), and the outcome
    of [asyncio.wait_for(runner.run(), timeout)]: the returned value or the exception the await raises
    (the runner's own, [TimeoutError] or [CancelledError]), with the changes made to the job meanwhile. *)
Class RunnerOps (R : Type) := {
  new_runner : pyval -> pyval -> jst R -> res R;
  wait_runner : R -> pyval -> se (jst R) pyval;
  cleanup_runner : R -> res unit }.

Section Run.
Context {R : Type} `{RunnerOps R}.
(** [Root.job_updated]: the outcome of calling the registered handlers. *)
Context (job_updated : job R -> res unit).
Context (data : pydict).

Definition upd (f : job R -> job R) : se (jst R) unit := se_modify (fun s => JSt (f (jb s)) (announced s)).

Definition set_status (s : string) : se (jst R) unit :=
  _ ← se_modify (fun st => JSt (set_status_attr s (jb st)) (announced st ++ [s]));
  st ← se_get;
  se_lift (job_updated (jb st)).

Definition status_handler (e : exn) : option (se (jst R) unit) :=
  match e with
  | TimeoutError => Some (set_status "TIMEOUT")
  | CancelledError => Some (set_status "CANCELLED")
  | e => if is_Exception e then Some (set_status "ERROR") else None
  end.

(** [Job.run], with the clock at its start and at its end. *)
Definition run (t0 t1 : Q) : se (jst R) unit :=
  _ ← set_status "queued";
  _ ← upd (set_started t0);
  st ← se_get;
  local_cfg ← se_lift (getitem (config (jb st)) "runner");
  rname ← se_lift (getitem local_cfg "name");
  runners ← se_lift (dgetitem data "runner");
  runner_cfg ← se_lift (getitem_key runners rname);
  r ← se_lift (new_runner runner_cfg local_cfg st);
  _ ← upd (set_runner r);
  se_finally
    (se_catch
       (v ← wait_runner r (timeout (jb st));
        _ ← upd (set_error v);
        set_status (if truthy v then "FAILURE" else "SUCCESS"))
       status_handler)
    (fun s => JSt (set_finished t1 (jb s)) (announced s)).

(** [Job.cleanup]: the attribute exists only when [run] got as far as creating the runner. *)
Definition cleanup (j : job R) : res unit :=
  match runner j with
  | Some r => cleanup_runner r
  | None => Raise AttributeError
  end.

(** [Job.to_dict] at time [now]. *)
Definition to_dict (now : Q) (task_id : string) (j : job R) : pydict :=
  [("id", PStr (id j)); ("name", PStr (name j)); ("status", PStr (status j)); ("task", PStr task_id);
   ("finished_at", PFloat (finished_at j));
   ("seconds", PFloat (inject_Z (int_of_float now) - queued_at j))].
End Run.

(** What a runner promises: it changes nothing of the job but its status and its start time, and if the
    handlers do not raise, neither does announcing. *)
Definition runner_frame {R} (j j' : job R) : Prop :=
  voting j' = voting j /\ error j' = error j /\ name j' = name j /\ config j' = config j /\ id j' = id j /\
  env j' = env j /\ finished_at j' = finished_at j /\ log_path j' = log_path j /\ runner j' = runner j /\
  queued_at j' = queued_at j /\ timeout j' = timeout j.

Class RunnerOk (R : Type) `{RunnerOps R} : Prop :=
  runner_ok : forall r t s, runner_frame (jb s) (jb (wait_runner r t s).2).

(** ** Properties *)

Definition final_status (o : res pyval) : string :=
  match o with
  | Ok v => if truthy v then "FAILURE" else "SUCCESS"
  | Raise TimeoutError => "TIMEOUT"
  | Raise CancelledError => "CANCELLED"
  | Raise _ => "ERROR"
  end.

(** The configuration of the job's runner can be found. *)
Definition runner_cfgs (data : pydict) (cfg : pyval) : res (pyval * pyval) :=
  local_cfg ← getitem cfg "runner";
  rname ← getitem local_cfg "name";
  runners ← dgetitem data "runner";
  runner_cfg ← getitem_key runners rname;
  Ok (runner_cfg, local_cfg).

Section RunLemmas.
Context {R : Type} `{RunnerOk R}.
Context (data : pydict).

(** The state of the job when its runner is about to run. *)
Definition prepared (t0 : Q) (r : R) (s : jst R) : jst R :=
  JSt (set_runner r (set_started t0 (set_status_attr "queued" (jb s)))) (announced s ++ ["queued"]).

(** Up to the await, [run] is a sequence of lookups that may raise. *)
Lemma run_prefix t0 t1 s :
  let st1 := JSt (set_started t0 (set_status_attr "queued" (jb s))) (announced s ++ ["queued"]) in
  run (fun _ => Ok tt) data t0 t1 s =
    match runner_cfgs data (config (jb s)) with
    | Raise e => (Raise e, st1)
    | Ok (rc, lc) =>
        match new_runner rc lc st1 with
        | Raise e => (Raise e, st1)
        | Ok r =>
            se_finally
              (se_catch
                 (v ← wait_runner r (timeout (jb s));
                  _ ← upd (set_error v);
                  set_status (fun _ => Ok tt) (if truthy v then "FAILURE" else "SUCCESS"))
                 (status_handler (fun _ => Ok tt)))
              (fun s => JSt (set_finished t1 (jb s)) (announced s)) (prepared t0 r s)
        end
    end.
Proof.
  unfold run, runner_cfgs, prepared, set_status, upd, se_lift, se_get, se_modify, mbind, se_bind, res_bind.
  cbn. destruct (getitem (config (jb s)) "runner") as [lc|e]; [|done]. cbn.
  destruct (getitem lc "name") as [rn|e]; [|done]. cbn.
  destruct (dict_get data "runner") as [rs|]; [|done]. cbn.
  destruct (getitem_key rs rn) as [rc|e]; [|done]. cbn.
  by destruct (new_runner _ _ _).
Qed.
End RunLemmas.

Section RunTheorems.
Context {R : Type} `{RunnerOk R}.
Context (data : pydict).

(** The end of [run], once the await has given its outcome. *)
Definition finished (o : res pyval) (t1 : Q) (s : jst R) : jst R :=
  let j := match o with Ok v => set_error v (jb s) | Raise _ => jb s end in
  JSt (set_finished t1 (set_status_attr (final_status o) j)) (announced s ++ [final_status o]).

Lemma run_tail r t t1 s o s2 :
  wait_runner r t s = (o, s2) ->
  se_finally
    (se_catch
       (v ← wait_runner r t;
        _ ← upd (set_error v);
        set_status (fun _ => Ok tt) (if truthy v then "FAILURE" else "SUCCESS"))
       (status_handler (fun _ => Ok tt)))
    (fun s => JSt (set_finished t1 (jb s)) (announced s)) s =
  match o with
  | Raise e => if is_Exception e then (Ok tt, finished o t1 s2)
               else (Raise e, JSt (set_finished t1 (jb s2)) (announced s2))
  | Ok _ => (Ok tt, finished o t1 s2)
  end.
Proof.
  intros Hw. unfold se_finally, se_catch, finished, set_status, upd, se_lift, se_get, se_modify, mbind, se_bind.
  rewrite Hw. destruct o as [v|e]; [done|]. destruct e; done.
Qed.

Lemma run_outcome_aux t0 t1 s rc lc r o s2 :
  runner_cfgs data (config (jb s)) = Ok (rc, lc) ->
  new_runner rc lc (JSt (set_started t0 (set_status_attr "queued" (jb s))) (announced s ++ ["queued"])) = Ok r ->
  wait_runner r (timeout (jb s)) (prepared t0 r s) = (o, s2) ->
  (forall e, o = Raise e -> is_Exception e = true) ->
  run (fun _ => Ok tt) data t0 t1 s = (Ok tt, finished o t1 s2).
Proof.
  intros Hc Hn Hw He. rewrite run_prefix, Hc, Hn. rewrite (run_tail _ _ _ _ _ _ Hw).
  destruct o as [v|e]; [done|]. by rewrite He.
Qed.
End RunTheorems.

(** The runner of the job, created in the state [run] creates it in. *)
Definition make_runner {R} `{RunnerOps R} (data : pydict) (t0 : Q) (s : jst R) : res R :=
  cfgs ← runner_cfgs data (config (jb s));
  new_runner cfgs.1 cfgs.2 (JSt (set_started t0 (set_status_attr "queued" (jb s))) (announced s ++ ["queued"])).

(** The exceptions that are not [Exception]s pass through. *)
Definition passes_on (o : res pyval) : bool := match o with Raise e => negb (is_Exception e) | Ok _ => false end.

(** C7: how [Job.run] ends, when the status handlers do not raise.  If the job's runner cannot be created, the exception is
    passed on: the status stays "queued", no finish time is recorded and the error stays the initial one.  Otherwise the
    runner runs, the finish time is recorded, and the voting flag and the name stay as they are; if the runner returns or
    raises an [Exception], [run] returns with the status SUCCESS, FAILURE, TIMEOUT, CANCELLED or ERROR according to how the
    runner ended, announced last, and the error is the runner's return value or the initial one; any other exception is
    passed on. *)
Theorem run_outcome {R} `{RunnerOk R} data t0 t1 (s : jst R) :
  exists out s', run (fun _ => Ok tt) data t0 t1 s = (out, s') /\
    match make_runner data t0 s with
    | Raise e => out = Raise e /\ status (jb s') = "queued" /\ finished_at (jb s') = finished_at (jb s) /\
        error (jb s') = error (jb s) /\ runner (jb s') = runner (jb s) /\ announced s' = announced s ++ ["queued"]
    | Ok r => exists o s2, wait_runner r (timeout (jb s)) (prepared t0 r s) = (o, s2) /\
        finished_at (jb s') = t1 /\ voting (jb s') = voting (jb s) /\ name (jb s') = name (jb s) /\ runner (jb s') = Some r /\
        error (jb s') = (match o with Ok v => v | Raise _ => error (jb s) end) /\
        if passes_on o then out = (_ ← o; Ok tt) /\ status (jb s') = status (jb s2) /\ announced s' = announced s2
        else out = Ok tt /\ status (jb s') = final_status o /\ announced s' = announced s2 ++ [final_status o]
    end.
Proof.
  rewrite run_prefix. unfold make_runner. destruct (runner_cfgs data (config (jb s))) as [[rc lc]|e]; cbn [mbind res_bind fst snd].
  2:{ do 2 eexists. split; [done|]. by split_and!. }
  destruct (new_runner rc lc _) as [r|e]; [|do 2 eexists; split; [done|]; by split_and!].
  destruct (wait_runner r (timeout (jb s)) (prepared t0 r s)) as [o s2] eqn:Hw. rewrite (run_tail _ _ _ _ _ _ Hw).
  pose proof (runner_ok r (timeout (jb s)) (prepared t0 r s)) as Hf. rewrite Hw in Hf.
  destruct Hf as (Hv & Her & Hna & _ & _ & _ & _ & _ & Hr & _ & _). destruct o as [v|e]; cbn [passes_on].
  - do 2 eexists. split; [done|]. exists (Ok v), s2. split; [done|]. by split_and!.
  - destruct (is_Exception e) eqn:He; do 2 eexists; (split; [done|]); exists (Raise e), s2; (split; [done|]); cbn; rewrite ?He; by split_and!.
Qed.

(** a run that completes gives the job a falsy error exactly when its status is SUCCESS; a job that timed
    out, was cancelled or crashed keeps the truthy error it was created with. *)
Theorem run_verdict {R} `{RunnerOk R} data t0 t1 (s s' : jst R) :
  truthy (error (jb s)) = true ->
  run (fun _ => Ok tt) data t0 t1 s = (Ok tt, s') ->
  truthy (error (jb s')) = false <-> status (jb s') = "SUCCESS".
Proof.
  intros Ht. rewrite run_prefix.
  destruct (runner_cfgs data (config (jb s))) as [[rc lc]|e]; [|done].
  destruct (new_runner _ _ _) as [r|e]; [|done].
  destruct (wait_runner r (timeout (jb s)) (prepared t0 r s)) as [o s2] eqn:Hw.
  rewrite (run_tail _ _ _ _ _ _ Hw).
  pose proof (runner_ok r (timeout (jb s)) (prepared t0 r s)) as Hf. rewrite Hw in Hf.
  destruct Hf as (_ & Her & _). simpl in Her. rewrite <- Her in Ht.
  destruct o as [v|e].
  - intros [= <-]. simpl. destruct (truthy v); naive_solver.
  - destruct (is_Exception e) eqn:He; [|done]. intros [= <-]. unfold finished. cbn [jb error status set_finished set_status_attr].
    rewrite Ht. destruct e; naive_solver.
Qed.

(** A runner that is its own outcome, to exercise the interface. *)
Module OutcomeRunner.
#[export] Instance outcome_ops (o : res pyval) : RunnerOps unit := {
  new_runner _ _ _ := Ok tt;
  wait_runner _ _ := fun s => (o, s);
  cleanup_runner _ := Ok tt }.
#[export] Instance outcome_ok (o : res pyval) : @RunnerOk unit (outcome_ops o).
Proof. intros r t s. by split_and!. Qed.
End OutcomeRunner.

Definition job_data_ex : pydict :=
  [("job", PDict [("noop", PDict [("name", PStr "noop"); ("runner", PDict [("name", PStr "fake")])])]);
   ("runner", PDict [("fake", PDict [("name", PStr "fake"); ("module", PStr "rallyci.runners.fake")])])].

Definition job_ex : job unit :=
  match new_job job_data_ex rnd_ex 0%Q "EVNT" (PStr "noop") with
  | Ok j => j
  | Raise _ => MkJob false PNone 0 "" PNone PNone "" PNone "" 0 "" None None
  end.

Lemma run_outcome_witness :
  exists s', @run unit (OutcomeRunner.outcome_ops (Raise TimeoutError)) (fun _ => Ok tt) job_data_ex 1 2
               (JSt job_ex []) = (Ok tt, s') /\ status (jb s') = "TIMEOUT" /\ error (jb s') = PInt 254.
Proof.
  destruct (@run_outcome unit (OutcomeRunner.outcome_ops (Raise TimeoutError)) (OutcomeRunner.outcome_ok _)
              job_data_ex 1%Q 2%Q (JSt job_ex [])) as (out & s' & Hr & o & s2 & Hw & _ & _ & _ & _ & He & Ho).
  injection Hw as <- <-. destruct Ho as (-> & Hs & _).
  exists s'. split_and!; [exact Hr | exact Hs | exact He].
Defined.

Lemma run_verdict_witness :
  exists s', @run unit (OutcomeRunner.outcome_ops (Ok PNone)) (fun _ => Ok tt) job_data_ex 1 2
               (JSt job_ex []) = (Ok tt, s') /\ truthy (error (jb s')) = false /\ status (jb s') = "SUCCESS".
Proof.
  eexists. split; [reflexivity|]. split; [reflexivity|].
  apply (@run_verdict unit (OutcomeRunner.outcome_ops (Ok PNone)) (OutcomeRunner.outcome_ok _)
           job_data_ex 1%Q 2%Q (JSt job_ex [])); reflexivity.
Defined.

(** a status handler that raises while SUCCESS is announced turns a successful run into status ERROR
    while the job's error stays the runner's falsy return value, so the vote still counts it as passed. *)
Theorem run_handler_error {R} `{RunnerOps R} (job_updated : job R -> res unit) data t0 t1 s rc lc (r : R) v s2 :
  (forall j, job_updated j = if str_eqb (status j) "SUCCESS" then Raise RuntimeError else Ok tt) ->
  runner_cfgs data (config (jb s)) = Ok (rc, lc) ->
  new_runner rc lc (JSt (set_started t0 (set_status_attr "queued" (jb s))) (announced s ++ ["queued"])) = Ok r ->
  wait_runner r (timeout (jb s)) (prepared t0 r s) = (Ok v, s2) -> truthy v = false ->
  exists s', run job_updated data t0 t1 s = (Ok tt, s') /\
    status (jb s') = "ERROR" /\ truthy (error (jb s')) = false.
Proof.
  intros Hh Hc Hn Hw Hv. revert Hc Hn Hw.
  unfold run, runner_cfgs, prepared, set_status, upd, se_lift, se_get, se_modify, mbind, se_bind, res_bind.
  cbn. rewrite Hh. cbn.
  destruct (getitem (config (jb s)) "runner") as [lc'|e]; [|done]. cbn.
  destruct (getitem lc' "name") as [rn|e]; [|done]. cbn.
  destruct (dict_get data "runner") as [rs|]; [|done]. cbn.
  destruct (getitem_key rs rn) as [rc'|e]; [|done]. cbn. intros [= -> ->] -> Hw. cbn.
  unfold se_finally, se_catch. rewrite Hw. cbn. rewrite Hv, Hh. cbn.
  change (str_eqb "queued" "SUCCESS") with false. change (str_eqb "SUCCESS" "SUCCESS") with true. cbn.
  unfold set_status, se_lift, se_get, se_modify, mbind, se_bind. cbn. rewrite Hh. cbn.
  change (str_eqb "ERROR" "SUCCESS") with false. cbn.
  eexists. split_and!; [reflexivity | reflexivity | exact Hv].
Qed.

Definition raising_handler (j : job unit) : res unit :=
  if str_eqb (status j) "SUCCESS" then Raise RuntimeError else Ok tt.

Lemma run_handler_error_witness :
  exists s', @run unit (OutcomeRunner.outcome_ops (Ok PNone)) raising_handler job_data_ex 1 2
               (JSt job_ex []) = (Ok tt, s') /\ status (jb s') = "ERROR" /\ truthy (error (jb s')) = false.
Proof.
  exact (@run_handler_error unit (OutcomeRunner.outcome_ops (Ok PNone)) raising_handler
           job_data_ex 1%Q 2%Q (JSt job_ex []) _ _ tt PNone _ (fun _ => eq_refl) eq_refl eq_refl eq_refl eq_refl).
Defined.
