(* ===== verification/FakeRunner.v ===== *)
(** * [rallyci/runners/fake.py]: the fake runner

    A runner that only sleeps, for trying out a configuration.  It implements the interface [RunnerOps] that [Job.run] is
    written against.  [random.randint] is a parameter; [asyncio.wait_for] cancels a sleep that is as long as the timeout
    or longer. *)

From Stdlib Require Import QArith Qround.
From S2P Require Import Prelude PyStr PyVal Utils Job.
Open Scope Z_scope.

Section Fake.
Context (randint : Z -> Z -> Z) (now : Q).

(** The runner is its configuration, [cfg]. *)
Record fake := Fake { cfg : pyval; local_cfg : pyval }.

(** [random.randint] of the two ends of the configured interval, [self.cfg.get(key, default)]. *)
Definition sleep_time (r : fake) (key : string) (dflt : Z * Z) : res Z :=
  v ← get (cfg r) key (PList [PInt dflt.1; PInt dflt.2]);
  l ← iter v;
  match l with
  | [PInt a; PInt b] => if a <=? b then Ok (randint a b) else Raise ValueError
  | _ => Raise TypeError
  end.

(** How long each operation sleeps; [boot] uses the time of [build]. *)
Definition boot (r : fake) : res Z := sleep_time r "sleep-build" (1, 2).
Definition build (r : fake) : res Z := sleep_time r "sleep-build" (1, 2).
Definition run_script (r : fake) (script : pyval) : res Z := sleep_time r "sleep-run" (1, 2).
Definition fake_cleanup (r : fake) : res Z := sleep_time r "sleep-cleanup" (2, 4).

(** [run()]: the start time of the job, then a sleep. *)
Definition fake_run (r : fake) (s : jst fake) : res Z * jst fake :=
  (sleep_time r "sleep-run" (1, 2), JSt (set_started now (jb s)) (announced s)).

(** A timeout in seconds. *)
Definition seconds (v : pyval) : res Q :=
  match v with
  | PInt n => Ok (inject_Z n)
  | PBool b => Ok (inject_Z (if b then 1 else 0))
  | PFloat q => Ok q
  | _ => Raise TypeError
  end.

(** [asyncio.wait_for(fut, timeout)] of a [run] that sleeps [n] seconds and returns [None]. *)
Definition fake_wait (r : fake) (timeout : pyval) : se (jst fake) pyval := fun s =>
  let '(o, s') := fake_run r s in
  (match timeout with
   | PNone => _ ← o; Ok PNone
   | _ => t ← seconds timeout; n ← o; if Qle_bool t (inject_Z n) then Raise TimeoutError else Ok PNone
   end, s').

#[export] Instance fake_ops : RunnerOps fake := {
  new_runner rc lc _ := Ok (Fake rc lc);
  wait_runner := fake_wait;
  cleanup_runner r := _ ← fake_cleanup r; Ok tt }.

#[export] Instance fake_ok : RunnerOk fake.
Proof. intros r t s. unfold runner_frame. cbn. by split_and!. Qed.
End Fake.

(** a job with the fake runner: when the configured interval is proper, the job ends with SUCCESS and no error if the
    sleep drawn from the interval is shorter than the job's timeout, and with TIMEOUT and the initial error otherwise; so
    it always succeeds when the whole interval is below the timeout and never when it is not. *)
Theorem fake_job_outcome randint now data t0 t1 (s : jst fake) rc lc a b (t : Q) :
  (forall a b, a <= b -> a <= randint a b <= b) ->
  runner_cfgs data (config (jb s)) = Ok (rc, lc) ->
  get rc "sleep-run" (PList [PInt 1; PInt 2]) = Ok (PList [PInt a; PInt b]) -> a <= b ->
  seconds (timeout (jb s)) = Ok t ->
  exists s', Job.run (H := fake_ops randint now) (fun _ => Ok tt) data t0 t1 s = (Ok tt, s') /\
    (status (jb s') = "SUCCESS" /\ error (jb s') = PNone \/ status (jb s') = "TIMEOUT" /\ error (jb s') = error (jb s)) /\
    ((inject_Z b < t)%Q -> status (jb s') = "SUCCESS") /\ ((t <= inject_Z a)%Q -> status (jb s') = "TIMEOUT") /\
    started_at (jb s') = Some now /\ finished_at (jb s') = t1.
Proof.
  intros Hr Hc Hs Hab Ht. destruct (fake_wait randint now (Fake rc lc) (timeout (jb s)) (prepared t0 (Fake rc lc) s)) as [o s2] eqn:Hw.
  assert (o = (if Qle_bool t (inject_Z (randint a b)) then Raise TimeoutError else Ok PNone) /\
    s2 = (fake_run randint now (Fake rc lc) (prepared t0 (Fake rc lc) s)).2) as [Ho ->].
  { unfold fake_wait, fake_run, sleep_time in Hw. cbn [cfg fst snd] in Hw. rewrite Hs in Hw. cbn in Hw.
    rewrite (proj2 (Z.leb_le a b) Hab) in Hw. injection Hw as <- <-. split; [|done].
    destruct (timeout (jb s)); try done; cbn in Ht; injection Ht as <-; done. }
  specialize (Hr a b Hab). exists (finished o t1 (fake_run randint now (Fake rc lc) (prepared t0 (Fake rc lc) s)).2).
  split.
  { apply (run_outcome_aux (H := fake_ops randint now) data t0 t1 s rc lc (Fake rc lc)); try done.
    intros e He. rewrite Ho in He. case_match; [by injection He as <- | done]. }
  rewrite Ho. destruct (Qle_bool t (inject_Z (randint a b))) eqn:Eq; cbn; split_and!; auto.
  - intros Hb. apply Qle_bool_iff in Eq. exfalso. apply (Qlt_not_le _ _ Hb). eapply Qle_trans; [exact Eq|].
    rewrite <- Zle_Qle. lia.
  - intros Ha. exfalso. assert (Qle_bool t (inject_Z (randint a b)) = true) as Hf; [|congruence].
    apply Qle_bool_iff. eapply Qle_trans; [exact Ha|]. rewrite <- Zle_Qle. lia.
Qed.

Definition fake_job : job fake := set_finished 0%Q
  match new_job job_data_ex rnd_ex 0%Q "EVNT" (PStr "noop") with
  | Ok j => j
  | Raise _ => MkJob false PNone 0 "" PNone PNone "" PNone "" 0 "" None None
  end.

Lemma fake_job_outcome_witness : exists s',
  Job.run (H := fake_ops (fun a _ => a) 1%Q) (fun _ => Ok tt) job_data_ex 1 2 (JSt fake_job []) = (Ok tt, s') /\
  status (jb s') = "SUCCESS".
Proof.
  edestruct (fake_job_outcome (fun a _ => a) 1%Q job_data_ex 1 2 (JSt fake_job [])) as (s' & Hr & _ & Hs & _).
  - intros a b Hab. lia.
  - vm_compute. reflexivity.
  - vm_compute. reflexivity.
  - done.
  - vm_compute. reflexivity.
  - exists s'. split; [exact Hr|]. apply Hs. by vm_compute.
Defined.
