(* ===== verification/Task.v ===== *)
(** * [rallyci/task.py]

    Human-readable durations, the key that identifies a change, and the [Task] class: its jobs from the
    project configuration, the environment taken from the event, the review command that publishes the
    results, the cleanup, and the summary for the web clients.  [Task.run] is in Root.v, with the event
    loop it runs on.  Fields of Gerrit events that the code concatenates are strings; any other type is
    treated as the [TypeError] or [AttributeError] of a wrong operand. *)

From Stdlib Require Import QArith Znumtheory.
From stdpp Require Import pretty.
From S2P Require Import Prelude PyStr PyVal PyRe Utils Job.
From stdpp Require Import options.
Open Scope nat_scope.

(** ** [human_time] *)

Definition INTERVALS : list Z := [1; 60; 3600; 86400]%Z.
Definition NAMES : list (string * string) := [("s", "s"); ("m", "m"); ("h", "h"); ("day", "days")].

(** One iteration: the remaining seconds and the list [result]. *)
Definition ht_step (st : Z * list (Z * string)) (i : nat) : Z * list (Z * string) :=
  let '(seconds, result) := st in
  let interval := default 1%Z (INTERVALS !! i) in
  let names := default ("", "") (NAMES !! i) in
  let a := (seconds / interval)%Z in
  if Z.ltb 0 a then
    (seconds - a * interval, result ++ [(a, if Z.eqb (1 mod a) 0 then names.1 else names.2)])%Z
  else (seconds, result).

(** The pairs collected by the loop [for i in range(len(NAMES) - 1, -1, -1)]. *)
Definition human_parts (seconds : Z) : list (Z * string) :=
  (fold_left ht_step (reverse (seq 0 (length NAMES))) (seconds, [])).2.

Definition part_str (r : Z * string) : string := str_of_Z r.1 +:+ r.2.

Definition human_time (seconds : Q) : string :=
  let seconds := int_of_float seconds in
  join " " (part_str <$> human_parts seconds).

Example human_time_ex : human_time (inject_Z 93784) = "1day 2h 3m 4s".
Proof. vm_compute. reflexivity. Qed.

(** ** [get_key] *)

Definition get_key (event : pydict) : string :=
  let key :=
    change ← dgetitem event "change";
    project ← getitem change "project";
    patch ← dgetitem event "patchSet";
    ref ← getitem patch "ref";
    str_add project ref in
  match key with Ok k => k | Raise _ => "" end.

(** ** The [Task] class *)

Record task (R : Type) := MkTask {
  t_id : string; t_event : pydict; t_project : string; t_jobs_list : list (job R);
  t_finished_at : Z; t_cfg : pyval }.
Arguments MkTask {R}. Arguments t_id {R}. Arguments t_event {R}. Arguments t_project {R}.
Arguments t_jobs_list {R}. Arguments t_finished_at {R}. Arguments t_cfg {R}.

(** [value[key]] along a dotted path. *)
Definition walk (event : pydict) (path : list string) : res pyval := res_fold getitem (PDict event) path.

(** The body of the loop of [_get_env]; only [KeyError] is swallowed. *)
Definition env_step (event : pydict) (r : pydict) (kv : string * pyval) : res pydict :=
  path ← as_str kv.2;
  match walk event (split "." path) with
  | Ok value => Ok (dict_set r kv.1 value)
  | Raise KeyError => Ok r
  | Raise e => Raise e
  end.

Definition get_env (stream_cfg event : pydict) : res pydict :=
  let env := dget stream_cfg "env" PNone in
  if truthy env then
    items ← as_dict env;
    res_fold (env_step event) [] items
  else Ok [].

(** [job.env.update(env)] *)
Definition update_env {R} (env : pydict) (j : job R) : res (job R) :=
  match Job.env j with
  | PDict d => Ok (set_env (PDict (dict_update d env)) j)
  | _ => Raise AttributeError
  end.

Section Construct.
Context {R : Type}.
Context (data : pydict).
(** The random source and the clock of the [i]-th job created. *)
Context (rnds : nat -> nat -> nat) (now : nat -> Q).

(** The loop over the job names of one configuration key, with the flag its jobs get. *)
Fixpoint make_jobs (tid : string) (env : pydict) (vote : bool) (i : nat) (names : list pyval)
    : res (list (job R)) :=
  match names with
  | [] => Ok []
  | n :: names =>
      j ← new_job data (rnds i) (now i) tid n;
      j ← update_env env j;
      let j := if vote then j else set_voting false j in
      js ← make_jobs tid env vote (S i) names;
      Ok (j :: js)
  end.

Definition job_names (cfg : pyval) (key : string) : res (list pyval) :=
  v ← get cfg key (PList []);
  iter v.

(** [Task(stream, project, event)] *)
Definition new_task (stream_cfg : pydict) (project : string) (event : pydict) (rnd : nat -> nat) : res (task R) :=
  id ← get_rnd_name rnd "EVNT" 10;
  projects ← dgetitem data "project";
  cfg ← getitem projects project;
  env ← get_env stream_cfg event;
  type ← dgetitem event "type";
  if is_str type "ref-updated" then
    names ← job_names cfg "on-ref-updated";
    jobs ← make_jobs id env true 0 names;
    Ok (MkTask id event project jobs 0 cfg)
  else
    names ← job_names cfg "jobs";
    jobs ← make_jobs id env true 0 names;
    nv_names ← job_names cfg "non-voting-jobs";
    nv_jobs ← make_jobs id env false (length names) nv_names;
    Ok (MkTask id event project (jobs ++ nv_jobs) 0 cfg).
End Construct.

(** ** Publishing *)

Section Publish.
Context {R : Type}.
Implicit Types (t : task R) (j : job R).

(** [any([j.error for j in self.jobs_list if j.voting])] *)
Definition any_failed (jobs : list (job R)) : bool :=
  existsb (fun j => voting j && truthy (error j)) jobs.

(** [tpl.format(...)] *)
Definition py_format (tpl : pyval) (args : list (string * string)) : res string :=
  s ← as_str tpl; format s args.

(** The line of one job, newline included. *)
Definition job_line (tpl : pyval) j : res string :=
  let success := status j +:+ (if voting j then "" else " (non-voting)") in
  started ← match started_at j with Some q => Ok q | None => Raise AttributeError end;
  let time := human_time (finished_at j - started) in
  name ← getitem (config j) "name";
  name ← as_str name;
  line ← py_format tpl [("success", success); ("name", name); ("time", time); ("log_path", log_path j)];
  Ok (line +:+ String nl "").

Definition add_line (tpl : pyval) (summary : string) j : res string :=
  line ← job_line tpl j; Ok (summary +:+ line).

(** The review command of [publish_results]; [None] when no comment header is configured. *)
Definition publish_cmd (stream_cfg : pydict) t : res (option (list string)) :=
  let header := dget stream_cfg "comment-header" PNone in
  if negb (truthy header) then Ok None
  else
    let fail := any_failed (t_jobs_list t) in
    let vote := if truthy (dget stream_cfg "vote" PNone)
                then [if fail then "--verified=-1" else "--verified=+1"] else [] in
    let succeeded := if fail then "failed" else "succeeded" in
    summary ← py_format header [("succeeded", succeeded)];
    tpl ← dgetitem stream_cfg "comment-job-template";
    summary ← res_fold (add_line tpl) summary (t_jobs_list t);
    patch ← dgetitem (t_event t) "patchSet";
    revision ← getitem patch "revision";
    revision ← as_str revision;
    Ok (Some (["gerrit"; "review"] ++ vote ++ ["-m"; "'" +:+ summary +:+ "'"; revision])).

(** ** Cleanup *)

(** What [cleanup] touches: the task, the stream's set of keys, the review commands run on the Gerrit host
    and the tasks the end handlers were called with. *)
Record cst := CSt { c_task : task R; c_keys : gset string; c_reviews : list (list string); c_ended : list string }.

(** [self.stream.tasks.remove(key)] *)
Definition remove_key (key : string) : se cst unit := fun s =>
  if decide (key ∈ c_keys s) then (Ok tt, CSt (c_task s) (c_keys s ∖ {[key]}) (c_reviews s) (c_ended s))
  else (Raise KeyError, s).

Context (stream_cfg : pydict).
(** [AsyncSSH(..).run(cmd)] on the Gerrit host, and the task end handlers. *)
Context (ssh_run : list string -> res unit) (end_handlers : list (task R -> res unit)).

Definition publish_results : se cst unit :=
  s ← se_get;
  cmd ← se_lift (publish_cmd stream_cfg (c_task s));
  match cmd with
  | None => mret tt
  | Some cmd =>
      _ ← se_lift (dgetitem stream_cfg "ssh");
      _ ← se_modify (fun s => CSt (c_task s) (c_keys s) (c_reviews s ++ [cmd]) (c_ended s));
      se_lift (ssh_run cmd)
  end.

(** One iteration over the task end handlers: an [Exception] is logged. *)
Definition call_end_handler (cb : task R -> res unit) : se cst unit :=
  se_catch
    (s ← se_get;
     _ ← se_modify (fun s => CSt (c_task s) (c_keys s) (c_reviews s) (c_ended s ++ [t_id (c_task s)]));
     se_lift (cb (c_task s)))
    (fun e => if is_Exception e then Some (mret tt) else None).

Definition set_finished_at (now : Z) t : task R :=
  MkTask (t_id t) (t_event t) (t_project t) (t_jobs_list t) now (t_cfg t).

(** The results are published unless the stream is silent; any error is logged. *)
Definition publish_step : se cst unit :=
  if truthy (dget stream_cfg "silent" PNone) then mret tt
  else se_catch publish_results (fun _ => Some (mret tt)).

(** [Task.cleanup] at time [now] *)
Definition cleanup (now : Q) : se cst unit :=
  _ ← se_modify (fun s => CSt (set_finished_at (int_of_float now) (c_task s)) (c_keys s) (c_reviews s) (c_ended s));
  s ← se_get;
  _ ← remove_key (get_key (t_event (c_task s)));
  _ ← publish_step;
  se_iter call_end_handler end_handlers.

(** The same in two parts: up to the first suspension, which is in the publishing (or the [sleep(0)]), and the rest. *)
Definition cleanup_begin (now : Q) : se cst unit :=
  _ ← se_modify (fun s => CSt (set_finished_at (int_of_float now) (c_task s)) (c_keys s) (c_reviews s) (c_ended s));
  s ← se_get;
  remove_key (get_key (t_event (c_task s))).
Definition cleanup_rest : se cst unit := _ ← publish_step; se_iter call_end_handler end_handlers.

Lemma cleanup_parts now s : cleanup now s = (_ ← cleanup_begin now; cleanup_rest) s.
Proof.
  unfold cleanup, cleanup_begin, cleanup_rest. rewrite !se_bind_eq. cbn [se_modify]. rewrite !se_bind_eq. cbn [se_get].
  rewrite !se_bind_eq. by destruct (remove_key _ _) as [[[]|e] s1].
Qed.

(** ** [to_dict] *)

Definition to_dict (now : Q) t : res pydict :=
  change ← get (PDict (t_event t)) "change" (PDict []);
  subject ← get change "subject" (PStr "[view on github]");
  subject ← as_str subject;
  let common :=
    [("id", PStr (t_id t));
     ("jobs", PList ((fun j => PDict (Job.to_dict now (t_id t) j)) <$> t_jobs_list t));
     ("finished_at", PInt (t_finished_at t));
     ("subject", PStr (escape subject)); ("project", PStr (escape (t_project t)))] in
  url ← (if dict_mem (t_event t) "patchSet" then
           patch ← dgetitem (t_event t) "patchSet";
           ref ← getitem patch "ref";
           ref ← as_str ref;
           Ok ("https://review.openstack.org/#/c/" +:+ default "" (last (split_max "/" 3 ref)))
         else
           upd ← dgetitem (t_event t) "refUpdate";
           rev ← getitem upd "newRev";
           rev ← as_str rev;
           Ok ("https://github.com/" +:+ t_project t +:+ "/commit/" +:+ rev));
  Ok (common ++ [("url", PStr url)]).
End Publish.
Arguments CSt {R}. Arguments c_task {R}. Arguments c_keys {R}. Arguments c_reviews {R}. Arguments c_ended {R}.

(** ** Durations *)

Definition plural (a : Z) (one many : string) : string := if Z.eqb a 1 then one else many.

(** The parts a duration of [d] days, [h] hours, [m] minutes and [s] seconds is printed with. *)
Definition duration_parts (d h m s : Z) : list (Z * string) :=
  List.filter (fun r => Z.ltb 0 r.1) [(d, plural d "day" "days"); (h, "h"); (m, "m"); (s, "s")]%Z.

Lemma mod_1_zero a : (0 < a)%Z -> Z.eqb (1 mod a) 0 = Z.eqb a 1.
Proof.
  intros Ha. destruct (Z.eqb_spec a 1) as [->|Hne]; [done|].
  rewrite Z.mod_small by lia. done.
Qed.

Lemma ht_step_eq s r i k nm :
  INTERVALS !! i = Some k -> NAMES !! i = Some nm -> (0 < k)%Z -> (0 <= s)%Z ->
  ht_step (s, r) i =
    (s mod k, r ++ List.filter (fun r => Z.ltb 0 r.1) [(s / k, plural (s / k) nm.1 nm.2)])%Z.
Proof.
  intros Hk Hn Hpos Hs. unfold ht_step. rewrite Hk, Hn. simpl. destruct (Z.ltb_spec 0 (s / k)) as [Ha|Ha].
  - rewrite mod_1_zero by done. f_equal. rewrite (Z.mod_eq s k) by lia. lia.
  - rewrite app_nil_r. f_equal. symmetry. apply Z.mod_small. pose proof (Z.div_pos s k Hs Hpos).
    assert (s / k = 0)%Z as Hz by lia. apply Z.div_small_iff in Hz; lia.
Qed.

Lemma human_parts_duration s :
  (0 <= s)%Z ->
  human_parts s = duration_parts (s / 86400) (s mod 86400 / 3600) (s mod 3600 / 60) (s mod 60).
Proof.
  intros Hs. unfold human_parts.
  change (reverse (seq 0 (length NAMES))) with [3; 2; 1; 0]. cbn [fold_left].
  rewrite (ht_step_eq s [] 3 86400 ("day", "days")) by (done || lia).
  assert (0 <= s mod 86400)%Z as H1 by (apply Z.mod_pos_bound; lia).
  rewrite (ht_step_eq _ _ 2 3600 ("h", "h")) by (done || lia).
  assert (s mod 86400 mod 3600 = s mod 3600)%Z as ->.
  { symmetry. apply Znumtheory.Zmod_div_mod; [lia|lia|by exists 24%Z]. }
  assert (0 <= s mod 3600)%Z as H2 by (apply Z.mod_pos_bound; lia).
  rewrite (ht_step_eq _ _ 1 60 ("m", "m")) by (done || lia).
  assert (s mod 3600 mod 60 = s mod 60)%Z as ->.
  { symmetry. apply Znumtheory.Zmod_div_mod; [lia|lia|by exists 60%Z]. }
  assert (0 <= s mod 60)%Z as H3 by (apply Z.mod_pos_bound; lia).
  rewrite (ht_step_eq _ _ 0 1 ("s", "s")) by (done || lia).
  cbn [snd fst]. rewrite Z.div_1_r. unfold duration_parts, plural.
  assert (forall a (x : string), (if Z.eqb a 1 then x else x) = x) as Hif by (intros; by case_match).
  rewrite !Hif. cbn [app]. by rewrite <- !List.filter_app.
Qed.

(** Reading the number and the unit of a part back. *)
Lemma digits_split (k l : string) (n m : string) :
  all_chars (fun c => is_digit c = true) k -> all_chars (fun c => is_digit c = true) l ->
  all_chars (fun c => is_digit c = false) n -> all_chars (fun c => is_digit c = false) m ->
  k +:+ n = l +:+ m -> k = l /\ n = m.
Proof. apply (span_split is_digit). Qed.

Definition part_ok (r : Z * string) : Prop := (0 < r.1)%Z /\ r.2 ∈ ["day"; "days"; "h"; "m"; "s"].

Lemma part_unit_letters r : part_ok r -> all_chars (fun c => is_digit c = false) r.2 /\ " "%char ∉ chars r.2.
Proof.
  intros [_ H]. rewrite !elem_of_cons in H. split.
  - unfold all_chars. destruct H as [->|[->|[->|[->|[->|H]]]]]; repeat constructor; by apply not_elem_of_nil in H.
  - apply (bool_decide_unpack _). destruct H as [->|[->|[->|[->|[->|H]]]]]; try (vm_compute; exact I).
    by apply not_elem_of_nil in H.
Qed.

Lemma part_str_inj r1 r2 : part_ok r1 -> part_ok r2 -> part_str r1 = part_str r2 -> r1 = r2.
Proof.
  intros H1 H2 Heq. unfold part_str in Heq.
  apply digits_split in Heq as [Hz Hn]; try (apply str_of_Z_digits; destruct H1, H2; lia);
    try (by apply part_unit_letters).
  destruct r1, r2. simpl in *. f_equal; [by apply (inj pretty) in Hz|done].
Qed.

Lemma part_str_no_space r : part_ok r -> " "%char ∉ chars (part_str r).
Proof.
  intros Hr. unfold part_str. rewrite chars_app, not_elem_of_app. split; [|by apply part_unit_letters].
  intros Hin. assert (0 <= r.1)%Z as Hz by (destruct Hr; lia).
  pose proof (str_of_Z_digits _ Hz) as Hd. unfold all_chars in Hd. rewrite Forall_forall in Hd.
  by apply Hd in Hin.
Qed.

Lemma duration_parts_ok d h m s : Forall part_ok (duration_parts d h m s).
Proof.
  unfold duration_parts. apply List.Forall_forall. intros r [Hr Hpos]%filter_In. apply Z.ltb_lt in Hpos.
  split; [done|]. simpl in Hr. unfold plural in Hr.
  destruct Hr as [<-|[<-|[<-|[<-|[]]]]]; simpl; try case_match; set_solver.
Qed.

(** The decomposition is unique. *)
Lemma duration_parts_inj d h m s d' h' m' s' :
  (0 <= d)%Z -> (0 <= h)%Z -> (0 <= m)%Z -> (0 <= s)%Z -> (0 <= d')%Z -> (0 <= h')%Z -> (0 <= m')%Z -> (0 <= s')%Z ->
  duration_parts d h m s = duration_parts d' h' m' s' -> (d, h, m, s) = (d', h', m', s').
Proof.
  intros ? ? ? ? ? ? ? ?. unfold duration_parts, plural. simpl.
  repeat match goal with |- context [Z.ltb 0 ?x] => destruct (Z.ltb_spec 0 x) end;
    intros Heq; simplify_eq; try (by repeat case_match);
    repeat match goal with H : (?x <= 0)%Z |- _ => assert (x = 0)%Z as -> by lia; clear H end; try done;
    repeat case_match; simplify_eq/=; try done.
Qed.

Lemma int_of_float_inject z : int_of_float (inject_Z z) = z.
Proof. unfold int_of_float. simpl. apply Z.quot_1_r. Qed.

Lemma duration_sum s :
  (s = 86400 * (s / 86400) + 3600 * (s mod 86400 / 3600) + 60 * (s mod 3600 / 60) + s mod 60)%Z.
Proof.
  pose proof (Z.div_mod s 86400). pose proof (Z.div_mod (s mod 86400) 3600) as H1.
  pose proof (Z.div_mod (s mod 3600) 60) as H2.
  rewrite <- (Zmod_div_mod 3600 86400) in H1 by (lia || by exists 24%Z).
  rewrite <- (Zmod_div_mod 60 3600) in H2 by (lia || by exists 60%Z).
  lia.
Qed.

(** a duration of non-negative seconds is printed as its days, hours (below 24), minutes and seconds (below
    60), leaving out the zero parts, with "day" exactly for one day and "days" for more. *)
Theorem human_time_parts s :
  (0 <= s)%Z ->
  exists d h m sec,
    (s = 86400 * d + 3600 * h + 60 * m + sec)%Z /\ (0 <= d)%Z /\ (0 <= h < 24)%Z /\ (0 <= m < 60)%Z /\
    (0 <= sec < 60)%Z /\
    human_time (inject_Z s) = join " " (part_str <$> duration_parts d h m sec).
Proof.
  intros Hs. exists (s / 86400)%Z, (s mod 86400 / 3600)%Z, (s mod 3600 / 60)%Z, (s mod 60)%Z.
  split_and!.
  1: apply duration_sum.
  1-7: Z.div_mod_to_equations; lia.
  unfold human_time. by rewrite int_of_float_inject, human_parts_duration.
Qed.

Lemma human_time_parts_witness :
  (0 <= 93784)%Z /\ exists d h m sec,
    (93784 = 86400 * d + 3600 * h + 60 * m + sec)%Z /\ (0 <= d)%Z /\ (0 <= h < 24)%Z /\ (0 <= m < 60)%Z /\
    (0 <= sec < 60)%Z /\
    human_time (inject_Z 93784) = join " " (part_str <$> duration_parts d h m sec).
Proof. split; [lia | apply (human_time_parts 93784); lia]. Defined.

Lemma join_parts_inj l1 l2 :
  Forall part_ok l1 -> Forall part_ok l2 -> join " " (part_str <$> l1) = join " " (part_str <$> l2) -> l1 = l2.
Proof.
  intros H1 H2 Heq.
  assert (forall r, part_ok r -> part_str r <> "") as Hne.
  { intros r [_ Hr] He. unfold part_str in He. destruct (str_of_Z r.1); [|done].
    change (r.2 = "") in He. rewrite He in Hr. revert Hr. apply (bool_decide_unpack _). vm_compute. exact I. }
  assert (forall l, Forall part_ok l -> l <> [] -> split " " (join " " (part_str <$> l)) = part_str <$> l) as Hsj.
  { intros l Hl Hnil. apply split_join; [by destruct l|]. apply Forall_fmap.
    eapply Forall_impl; [done|]. apply part_str_no_space. }
  destruct l1 as [|r1 l1], l2 as [|r2 l2]; [done| | |].
  - exfalso. apply (f_equal (split " ")) in Heq. rewrite (Hsj (r2 :: l2)) in Heq by done.
    apply Forall_cons in H2 as [H2 _]. simplify_eq/=. by eapply Hne.
  - exfalso. apply (f_equal (split " ")) in Heq. rewrite (Hsj (r1 :: l1)) in Heq by done.
    apply Forall_cons in H1 as [H1 _]. simplify_eq/=. by eapply Hne.
  - apply (f_equal (split " ")) in Heq. rewrite !Hsj in Heq by done. revert Heq H1 H2.
    generalize (r1 :: l1) as k1, (r2 :: l2) as k2. clear. induction k1 as [|a k1 IH]; intros [|b k2]; csimpl; [done..|].
    intros [= Hab Hk] [Ha H1]%Forall_cons [Hb H2]%Forall_cons. f_equal; [by apply part_str_inj | by apply IH].
Qed.

(** the printed duration determines the number of seconds. *)
Theorem human_time_inj a b :
  (0 <= a)%Z -> (0 <= b)%Z -> human_time (inject_Z a) = human_time (inject_Z b) -> a = b.
Proof.
  intros Ha Hb. unfold human_time. rewrite !int_of_float_inject, !human_parts_duration by done. intros Heq.
  apply join_parts_inj in Heq; try apply duration_parts_ok.
  apply duration_parts_inj in Heq; try (Z.div_mod_to_equations; lia).
  injection Heq as H1 H2 H3 H4. rewrite (duration_sum a), (duration_sum b). lia.
Qed.

Lemma human_time_inj_witness : (0 <= 60)%Z /\ human_time (inject_Z 60) = human_time (inject_Z (59 + 1)) /\ 60%Z = (59 + 1)%Z.
Proof. split_and!; [lia | reflexivity | apply (human_time_inj 60 (59 + 1)); (lia || reflexivity)]. Defined.

(** ** The environment of the jobs *)

Definition env_value (event : pydict) (v : pyval) : option pyval :=
  match v with
  | PStr path => match walk event (split "." path) with Ok x => Some x | Raise _ => None end
  | _ => None
  end.

Lemma env_step_spec event items r :
  res_fold (env_step event) [] items = Ok r ->
  forall k, dict_get r k =
    fold_left (fun o kv => if decide (kv.1 = k) then match env_value event kv.2 with Some x => Some x | None => o end
                           else o) items None.
Proof.
  intros H. refine (res_fold_ind (fun pre r => forall k, dict_get r k =
    fold_left (fun o kv => if decide (kv.1 = k) then match env_value event kv.2 with Some x => Some x | None => o end
                           else o) pre None) (env_step event) [] items r _ _ H); [done|].
  intros pre [k1 v1] r1 r2 IH Hs k. rewrite fold_left_app. simpl. rewrite <- IH.
  unfold env_step in Hs. apply res_bind_Ok in Hs as (path & Hp & Hs). destruct v1; try done. injection Hp as ->.
  simpl. simpl in Hs. destruct (walk event (split "." path)) as [x|e]; [|destruct e; try done]; injection Hs as <-.
  - rewrite dict_get_set. by repeat case_decide.
  - by case_decide.
Qed.

(** the environment taken from the event holds, for each configured variable, the value its dotted path
    leads to in the event, and has no entry for the paths the event does not have. *)
Theorem get_env_spec stream_cfg event items r :
  dict_get stream_cfg "env" = Some (PDict items) -> dict_ok items -> get_env stream_cfg event = Ok r ->
  forall k, dict_get r k = (v ← dict_get items k; env_value event v).
Proof.
  intros Hc Hok H k. unfold get_env, dget in H. rewrite Hc in H. simpl in H.
  destruct items as [|kv items]; [by injection H as <-|].
  cbn [truthy] in H. rewrite (env_step_spec _ _ _ H k). clear H Hc.
  assert (forall (l : pydict) o, NoDup l.*1 ->
    fold_left (fun o kv => if decide (kv.1 = k) then match env_value event kv.2 with Some x => Some x | None => o end
                           else o) l o =
    match dict_get l k with
    | Some v => match env_value event v with Some x => Some x | None => o end
    | None => o
    end) as Hgen.
  { induction l as [|[k1 v1] l IH]; intros o Hl; [done|]. csimpl in *. apply NoDup_cons in Hl as [Hk1 Hl].
    rewrite IH by done. case_decide; subst; [|done].
    by rewrite (proj2 (dict_get_None l k)). }
  rewrite Hgen by done. destruct (dict_get (kv :: items) k) as [v|]; [|done]. simpl. by destruct (env_value event v).
Qed.

Definition event_ex : pydict :=
  [("type", PStr "patchset-created");
   ("change", PDict [("project", PStr "openstack/rally"); ("subject", PStr "Fix <b>")]);
   ("patchSet", PDict [("ref", PStr "refs/changes/12/345/6"); ("revision", PStr "deadbeef")])].

Definition stream_ex : pydict :=
  [("env", PDict [("GERRIT_PROJECT", PStr "change.project"); ("MISSING", PStr "change.topic")]);
   ("comment-header", PStr "Build {succeeded}. "); ("vote", PBool true); ("ssh", PDict []);
   ("comment-job-template", PStr "- {name} : {success} in {time}")].

Lemma get_env_spec_witness :
  exists r, get_env stream_ex event_ex = Ok r /\
    dict_get r "GERRIT_PROJECT" = Some (PStr "openstack/rally") /\ dict_get r "MISSING" = None.
Proof.
  eexists. split; [reflexivity|].
  assert (dict_ok [("GERRIT_PROJECT", PStr "change.project"); ("MISSING", PStr "change.topic")]) as Hok.
  { apply (bool_decide_unpack _). vm_compute. exact I. }
  split; rewrite (get_env_spec stream_ex event_ex _ _ eq_refl Hok eq_refl); reflexivity.
Defined.

(** ** Construction *)

(** The environment configured for a job: [config.data["job"][name].get("env", {})]. *)
Definition job_env (data : pydict) (n : pyval) : res pyval :=
  jobs ← dgetitem data "job"; cfg ← getitem_key jobs n; get cfg "env" (PDict []).

Lemma new_job_spec {R} data rnd now tid n (j : job R) :
  new_job data rnd now tid n = Ok j ->
  n = PStr (name j) /\ voting j = true /\ error j = PInt 254 /\ status j = "__init__" /\
  started_at j = None /\ runner j = None /\ log_path j = path_join tid (name j) /\
  (env ← job_env data n; py_copy env) = Ok (Job.env j).
Proof.
  unfold new_job, job_env. intros H. apply res_bind_Ok in H as (jobs & -> & H). apply res_bind_Ok in H as (cfg & Hc & H).
  do 3 (apply res_bind_Ok in H as (? & ? & H)). apply res_bind_Ok in H as (env & He & H). apply res_bind_Ok in H as (env' & He' & H).
  cbn [mbind res_bind]. rewrite Hc. cbn [mbind res_bind]. rewrite He. cbn [mbind res_bind]. rewrite He'.
  destruct n; try done. injection H as <-. by split_and!.
Qed.

(** A job as [Task] leaves it: with the initial error and status, and its configured environment updated. *)
Definition fresh_job {R} (data env : pydict) (j : job R) : Prop :=
  error j = PInt 254 /\ status j = "__init__" /\
  exists d, job_env data (PStr (name j)) = Ok (PDict d) /\ Job.env j = PDict (dict_update d env).

Lemma make_jobs_spec {R} data rnds now tid env vote i names (js : list (job R)) :
  make_jobs data rnds now tid env vote i names = Ok js ->
  (fun j => (PStr (name j), voting j)) <$> js = (fun n => (n, vote)) <$> names /\ Forall (fresh_job data env) js.
Proof.
  revert i js. induction names as [|n names IH]; intros i js H; cbn [make_jobs] in H.
  - injection H as <-. by split.
  - apply res_bind_Ok in H as (j & Hj & H). apply res_bind_Ok in H as (j' & Hj' & H).
    apply res_bind_Ok in H as (js' & Hjs & H). injection H as <-.
    apply new_job_spec in Hj as (-> & Hv & He & Hs & _ & _ & _ & Henv). apply IH in Hjs as [Hn Ha].
    unfold update_env in Hj'. destruct (Job.env j) as [| | | | | |d]; try done. injection Hj' as <-.
    apply res_bind_Ok in Henv as (d0 & Hd0 & Henv). destruct d0; try done. injection Henv as ->.
    csimpl. rewrite Hn. split.
    + f_equal. destruct vote; simpl; by rewrite ?Hv.
    + constructor; [|done]. destruct vote; simpl; (split; [done|]); (split; [done|]); eauto.
Qed.

Lemma new_task_event {R} data rnds now stream_cfg project event rnd (t : task R) :
  new_task data rnds now stream_cfg project event rnd = Ok t -> t_event t = event.
Proof.
  unfold new_task. intros H. do 5 (apply res_bind_Ok in H as (? & _ & H)).
  destruct (is_str _ _); repeat (apply res_bind_Ok in H as (? & _ & H)); by injection H as <-.
Qed.

(** C28: a new task has one job per configured name, in order and with the right voting flag: the project's
    on-ref-updated jobs for a ref update; otherwise its jobs, voting, then its non-voting jobs.  Each job
    starts with error 254 and the environment configured for its name, updated with the one taken from the
    event. *)
Theorem new_task_jobs {R} data rnds now stream_cfg project event rnd (t : task R) :
  new_task data rnds now stream_cfg project event rnd = Ok t ->
  exists cfg env type,
    get_env stream_cfg event = Ok env /\ dgetitem event "type" = Ok type /\
    (projects ← dgetitem data "project"; getitem projects project) = Ok cfg /\
    t_event t = event /\ t_project t = project /\
    Forall (fresh_job data env) (t_jobs_list t) /\
    if is_str type "ref-updated" then
      exists names, job_names cfg "on-ref-updated" = Ok names /\
        (fun j => (PStr (name j), voting j)) <$> t_jobs_list t = (fun n => (n, true)) <$> names
    else
      exists names nv, job_names cfg "jobs" = Ok names /\ job_names cfg "non-voting-jobs" = Ok nv /\
        (fun j => (PStr (name j), voting j)) <$> t_jobs_list t =
          ((fun n => (n, true)) <$> names) ++ ((fun n => (n, false)) <$> nv).
Proof.
  unfold new_task. intros H. apply res_bind_Ok in H as (id & _ & H).
  apply res_bind_Ok in H as (projects & Hp & H). apply res_bind_Ok in H as (cfg & Hcfg & H).
  apply res_bind_Ok in H as (env & Henv & H). apply res_bind_Ok in H as (type & Hty & H).
  exists cfg, env, type. rewrite Hp. cbn [mbind res_bind]. destruct (is_str type "ref-updated").
  - apply res_bind_Ok in H as (names & Hn & H). apply res_bind_Ok in H as (js & Hjs & H). injection H as <-.
    apply make_jobs_spec in Hjs as [Hm Ha]. cbn. split_and!; eauto.
  - apply res_bind_Ok in H as (names & Hn & H). apply res_bind_Ok in H as (js & Hjs & H).
    apply res_bind_Ok in H as (nv & Hnv & H). apply res_bind_Ok in H as (njs & Hnjs & H). injection H as <-.
    apply make_jobs_spec in Hjs as [Hm Ha]. apply make_jobs_spec in Hnjs as [Hm' Ha'].
    cbn [t_event t_project t_jobs_list]. split_and!; try done; [by apply Forall_app|].
    exists names, nv. by rewrite fmap_app, Hm, Hm'.
Qed.

Definition task_data_ex : pydict :=
  job_data_ex ++
  [("project", PDict [("openstack/rally", PDict [("jobs", PList [PStr "noop"]);
                                                 ("non-voting-jobs", PList [PStr "noop"])])])].

Definition task_ex : task unit :=
  match new_task task_data_ex (fun _ => rnd_ex) (fun _ => 0%Q) stream_ex "openstack/rally" event_ex rnd_ex with
  | Ok t => t
  | Raise _ => MkTask "" [] "" [] 0 PNone
  end.

Lemma new_task_jobs_witness :
  exists t : task unit,
    new_task task_data_ex (fun _ => rnd_ex) (fun _ => 0%Q) stream_ex "openstack/rally" event_ex rnd_ex = Ok t /\
    t_event t = event_ex.
Proof.
  eexists. split; [reflexivity|].
  edestruct (@new_task_jobs unit task_data_ex (fun _ => rnd_ex) (fun _ => 0%Q) stream_ex "openstack/rally" event_ex rnd_ex)
    as (? & ? & ? & _ & _ & _ & H & _); [reflexivity|]. exact H.
Defined.

(** ** Publishing *)

Lemma any_failed_false {R} (jobs : list (job R)) :
  any_failed jobs = false <-> Forall (fun j => voting j = true -> truthy (error j) = false) jobs.
Proof.
  unfold any_failed. induction jobs as [|j jobs IH]; simpl; [done|]. rewrite Forall_cons, <- IH.
  destruct (voting j), (truthy (error j)), (existsb _ jobs); naive_solver.
Qed.

Lemma add_lines_spec {R} tpl summary (jobs : list (job R)) r :
  res_fold (add_line tpl) summary jobs = Ok r ->
  exists lines, Forall2 (fun j line => job_line tpl j = Ok line) jobs lines /\ r = summary +:+ join "" lines.
Proof.
  intros H. refine (res_fold_ind (fun pre r => exists lines,
    Forall2 (fun j line => job_line tpl j = Ok line) pre lines /\ r = summary +:+ join "" lines)
    (add_line tpl) summary jobs r _ _ H).
  - exists []. split; [done|]. cbn [join]. by rewrite string_app_nil_r.
  - intros pre j r1 r2 (lines & Hl & ->) Ha. unfold add_line in Ha.
    apply res_bind_Ok in Ha as (line & Hline & [= <-]). exists (lines ++ [line]).
    split; [by apply Forall2_app; [|constructor]|].
    by rewrite string_app_assoc, join_empty_snoc.
Qed.

(** C2: the review command of a finished task: with voting configured it carries +1 when every voting job has a
    falsy error and -1 otherwise, never both; the message is the header (with "succeeded" or "failed" to
    match) followed by one line per job in order; the reviewed revision is the event's. *)
Theorem publish_cmd_spec {R} stream_cfg (t : task R) cmd :
  publish_cmd stream_cfg t = Ok (Some cmd) ->
  exists header tpl lines revision,
    let passed := bool_decide (Forall (fun j => voting j = true -> truthy (error j) = false) (t_jobs_list t)) in
    py_format (dget stream_cfg "comment-header" PNone)
      [("succeeded", if passed then "succeeded" else "failed")] = Ok header /\
    dgetitem stream_cfg "comment-job-template" = Ok tpl /\
    Forall2 (fun j line => job_line tpl j = Ok line) (t_jobs_list t) lines /\
    (patch ← dgetitem (t_event t) "patchSet"; getitem patch "revision") = Ok (PStr revision) /\
    cmd = ["gerrit"; "review"] ++
          (if truthy (dget stream_cfg "vote" PNone)
           then [if passed then "--verified=+1" else "--verified=-1"] else []) ++
          ["-m"; "'" +:+ header +:+ join "" lines +:+ "'"; revision].
Proof.
  unfold publish_cmd. destruct (negb (truthy _)); [done|].
  set (fail := any_failed (t_jobs_list t)).
  assert (bool_decide (Forall (fun j => voting j = true -> truthy (error j) = false) (t_jobs_list t)) = negb fail) as ->.
  { subst fail. destruct (any_failed (t_jobs_list t)) eqn:E; simpl.
    - apply bool_decide_eq_false. intros H%any_failed_false. congruence.
    - apply bool_decide_eq_true. by apply any_failed_false. }
  intros H. apply res_bind_Ok in H as (header & Hh & H). apply res_bind_Ok in H as (tpl & Ht & H).
  apply res_bind_Ok in H as (summary & Hs & H). apply res_bind_Ok in H as (patch & Hp & H).
  apply res_bind_Ok in H as (rv & Hr & H). apply res_bind_Ok in H as (revision & Hrv & [= <-]).
  apply add_lines_spec in Hs as (lines & Hl & ->). destruct rv; try done. injection Hrv as ->.
  exists header, tpl, lines, revision. rewrite Hp. simpl. split_and!; try done.
  - by destruct fail.
  - rewrite string_app_assoc. by destruct fail.
Qed.

(** The example task after both jobs ran, the voting one successfully. *)
Definition finish_ex (v : pyval) (j : job unit) : job unit :=
  set_finished 65 (set_started 1 (set_status_attr (final_status (Ok v)) (set_error v j))).

Definition task_done_ex : task unit :=
  MkTask (t_id task_ex) (t_event task_ex) (t_project task_ex)
    ((fun j => finish_ex (if voting j then PNone else PInt 1) j) <$> t_jobs_list task_ex) 0 (t_cfg task_ex).

Definition cmd_ex : list string := Eval vm_compute in
  match publish_cmd stream_ex task_done_ex with Ok (Some cmd) => cmd | _ => [] end.

Lemma cmd_ex_eq : publish_cmd stream_ex task_done_ex = Ok (Some cmd_ex).
Proof. vm_compute. reflexivity. Qed.

Lemma publish_cmd_spec_witness :
  publish_cmd stream_ex task_done_ex = Ok (Some cmd_ex) /\ cmd_ex !! 2 = Some "--verified=+1" /\
  exists header lines revision,
    cmd_ex !! 4 = Some ("'" +:+ header +:+ join "" lines +:+ "'") /\ cmd_ex !! 5 = Some revision.
Proof.
  split; [exact cmd_ex_eq|]. split; [reflexivity|].
  destruct (publish_cmd_spec stream_ex task_done_ex _ cmd_ex_eq) as (header & tpl & lines & revision & H).
  destruct H as (_ & _ & _ & _ & Hcmd). exists header, lines, revision.
  change (truthy (dget stream_ex "vote" PNone)) with true in Hcmd. cbn [app] in Hcmd.
  rewrite Hcmd. split; reflexivity.
Defined.

(** ** Cleanup *)

Lemma call_end_handler_spec {R} cb (s : cst (R := R)) :
  (forall e, cb (c_task s) = Raise e -> is_Exception e = true) ->
  call_end_handler cb s = (Ok tt, CSt (c_task s) (c_keys s) (c_reviews s) (c_ended s ++ [t_id (c_task s)])).
Proof.
  intros Hcb. unfold call_end_handler, se_catch, se_get, se_modify, se_lift, mbind, se_bind.
  destruct (cb (c_task s)) as [[]|e]; [done|]. by rewrite Hcb.
Qed.

Lemma call_end_handlers_spec {R} cbs (s : cst (R := R)) :
  Forall (fun cb => forall t e, cb t = Raise e -> is_Exception e = true) cbs ->
  se_iter call_end_handler cbs s =
    (Ok tt, CSt (c_task s) (c_keys s) (c_reviews s) (c_ended s ++ replicate (length cbs) (t_id (c_task s)))).
Proof.
  intros Hall. revert s. induction Hall as [|cb cbs Hcb _ IH]; intros s; simpl.
  - rewrite app_nil_r. by destruct s.
  - rewrite se_bind_eq, call_end_handler_spec by eauto. rewrite IH. simpl. by rewrite <- app_assoc.
Qed.

(** The review a task sends, if any: none when the stream is silent, when there is nothing to publish or the command
    cannot be made, and when the stream has no connection to Gerrit. *)
Definition sent {R} (stream_cfg : pydict) (t : task R) : list (list string) :=
  if truthy (dget stream_cfg "silent" PNone) then []
  else match publish_cmd stream_cfg t, dgetitem stream_cfg "ssh" with Ok (Some cmd), Ok _ => [cmd] | _, _ => [] end.

Lemma publish_step_sent {R} stream_cfg ssh_run (s : cst (R := R)) :
  c_reviews (publish_step stream_cfg ssh_run s).2 = c_reviews s ++ sent stream_cfg (c_task s).
Proof.
  unfold publish_step, sent. destruct (truthy _); [by rewrite app_nil_r|].
  unfold se_catch, publish_results, se_get, se_modify, se_lift, mbind, se_bind, mret, se_ret.
  destruct (publish_cmd stream_cfg (c_task s)) as [[cmd|]|e]; cbn; rewrite ?app_nil_r; try done.
  destruct (dict_get stream_cfg "ssh"); cbn; rewrite ?app_nil_r; [|done]. by destruct (ssh_run cmd).
Qed.

(** The publishing step, whatever happens in it, leaves the task, the keys and the notifications alone. *)
Lemma publish_results_frame {R} stream_cfg ssh_run (s : cst (R := R)) r s' :
  publish_results stream_cfg ssh_run s = (r, s') ->
  c_task s' = c_task s /\ c_keys s' = c_keys s /\ c_ended s' = c_ended s.
Proof.
  unfold publish_results, se_get, se_modify, se_lift, mbind, se_bind, mret, se_ret.
  destruct (publish_cmd stream_cfg (c_task s)) as [[cmd|]|e]; cbn; intros H; simplify_eq; try done.
  repeat case_match; simplify_eq/=; done.
Qed.

Lemma publish_step_frame {R} stream_cfg ssh_run (s : cst (R := R)) :
  exists s', publish_step stream_cfg ssh_run s = (Ok tt, s') /\
    c_task s' = c_task s /\ c_keys s' = c_keys s /\ c_ended s' = c_ended s.
Proof.
  unfold publish_step. destruct (truthy _); [by exists s|]. unfold se_catch.
  destruct (publish_results stream_cfg ssh_run s) as [[[]|e] s2] eqn:E; apply publish_results_frame in E; by exists s2.
Qed.

(** C26: the cleanup of a task whose key is registered releases the key, sends the review the configuration calls for,
    at most one and none when the stream is silent, and calls every end handler once, even if publishing the results
    fails or a handler raises an [Exception]; other keys stay. *)
Theorem cleanup_registered {R} stream_cfg ssh_run end_handlers now (s : cst (R := R)) :
  get_key (t_event (c_task s)) ∈ c_keys s ->
  Forall (fun cb => forall t e, cb t = Raise e -> is_Exception e = true) end_handlers ->
  exists s', cleanup stream_cfg ssh_run end_handlers now s = (Ok tt, s') /\
    c_keys s' = c_keys s ∖ {[get_key (t_event (c_task s))]} /\
    c_reviews s' = c_reviews s ++ sent stream_cfg (c_task s) /\ length (sent stream_cfg (c_task s)) <= 1 /\
    (truthy (dget stream_cfg "silent" PNone) = true -> sent stream_cfg (c_task s) = []) /\
    c_ended s' = c_ended s ++ replicate (length end_handlers) (t_id (c_task s)) /\
    t_finished_at (c_task s') = int_of_float now.
Proof.
  intros Hkey Hall. unfold cleanup. rewrite se_bind_eq. cbn [se_modify]. rewrite se_bind_eq. cbn [se_get].
  rewrite se_bind_eq. unfold remove_key. cbn [c_task c_keys set_finished_at t_event].
  rewrite decide_True by done. rewrite se_bind_eq.
  set (s1 := CSt _ _ _ _).
  destruct (publish_step_frame stream_cfg ssh_run s1) as (s2 & E & Ht & Hk & He).
  pose proof (publish_step_sent stream_cfg ssh_run s1) as Hr. rewrite E in Hr. cbn [snd] in Hr. rewrite E.
  rewrite call_end_handlers_spec by done. eexists. split; [done|].
  cbn [c_keys c_ended c_task c_reviews]. rewrite Hk, He, Ht, Hr. split_and!; try done.
  - unfold sent. repeat case_match; cbn; lia.
  - unfold sent. by intros ->.
Qed.

Definition cst_ex : cst (R := unit) := CSt task_done_ex {[get_key event_ex]} [] [].

Lemma cleanup_registered_witness :
  exists s', cleanup stream_ex (fun _ => Raise SSHError) [(fun _ => Raise RuntimeError); (fun _ => Ok tt)] 70 cst_ex
               = (Ok tt, s') /\ length (c_ended s') = 2.
Proof.
  destruct (cleanup_registered stream_ex (fun _ => Raise SSHError)
              [(fun _ => Raise RuntimeError); (fun _ => Ok tt)] 70 cst_ex) as (s' & H & _ & _ & _ & _ & Hlen & _).
  - apply elem_of_singleton. reflexivity.
  - repeat constructor; [by intros t e [= <-] | done].
  - exists s'. split; [exact H|]. rewrite Hlen. reflexivity.
Defined.

Lemma get_key_no_change event : dict_get event "change" = None -> get_key event = "".
Proof. intros H. unfold get_key, dgetitem, getitem. by rewrite H. Qed.

(** the cleanup of a task started by a ref update (an event without a change, whose key is empty and never
    registered) stops with [KeyError]: the results are not published and no end handler is called. *)
Theorem cleanup_ref_updated {R} stream_cfg ssh_run end_handlers now (s : cst (R := R)) :
  dict_get (t_event (c_task s)) "change" = None -> "" ∉ c_keys s ->
  exists s', cleanup stream_cfg ssh_run end_handlers now s = (Raise KeyError, s') /\
    c_reviews s' = c_reviews s /\ c_ended s' = c_ended s.
Proof.
  intros Hc Hk. unfold cleanup. rewrite se_bind_eq. cbn [se_modify]. rewrite se_bind_eq. cbn [se_get].
  rewrite se_bind_eq. unfold remove_key. cbn [c_task c_keys set_finished_at t_event].
  rewrite get_key_no_change by done. rewrite decide_False by done. by eexists.
Qed.

Definition ref_event_ex : pydict :=
  [("type", PStr "ref-updated");
   ("refUpdate", PDict [("newRev", PStr "1a8c2369"); ("project", PStr "stackforge/stackalytics")])].

Lemma cleanup_ref_updated_witness :
  exists s', cleanup (R := unit) stream_ex (fun _ => Ok tt) [(fun _ => Ok tt)] 70
               (CSt (MkTask "T" ref_event_ex "stackforge/stackalytics" [] 0 PNone) ∅ [] []) = (Raise KeyError, s') /\
    c_ended s' = [].
Proof.
  destruct (cleanup_ref_updated (R := unit) stream_ex (fun _ => Ok tt) [(fun _ => Ok tt)] 70
              (CSt (MkTask "T" ref_event_ex "stackforge/stackalytics" [] 0 PNone) ∅ [] [])) as (s' & H & _ & He).
  - reflexivity.
  - apply (bool_decide_unpack _). vm_compute. exact I.
  - exists s'. split; [exact H | exact He].
Defined.

(** the summary sent to the web clients carries the escaped subject and project, without any markup
    character, one entry per job, and the link of the change or of the commit. *)
Theorem to_dict_safe {R} now (t : task R) d :
  to_dict now t = Ok d ->
  (exists subject, dict_get d "subject" = Some (PStr subject) /\
     all_chars (fun c => c <> "<"%char /\ c <> ">"%char) subject) /\
  (exists project, dict_get d "project" = Some (PStr project) /\
     all_chars (fun c => c <> "<"%char /\ c <> ">"%char) project) /\
  dict_get d "jobs" = Some (PList ((fun j => PDict (Job.to_dict now (t_id t) j)) <$> t_jobs_list t)) /\
  exists url, dict_get d "url" = Some (PStr url).
Proof.
  unfold to_dict. intros H. apply res_bind_Ok in H as (change & Hc & H). apply res_bind_Ok in H as (sv & Hs & H).
  apply res_bind_Ok in H as (subject & _ & H). apply res_bind_Ok in H as (url & _ & [= <-]).
  split_and!.
  - exists (escape subject). split; [done | apply escape_safe].
  - exists (escape (t_project t)). split; [done | apply escape_safe].
  - done.
  - by exists url.
Qed.

Lemma to_dict_safe_witness :
  exists d, to_dict 70 task_done_ex = Ok d /\ exists subject, dict_get d "subject" = Some (PStr subject) /\
    all_chars (fun c => c <> "<"%char /\ c <> ">"%char) subject.
Proof.
  eexists. split; [reflexivity|].
  destruct (to_dict_safe 70 task_done_ex _ eq_refl) as (H & _). exact H.
Defined.
