(* ===== verification/Environments.v ===== *)
(** * [rallyci/environments]: variables for a job

    The two environment classes write variables into [job.env], one at a time, so that an exception leaves those already
    written.  [Task._get_env] does the work of the event environment in the daemon; the two are compared here. *)

From Stdlib Require Import QArith.
From S2P Require Import Prelude PyStr PyVal Task.
Open Scope nat_scope.

(** [environments/dummy.py]: [setup(export)], then [build(job)]. *)
Definition dummy_build (export : pydict) (env : pydict) : pydict :=
  fold_left (fun env kv => dict_set env kv.1 kv.2) export env.

(** [environments/event.py]: one variable, [value = value[key]] along the dotted path. *)
Definition export_one (event : pydict) (kv : string * pyval) : se pydict unit :=
  value ← se_lift (path ← as_str kv.2; walk event (split "." path));
  se_modify (fun env => dict_set env kv.1 value).

Fixpoint export_all (event : pydict) (items : pydict) : se pydict unit :=
  match items with
  | [] => mret tt
  | kv :: items => _ ← export_one event kv; export_all event items
  end.

(** [build(job)] on the raw event. *)
Definition event_build (cfg event : pydict) : se pydict unit :=
  items ← se_lift (x ← dgetitem cfg "export-event"; as_dict x);
  export_all event items.

(** ** Properties *)

(** The value of a configured variable. *)
Definition exported (event : pydict) (kv : string * pyval) : res pyval := path ← as_str kv.2; walk event (split "." path).

Lemma export_one_eq event kv env : export_one event kv env =
  match exported event kv with Ok v => (Ok tt, dict_set env kv.1 v) | Raise e => (Raise e, env) end.
Proof. unfold export_one, exported, se_lift, mbind, se_bind. by destruct (res_bind _ _ _ _). Qed.

(** The variables are written in order up to the first one that cannot be found in the event. *)
Lemma export_all_prefix event items : forall env o env', export_all event items env = (o, env') ->
  exists done rest vs, items = done ++ rest /\ Forall2 (fun kv v => exported event kv = Ok v) done vs /\
    env' = dict_update env (zip done.*1 vs) /\
    match o with
    | Ok _ => rest = []
    | Raise e => exists kv rest', rest = kv :: rest' /\ exported event kv = Raise e
    end.
Proof.
  induction items as [|kv items IH]; intros env o env'; cbn [export_all].
  - intros [= <- <-]. exists [], [], []. by split_and!.
  - unfold mbind, se_bind. rewrite export_one_eq. destruct (exported event kv) as [v|e] eqn:Ek.
    + intros H. apply IH in H as (done & rest & vs & -> & HF & -> & Ho).
      exists (kv :: done), rest, (v :: vs). split_and!; [done | by constructor | done | done].
    + intros [= <- <-]. exists [], (kv :: items), []. split_and!; [done | constructor | done | eauto].
Qed.

Lemma env_step_Ok event r kv v : exported event kv = Ok v -> env_step event r kv = Ok (dict_set r kv.1 v).
Proof. unfold exported, env_step. intros (path & -> & Hw)%res_bind_Ok. cbn [mbind res_bind]. by rewrite Hw. Qed.

Lemma env_step_Raise event r kv e : exported event kv = Raise e -> e <> KeyError -> env_step event r kv = Raise e.
Proof.
  unfold exported, env_step. destruct (as_str kv.2) as [path|e']; cbn [mbind res_bind]; [|by intros [= ->]].
  intros -> ?. by destruct e.
Qed.

(** The variables [_get_env] collects when every path is in the event. *)
Lemma env_fold_total event items vs : Forall2 (fun kv v => exported event kv = Ok v) items vs -> forall r,
  res_fold (env_step event) r items = Ok (dict_update r (zip items.*1 vs)).
Proof.
  induction 1 as [|kv v items vs Hk _ IH]; intros r; cbn [res_fold]; [done|]. rewrite (env_step_Ok _ _ _ _ Hk). apply IH.
Qed.

Lemma env_fold_raise event done kv rest vs e : Forall2 (fun kv v => exported event kv = Ok v) done vs ->
  exported event kv = Raise e -> e <> KeyError -> forall r, res_fold (env_step event) r (done ++ kv :: rest) = Raise e.
Proof.
  intros HF He Hne. induction HF as [|kv' v items vs Hk _ IH]; intros r; cbn [app res_fold].
  - by rewrite (env_step_Raise _ _ _ _ He).
  - rewrite (env_step_Ok _ _ _ _ Hk). apply IH.
Qed.

Lemma zip_keys {V} (items : pydict) (vs : list V) : length items = length vs -> dict_ok items ->
  dict_ok (zip items.*1 vs).
Proof. intros Hl Hok. unfold dict_ok, dict_keys. rewrite fst_zip; [done|]. rewrite length_fmap. lia. Qed.

(** the event environment against [Task._get_env] with the same variables: when [build] succeeds, so does [_get_env],
    and updating the job's variables with its result gives what [build] wrote; when [build] raises anything but a
    [KeyError], [_get_env] raises the same; at a path the event does not have [build] raises [KeyError], with the
    variables before it written, where [_get_env] leaves the variable out. *)
Theorem event_build_get_env cfg stream_cfg event items env o env' :
  dict_get cfg "export-event" = Some (PDict items) -> dict_get stream_cfg "env" = Some (PDict items) -> items <> [] ->
  dict_ok items -> event_build cfg event env = (o, env') ->
  match o with
  | Ok _ => exists r, get_env stream_cfg event = Ok r /\ forall k, dict_get env' k = dict_get (dict_update env r) k
  | Raise KeyError => exists done kv rest vs, items = done ++ kv :: rest /\ exported event kv = Raise KeyError /\
      Forall2 (fun kv v => exported event kv = Ok v) done vs /\ env' = dict_update env (zip done.*1 vs)
  | Raise e => get_env stream_cfg event = Raise e
  end.
Proof.
  intros Hc Hs Hne Hok Hb. unfold event_build, dgetitem, getitem, se_lift, mbind, se_bind in Hb. rewrite Hc in Hb. cbn in Hb.
  assert (get_env stream_cfg event = res_fold (env_step event) [] items) as ->.
  { unfold get_env, dget. rewrite Hs. cbn. by destruct items. }
  apply export_all_prefix in Hb as (done & rest & vs & Hi & HF & -> & Ho). destruct o as [u|e].
  - subst rest. rewrite app_nil_r in Hi. subst done. pose proof (Forall2_length _ _ _ HF) as Hl.
    eexists. split; [by apply env_fold_total|]. intros k. pose proof (zip_keys items vs Hl Hok) as Hz.
    assert (dict_ok (dict_update [] (zip items.*1 vs))) by (apply dict_ok_update; constructor).
    rewrite (dict_get_update env (zip _ _)), (dict_get_update env (dict_update _ _)), (dict_get_update []) by done.
    by destruct (dict_get (zip items.*1 vs) k).
  - destruct Ho as (kv & rest' & -> & He). destruct (decide (e = KeyError)) as [->|Hk]; [eauto 10|].
    assert (res_fold (env_step event) [] items = Raise e) as Hr by (rewrite Hi; by eapply env_fold_raise).
    by destruct e.
Qed.

Lemma event_build_get_env_witness :
  let items := [("PROJECT", PStr "change.project"); ("TOPIC", PStr "change.topic"); ("TYPE", PStr "type")] in
  let ev := [("type", PStr "t"); ("change", PDict [("project", PStr "p")])] in
  event_build [("export-event", PDict items)] ev [] = (Raise KeyError, [("PROJECT", PStr "p")]) /\
  exists done kv rest, items = done ++ kv :: rest /\ exported ev kv = Raise KeyError.
Proof.
  cbv zeta. split; [by vm_compute|].
  edestruct (event_build_get_env
    [("export-event", PDict [("PROJECT", PStr "change.project"); ("TOPIC", PStr "change.topic"); ("TYPE", PStr "type")])]
    [("env", PDict [("PROJECT", PStr "change.project"); ("TOPIC", PStr "change.topic"); ("TYPE", PStr "type")])]
    [("type", PStr "t"); ("change", PDict [("project", PStr "p")])]
    [("PROJECT", PStr "change.project"); ("TOPIC", PStr "change.topic"); ("TYPE", PStr "type")] [] (Raise KeyError)
    [("PROJECT", PStr "p")]) as (done & kv & rest & vs & Hi & He & _).
  - by vm_compute.
  - by vm_compute.
  - done.
  - apply (bool_decide_unpack _). vm_compute. exact I.
  - by vm_compute.
  - exists done, kv, rest. split; [exact Hi | exact He].
Defined.
