(* ===== verification/Gerrit.v ===== *)
(** * [rallyci/services/gerrit.py]

    The Gerrit stream: events become tasks, at most one at a time per change.  [get_task] is [_get_task],
    [handle_line] is [_handle_line] (with the JSON decoder as a parameter), [handle_lines] the loop of [run]
    over the lines of the stream.  The last part follows a stream through any sequence of events and task
    cleanups, and shows that two live tasks never work on the same change. *)

From Stdlib Require Import QArith.
From S2P Require Import Prelude PyStr PyVal PyRe Utils Job Task.
Open Scope nat_scope.

(** The keys registered by the stream ([self.tasks]) and the tasks handed to the root. *)
Record gst (R : Type) := GSt { keys : gset string; started : list (task R) }.
Arguments GSt {R}. Arguments keys {R}. Arguments started {R}.

Definition default_recheck : string := "^rally-ci recheck$".

(** [re.search(r, s, re.MULTILINE)] as a truth value. *)
Definition re_search (r s : pyval) : res bool :=
  match r, s with
  | PStr p, PStr s => multiline_search p s
  | _, _ => Raise TypeError
  end.

(** [project not in self.config.data["project"]], negated. *)
Definition known_project (data : pydict) (project : pyval) : res bool :=
  projects ← dgetitem data "project";
  match projects, project with
  | PDict d, PStr p => Ok (dict_mem d p)
  | PDict _, (PList _ | PDict _) => Raise TypeError
  | (PDict _ | PList _), _ => Ok false
  | _, _ => Raise TypeError
  end.

(** The project of an event: of its change, else of its ref update. *)
Definition event_project (event : pyval) : res pyval :=
  change ← get event "change" (PDict []);
  project ← get change "project" PNone;
  if truthy project then Ok project
  else
    upd ← get event "refUpdate" (PDict []);
    get upd "project" PNone.

Section Stream.
Context {R : Type}.
(** The configuration, the stream's own section, and the constructor of tasks. *)
Context (data cfg : pydict).
Context (mk_task : string -> pydict -> res (task R)).
(** [Root.start_task] (its start handlers may raise) and [json.loads] on a decoded line. *)
Context (root_start : task R -> res unit) (json_loads : string -> res pyval).

(** [self.tasks.add(key)] and [task.Task(self, project, event)], unless the key is registered. *)
Definition register (project : string) (event : pydict) : se (gst R) (option (task R)) :=
  let key := get_key event in
  s ← se_get;
  if decide (key ∈ keys s) then mret None
  else
    _ ← se_modify (fun s => GSt ({[key]} ∪ keys s) (started s));
    t ← se_lift (mk_task project event);
    mret (Some t).

Definition get_task (event : pyval) : se (gst R) (option (task R)) :=
  project ← se_lift (event_project event);
  if negb (truthy project) then mret None
  else
    known ← se_lift (known_project data project);
    match known, project, event with
    | true, PStr project, PDict event =>
        type ← se_lift (dgetitem event "type");
        if is_str type "patchset-created" then register project event
        else if is_str type "comment-added" then
          comment ← se_lift (dgetitem event "comment");
          m ← se_lift (re_search (dget cfg "recheck-regexp" (PStr default_recheck)) comment);
          if (m : bool) then register project event else mret None
        else if is_str type "ref-updated" then
          t ← se_lift (mk_task project event);
          mret (Some t)
        else mret None
    | _, _, _ => mret None
    end.

(** [self.root.start_task(task)] *)
Definition start (t : task R) : se (gst R) unit :=
  _ ← se_lift (root_start t);
  se_modify (fun s => GSt (keys s) (started s ++ [t])).

(** [_handle_line]: decoding errors are outside the [try]. *)
Definition handle_line (line : string) : se (gst R) unit :=
  if str_eqb line "" then mret tt
  else
    event ← se_lift (json_loads line);
    se_catch
      (t ← get_task event;
       match t with Some t => start t | None => mret tt end)
      (fun e => if is_Exception e then Some (mret tt) else None).

(** The lines [run] reads, from the fake stream or from the SSH client. *)
Definition handle_lines (lines : list string) : se (gst R) unit := se_iter handle_line lines.

(** The SSH parameters of [run]: the Gerrit port unless one is configured. *)
Definition ssh_params : res pydict :=
  ssh ← dgetitem cfg "ssh";
  d ← as_dict ssh;
  Ok (if dict_mem d "port" then d else dict_set d "port" (PInt 29418)).
End Stream.

(** ** Which comments ask for a recheck *)

Lemma parse_default_recheck : parse default_recheck = Some (line_re "rally-ci recheck").
Proof. vm_compute. reflexivity. Qed.

(** with the default expression, a comment asks for a recheck exactly when one of its lines is
    "rally-ci recheck", whatever else it says. *)
Theorem recheck_comment comment :
  re_search (PStr default_recheck) (PStr comment) =
    Ok (bool_decide ("rally-ci recheck" ∈ split nl comment)).
Proof.
  unfold re_search, multiline_search. rewrite parse_default_recheck. f_equal. apply bool_decide_ext. apply line_search.
  apply (bool_decide_unpack _). vm_compute. exact I.
Qed.

(** ** What an event does *)

Section EventLemmas.
Context {R : Type} (data cfg : pydict) (mk_task : string -> pydict -> res (task R)).

(** The decision for an event: nothing, an unconditional task, or one per key. *)
Inductive verdict := VIgnore | VTask (project : string) (event : pydict) | VKeyed (project : string) (event : pydict).

Definition classify (event : pyval) : res verdict :=
  project ← event_project event;
  if negb (truthy project) then Ok VIgnore
  else
    known ← known_project data project;
    match known, project, event with
    | true, PStr project, PDict event =>
        type ← dgetitem event "type";
        if is_str type "patchset-created" then Ok (VKeyed project event)
        else if is_str type "comment-added" then
          comment ← dgetitem event "comment";
          m ← re_search (dget cfg "recheck-regexp" (PStr default_recheck)) comment;
          Ok (if (m : bool) then VKeyed project event else VIgnore)
        else if is_str type "ref-updated" then Ok (VTask project event)
        else Ok VIgnore
    | _, _, _ => Ok VIgnore
    end.

Lemma get_task_eq event (s : gst R) :
  get_task data cfg mk_task event s =
    match classify event with
    | Raise e => (Raise e, s)
    | Ok VIgnore => (Ok None, s)
    | Ok (VTask p ev) => (Some <$> mk_task p ev, s)
    | Ok (VKeyed p ev) =>
        if decide (get_key ev ∈ keys s) then (Ok None, s)
        else (Some <$> mk_task p ev, GSt ({[get_key ev]} ∪ keys s) (started s))
    end.
Proof.
  unfold get_task, classify, register, se_lift, se_get, se_modify, mret, se_ret, mbind, se_bind, res_bind.
  destruct (event_project event) as [project|e]; [|done].
  destruct (negb (truthy project)); [done|].
  destruct (known_project data project) as [known|e]; [|done].
  destruct known, project as [| | | |p| |], event as [| | | | | |ev]; try done.
  destruct (dgetitem ev "type") as [type|e]; [|done].
  destruct (is_str type "patchset-created").
  { case_decide; [done|]. by destruct (mk_task p ev). }
  destruct (is_str type "comment-added").
  { destruct (dgetitem ev "comment") as [comment|e]; [|done].
    destruct (re_search _ comment) as [[]|e]; try done.
    case_decide; [done|]. by destruct (mk_task p ev). }
  destruct (is_str type "ref-updated"); [|done]. by destruct (mk_task p ev).
Qed.

Lemma classify_event event p ev :
  (classify event = Ok (VKeyed p ev) -> event = PDict ev /\
     exists type, dict_get ev "type" = Some type /\ is_str type "ref-updated" = false) /\
  (classify event = Ok (VTask p ev) -> event = PDict ev /\ dict_get ev "type" = Some (PStr "ref-updated")).
Proof.
  unfold classify. destruct (event_project event) as [project|e]; [|done]. simpl.
  destruct (negb (truthy project)); [done|].
  destruct (known_project data project) as [known|e]; [|done]. simpl.
  destruct known, project as [| | | |q| |], event as [| | | | | |ev']; try done.
  destruct (dgetitem ev' "type") as [type|e] eqn:Et; [|done]. simpl.
  unfold dgetitem in Et. apply getitem_Ok in Et as (d & [= <-] & Et).
  destruct (is_str type "patchset-created") eqn:E1.
  { apply is_str_true in E1. split; [|done]. intros [= -> ->]. split; [done|]. exists type. by subst. }
  destruct (is_str type "comment-added") eqn:E2.
  { apply is_str_true in E2. destruct (dgetitem ev' "comment") as [c|e]; [|done]. simpl.
    destruct (re_search _ c) as [[]|e]; try done. simpl. split; [|done]. intros [= -> ->].
    split; [done|]. exists type. by subst. }
  destruct (is_str type "ref-updated") eqn:E3; [|done].
  apply is_str_true in E3. split; [done|]. intros [= -> ->]. by subst.
Qed.
End EventLemmas.

(** ** A stream over time *)

(** What the stream relies on: a task carries the event it was made from. *)
Class TaskMaker {R} (mk_task : string -> pydict -> res (task R)) : Prop :=
  mk_task_event : forall p ev t, mk_task p ev = Ok t -> t_event t = ev.

#[export] Instance new_task_maker {R} data rnds now stream_cfg rnd :
  TaskMaker (R := R) (fun p ev => new_task data rnds now stream_cfg p ev rnd).
Proof. intros p ev t H. by eapply new_task_event. Qed.

Section Lifecycle.
Context {R : Type} (data cfg : pydict) (mk_task : string -> pydict -> res (task R)) `{!TaskMaker mk_task}.
Context (root_start : task R -> res unit) (json_loads : string -> res pyval).
Context (ssh_run : list string -> res unit) (end_handlers : list (task R -> res unit)) (now : Q).

(** The stream, its tasks that are started and whose cleanup has not begun, and those whose cleanup has removed the key
    and waits for the results to be published. *)
Record sys := Sys { stream : gst R; live : list (task R); publishing : list (task R) }.

Definition init_sys : sys := Sys (GSt ∅ []) [] [].

(** A line is handled, the cleanup of a live task runs up to its first suspension (or raises before it), or goes on from
    there, in any order. *)
Inductive sstep : sys -> sys -> Prop :=
| SLine line s s' r :
    handle_line data cfg mk_task root_start json_loads line (stream s) = (r, s') ->
    sstep s (Sys s' (live s ++ drop (length (started (stream s))) (started s')) (publishing s))
| SCleanup s i t c r :
    live s !! i = Some t ->
    cleanup_begin now (CSt t (keys (stream s)) [] []) = (r, c) ->
    sstep s (Sys (GSt (c_keys c) (started (stream s))) (delete i (live s))
               (match r with Ok _ => publishing s ++ [c_task c] | Raise _ => publishing s end))
| SPublished s i t c r :
    publishing s !! i = Some t ->
    cleanup_rest cfg ssh_run end_handlers (CSt t (keys (stream s)) [] []) = (r, c) ->
    sstep s (Sys (GSt (c_keys c) (started (stream s))) (live s) (delete i (publishing s))).

(** Gerrit's events: a ref update concerns no change (its key is empty), the others name a change. *)
Definition wf_event (ev : pydict) : Prop :=
  (dict_get ev "type" = Some (PStr "ref-updated") /\ get_key ev = "") \/
  (dict_get ev "type" <> Some (PStr "ref-updated") /\ get_key ev <> "").

Definition task_key (t : task R) : string := get_key (t_event t).

(** The keys of the live tasks that concern a change. *)
Definition live_keys (l : list (task R)) : list string := List.filter (fun k => negb (str_eqb k "")) (task_key <$> l).

Definition inv (s : sys) : Prop :=
  NoDup (live_keys (live s)) /\ Forall (fun k => k ∈ keys (stream s)) (live_keys (live s)) /\
  "" ∉ keys (stream s).

Lemma live_keys_app l1 l2 : live_keys (l1 ++ l2) = live_keys l1 ++ live_keys l2.
Proof. unfold live_keys. by rewrite fmap_app, List.filter_app. Qed.

(** The first part of a cleanup takes the key away, whether or not it raises; the rest leaves the keys alone. *)
Lemma cleanup_begin_keys t ks c r :
  cleanup_begin now (CSt t ks [] []) = (r, c) -> c_keys c = ks ∖ {[task_key t]}.
Proof.
  unfold cleanup_begin. rewrite se_bind_eq. cbn [se_modify]. rewrite se_bind_eq. cbn [se_get].
  unfold remove_key. cbn [c_task c_keys set_finished_at t_event].
  case_decide as Hk; intros [= <- <-]; cbn; [done | set_solver].
Qed.

Lemma cleanup_rest_keys t ks c r :
  cleanup_rest cfg ssh_run end_handlers (CSt t ks [] []) = (r, c) -> c_keys c = ks.
Proof.
  unfold cleanup_rest. rewrite se_bind_eq. set (s1 := CSt _ _ _ _).
  destruct (publish_step_frame cfg ssh_run s1) as (s2 & -> & _ & Hs2 & _).
  intros Hi. change (c_keys c = c_keys s1). rewrite <- Hs2.
  pose proof (se_iter_inv (fun s => c_keys s = c_keys s2) call_end_handler end_handlers s2 eq_refl) as Hit.
  rewrite Hi in Hit. apply Hit. intros cb s _ Hs.
  unfold call_end_handler, se_catch, se_get, se_modify, se_lift, mbind, se_bind. simpl.
  destruct (cb (c_task s)) as [?|e]; [done|]. destruct (is_Exception e); done.
Qed.

(** A line starts at most one task, and registers its key when the key is not empty. *)
Lemma handle_line_effect line s r s' :
  (forall ev, json_loads line = Ok (PDict ev) -> wf_event ev) ->
  handle_line data cfg mk_task root_start json_loads line s = (r, s') ->
  (started s' = started s /\ (keys s' = keys s \/ exists k, k <> "" /\ keys s' = {[k]} ∪ keys s)) \/
  exists t, started s' = started s ++ [t] /\
    ((task_key t = "" /\ keys s' = keys s) \/
     (task_key t <> "" /\ task_key t ∉ keys s /\ keys s' = {[task_key t]} ∪ keys s)).
Proof.
  intros Hwf. unfold handle_line. destruct (str_eqb line ""); [intros [= <- <-]; by left; split; [|left]|].
  rewrite se_bind_eq. unfold se_lift at 1. destruct (json_loads line) as [event|e]; [|intros [= <- <-]; by left; split; [|left]].
  unfold se_catch. rewrite se_bind_eq, get_task_eq.
  destruct (classify data cfg event) as [v|e] eqn:Ec; cycle 1.
  { destruct (is_Exception e); intros [= <- <-]; left; (split; [done|by left]). }
  destruct v as [|p ev|p ev].
  - intros [= <- <-]. left. split; [done|by left].
  - apply classify_event in Ec as [-> Hty]. specialize (Hwf ev eq_refl).
    assert (get_key ev = "") as Hk by (destruct Hwf as [[_ ?]|[? _]]; naive_solver).
    destruct (mk_task p ev) as [t|e] eqn:Em; simpl.
    + apply mk_task_event in Em. unfold start. rewrite se_bind_eq. unfold se_lift.
      destruct (root_start t) as [[]|e].
      * intros [= <- <-]. right. exists t. split; [done|]. left. unfold task_key. by rewrite Em.
      * destruct (is_Exception e); intros [= <- <-]; left; (split; [done|by left]).
    + destruct (is_Exception e); intros [= <- <-]; left; (split; [done|by left]).
  - apply classify_event in Ec as (-> & type & Hty & Hnr). specialize (Hwf ev eq_refl).
    assert (get_key ev <> "") as Hk.
    { destruct Hwf as [[Hr _]|[_ ?]]; [|done]. rewrite Hty in Hr. injection Hr as ->. done. }
    case_decide as Hin; [intros [= <- <-]; left; (split; [done|by left])|].
    destruct (mk_task p ev) as [t|e] eqn:Em; simpl.
    + apply mk_task_event in Em. unfold start. rewrite se_bind_eq. unfold se_lift.
      destruct (root_start t) as [[]|e].
      * intros [= <- <-]. right. exists t. split; [done|]. right. unfold task_key. rewrite Em. by split_and!.
      * destruct (is_Exception e); intros [= <- <-]; left; (split; [done|right; by exists (get_key ev)]).
    + destruct (is_Exception e); intros [= <- <-]; left; (split; [done|right; by exists (get_key ev)]).
Qed.

Lemma live_keys_delete l i t :
  l !! i = Some t -> NoDup (live_keys l) ->
  live_keys (delete i l) `sublist_of` live_keys l /\
  (task_key t <> "" -> task_key t ∉ live_keys (delete i l)).
Proof.
  intros Hi.
  assert (live_keys l = live_keys (take i l) ++ live_keys [t] ++ live_keys (drop (S i) l)) as ->.
  { rewrite <- !live_keys_app. f_equal. symmetry. by apply take_drop_middle. }
  rewrite delete_take_drop, live_keys_app.
  generalize (live_keys (take i l)) as a, (live_keys (drop (S i) l)) as b. intros a b.
  unfold live_keys. simpl. destruct (str_eqb (task_key t) "") eqn:E; simpl.
  - apply str_eqb_true in E. intros _. by split.
  - intros Hnd. split; [by apply sublist_app, sublist_cons|].
    intros _. apply NoDup_app in Hnd as (_ & Hd & [Hb _]%NoDup_cons).
    rewrite not_elem_of_app. split; [|done]. intros Ha. apply (Hd _ Ha). set_solver.
Qed.

Lemma sstep_inv s s' :
  (forall line ev, json_loads line = Ok (PDict ev) -> wf_event ev) -> inv s -> sstep s s' -> inv s'.
Proof.
  intros Hwf (Hnd & Hall & Hempty) Hstep. destruct Hstep as [line s s' r Hl|s i t c r Hi Hc|s i t c r Hi Hc]; simpl in *.
  - apply handle_line_effect in Hl; [|by apply Hwf]. unfold inv. simpl.
    assert (forall k l, Forall (fun k => k ∈ keys (stream s)) l -> Forall (fun x => x ∈ {[k]} ∪ keys (stream s)) l) as Hmono.
    { intros k l Hl'. eapply Forall_impl; [done|]. set_solver. }
    destruct Hl as [[-> Hk]|(t & -> & Hk)].
    + rewrite drop_all, app_nil_r. split; [done|].
      destruct Hk as [->|(k & Hne & ->)]; [done|]. split; [by apply Hmono|]. set_solver.
    + rewrite drop_app_length, live_keys_app. unfold live_keys at 2 4. simpl.
      destruct Hk as [[Hk ->]|(Hne & Hnew & ->)].
      * rewrite Hk. simpl. by rewrite app_nil_r.
      * rewrite (proj2 (str_eqb_false _ _) Hne). simpl. split_and!.
        -- apply NoDup_app. split; [done|]. split; [|apply NoDup_singleton].
           intros k Hk [= ->]%list_elem_of_singleton. rewrite Forall_forall in Hall. by apply Hnew, Hall.
        -- apply Forall_app. split; [by apply Hmono|]. apply Forall_singleton. set_solver.
        -- set_solver.
  - apply cleanup_begin_keys in Hc. unfold inv. simpl. rewrite Hc.
    destruct (live_keys_delete _ _ _ Hi Hnd) as [Hsub Hgone]. split_and!.
    + by eapply sublist_NoDup.
    + apply Forall_forall. intros k Hk.
      assert (k ∈ live_keys (live s)) as Hk' by (by eapply elem_of_submseteq; [|apply sublist_submseteq]).
      rewrite Forall_forall in Hall. apply elem_of_difference. split; [by apply Hall|].
      intros ->%elem_of_singleton. apply Hgone; [|done]. intros He. rewrite He in *. by apply Hempty, Hall.
    + set_solver.
  - apply cleanup_rest_keys in Hc. unfold inv. simpl. by rewrite Hc.
Qed.
End Lifecycle.

(** C1: from an empty stream, through any sequence of lines, beginnings and ends of cleanups in any order, no two live
    tasks (started, and their cleanup has not begun) work on the same change, and the key of every live task that
    concerns a change is registered, so that a further event for it is recognised as a duplicate.  This is for events
    of which exactly the ref updates name no change. *)
Theorem one_live_task_per_change {R} data cfg mk_task `{!TaskMaker (R := R) mk_task} root_start json_loads
    ssh_run end_handlers now s :
  (forall line ev, json_loads line = Ok (PDict ev) -> wf_event ev) ->
  rtc (sstep data cfg mk_task root_start json_loads ssh_run end_handlers now) init_sys s ->
  NoDup (live_keys (live s)) /\ Forall (fun k => k ∈ keys (stream s)) (live_keys (live s)).
Proof.
  intros Hwf Hreach. assert (inv s) as (? & ? & _); [|done]. revert Hreach.
  apply (rtc_ind_r (fun s => inv s)).
  - split_and!; [constructor | constructor | set_solver].
  - intros s1 s2 _ Hstep Hinv. by eapply sstep_inv.
Qed.

Definition mk_ex (p : string) (ev : pydict) : res (task unit) := Ok (MkTask "T" ev p [] 0 PNone).

#[export] Instance mk_ex_maker : TaskMaker mk_ex.
Proof. intros p ev t [= <-]. reflexivity. Qed.

Definition data_gerrit_ex : pydict := [("project", PDict [("openstack/rally", PDict [])])].

Lemma one_live_task_per_change_witness :
  exists s, rtc (sstep data_gerrit_ex [] mk_ex (fun _ => Ok tt) (fun _ => Ok (PDict event_ex)) (fun _ => Ok tt) [] 0)
              init_sys s /\
    length (live s) = 1 /\ NoDup (live_keys (live s)).
Proof.
  assert (exists s, rtc (sstep data_gerrit_ex [] mk_ex (fun _ => Ok tt) (fun _ => Ok (PDict event_ex))
                           (fun _ => Ok tt) [] 0) init_sys s /\ length (live s) = 1) as (s & Hs & Hlen).
  { eexists. split.
    - eapply rtc_l; [eapply (SLine _ _ _ _ _ _ _ _ "line1"); reflexivity|].
      eapply rtc_l; [eapply (SLine _ _ _ _ _ _ _ _ "line2"); reflexivity|]. apply rtc_refl.
    - reflexivity. }
  exists s. split_and!; [exact Hs | exact Hlen|].
  apply (one_live_task_per_change data_gerrit_ex [] mk_ex (fun _ => Ok tt) (fun _ => Ok (PDict event_ex))
           (fun _ => Ok tt) [] 0 s); [|exact Hs].
  intros line ev [= <-]. right. split; intros [=].
Defined.

(** C38: if the constructor of a task raises (a job the configuration does not define, say), the key stays registered
    without a task: every later event for the same change is ignored as a duplicate. *)
Theorem failed_task_blocks_change {R} data cfg (mk_task : string -> pydict -> res (task R)) event p ev e s :
  classify data cfg event = Ok (VKeyed p ev) -> get_key ev ∉ keys s -> mk_task p ev = Raise e ->
  exists s', get_task data cfg mk_task event s = (Raise e, s') /\ started s' = started s /\
    forall event' p' ev', classify data cfg event' = Ok (VKeyed p' ev') -> get_key ev' = get_key ev ->
      get_task data cfg mk_task event' s' = (Ok None, s').
Proof.
  intros Hc Hk Hm. eexists. rewrite get_task_eq, Hc, decide_False, Hm by done. split_and!; [done|done|].
  intros event' p' ev' Hc' Hk'. rewrite get_task_eq, Hc', Hk', decide_True by set_solver. done.
Qed.

Lemma failed_task_blocks_change_witness :
  exists s', get_task (R := unit) data_gerrit_ex [] (fun _ _ => Raise KeyError) (PDict event_ex) (GSt ∅ [])
               = (Raise KeyError, s') /\
    get_task data_gerrit_ex [] (fun _ _ => Raise KeyError) (PDict event_ex) s' = (Ok None, s').
Proof.
  destruct (failed_task_blocks_change (R := unit) data_gerrit_ex [] (fun _ _ => Raise KeyError) (PDict event_ex)
              "openstack/rally" event_ex KeyError (GSt ∅ [])) as (s' & H & _ & Hb).
  - reflexivity.
  - set_solver.
  - reflexivity.
  - exists s'. split; [exact H|]. by apply (Hb _ "openstack/rally" event_ex).
Defined.

Lemma handle_line_Raise {R} data cfg (mk_task : string -> pydict -> res (task R)) root_start json_loads line s e s' :
  handle_line data cfg mk_task root_start json_loads line s = (Raise e, s') -> is_Exception e = true ->
  line <> "" /\ json_loads line = Raise e /\ s' = s.
Proof.
  unfold handle_line. destruct (str_eqb line "") eqn:E; [done|]. apply str_eqb_false in E.
  rewrite se_bind_eq. unfold se_lift at 1. destruct (json_loads line) as [event|e'].
  - intros H%se_catch_log. congruence.
  - intros [= -> ->]. done.
Qed.

Lemma handle_lines_Raise {R} data cfg (mk_task : string -> pydict -> res (task R)) root_start json_loads lines s e s' :
  handle_lines data cfg mk_task root_start json_loads lines s = (Raise e, s') -> is_Exception e = true ->
  exists before line after, lines = before ++ line :: after /\ line <> "" /\ json_loads line = Raise e /\
    handle_lines data cfg mk_task root_start json_loads before s = (Ok tt, s').
Proof.
  unfold handle_lines. intros H He. revert s H. induction lines as [|line lines IH]; intros s; simpl; [done|].
  rewrite se_bind_eq. destruct (handle_line _ _ _ _ _ line s) as [[[]|e'] s1] eqn:El.
  - intros Hl. destruct (IH s1 Hl) as (before & bad & after & -> & Hne & Hj & Hb).
    exists (line :: before), bad, after. split_and!; [done|done|done|]. simpl. by rewrite se_bind_eq, El.
  - intros [= -> ->]. apply handle_line_Raise in El as (Hne & Hj & ->); [|done].
    exists [], line, lines. by split_and!.
Qed.

(** an event that fails (unknown configuration, a raising start handler, a malformed event) never stops the
    stream: the loop over the lines stops with an exception only at a line that is not valid JSON, which
    is decoded outside the [try]; the lines after it are lost. *)
Theorem stream_stops_only_on_bad_json {R} data cfg (mk_task : string -> pydict -> res (task R)) root_start json_loads lines s e s' :
  handle_lines data cfg mk_task root_start json_loads lines s = (Raise e, s') -> is_Exception e = true ->
  exists before line after, lines = before ++ line :: after /\ line <> "" /\ json_loads line = Raise e /\
    handle_lines data cfg mk_task root_start json_loads before s = (Ok tt, s').
Proof. apply handle_lines_Raise. Qed.

Definition json_ex (line : string) : res pyval :=
  if str_eqb line "garbage" then Raise ValueError else Ok (PDict event_ex).

Lemma stream_stops_only_on_bad_json_witness :
  exists s', handle_lines data_gerrit_ex [] mk_ex (fun _ => Ok tt) json_ex ["{}"; "garbage"; "{}"] (GSt ∅ [])
               = (Raise ValueError, s') /\
    exists before line after, ["{}"; "garbage"; "{}"] = before ++ line :: after /\ json_ex line = Raise ValueError.
Proof.
  eexists. split; [reflexivity|].
  edestruct (stream_stops_only_on_bad_json data_gerrit_ex [] mk_ex (fun _ => Ok tt) json_ex
               ["{}"; "garbage"; "{}"] (GSt ∅ [])) as (before & line & after & Heq & _ & Hj & _).
  - reflexivity.
  - reflexivity.
  - exists before, line, after. split; [exact Heq | exact Hj].
Defined.
