(* ===== verification/Status.v ===== *)
(** * [rallyci/common/periodictask.py] and [rallyci/services/status.py]

    The timer object of the status page and the status service: its web-socket clients, the deque of finished
    tasks and the callbacks it registers with the root.  [loop.call_later] is modelled by a list of pending
    timers; sending to a web socket (aiohttp) is a parameter that may raise. *)

From S2P Require Import Prelude PyStr PyVal Config.

(** ** Periodic tasks *)
Module PeriodicTask.
(** The two functions a timer can be armed with. *)
Inductive callback := CRun | CMethod.

#[export] Instance callback_eq_dec : EqDecision callback.
Proof. solve_decision. Defined.

Record timer := Timer { tid : nat; due : Z; cb : callback }.

(** The object, the event loop's pending timers and the times the method was called (latest first). *)
Record pt := PT { active : bool; interval : Z; handler : option nat;
                  timers : list timer; next_id : nat; calls : list Z }.

Definition new (interval : Z) : pt := PT false interval None [] 0 [].

(** [self._handler = self._loop.call_later(self._interval, f)] at time [now] *)
Definition call_later (f : callback) (now : Z) (s : pt) : pt :=
  PT (active s) (interval s) (Some (next_id s)) (timers s ++ [Timer (next_id s) (now + interval s) f])
     (S (next_id s)) (calls s).

Definition run (now : Z) (s : pt) : pt := call_later CMethod now s.

Definition start (now : Z) (s : pt) : pt := call_later CRun now s.

(** [stop]: cancel the latest handler, if there is one. *)
Definition stop (s : pt) : pt :=
  match handler s with
  | Some i => PT (active s) (interval s) (handler s) (List.filter (fun t => negb (tid t =? i)) (timers s))
                 (next_id s) (calls s)
  | None => s
  end.

(** The loop fires a timer that is due. *)
Definition fire (i : nat) (now : Z) (s : pt) : pt :=
  match list_find (fun t => tid t = i) (timers s) with
  | Some (_, t) =>
      let s' := PT (active s) (interval s) (handler s) (List.filter (fun t => negb (tid t =? i)) (timers s))
                   (next_id s) (calls s) in
      match cb t with
      | CRun => run now s'
      | CMethod => PT (active s') (interval s') (handler s') (timers s') (next_id s') (now :: calls s')
      end
  | None => s
  end.

Inductive step : pt -> pt -> Prop :=
| step_start now s : step s (start now s)
| step_stop s : step s (stop s)
| step_fire i t now s : t ∈ timers s -> tid t = i -> (due t <= now)%Z -> step s (fire i now s).

(** Firing the only pending timer when it is due, [n] times. *)
Fixpoint elapse (n : nat) (s : pt) : pt :=
  match n, timers s with
  | S n, t :: _ => elapse n (fire (tid t) (due t) s)
  | _, _ => s
  end.

Lemma fire_head i d c s :
  timers s = [Timer i d c] ->
  fire i d s = (match c with CRun => run d | CMethod => fun s => PT (active s) (interval s) (handler s) (timers s) (next_id s) (d :: calls s) end)
                 (PT (active s) (interval s) (handler s) [] (next_id s) (calls s)).
Proof. intros H. unfold fire. rewrite H. simpl. rewrite decide_True by done. simpl. rewrite Nat.eqb_refl. by destruct c. Qed.
End PeriodicTask.

(** started once, a periodic task calls its method exactly once, two intervals later, and then never again:
    nothing re-arms the timer, however long the loop runs. *)
Theorem periodic_task_fires_once i t0 n :
  PeriodicTask.calls (PeriodicTask.elapse (2 + n) (PeriodicTask.start t0 (PeriodicTask.new i))) = [(t0 + i + i)%Z] /\
  PeriodicTask.timers (PeriodicTask.elapse (2 + n) (PeriodicTask.start t0 (PeriodicTask.new i))) = [].
Proof.
  change (2 + n) with (S (S n)). cbn [PeriodicTask.elapse PeriodicTask.start PeriodicTask.call_later PeriodicTask.new
    PeriodicTask.timers app PeriodicTask.tid PeriodicTask.due PeriodicTask.next_id PeriodicTask.interval].
  erewrite PeriodicTask.fire_head by done.
  cbn [PeriodicTask.run PeriodicTask.call_later PeriodicTask.timers app PeriodicTask.tid PeriodicTask.due
       PeriodicTask.next_id PeriodicTask.interval].
  erewrite PeriodicTask.fire_head by done.
  destruct n; done.
Qed.

Lemma fire_active i now s : PeriodicTask.active (PeriodicTask.fire i now s) = PeriodicTask.active s.
Proof. unfold PeriodicTask.fire. destruct (list_find _ _) as [[k t]|]; [|done]. by destruct (PeriodicTask.cb t). Qed.

(** the [active] flag the status page tests is false in every reachable state, so each connection starts a new
    timer and none is ever stopped when the last client leaves. *)
Theorem periodic_task_never_active i s :
  rtc PeriodicTask.step (PeriodicTask.new i) s -> PeriodicTask.active s = false.
Proof.
  apply (rtc_ind_r (fun s => PeriodicTask.active s = false)); [done|].
  intros s1 s2 _ Hs IH. destruct Hs as [now s1|s1|j t now s1 _ _ _].
  - exact IH.
  - unfold PeriodicTask.stop. by destruct (PeriodicTask.handler s1).
  - by rewrite fire_active.
Qed.

Lemma periodic_task_never_active_witness :
  exists s, rtc PeriodicTask.step (PeriodicTask.new 60) s /\ PeriodicTask.active s = false.
Proof.
  exists (PeriodicTask.start 5 (PeriodicTask.new 60)).
  assert (rtc PeriodicTask.step (PeriodicTask.new 60) (PeriodicTask.start 5 (PeriodicTask.new 60))) as H.
  { eapply rtc_l; [apply PeriodicTask.step_start | apply rtc_refl]. }
  split; [exact H | apply (periodic_task_never_active 60); exact H].
Defined.

(** ** The status service *)
Module Service.
Section Service.
(** Web sockets, and [ws.send_str(json.dumps(msg))] on one of them. *)
Context {W : Type} `{EqDecision W}.
Context (send_str : W -> pyval -> res unit).

(** [finished] is the deque (oldest first), [outbox] what was sent to whom. *)
Record status := Status { clients : list W; finished : list pyval; stats_sender : PeriodicTask.pt;
                          outbox : list (W * pyval) }.

Definition new (interval : Z) : status := Status [] [] (PeriodicTask.new interval) [].

Definition send (msg : pyval) (c : W) : se status unit :=
  _ ← se_lift (send_str c msg);
  se_modify (fun s => Status (clients s) (finished s) (stats_sender s) (outbox s ++ [(c, msg)])).

Definition send_all (msg : pyval) : se status unit :=
  s ← se_get;
  se_iter (send msg) (clients s).

(** The callbacks; [d] is the outcome of [to_dict()]. *)
Definition task_started_cb (d : res pydict) : se status unit :=
  d ← se_lift d;
  send_all (PDict [("type", PStr "task-started"); ("task", PDict d)]).

Definition job_status_cb (d : pydict) : se status unit :=
  send_all (PDict [("type", PStr "job-status-update"); ("job", PDict d)]).

Definition maxlen : nat := 10.

Definition task_finished_cb (id : string) (d : res pydict) : se status unit :=
  d ← se_lift d;
  _ ← se_modify (fun s => Status (clients s) (lastn maxlen (finished s ++ [PDict d])) (stats_sender s) (outbox s));
  send_all (PDict [("type", PStr "task-finished"); ("id", PStr id)]).

Definition send_daemon_statistic (memory_used : Z) : se status unit :=
  send_all (PDict [("type", PStr "daemon-statistics"); ("memory-used", PInt memory_used)]).

(** [ws] up to its receive loop: the client is registered, the timer is started unless it is active, and the
    client gets the running tasks and the finished ones. *)
Definition ws_connect (now : Z) (tasks : list (res pydict)) (w : W) : se status unit :=
  _ ← se_modify (fun s => Status (clients s ++ [w]) (finished s) (stats_sender s) (outbox s));
  _ ← se_modify (fun s =>
        if PeriodicTask.active (stats_sender s) then s
        else Status (clients s) (finished s) (PeriodicTask.start now (stats_sender s)) (outbox s));
  ds ← se_lift (res_map (fun d => d) tasks);
  s ← se_get;
  send (PDict [("type", PStr "all-tasks"); ("tasks", PList ((PDict <$> ds) ++ finished s))]) w.

(** [ws] after its loop: a close message or a disconnection. *)
Definition ws_disconnect (w : W) : se status unit :=
  s ← se_get;
  cs ← se_lift (list_remove w (clients s));
  se_modify (fun s =>
    if decide (cs = []) then
      if PeriodicTask.active (stats_sender s)
      then Status cs (finished s) (PeriodicTask.stop (stats_sender s)) (outbox s)
      else Status cs (finished s) (stats_sender s) (outbox s)
    else Status cs (finished s) (stats_sender s) (outbox s)).

(** The whole handler, for a client whose loop ends with [o]: [Ok] for a close message, or what
    [ws.receive()] raises. *)
Definition ws (now : Z) (tasks : list (res pydict)) (w : W) (o : res unit) : se status unit :=
  _ ← se_catch (_ ← ws_connect now tasks w; se_lift o)
               (fun e => match e with ClientDisconnectedError => Some (mret tt) | _ => None end);
  ws_disconnect w.

Lemma send_Ok msg c s :
  send_str c msg = Ok tt ->
  send msg c s = (Ok tt, Status (clients s) (finished s) (stats_sender s) (outbox s ++ [(c, msg)])).
Proof. intros H. unfold send, se_lift, mbind, se_bind, se_modify. by rewrite H. Qed.

Lemma send_clients_Ok msg cs s :
  Forall (fun c => send_str c msg = Ok tt) cs ->
  se_iter (send msg) cs s =
    (Ok tt, Status (clients s) (finished s) (stats_sender s) (outbox s ++ ((fun c => (c, msg)) <$> cs))).
Proof.
  intros Hall. revert s. induction Hall as [|c cs Hc _ IH]; intros s; simpl.
  - rewrite app_nil_r. by destruct s.
  - rewrite se_bind_eq, send_Ok by done. rewrite IH. simpl. by rewrite <- app_assoc.
Qed.

Lemma send_clients_frame msg cs s r s' :
  se_iter (send msg) cs s = (r, s') -> clients s' = clients s /\ finished s' = finished s.
Proof.
  intros Hs. pose proof (se_iter_inv (fun s' => clients s' = clients s /\ finished s' = finished s)
                           (send msg) cs s (conj eq_refl eq_refl)) as Hi.
  rewrite Hs in Hi. apply Hi. intros c s1 _ [Hc Hf].
  unfold send, se_lift, mbind, se_bind, se_modify. by destruct (send_str c msg).
Qed.

(** The finished tasks reported so far, applied in order. *)
Fixpoint finish_all (l : list (string * pydict)) : se status unit :=
  match l with
  | [] => mret tt
  | (id, d) :: l => fun s => finish_all l (task_finished_cb id (Ok d) s).2
  end.

Lemma task_finished_cb_finished id d s :
  finished (task_finished_cb id (Ok d) s).2 = lastn maxlen (finished s ++ [PDict d]).
Proof.
  unfold task_finished_cb. rewrite se_bind_eq. cbn [se_lift]. rewrite se_bind_eq. cbn [se_modify].
  destruct (send_all _ _) as [r s'] eqn:E. unfold send_all in E. rewrite se_bind_eq in E. cbn [se_get] in E.
  apply send_clients_frame in E as [_ E]. cbn [snd]. by rewrite E.
Qed.

Lemma finish_all_finished l s past :
  finished s = lastn maxlen past ->
  finished (finish_all l s).2 = lastn maxlen (past ++ (PDict ∘ snd <$> l)).
Proof.
  revert s past. induction l as [|[id d] l IH]; intros s past Hs; csimpl.
  - by rewrite app_nil_r.
  - rewrite (IH _ (past ++ [PDict d])); [by rewrite <- app_assoc|].
    rewrite task_finished_cb_finished, Hs. apply lastn_snoc.
Qed.
End Service.
Arguments Status {W}. Arguments clients {W}. Arguments finished {W}. Arguments stats_sender {W}. Arguments outbox {W}.
End Service.

(** whatever the clients do, the page keeps exactly the last ten finished tasks, oldest first. *)
Theorem finished_last_ten {W} (send_str : W -> pyval -> res unit) i l :
  Service.finished (Service.finish_all send_str l (Service.new i)).2 = lastn 10 (PDict ∘ snd <$> l) /\
  length (Service.finished (Service.finish_all send_str l (Service.new i)).2) <= 10.
Proof.
  rewrite (Service.finish_all_finished send_str l (Service.new i) []) by done. simpl.
  split; [done|]. rewrite length_lastn. unfold Service.maxlen. lia.
Qed.

(** a broadcast reaches every connected client exactly once, in order, unless one of the sockets raises; then the
    clients before it have the message, the others do not, and the exception goes to the caller. *)
Theorem send_all_delivery {W} (send_str : W -> pyval -> res unit) msg s :
  (Forall (fun c => send_str c msg = Ok tt) (Service.clients s) /\
   exists s', Service.send_all send_str msg s = (Ok tt, s') /\
     Service.outbox s' = Service.outbox s ++ ((fun c => (c, msg)) <$> Service.clients s)) \/
  (exists before c after e s', Service.clients s = before ++ c :: after /\ send_str c msg = Raise e /\
     Service.send_all send_str msg s = (Raise e, s') /\
     Service.outbox s' = Service.outbox s ++ ((fun c => (c, msg)) <$> before)).
Proof.
  assert (forall cs s, Forall (fun c => send_str c msg = Ok tt) cs \/
    exists before c after e s', cs = before ++ c :: after /\ send_str c msg = Raise e /\
      se_iter (Service.send send_str msg) cs s = (Raise e, s') /\
      Service.outbox s' = Service.outbox s ++ ((fun c => (c, msg)) <$> before)) as Hgen.
  { intros cs. induction cs as [|c cs IH]; intros s0; [by left|].
    destruct (send_str c msg) as [[]|e] eqn:Ec.
    - destruct (IH (Service.Status (Service.clients s0) (Service.finished s0) (Service.stats_sender s0)
                      (Service.outbox s0 ++ [(c, msg)]))) as [Hall|(b & c' & a & e & s' & -> & He & Hs & Ho)].
      + left. by constructor.
      + right. exists (c :: b), c', a, e, s'. split_and!; [done|done| |].
        * simpl. by rewrite se_bind_eq, Service.send_Ok.
        * rewrite Ho. simpl. by rewrite <- app_assoc.
    - right. exists [], c, cs, e, s0. split_and!; [done|done| |by rewrite app_nil_r].
      simpl. rewrite se_bind_eq. unfold Service.send, se_lift, mbind, se_bind. by rewrite Ec. }
  destruct (Hgen (Service.clients s) s) as [Hall|(b & c & a & e & s' & Hc & He & Hs & Ho)].
  - left. split; [done|]. eexists. split; [|shelve].
    unfold Service.send_all, se_get, mbind, se_bind. by apply Service.send_clients_Ok.
    Unshelve. done.
  - right. exists b, c, a, e, s'. by split_and!.
Qed.

(** ** Registration with the root *)

(** The handler lists of the root; a handler is a bound method, identified by a number. *)
Record hooks := Hooks { task_start_handlers : list nat; task_end_handlers : list nat; job_update_handlers : list nat }.

(** The three bound methods of one service. *)
Record methods := Methods { m_started : nat; m_finished : nat; m_job : nat }.

(** The part of [run] before the server is started. *)
Definition register_hooks (m : methods) (h : hooks) : hooks :=
  Hooks (task_start_handlers h ++ [m_started m]) (task_end_handlers h ++ [m_finished m])
        (job_update_handlers h ++ [m_job m]).

(** The part of [cleanup] that undoes it. *)
Definition unregister_hooks (m : methods) (h : hooks) : res hooks :=
  s ← list_remove (m_started m) (task_start_handlers h);
  e ← list_remove (m_finished m) (task_end_handlers h);
  j ← list_remove (m_job m) (job_update_handlers h);
  Ok (Hooks s e j).

Lemma list_remove_app {A} `{EqDecision A} (x : A) l1 l2 :
  x ∉ l1 -> list_remove x (l1 ++ x :: l2) = Ok (l1 ++ l2).
Proof.
  induction l1 as [|y l1 IH]; simpl; intros Hx; [by rewrite decide_True|].
  apply not_elem_of_cons in Hx as [Hy Hx]. rewrite decide_False by done. by rewrite IH.
Qed.

(** the cleanup of the status service takes its three handlers out of the root's lists, even when other handlers
    were registered after it, and leaves the others in order. *)
Theorem hooks_roundtrip m h later :
  m_started m ∉ task_start_handlers h -> m_finished m ∉ task_end_handlers h -> m_job m ∉ job_update_handlers h ->
  let h1 := register_hooks m h in
  unregister_hooks m (Hooks (task_start_handlers h1 ++ task_start_handlers later)
                            (task_end_handlers h1 ++ task_end_handlers later)
                            (job_update_handlers h1 ++ job_update_handlers later)) =
    Ok (Hooks (task_start_handlers h ++ task_start_handlers later)
              (task_end_handlers h ++ task_end_handlers later)
              (job_update_handlers h ++ job_update_handlers later)).
Proof.
  intros Hs He Hj. unfold unregister_hooks, register_hooks. cbn.
  rewrite <- !app_assoc. cbn [app]. by rewrite !list_remove_app.
Qed.

Lemma hooks_roundtrip_witness :
  unregister_hooks (Methods 1 2 3) (Hooks [7; 1; 9] [7; 2] [3]) = Ok (Hooks [7; 9] [7] []).
Proof.
  apply (hooks_roundtrip (Methods 1 2 3) (Hooks [7] [7] []) (Hooks [9] [] [])); cbn;
    apply (bool_decide_unpack _); vm_compute; exact I.
Defined.
