(* ===== verification/Hub.v ===== *)
(** * The root's handlers, the status service and its page

    [Root.start_task], [Root.job_updated], [Root.get_daemon_statistics] and the end of [Task.cleanup] call the handlers the
    status service has registered; the service broadcasts to its web sockets; the page ([services/index.html]) keeps a
    table of tasks and jobs.  The types of the messages, and what the page shows of the tasks that are running. *)

From Stdlib Require Import QArith.
From S2P Require Import Prelude PyStr PyVal Utils Job Task Status.
Open Scope nat_scope.

(** ** The types of the messages *)

Inductive ty : Type := TStr | TNum | TList (t : ty) | TObj (fields : list (string * ty)).

Fixpoint has_ty (t : ty) (v : pyval) : bool :=
  match t, v with
  | TStr, PStr _ => true
  | TNum, (PInt _ | PFloat _) => true
  | TList t, PList l => forallb (has_ty t) l
  | TObj fields, PDict d =>
      forallb (fun '(k, t) => match dict_get d k with Some x => has_ty t x | None => false end) fields
  | _, _ => false
  end.

(** The fields the page reads. *)
Definition job_ty : ty := TObj [("id", TStr); ("name", TStr); ("status", TStr); ("task", TStr)].
Definition task_ty : ty :=
  TObj [("id", TStr); ("project", TStr); ("url", TStr); ("subject", TStr); ("jobs", TList job_ty); ("finished_at", TNum)].

Definition message_types : list (string * ty) :=
  [("task-started", TObj [("task", task_ty)]); ("task-finished", TObj [("id", TStr)]);
   ("all-tasks", TObj [("tasks", TList task_ty)]); ("job-status-update", TObj [("job", job_ty)]);
   ("daemon-statistics", TObj [("memory-used", TNum)])].

Definition message_type (m : pyval) : string := match getitem m "type" with Ok (PStr t) => t | _ => "" end.
Definition conforms (m : pyval) : bool :=
  match dict_get message_types (message_type m) with Some t => has_ty t m | None => false end.

Lemma job_dict_ty {R} now tid (j : job R) : has_ty job_ty (PDict (Job.to_dict now tid j)) = true.
Proof. done. Qed.

Lemma task_dict_ty {R} now (t : task R) d : Task.to_dict now t = Ok d ->
  has_ty task_ty (PDict d) = true /\ dict_get d "id" = Some (PStr (t_id t)) /\
  dict_get d "jobs" = Some (PList ((fun j => PDict (Job.to_dict now (t_id t) j)) <$> t_jobs_list t)).
Proof.
  unfold Task.to_dict. intros H. apply res_bind_Ok in H as (change & _ & H). apply res_bind_Ok in H as (subject & _ & H).
  apply res_bind_Ok in H as (s & _ & H). apply res_bind_Ok in H as (url & _ & H). injection H as <-.
  split_and!; [|done|done]. cbn. rewrite andb_true_r. induction (t_jobs_list t); [done|]. done.
Qed.

(** Whether [to_dict] succeeds depends on the event alone. *)
Lemma to_dict_event {R} now now' (t t' : task R) d : t_event t' = t_event t -> t_project t' = t_project t ->
  Task.to_dict now t = Ok d -> is_Ok (Task.to_dict now' t').
Proof.
  intros He Hp. unfold Task.to_dict. rewrite He, Hp. intros H. apply res_bind_Ok in H as (change & -> & H).
  apply res_bind_Ok in H as (subject & Hs & H). cbn [mbind res_bind]. rewrite Hs. cbn [mbind res_bind].
  apply res_bind_Ok in H as (s & Hs' & H). rewrite Hs'. cbn [mbind res_bind]. apply res_bind_Ok in H as (url & Hu & H).
  rewrite Hu. by eexists.
Qed.

(** ** The page *)

(** [Tasks._tasks]: the tasks of the page, each with the status shown for its jobs; and the messages whose handler threw. *)
Record page := Page { p_tasks : gmap string (gmap string string); p_errors : list pyval }.

Definition page_error (m : pyval) (p : page) : page := Page (p_tasks p) (p_errors p ++ [m]).

(** [this.jobs[job.id] = job] for the jobs of a new [Task]. *)
Definition job_entry (job : pyval) : res (string * string) :=
  id ← getitem job "id"; id ← as_str id;
  status ← getitem job "status"; status ← as_str status;
  Ok (id, status).

Definition task_entry (task : pyval) : res (string * gmap string string) :=
  id ← getitem task "id"; id ← as_str id;
  jobs ← getitem task "jobs"; jobs ← iter jobs;
  jobs ← res_map job_entry jobs;
  Ok (id, list_to_map (reverse jobs)).

(** [tasks.add(task)] *)
Definition page_add (m : pyval) (p : page) (task : pyval) : page :=
  match task_entry task with
  | Ok (id, jobs) => Page (<[id := jobs]> (p_tasks p)) (p_errors p)
  | Raise _ => page_error m p
  end.

(** [tasks.finished(id)]: [task.clear()] throws when there is no such task. *)
Definition page_finished (m : pyval) (p : page) (id : pyval) : page :=
  match id with
  | PStr id => match p_tasks p !! id with
               | Some _ => Page (delete id (p_tasks p)) (p_errors p)
               | None => page_error m p
               end
  | _ => page_error m p
  end.

(** [tasks.update(job)]: [this._tasks[job.task].update] throws when there is no such task. *)
Definition page_update (m : pyval) (p : page) (job : pyval) : page :=
  match job_entry job, getitem job "task" with
  | Ok (id, status), Ok (PStr t) =>
      match p_tasks p !! t with
      | Some jobs => Page (<[t := <[id := status]> jobs]> (p_tasks p)) (p_errors p)
      | None => page_error m p
      end
  | _, _ => page_error m p
  end.

(** [ws.onmessage] *)
Definition page_message (p : page) (m : pyval) : page :=
  let field k := match getitem m k with Ok v => v | Raise _ => PNone end in
  let t := message_type m in
  if str_eqb t "task-started" then page_add m p (field "task")
  else if str_eqb t "task-finished" then page_finished m p (field "id")
  else if str_eqb t "all-tasks" then
    match field "tasks" with PList l => fold_left (page_add m) l p | _ => page_error m p end
  else if str_eqb t "job-status-update" then page_update m p (field "job")
  else p.

(** The page of the client [w], from the messages sent so far. *)
Definition page_of {W} `{EqDecision W} (w : W) (outbox : list (W * pyval)) : page :=
  fold_left page_message ((List.filter (fun x => bool_decide (x.1 = w)) outbox).*2) (Page ∅ []).

Lemma page_of_snoc {W} `{EqDecision W} (w c : W) m outbox :
  page_of w (outbox ++ [(c, m)]) = if decide (c = w) then page_message (page_of w outbox) m else page_of w outbox.
Proof.
  unfold page_of. rewrite List.filter_app. cbn. case_bool_decide; case_decide; try done.
  - by rewrite fmap_app, fold_left_app.
  - by rewrite app_nil_r.
Qed.

(** A client nothing was sent to. *)
Lemma page_of_new {W} `{EqDecision W} (w : W) outbox : w ∉ outbox.*1 -> page_of w outbox = Page ∅ [].
Proof.
  intros Hw. unfold page_of. replace (List.filter _ outbox) with ([] : list (W * pyval)); [done|]. symmetry.
  induction outbox as [|x l IH]; [done|]. rewrite fmap_cons, not_elem_of_cons in Hw. cbn. rewrite bool_decide_eq_false_2 by naive_solver.
  apply IH. naive_solver.
Qed.

(** A broadcast. *)
Lemma page_of_broadcast {W} `{EqDecision W} (w : W) m cs : NoDup cs -> forall outbox,
  page_of w (outbox ++ ((fun c => (c, m)) <$> cs)) =
    if decide (w ∈ cs) then page_message (page_of w outbox) m else page_of w outbox.
Proof.
  induction 1 as [|c cs Hc Hn IH]; intros outbox; [by rewrite app_nil_r, decide_False by apply not_elem_of_nil|].
  change ((fun c => (c, m)) <$> c :: cs) with ([(c, m)] ++ ((fun c => (c, m)) <$> cs)). rewrite app_assoc, IH, page_of_snoc.
  destruct (decide (c = w)) as [->|Hne]; [rewrite decide_False, decide_True by set_solver; done|].
  destruct (decide (w ∈ cs)); [rewrite decide_True by set_solver | rewrite decide_False by set_solver]; done.
Qed.

(** What the page should show of a task. *)
Definition shown {R} (t : task R) : gmap string string :=
  list_to_map (reverse ((fun j => (Job.id j, Job.status j)) <$> t_jobs_list t)).

Lemma job_entry_dict {R} now tid (j : job R) : job_entry (PDict (Job.to_dict now tid j)) = Ok (Job.id j, Job.status j).
Proof. done. Qed.

Lemma task_entry_dict {R} now (t : task R) d : Task.to_dict now t = Ok d -> task_entry (PDict d) = Ok (t_id t, shown t).
Proof.
  intros (_ & Hi & Hj)%task_dict_ty. unfold task_entry, getitem. rewrite Hi, Hj. cbn.
  replace (res_map job_entry _) with (Ok ((fun j => (Job.id j, Job.status j)) <$> t_jobs_list t)); [done|].
  symmetry. apply res_map_Ok, Forall2_fmap. apply Forall_Forall2_diag, Forall_forall. done.
Qed.

(** ** The daemon's side *)

Section Hub.
Context {W : Type} `{EqDecision W} {R : Type}.
(** [ws.send_str(json.dumps(msg))] on a web socket. *)
Context (send_str : W -> pyval -> res unit).

(** [Root.tasks] (its values), the tasks whose [run] is over and whose [cleanup] is not, and the status service. *)
Record hub := Hub { h_tasks : list (task R); h_ending : list (task R); h_svc : Service.status (W := W) }.

Definition on_svc (m : se (Service.status (W := W)) unit) : se hub unit := fun h =>
  let '(r, s) := m (h_svc h) in (r, Hub (h_tasks h) (h_ending h) s).

(** The three lists of handlers of the root: those of the status service. *)
Definition task_start_handlers (now : Q) : list (task R -> se hub unit) :=
  [fun t => on_svc (Service.task_started_cb send_str (Task.to_dict now t))].
Definition job_update_handlers (now : Q) : list (string -> job R -> se hub unit) :=
  [fun tid j => on_svc (Service.job_status_cb send_str (Job.to_dict now tid j))].
Definition task_end_handlers (now : Q) : list (task R -> se hub unit) :=
  [fun t => on_svc (Service.task_finished_cb send_str (t_id t) (Task.to_dict now t))].

(** [Root.start_task]: a handler that raises leaves the task unstarted. *)
Definition start_task (now : Q) (t : task R) : se hub unit :=
  _ ← se_iter (fun cb => cb t) (task_start_handlers now);
  se_modify (fun h => Hub (h_tasks h ++ [t]) (h_ending h) (h_svc h)).

(** [Root.job_updated] *)
Definition job_updated (now : Q) (tid : string) (j : job R) : se hub unit :=
  se_iter (fun cb => cb tid j) (job_update_handlers now).

Definition set_job (k : nat) (j : job R) (t : task R) : task R :=
  MkTask (t_id t) (t_event t) (t_project t) (<[k := j]> (t_jobs_list t)) (t_finished_at t) (t_cfg t).

(** [Job.set_status] of the [k]-th job of the [i]-th running task. *)
Definition set_status (now : Q) (i k : nat) (t : task R) (j : job R) (status : string) : se hub unit :=
  let j := set_status_attr status j in
  _ ← se_modify (fun h => Hub (<[i := set_job k j t]> (h_tasks h)) (h_ending h) (h_svc h));
  job_updated now (t_id t) j.

(** [self.tasks.pop], when the [run] of the [i]-th task is over. *)
Definition pop_task (i : nat) (t : task R) (h : hub) : hub :=
  Hub (take i (h_tasks h) ++ drop (S i) (h_tasks h)) (h_ending h ++ [t]) (h_svc h).

(** The end of [Task.cleanup] of the [i]-th task that is ending: the end handlers, whose exceptions are logged. *)
Definition end_task (now : Q) (i : nat) (t : task R) : se hub unit :=
  let t := set_finished_at (int_of_float now) t in
  _ ← se_modify (fun h => Hub (h_tasks h) (take i (h_ending h) ++ drop (S i) (h_ending h)) (h_svc h));
  se_iter (fun cb => se_catch (cb t) (fun e => if is_Exception e then Some (mret tt) else None)) (task_end_handlers now).

(** [ws] up to its loop, with the tasks of the root: a client that is gone before its first message is removed at once; any
    other exception of the first message leaves it in the list. *)
Definition connect (clock now : Q) (w : W) : se hub unit := fun h =>
  on_svc (se_catch (Service.ws_connect send_str (int_of_float clock) (Task.to_dict now <$> h_tasks h) w)
            (fun e => match e with ClientDisconnectedError => Some (Service.ws_disconnect w) | _ => None end)) h.

(** [get_daemon_statistics] *)
Definition get_daemon_statistics (ru_maxrss : Z) : pyval :=
  PDict [("type", PStr "daemon-statistics"); ("memory-used", PInt ru_maxrss)].

(** The name of a task in a summary. *)
Definition entry_id (v : pyval) : string := match getitem v "id" with Ok (PStr id) => id | _ => "" end.

(** A new task: its name is not that of a task the daemon still knows, and those of its jobs are different. *)
Definition fresh (t : task R) (h : hub) : Prop :=
  t_id t ∉ t_id <$> h_tasks h ++ h_ending h /\ t_id t ∉ entry_id <$> Service.finished (h_svc h) /\ NoDup (Job.id <$> t_jobs_list t).

(** The events of the daemon; a web socket that connects is a new object. *)
Inductive hstep : hub -> hub -> Prop :=
| hs_connect clock now w h : w ∉ Service.clients (h_svc h) -> w ∉ (Service.outbox (h_svc h)).*1 ->
    hstep h (connect clock now w h).2
| hs_leave w h : hstep h (on_svc (Service.ws_disconnect w) h).2
| hs_start now t h : fresh t h -> hstep h (start_task now t h).2
| hs_status now i k t j status h : h_tasks h !! i = Some t -> t_jobs_list t !! k = Some j ->
    hstep h (set_status now i k t j status h).2
| hs_pop i t h : h_tasks h !! i = Some t -> hstep h (pop_task i t h)
| hs_end now i t h : h_ending h !! i = Some t -> hstep h (end_task now i t h).2
| hs_stats ru_maxrss h : hstep h (on_svc (Service.send_all send_str (get_daemon_statistics ru_maxrss)) h).2.

Definition hub0 (interval : Z) : hub := Hub [] [] (Service.new interval).

(** ** Pages *)

Implicit Types (t : task R) (j : job R) (ts : list (task R)) (h : hub).

(** Every socket accepts every message. *)
Definition all_sent : Prop := forall w m, send_str w m = Ok tt.

(** [lossless]: this holds at every step of the run. *)
Context (lossless : Prop) (Hsent : lossless -> all_sent).

(** The client got its first message. *)
Definition greeted (w : W) (h : hub) : Prop :=
  exists l, (w, PDict [("type", PStr "all-tasks"); ("tasks", PList l)]) ∈ Service.outbox (h_svc h).

Definition quiet (p : page) : Prop := forall m, m ∈ p_errors p -> message_type m = "task-finished".

(** The page has the tasks [ts], and with the statuses of their jobs if no message was lost. *)
Definition knows (ts : list (task R)) (p : page) : Prop :=
  forall t, t ∈ ts -> exists jobs, p_tasks p !! t_id t = Some jobs /\ (lossless -> jobs = shown t).

Lemma quiet_error m p : quiet p -> message_type m = "task-finished" -> quiet (page_error m p).
Proof. intros Hq Hm m' [?|Hx%list_elem_of_singleton]%elem_of_app; [auto | by subst]. Qed.

(** Another task's entry changes. *)
Lemma knows_other ts p q id : knows ts p -> (forall t, t ∈ ts -> t_id t <> id) ->
  (forall id', id' <> id -> p_tasks q !! id' = p_tasks p !! id') -> knows ts q.
Proof. intros Hk Hid Hq t Ht. rewrite Hq by (by apply Hid). by apply Hk. Qed.

Definition started_msg (d : pydict) : pyval := PDict [("type", PStr "task-started"); ("task", PDict d)].
Definition finished_msg (id : string) : pyval := PDict [("type", PStr "task-finished"); ("id", PStr id)].
Definition update_msg (d : pydict) : pyval := PDict [("type", PStr "job-status-update"); ("job", PDict d)].
Definition all_msg (l : list pyval) : pyval := PDict [("type", PStr "all-tasks"); ("tasks", PList l)].

Lemma page_started now t d p : Task.to_dict now t = Ok d ->
  page_message p (started_msg d) = Page (<[t_id t := shown t]> (p_tasks p)) (p_errors p).
Proof. intros H. change (page_add (started_msg d) p (PDict d) = Page (<[t_id t := shown t]> (p_tasks p)) (p_errors p)).
  unfold page_add. by rewrite (task_entry_dict _ _ _ H). Qed.

Lemma page_finish id p : page_message p (finished_msg id) =
  match p_tasks p !! id with Some _ => Page (delete id (p_tasks p)) (p_errors p) | None => page_error (finished_msg id) p end.
Proof. done. Qed.

Lemma page_job now tid j p : page_message p (update_msg (Job.to_dict now tid j)) =
  match p_tasks p !! tid with
  | Some jobs => Page (<[tid := <[Job.id j := Job.status j]> jobs]> (p_tasks p)) (p_errors p)
  | None => page_error (update_msg (Job.to_dict (R := R) now tid j)) p
  end.
Proof. done. Qed.

Lemma knows_started now t d ts p : Task.to_dict now t = Ok d -> (forall t', t' ∈ ts -> t_id t' <> t_id t) ->
  knows ts p -> knows (ts ++ [t]) (page_message p (started_msg d)).
Proof.
  intros Hd Hid Hk t'. rewrite (page_started now t), elem_of_app, list_elem_of_singleton by done. cbn [p_tasks].
  intros [Ht| ->]; [|rewrite lookup_insert_eq; eauto]. rewrite lookup_insert_ne by (symmetry; by apply Hid). by apply Hk.
Qed.

Lemma knows_app ts ts' p : knows (ts ++ ts') p -> knows ts p.
Proof. intros H t Ht. apply H, elem_of_app. by left. Qed.

Lemma knows_finished id ts p : (forall t, t ∈ ts -> t_id t <> id) -> knows ts p -> knows ts (page_message p (finished_msg id)).
Proof.
  intros Hid Hk. rewrite page_finish. apply (knows_other ts p _ id Hk Hid). intros id' Hne.
  destruct (p_tasks p !! id); [|done]. cbn. by rewrite lookup_delete_ne.
Qed.

Lemma quiet_finished id p : quiet p -> quiet (page_message p (finished_msg id)).
Proof. intros Hq. rewrite page_finish. destruct (p_tasks p !! id); [done | by apply quiet_error]. Qed.

(** The status of a job on the page. *)
Lemma shown_set_job k j t status : t_jobs_list t !! k = Some j -> NoDup (Job.id <$> t_jobs_list t) ->
  shown (set_job k (set_status_attr status j) t) = <[Job.id j := status]> (shown t).
Proof.
  intros Hk Hn. unfold shown, set_job. cbn [t_jobs_list]. rewrite insert_take_drop by (by eapply lookup_lt_Some).
  pose proof (eq_sym (take_drop_middle _ _ _ Hk)) as E. revert E. generalize (take k (t_jobs_list t)) as A.
  generalize (drop (S k) (t_jobs_list t)) as B. intros B A E. rewrite E in Hn |- *.
  assert (forall x : string * string, x.1 = Job.id j -> list_to_map (M := gmap string string)
    (reverse ((fun j => (Job.id j, Job.status j)) <$> B) ++ x :: reverse ((fun j => (Job.id j, Job.status j)) <$> A)) =
    <[Job.id j := x.2]> (list_to_map (reverse ((fun j => (Job.id j, Job.status j)) <$> B) ++
                                      reverse ((fun j => (Job.id j, Job.status j)) <$> A)))) as Hm.
  { intros [i s] Hi. cbn in Hi. subst i. rewrite !list_to_map_app, list_to_map_cons. symmetry. apply insert_union_r.
    apply not_elem_of_list_to_map. rewrite fmap_reverse, <- list_fmap_compose, elem_of_reverse.
    rewrite fmap_app, NoDup_app in Hn. destruct Hn as (_ & _ & Hn). cbn in Hn. by apply NoDup_cons in Hn as [? _]. }
  rewrite !fmap_app, !fmap_cons, !reverse_app, !reverse_cons, <- !app_assoc. cbn [app].
  rewrite !Hm by done. cbn. by rewrite insert_insert_eq.
Qed.

Lemma knows_update now i k t j ts p status : ts !! i = Some t -> t_jobs_list t !! k = Some j ->
  NoDup (Job.id <$> t_jobs_list t) -> NoDup (t_id <$> ts) -> knows ts p ->
  let j' := set_status_attr status j in
  knows (<[i := set_job k j' t]> ts) (page_message p (update_msg (Job.to_dict now (t_id t) j'))).
Proof.
  intros Hi Hj Hn Hids Hk j'. rewrite page_job. destruct (Hk t) as (jobs & Hjobs & Hsh); [by eapply list_elem_of_lookup_2|].
  rewrite Hjobs. intros t' (i' & Hi')%list_elem_of_lookup. cbn [p_tasks].
  destruct (decide (i = i')) as [<-|Hne].
  - rewrite list_lookup_insert_eq in Hi' by (by eapply lookup_lt_Some). injection Hi' as <-.
    cbn [t_id set_job]. rewrite lookup_insert_eq. eexists. split; [done|]. intros Ha. unfold j'.
    rewrite shown_set_job by done. by rewrite Hsh.
  - rewrite list_lookup_insert_ne in Hi' by done. rewrite lookup_insert_ne; [apply Hk; by eapply list_elem_of_lookup_2|].
    intros E. apply Hne. eapply (NoDup_lookup (t_id <$> ts)); [done | rewrite list_lookup_fmap, Hi; done|].
    rewrite list_lookup_fmap, Hi'. cbn. by rewrite E.
Qed.

(** ** The first message to a client *)

Lemma job_ty_entry v : has_ty job_ty v = true -> is_Ok (job_entry v).
Proof.
  destruct v as [| | | | | |d]; try done. unfold job_entry, getitem. cbn.
  destruct (dict_get d "id") as [[]|]; try done. destruct (dict_get d "name") as [[]|]; try done.
  destruct (dict_get d "status") as [[]|]; try done. by eexists.
Qed.

Lemma task_ty_entry v : has_ty task_ty v = true -> exists jobs, task_entry v = Ok (entry_id v, jobs).
Proof.
  destruct v as [| | | | | |d]; try done. unfold entry_id, task_entry, getitem. cbn.
  destruct (dict_get d "id") as [[| | | |id| |]|]; try done.
  destruct (dict_get d "project") as [[]|]; try done. destruct (dict_get d "url") as [[]|]; try done.
  destruct (dict_get d "subject") as [[]|]; try done. destruct (dict_get d "jobs") as [[| | | | |l|]|]; try done. cbn.
  rewrite andb_true_iff. intros [Hl _]. assert (is_Ok (res_map job_entry l)) as [jobs ->]; [|by eexists].
  induction l as [|x l IH]; [by eexists|]. apply andb_true_iff in Hl as [Hx Hl]. destruct (IH Hl) as [jobs Hj].
  destruct (job_ty_entry x Hx) as [y Hy]. cbn [res_map]. rewrite Hy, Hj. by eexists.
Qed.

Lemma fold_add m l : forall p, Forall (fun v => has_ty task_ty v = true) l ->
  p_errors (fold_left (page_add m) l p) = p_errors p /\
  forall id, id ∉ entry_id <$> l -> p_tasks (fold_left (page_add m) l p) !! id = p_tasks p !! id.
Proof.
  induction l as [|v l IH]; intros p Hl; [done|]. apply Forall_cons in Hl as [Hv Hl]. cbn [fold_left].
  destruct (IH (page_add m p v) Hl) as [He Ht]. destruct (task_ty_entry v Hv) as [jobs Hj]. rewrite He.
  split; [unfold page_add; by rewrite Hj|]. intros id. rewrite fmap_cons, not_elem_of_cons. intros [Hne Hid].
  rewrite Ht by done. unfold page_add. rewrite Hj. cbn. by rewrite lookup_insert_ne.
Qed.

Lemma entry_id_dict now t d : Task.to_dict now t = Ok d -> entry_id (PDict d) = t_id t.
Proof. intros (_ & Hi & _)%task_dict_ty. unfold entry_id, getitem. by rewrite Hi. Qed.

Lemma dicts_ty now ts ds : Forall2 (fun t d => Task.to_dict now t = Ok d) ts ds ->
  Forall (fun v => has_ty task_ty v = true) (PDict <$> ds) /\ entry_id <$> (PDict <$> ds) = t_id <$> ts.
Proof.
  induction 1 as [|t d ts ds Hd _ [IH1 IH2]]; [done|]. rewrite !fmap_cons, IH2, (entry_id_dict now t) by done.
  split; [constructor; [by eapply task_dict_ty | done] | done].
Qed.

Lemma greet now ts ds fin p : Forall2 (fun t d => Task.to_dict now t = Ok d) ts ds -> NoDup (t_id <$> ts) ->
  Forall (fun v => has_ty task_ty v = true) fin -> (forall t, t ∈ ts -> t_id t ∉ entry_id <$> fin) ->
  p_errors (page_message p (all_msg ((PDict <$> ds) ++ fin))) = p_errors p /\
  knows ts (page_message p (all_msg ((PDict <$> ds) ++ fin))).
Proof.
  intros Hd Hn Hf Hid. set (m := all_msg _). change (page_message p m) with (fold_left (page_add m) ((PDict <$> ds) ++ fin) p).
  clearbody m. rewrite fold_left_app. revert p. induction Hd as [|t d ts ds Hd Hds IH]; intros p; cbn [fmap list_fmap fold_left].
  - split; [by apply fold_add | by intros t ?%not_elem_of_nil].
  - cbn [fmap list_fmap] in Hn. apply NoDup_cons in Hn as [Ht Hn]. destruct (IH Hn) with (p := page_add m p (PDict d)) as [He Hk].
    { intros t' Ht'. apply Hid. by right. }
    assert (page_add m p (PDict d) = Page (<[t_id t := shown t]> (p_tasks p)) (p_errors p)) as Ea.
    { unfold page_add. by rewrite (task_entry_dict _ _ _ Hd). }
    split; [rewrite He, Ea; done|]. intros t' [->|Ht']%elem_of_cons; [|by apply Hk].
    destruct (dicts_ty now ts ds Hds) as [Hty Hids].
    rewrite (proj2 (fold_add m fin _ Hf)) by (apply Hid; by left).
    rewrite (proj2 (fold_add m (PDict <$> ds) _ Hty)) by (by rewrite Hids). rewrite Ea. cbn. rewrite lookup_insert_eq. eauto.
Qed.

(** ** The invariant *)

Implicit Types (s : Service.status (W := W)).
Notation clients h := (Service.clients (h_svc h)).
Notation outbox h := (Service.outbox (h_svc h)).
Notation finished h := (Service.finished (h_svc h)).

(** What a broadcast does: the clients [before] got the message, all of them unless a socket raised. *)
Lemma send_all_obs msg s : exists before r,
  Service.send_all send_str msg s = (r, Service.Status (Service.clients s) (Service.finished s) (Service.stats_sender s)
    (Service.outbox s ++ ((fun c => (c, msg)) <$> before))) /\
  before `prefix_of` Service.clients s /\ (r = Ok tt \/ all_sent -> before = Service.clients s).
Proof.
  unfold Service.send_all, se_get, mbind, se_bind. generalize (Service.clients s) at 1 3 4 as cs. intros cs.
  revert s. induction cs as [|c cs IH]; intros s; cbn [se_iter].
  - exists [], (Ok tt). split_and!; [rewrite app_nil_r; by destruct s | done | done].
  - unfold mbind, se_bind. destruct (send_str c msg) as [[]|e] eqn:Ec.
    + rewrite Service.send_Ok by done. destruct (IH (Service.Status (Service.clients s) (Service.finished s)
        (Service.stats_sender s) (Service.outbox s ++ [(c, msg)]))) as (b & r & Hs & Hp & Hb).
      exists (c :: b), r. split_and!; [|by apply prefix_cons | intros H; by rewrite Hb]. unfold mbind, se_bind in Hs. rewrite Hs.
      cbn. by rewrite <- app_assoc.
    + exists [], (Raise e). split_and!; [|apply prefix_nil |].
      * unfold Service.send, se_lift, mbind, se_bind. rewrite Ec, app_nil_r. by destruct s.
      * intros [?|Ha]; [done|]. by rewrite Ha in Ec.
Qed.

Record hinv h : Prop := {
  hi_ids : NoDup (t_id <$> h_tasks h ++ h_ending h);
  hi_jobs : forall t, t ∈ h_tasks h -> NoDup (Job.id <$> t_jobs_list t);
  hi_dict : forall t, t ∈ h_tasks h ++ h_ending h -> forall now, is_Ok (Task.to_dict now t);
  hi_old : forall t, t ∈ h_tasks h ++ h_ending h -> t_id t ∉ entry_id <$> finished h;
  hi_clients : NoDup (clients h);
  hi_finished : Forall (fun v => has_ty task_ty v = true) (finished h);
  hi_outbox : forall w m, (w, m) ∈ outbox h -> conforms m = true;
  hi_greeted : lossless -> forall w, w ∈ clients h -> greeted w h;
  hi_quiet : forall w, greeted w h -> quiet (page_of w (outbox h));
  hi_knows : forall w, w ∈ clients h -> greeted w h -> knows (h_tasks h) (page_of w (outbox h)) }.

Lemma run_dict h : hinv h -> forall t, t ∈ h_tasks h -> forall now, is_Ok (Task.to_dict now t).
Proof. intros H t Ht. apply (hi_dict _ H), elem_of_app. by left. Qed.

Lemma run_old h : hinv h -> forall t, t ∈ h_tasks h -> t_id t ∉ entry_id <$> finished h.
Proof. intros H t Ht. apply (hi_old _ H), elem_of_app. by left. Qed.

Definition sent (before : list W) (msg : pyval) h : hub :=
  Hub (h_tasks h) (h_ending h) (Service.Status (clients h) (finished h) (Service.stats_sender (h_svc h))
    (outbox h ++ ((fun c => (c, msg)) <$> before))).

Lemma on_svc_send_all msg h : exists before r, on_svc (Service.send_all send_str msg) h = (r, sent before msg h) /\
  before `prefix_of` clients h /\ (r = Ok tt \/ all_sent -> before = clients h).
Proof.
  unfold on_svc. destruct (send_all_obs msg (h_svc h)) as (b & r & -> & Hp & Hb). exists b, r. by split_and!.
Qed.

Lemma page_sent before msg h w : NoDup (clients h) -> before `prefix_of` clients h ->
  page_of w (outbox (sent before msg h)) =
    if decide (w ∈ before) then page_message (page_of w (outbox h)) msg else page_of w (outbox h).
Proof.
  intros Hn Hp. apply page_of_broadcast. destruct Hp as [l E]. rewrite E in Hn. by apply NoDup_app in Hn as [? _].
Qed.

Lemma prefix_elem before h w : before `prefix_of` clients h -> w ∈ before -> w ∈ clients h.
Proof. intros [l ->] Hw. apply elem_of_app. by left. Qed.

(** A broadcast is not a first message. *)
Lemma greeted_sent before msg h w : message_type msg <> "all-tasks" -> greeted w (sent before msg h) <-> greeted w h.
Proof.
  intros Hm. split; intros [l Hl]; exists l; revert Hl; cbn; rewrite elem_of_app; [|by left].
  intros [?|(c & [= -> <-] & _)%list_elem_of_fmap]; done.
Qed.

(** A broadcast of a well-typed message, to clients that know the tasks before and after. *)
Lemma hinv_sent before msg h : hinv h -> before `prefix_of` clients h -> conforms msg = true -> message_type msg <> "all-tasks" ->
  (forall p, quiet p -> knows (h_tasks h) p -> quiet (page_message p msg) /\ knows (h_tasks h) (page_message p msg)) ->
  hinv (sent before msg h).
Proof.
  intros H Hp Hm Ht Hk. assert (forall w, w ∈ before -> greeted w h -> quiet (page_message (page_of w (outbox h)) msg) /\
    knows (h_tasks h) (page_message (page_of w (outbox h)) msg)) as Hb.
  { intros w Hw Hg. apply Hk; [by apply (hi_quiet _ H) | apply (hi_knows _ H); [by eapply prefix_elem | done]]. }
  constructor; try apply H.
  - intros w m. unfold sent. cbn. rewrite elem_of_app. intros [?|(c & [= -> ->] & _)%list_elem_of_fmap]; [by eapply hi_outbox | done].
  - intros Hl w Hw. apply greeted_sent; [done | by apply (hi_greeted _ H)].
  - intros w Hg%greeted_sent; [|done]. rewrite page_sent by (done || apply H). case_decide; [by apply Hb | by apply (hi_quiet _ H)].
  - intros w Hw Hg%greeted_sent; [|done]. rewrite page_sent by (done || apply H). case_decide; [by apply Hb | by apply (hi_knows _ H)].
Qed.

Lemma dicts_ok now ts : (forall t, t ∈ ts -> forall now, is_Ok (Task.to_dict now t)) ->
  exists ds, Forall2 (fun t d => Task.to_dict now t = Ok d) ts ds.
Proof.
  induction ts as [|t ts IH]; intros Hd; [by exists []|]. destruct (Hd t) with (now := now) as [d Ed]; [by left|].
  destruct IH as [ds Hds]; [intros; apply Hd; by right|]. exists (d :: ds). by constructor.
Qed.

Lemma all_conforms l : Forall (fun v => has_ty task_ty v = true) l -> conforms (all_msg l) = true.
Proof.
  intros Hl. change (has_ty (TList task_ty) (PList l) && true = true). rewrite andb_true_r. cbn. apply forallb_forall.
  intros v Hv%list_elem_of_In. by apply (proj1 (Forall_forall _ _) Hl).
Qed.

Lemma list_remove_sublist (w : W) l l' : list_remove w l = Ok l' -> l' `sublist_of` l.
Proof.
  revert l'. induction l as [|x l IH]; intros l'; cbn; [done|]. case_decide; [intros [= <-]; by apply sublist_cons|].
  intros (k & Hk & [= <-])%res_bind_Ok. by apply sublist_skip, IH.
Qed.

Lemma hinv_leave w h : hinv h -> hinv (on_svc (Service.ws_disconnect w) h).2.
Proof.
  intros H. assert (exists cs st, on_svc (Service.ws_disconnect w) h = ((on_svc (Service.ws_disconnect w) h).1,
    Hub (h_tasks h) (h_ending h) (Service.Status cs (finished h) st (outbox h))) /\ cs `sublist_of` clients h) as (cs & st & -> & Hs).
  { unfold on_svc, Service.ws_disconnect. rewrite !se_bind_eq. cbn [se_get]. rewrite se_bind_eq. unfold se_lift.
    destruct (list_remove w (clients h)) as [cs|e] eqn:E.
    - exists cs. apply list_remove_sublist in E. cbn [se_modify].
      destruct (decide (cs = [])); [destruct (PeriodicTask.active _)|]; eexists; (split; [reflexivity | done]).
    - exists (clients h), (Service.stats_sender (h_svc h)). split; [by destruct h as [? ? []] | done]. }
  constructor; try apply H; cbn [snd h_svc h_tasks Service.clients Service.outbox].
  - eapply sublist_NoDup; [apply H | done].
  - intros Hl c Hc. apply (hi_greeted _ H Hl). by eapply sublist_subseteq.
  - intros c Hc. apply (hi_knows _ H). by eapply sublist_subseteq.
Qed.

Lemma clients_snoc (w : W) cs : NoDup cs -> w ∉ cs -> NoDup (cs ++ [w]).
Proof. intros Hn Hw. apply NoDup_app. split_and!; [done | | apply NoDup_singleton]. intros x Hx ->%list_elem_of_singleton. done. Qed.

(** A client registers; the message to it is not sent yet. *)
Lemma hinv_register st w h : hinv h -> w ∉ clients h -> w ∉ (outbox h).*1 -> ~ lossless ->
  hinv (Hub (h_tasks h) (h_ending h) (Service.Status (clients h ++ [w]) (finished h) st (outbox h))).
Proof.
  intros H Hw Hf Hl. constructor; try apply H; cbn [h_svc h_tasks Service.clients Service.outbox]; [|done|].
  - apply clients_snoc; [apply H | done].
  - intros c [Hc| ->%list_elem_of_singleton]%elem_of_app Hg; [by apply (hi_knows _ H)|].
    destruct Hg as [l Hl']. destruct Hf. by apply (list_elem_of_fmap_2 fst) in Hl'.
Qed.

(** The client registers and gets the tasks. *)
Lemma hinv_greet st now ds w h : hinv h -> w ∉ clients h -> w ∉ (outbox h).*1 ->
  Forall2 (fun t d => Task.to_dict now t = Ok d) (h_tasks h) ds ->
  hinv (Hub (h_tasks h) (h_ending h) (Service.Status (clients h ++ [w]) (finished h) st
    (outbox h ++ [(w, all_msg ((PDict <$> ds) ++ finished h))]))).
Proof.
  intros H Hw Hf Hds. destruct (dicts_ty now (h_tasks h) ds Hds) as [Hty _]. pose proof (hi_ids _ H) as Hn. rewrite fmap_app in Hn.
  apply NoDup_app in Hn as (Hn & _ & _). set (h' := Hub _ _ _).
  assert (forall c, c <> w -> greeted c h' <-> greeted c h) as Hg.
  { intros c Hc. split; intros [l Hl]; exists l; revert Hl; cbn; rewrite elem_of_app, list_elem_of_singleton; naive_solver. }
  constructor; try apply H; cbn [h' h_svc h_tasks Service.clients Service.outbox].
  - apply clients_snoc; [apply H | done].
  - intros c m. rewrite elem_of_app, list_elem_of_singleton. intros [?|[= -> ->]]; [by eapply hi_outbox|].
    apply all_conforms, Forall_app. split; [done | apply H].
  - intros Hl c [Hc| ->%list_elem_of_singleton]%elem_of_app; [|eexists; cbn; apply elem_of_app; right; by apply list_elem_of_singleton].
    apply Hg; [congruence | by apply (hi_greeted _ H)].
  - intros c Hc. rewrite page_of_snoc. case_decide as E; [|apply (hi_quiet _ H), Hg; [congruence | done]].
    unfold quiet. rewrite (proj1 (greet now _ ds _ _ Hds Hn (hi_finished _ H) (run_old _ H))). subst c.
    rewrite page_of_new by done. by intros m ?%not_elem_of_nil.
  - intros c Hc Hc'. rewrite page_of_snoc. case_decide as E; [by apply (greet now _ ds _ _ Hds Hn (hi_finished _ H) (run_old _ H))|].
    apply (hi_knows _ H); [|apply Hg; [congruence | done]].
    apply elem_of_app in Hc as [?|?%list_elem_of_singleton]; [done | congruence].
Qed.

(** What [connect] does when the tasks have their dictionaries. *)
Lemma connect_obs clock now w h ds : Forall2 (fun t d => Task.to_dict now t = Ok d) (h_tasks h) ds ->
  let m := all_msg ((PDict <$> ds) ++ finished h) in
  exists st, connect clock now w h = match send_str w m with
    | Ok _ => (Ok tt, Hub (h_tasks h) (h_ending h) (Service.Status (clients h ++ [w]) (finished h) st (outbox h ++ [(w, m)])))
    | Raise e => let h' := Hub (h_tasks h) (h_ending h) (Service.Status (clients h ++ [w]) (finished h) st (outbox h)) in
        match e with ClientDisconnectedError => on_svc (Service.ws_disconnect w) h' | _ => (Raise e, h') end
    end.
Proof.
  intros Hds m. assert (res_map (fun d => d) (Task.to_dict now <$> h_tasks h) = Ok ds) as E by (by apply res_map_Ok, Forall2_fmap_l).
  unfold connect, on_svc, Service.ws_connect, se_catch. rewrite !se_bind_eq. cbn [se_modify]. rewrite !se_bind_eq. cbn [se_modify].
  rewrite !se_bind_eq. unfold se_lift at 1. rewrite E. rewrite se_bind_eq. cbn [se_get].
  destruct (PeriodicTask.active _); cbn [Service.finished]; unfold Service.send, se_lift; rewrite se_bind_eq;
    change (PDict [("type", PStr "all-tasks"); ("tasks", _)]) with m;
    destruct (send_str w m) as [[]|[]]; eexists; reflexivity.
Qed.

Lemma hinv_connect clock now w h : hinv h -> w ∉ clients h -> w ∉ (outbox h).*1 -> hinv (connect clock now w h).2.
Proof.
  intros H Hw Hf. destruct (dicts_ok now (h_tasks h) (run_dict _ H)) as [ds Hds].
  destruct (connect_obs clock now w h ds Hds) as [st ->]. destruct (send_str w _) as [[]|e] eqn:E; [by eapply hinv_greet|].
  assert (~ lossless) as Hl by (intros Ha%Hsent; by rewrite Ha in E).
  destruct e; try by apply hinv_register. by apply hinv_leave, hinv_register.
Qed.

Lemma started_in t t' ts ts' : t' ∈ (ts ++ [t]) ++ ts' -> t' = t \/ t' ∈ ts ++ ts'.
Proof. rewrite !elem_of_app, list_elem_of_singleton. tauto. Qed.

Lemma hinv_start now t h : hinv h -> fresh t h -> hinv (start_task now t h).2.
Proof.
  intros H (Hid & Hold & Hj). unfold start_task. cbn [se_iter task_start_handlers]. rewrite !se_bind_eq. unfold Service.task_started_cb at 1.
  unfold on_svc at 1. rewrite se_bind_eq. unfold se_lift. destruct (Task.to_dict now t) as [d|e] eqn:Ed; [|by destruct h as [? ? []]].
  fold (started_msg d). change (let '(r, s) := Service.send_all send_str (started_msg d) (h_svc h) in _)
    with (on_svc (Service.send_all send_str (started_msg d)) h).
  destruct (on_svc_send_all (started_msg d) h) as (b & r & -> & Hp & Hb).
  assert (forall t', t' ∈ h_tasks h -> t_id t' <> t_id t) as Hne.
  { intros t' Ht' E. apply Hid. rewrite fmap_app, elem_of_app, <- E. left. by apply list_elem_of_fmap_2. }
  assert (hinv (sent b (started_msg d) h)) as H1.
  { apply hinv_sent; [done | done | | done |].
    - change (has_ty task_ty (PDict d) && true = true). by rewrite (proj1 (task_dict_ty now t d Ed)).
    - intros p Hq Hk. split; [by rewrite (page_started now t)|]. by eapply knows_app, knows_started. }
  destruct r as [[]|e]; [|exact H1]. rewrite Hb in H1 |- * by (by left). cbn [mret se_ret se_modify snd].
  constructor; try apply H1; cbn [h_tasks h_ending h_svc sent].
  - rewrite <- app_assoc, fmap_app, fmap_app. cbn. apply NoDup_Permutation_proper with (t_id <$> t :: h_tasks h ++ h_ending h).
    + rewrite fmap_cons, fmap_app. symmetry. apply Permutation_middle.
    + rewrite fmap_cons. by constructor; [|apply H].
  - intros t' [?| ->%list_elem_of_singleton]%elem_of_app; [by apply H | done].
  - intros t' [->|Ht']%started_in now'; [by eapply (to_dict_event now) | by apply H].
  - intros t' [->|Ht']%started_in; [done | by apply H].
  - intros w Hw Hg%greeted_sent; [|done]. change (Service.outbox _) with (outbox (sent (clients h) (started_msg d) h)). cbn in Hw.
    rewrite page_sent by (done || apply H). rewrite decide_True by done. eapply knows_started; [done | done|]. by apply (hi_knows _ H).
Qed.

Lemma hinv_pop i t h : hinv h -> h_tasks h !! i = Some t -> hinv (pop_task i t h).
Proof.
  intros H Hi. pose proof (take_drop_middle _ _ _ Hi) as E. unfold pop_task.
  assert (forall t', t' ∈ take i (h_tasks h) ++ drop (S i) (h_tasks h) -> t' ∈ h_tasks h) as Hin.
  { intros t' Ht'. rewrite <- E. rewrite elem_of_app in Ht' |- *. rewrite elem_of_cons. tauto. }
  assert ((take i (h_tasks h) ++ drop (S i) (h_tasks h)) ++ h_ending h ++ [t] ≡ₚ h_tasks h ++ h_ending h) as Hperm.
  { rewrite <- E at 3. rewrite <- !app_assoc. apply Permutation_app_head. cbn. rewrite app_assoc. symmetry. by rewrite Permutation_cons_append. }
  constructor; try apply H; cbn [h_tasks h_ending h_svc]; try (intros; by apply H; auto).
  - eapply NoDup_Permutation_proper; [by apply fmap_Permutation | apply H].
  - intros t'. rewrite Hperm. apply H.
  - intros t'. rewrite Hperm. apply H.
  - intros w Hw Hg t' Ht'. apply (hi_knows _ H w Hw Hg). auto.
Qed.

Lemma set_job_in (P : task R -> Prop) i t' ts : P t' -> (forall t, t ∈ ts -> P t) -> forall t, t ∈ <[i := t']> ts -> P t.
Proof.
  intros Ht' Hts t (k & Hk)%list_elem_of_lookup. destruct (decide (i = k)) as [<-|].
  - apply list_lookup_insert_Some in Hk as [(_ & <- & _)|[? _]]; done.
  - rewrite list_lookup_insert_ne in Hk by done. apply Hts. by eapply list_elem_of_lookup_2.
Qed.

Lemma hinv_status now i k t j status h : hinv h -> h_tasks h !! i = Some t -> t_jobs_list t !! k = Some j ->
  hinv (set_status now i k t j status h).2.
Proof.
  intros H Hi Hj. pose proof (list_elem_of_lookup_2 _ _ _ Hi) as Ht.
  unfold set_status, job_updated. set (j' := set_status_attr status j). set (t' := set_job k j' t).
  rewrite se_bind_eq. cbn [se_modify se_iter job_update_handlers]. set (h1 := Hub (<[i := t']> (h_tasks h)) (h_ending h) (h_svc h)).
  rewrite se_bind_eq. unfold Service.job_status_cb. fold (update_msg (Job.to_dict now (t_id t) j')). set (msg := update_msg _).
  destruct (on_svc_send_all msg h1) as (b & r & -> & Hp & Hb).
  replace (match r with Ok _ => _ | Raise e => _ end) with (r, sent b msg h1) by (by destruct r as [[]|]). cbn [snd].
  assert (t_id <$> <[i := t']> (h_tasks h) = t_id <$> h_tasks h) as Eids.
  { rewrite list_fmap_insert. apply list_insert_id. rewrite list_lookup_fmap, Hi. done. }
  assert (NoDup (t_id <$> h_tasks h)) as Hn.
  { pose proof (hi_ids _ H) as Hn. rewrite fmap_app in Hn. by apply NoDup_app in Hn as (? & _ & _). }
  assert (forall p, knows (h_tasks h) p -> quiet p -> quiet (page_message p msg) /\ knows (h_tasks h1) (page_message p msg)) as Hmsg.
  { intros p Hk Hq. split; [|apply (knows_update now i k t j); auto; by apply H].
    unfold msg. rewrite page_job. by destruct (Hk t Ht) as (jobs & -> & _). }
  constructor; try apply H; try change (h_tasks (sent b msg h1)) with (<[i := t']> (h_tasks h)).
  - change (h_ending (sent b msg h1)) with (h_ending h). rewrite fmap_app, Eids, <- fmap_app. apply H.
  - apply set_job_in; [|apply H]. cbn. replace (Job.id <$> <[k := j']> (t_jobs_list t)) with (Job.id <$> t_jobs_list t); [by apply H|].
    rewrite list_fmap_insert. symmetry. apply list_insert_id. rewrite list_lookup_fmap, Hj. done.
  - intros t0 [Ht0|Ht0]%elem_of_app; [|apply (hi_dict _ H), elem_of_app; by right]. revert t0 Ht0.
    apply (set_job_in (fun t => forall now, is_Ok (Task.to_dict now t))); [|by apply run_dict]. intros now'.
    destruct (run_dict _ H t Ht now) as [d Hd]. by apply (to_dict_event now now' t _ d).
  - intros t0 [Ht0|Ht0]%elem_of_app; [|apply (hi_old _ H), elem_of_app; by right]. revert t0 Ht0.
    apply set_job_in; [exact (run_old _ H t Ht) | exact (run_old _ H)].
  - intros w m. cbn. rewrite elem_of_app. intros [?|(c & [= -> ->] & _)%list_elem_of_fmap]; [by eapply hi_outbox | done].
  - intros Hl w Hw. apply greeted_sent; [done | by apply (hi_greeted _ H)].
  - intros w Hg%greeted_sent; [|done]. rewrite page_sent by (done || apply H). case_decide as Hw; [|by apply (hi_quiet _ H)].
    apply Hmsg; [apply (hi_knows _ H); [by eapply prefix_elem | done] | by apply (hi_quiet _ H)].
  - intros w Hw Hg%greeted_sent; [|done]. rewrite page_sent by (done || apply H). case_decide as Hwb.
    + apply Hmsg; [by apply (hi_knows _ H) | by apply (hi_quiet _ H)].
    + change (knows (<[i := t']> (h_tasks h)) (page_of w (outbox h))). unfold knows.
      apply set_job_in; [|intros t0 Ht0; exact (hi_knows _ H w Hw Hg t0 Ht0)].
      destruct (hi_knows _ H w Hw Hg t Ht) as (jobs & Hjobs & _). exists jobs. split; [done|].
      intros Ha. rewrite Hb in Hwb by (right; by apply Hsent). done.
Qed.

Lemma hinv_end now i t h : hinv h -> h_ending h !! i = Some t -> hinv (end_task now i t h).2.
Proof.
  intros H Hi. pose proof (take_drop_middle _ _ _ Hi) as E. unfold end_task. set (t' := set_finished_at _ t).
  rewrite se_bind_eq. cbn [se_modify se_iter task_end_handlers]. set (h1 := Hub (h_tasks h) _ (h_svc h)).
  assert (t :: h_tasks h1 ++ h_ending h1 ≡ₚ h_tasks h ++ h_ending h) as Hperm.
  { cbn [h1 h_tasks h_ending]. rewrite <- E at 3. rewrite !app_assoc. by rewrite Permutation_middle. }
  assert (NoDup (t_id <$> t :: h_tasks h1 ++ h_ending h1)) as Hn by (rewrite Hperm; apply H).
  rewrite fmap_cons in Hn. apply NoDup_cons in Hn as [Hid Hn].
  assert (hinv h1) as H1.
  { constructor; try apply H; [done | |]; intros t0 Ht0; apply H; rewrite <- Hperm; by right. }
  assert (forall t0, t0 ∈ h_tasks h1 ++ h_ending h1 -> t_id t0 <> t_id t) as Hne.
  { intros t0 Ht0 Et. apply Hid. rewrite <- Et. by apply list_elem_of_fmap_2. }
  cut (hinv (on_svc (Service.task_finished_cb send_str (t_id t') (Task.to_dict now t')) h1).2).
  { rewrite se_bind_eq. unfold se_catch. destruct (on_svc _ h1) as [[[]|e] h2]; [done|]. cbn [snd].
    by destruct (is_Exception e). }
  unfold on_svc, Service.task_finished_cb. rewrite se_bind_eq. unfold se_lift.
  destruct (Task.to_dict now t') as [d|e] eqn:Ed; [|by destruct h1 as [? ? []]]. rewrite se_bind_eq. cbn [se_modify].
  set (s2 := Service.Status _ _ _ _). change (let '(r, s) := _ in _) with (on_svc (Service.send_all send_str (finished_msg (t_id t)))
    (Hub (h_tasks h1) (h_ending h1) s2)). set (h2 := Hub _ _ s2).
  assert (hinv h2) as H2.
  { constructor; try apply H1; unfold h2, s2; cbn [h_tasks h_svc Service.finished].
    - intros t0 Ht0 (v & Ev & Hv)%list_elem_of_fmap. change (t0 ∈ h_tasks h1 ++ h_ending h1) in Ht0. apply subseteq_drop, elem_of_app in Hv as [Hv| ->%list_elem_of_singleton].
      + apply (hi_old _ H1 t0 Ht0). rewrite Ev. by apply list_elem_of_fmap_2.
      + rewrite (entry_id_dict now t') in Ev by done. by apply (Hne t0).
    - apply Forall_drop, Forall_app. split; [apply H | apply Forall_singleton; by eapply task_dict_ty]. }
  destruct (on_svc_send_all (finished_msg (t_id t)) h2) as (b & r & -> & Hp & _). cbn [snd]. apply hinv_sent; [done | done | done | done|].
  intros p Hq Hk. split; [by apply quiet_finished|]. apply knows_finished; [|done].
  intros t0 Ht0. apply Hne, elem_of_app. by left.
Qed.

Lemma hinv_step h h' : hinv h -> hstep h h' -> hinv h'.
Proof.
  intros H Hs. destruct Hs as [| | | | | |mem h]; auto using hinv_connect, hinv_leave, hinv_start, hinv_status, hinv_pop, hinv_end.
  destruct (on_svc_send_all (get_daemon_statistics mem) h) as (b & r & -> & Hp & _). by apply hinv_sent.
Qed.

Lemma hinv_hub0 i : hinv (hub0 i).
Proof.
  constructor; cbn; try apply NoDup_nil_2; try (by intros ? ?%not_elem_of_nil); try (by intros ? ? ?%not_elem_of_nil); try done.
  by intros w [l Hl%not_elem_of_nil].
Qed.
End Hub.
Arguments Hub {W R}. Arguments h_tasks {W R}. Arguments h_ending {W R}. Arguments h_svc {W R}.

(** The hubs reached when the web sockets behave, at each step, in one of the ways [sockets]: which sends raise may change from
    one step to the next. *)
Definition hub_reachable {W} `{EqDecision W} {R} (sockets : (W -> pyval -> res unit) -> Prop) (h : hub (R := R)) : Prop :=
  exists i, rtc (fun h1 h2 => exists send_str, sockets send_str /\ hstep send_str h1 h2) (hub0 i) h.

Lemma hinv_reachable {W} `{EqDecision W} {R} sockets (h : hub (W := W) (R := R)) :
  hub_reachable sockets h -> hinv (forall send_str, sockets send_str -> all_sent send_str) h.
Proof.
  intros [i Hr]. refine (rtc_ind_r _ _ (hinv_hub0 _ i) _ h Hr). intros h1 h2 _ (send_str & Hs & Hstep) H.
  eapply (hinv_step send_str); [|done|done]. auto.
Qed.

(** ** What the page gets and shows *)

(** C15: the messages are well typed: whatever clients come and go and whatever sends raise at each step, every message the
    daemon sends has one of the five types and every field the page reads of it, tasks and jobs inside it included; and so has
    every summary kept for later clients. *)
Theorem messages_typed {W} `{EqDecision W} {R} (h : hub (R := R)) : hub_reachable (fun _ : W -> pyval -> res unit => True) h ->
  (forall w m, (w, m) ∈ Service.outbox (h_svc h) -> conforms m = true) /\
  (forall v, v ∈ Service.finished (h_svc h) -> has_ty task_ty v = true).
Proof. intros H%hinv_reachable. split; [apply (hi_outbox _ _ H)|]. apply Forall_forall, (hi_finished _ _ H). Qed.

(** C14: the page shows the daemon's state: in a run where the sockets accept every message, the page of every connected client
    has each task in [Root.tasks], with the current status of every job; and in a run where any sends raise, at any step, the
    page of a client that was sent its "all-tasks" message never throws on a "job-status-update", and while the client is
    connected the page has every task in [Root.tasks]. *)
Theorem page_mirrors {W} `{EqDecision W} {R} (sockets : (W -> pyval -> res unit) -> Prop) (h : hub (R := R)) :
  hub_reachable sockets h ->
  ((forall send_str, sockets send_str -> all_sent send_str) ->
   forall w t, w ∈ Service.clients (h_svc h) -> t ∈ h_tasks h ->
     p_tasks (page_of w (Service.outbox (h_svc h))) !! t_id t = Some (shown t)) /\
  (forall w l, (w, all_msg l) ∈ Service.outbox (h_svc h) ->
     (forall m, m ∈ p_errors (page_of w (Service.outbox (h_svc h))) -> message_type m <> "job-status-update") /\
     (w ∈ Service.clients (h_svc h) -> forall t, t ∈ h_tasks h ->
        is_Some (p_tasks (page_of w (Service.outbox (h_svc h))) !! t_id t))).
Proof.
  intros H%hinv_reachable. split.
  - intros Ha w t Hw Ht. destruct (hi_knows _ _ H w Hw (hi_greeted _ _ H Ha w Hw) t Ht) as (jobs & -> & Hs). by rewrite Hs.
  - intros w l Hl. assert (greeted w h) as Hg by (by exists l). split.
    + intros m Hm. by rewrite (hi_quiet _ _ H w Hg m Hm).
    + intros Hw t Ht. destruct (hi_knows _ _ H w Hw Hg t Ht) as (jobs & -> & _). done.
Qed.

(** A task with one job. *)
Definition demo_event : pydict :=
  [("type", PStr "patchset-created"); ("change", PDict [("project", PStr "p"); ("subject", PStr "fix")]);
   ("patchSet", PDict [("ref", PStr "refs/changes/45/12345/2")])].
Definition demo_job : job unit := MkJob true (PInt 254) 0%Q "tox" PNone (PInt 60) "JOB1" (PDict []) "__init__" 0%Q "EVNT1/tox" None None.
Definition demo_task : task unit := MkTask "EVNT1" demo_event "p" [demo_job] 0 PNone.
Definition demo_send (w : nat) (m : pyval) : res unit := Ok tt.

(** A client connects, the task starts, its job is queued. *)
Definition demo1 : hub (W := nat) (R := unit) := (connect demo_send 0%Q 0%Q 1 (hub0 60)).2.
Definition demo2 := (start_task demo_send 0%Q demo_task demo1).2.
Definition demo3 := (set_status demo_send 1%Q 0 0 demo_task demo_job "queued" demo2).2.

Lemma demo3_reachable (sockets : (nat -> pyval -> res unit) -> Prop) : sockets demo_send -> hub_reachable sockets demo3.
Proof.
  intros Hs. exists 60%Z. eapply rtc_l; [exists demo_send; split; [done|]; apply (hs_connect demo_send 0%Q 0%Q 1 (hub0 60)); apply not_elem_of_nil|].
  eapply rtc_l; [exists demo_send; split; [done|]; apply (hs_start demo_send 0%Q demo_task demo1)|].
  - split_and!; [by vm_compute; apply not_elem_of_nil | by vm_compute; apply not_elem_of_nil | apply NoDup_singleton].
  - eapply rtc_l; [|constructor]. exists demo_send. split; [done|].
    apply (hs_status demo_send 1%Q 0 0 demo_task demo_job "queued" demo2); by vm_compute.
Qed.

Lemma messages_typed_witness : exists m, (1, m) ∈ Service.outbox (h_svc demo3) /\ message_type m = "job-status-update" /\ conforms m = true.
Proof.
  exists (update_msg (Job.to_dict 1%Q "EVNT1" (set_status_attr "queued" demo_job))).
  assert ((1, update_msg (Job.to_dict 1%Q "EVNT1" (set_status_attr "queued" demo_job))) ∈ Service.outbox (h_svc demo3)) as H.
  { apply list_elem_of_lookup. exists 2. vm_compute. reflexivity. }
  split_and!; [exact H | done|]. apply (messages_typed demo3 (demo3_reachable _ I)) in H. exact H.
Defined.

Lemma page_mirrors_witness :
  p_tasks (page_of 1 (Service.outbox (h_svc demo3))) !! "EVNT1" = Some (shown (set_job 0 (set_status_attr "queued" demo_job) demo_task)).
Proof.
  apply (page_mirrors (eq demo_send) demo3 (demo3_reachable _ eq_refl)) with (t := set_job 0 (set_status_attr "queued" demo_job) demo_task).
  - by intros ? <-.
  - apply list_elem_of_lookup. exists 0. vm_compute. reflexivity.
  - apply list_elem_of_lookup. exists 0. vm_compute. reflexivity.
Defined.

(** ** A client that connects late *)

Section Late.
Context {W : Type} `{EqDecision W} {R : Type} (send_str : W -> pyval -> res unit).
Implicit Types (t : task R) (h : hub (W := W) (R := R)).

(** The end handlers of a task whose dictionary is computed, when the sockets accept the message. *)
Lemma end_task_sent now i t h : all_sent send_str -> is_Ok (Task.to_dict now (set_finished_at (int_of_float now) t)) ->
  Service.outbox (h_svc (end_task send_str now i t h).2) =
    Service.outbox (h_svc h) ++ ((fun c => (c, finished_msg (t_id t))) <$> Service.clients (h_svc h)).
Proof.
  intros Ha [d Hd]. unfold end_task. rewrite se_bind_eq. cbn [se_modify se_iter task_end_handlers].
  rewrite se_bind_eq. unfold se_catch, on_svc, Service.task_finished_cb. cbn [h_svc]. rewrite se_bind_eq. unfold se_lift. rewrite Hd.
  rewrite se_bind_eq. cbn [se_modify]. fold (finished_msg (t_id (set_finished_at (int_of_float now) t))).
  match goal with |- context [Service.send_all send_str ?m ?s] => destruct (send_all_obs send_str m s) as (b & r & -> & _ & Hb) end.
  rewrite Hb by (by right). by destruct r as [[]|e]; [|destruct (is_Exception e)].
Qed.

(** The first message does not mention a task that is ending. *)
Lemma connect_unaware P clock now w h i t : hinv P h -> all_sent send_str -> w ∉ (Service.outbox (h_svc h)).*1 ->
  h_ending h !! i = Some t -> let h' := (connect send_str clock now w h).2 in
  Service.clients (h_svc h') = Service.clients (h_svc h) ++ [w] /\ h_ending h' = h_ending h /\
  exists l, Service.outbox (h_svc h') = Service.outbox (h_svc h) ++ [(w, all_msg l)] /\ t_id t ∉ entry_id <$> l /\
    Forall (fun v => has_ty task_ty v = true) l.
Proof.
  intros H Ha Hw Hi%list_elem_of_lookup_2. cbn zeta.
  destruct (dicts_ok now (h_tasks h)) as [ds Hds]; [intros; apply (hi_dict _ _ H), elem_of_app; by left|].
  destruct (dicts_ty now _ _ Hds) as [Hty Hids].
  destruct (connect_obs send_str clock now w h ds Hds) as [st ->]. cbn zeta. unfold all_sent in Ha. rewrite !Ha. split_and!; [done | done|].
  exists ((PDict <$> ds) ++ Service.finished (h_svc h)). split_and!; [reflexivity| |apply Forall_app; split; [done | apply H]].
  rewrite fmap_app, Hids, not_elem_of_app. split; [|apply (hi_old _ _ H), elem_of_app; by right].
  intros Ht. pose proof (hi_ids _ _ H) as Hn. rewrite fmap_app in Hn. apply NoDup_app in Hn as (_ & Hn & _).
  apply (Hn _ Ht). by apply list_elem_of_fmap_2.
Qed.
End Late.

(** C40: a client that connects while the results of a task are being published (its [run] is over, so it is no longer in
    [Root.tasks], and it is not among the finished tasks yet) is not told of the task: its first message has no entry for the
    task, neither has its page; and when the task then ends, the client is sent "task-finished" for it, on which the page
    throws.  In every reachable state of the daemon, for every new client and every task that is ending, the sockets
    accepting these messages. *)
Theorem late_client_throws {W} `{EqDecision W} {R} (send_str : W -> pyval -> res unit) sockets clock now now'
    (h : hub (W := W) (R := R)) i t w :
  hub_reachable sockets h -> all_sent send_str -> h_ending h !! i = Some t ->
  w ∉ Service.clients (h_svc h) -> w ∉ (Service.outbox (h_svc h)).*1 ->
  let h1 := (connect send_str clock now w h).2 in
  let h2 := (end_task send_str now' i t h1).2 in
  (exists l, Service.outbox (h_svc h1) = Service.outbox (h_svc h) ++ [(w, all_msg l)] /\ t_id t ∉ entry_id <$> l) /\
  p_tasks (page_of w (Service.outbox (h_svc h1))) !! t_id t = None /\
  p_errors (page_of w (Service.outbox (h_svc h1))) = [] /\
  h_ending h1 !! i = Some t /\ (w, finished_msg (t_id t)) ∈ Service.outbox (h_svc h2) /\
  p_errors (page_of w (Service.outbox (h_svc h2))) = [finished_msg (t_id t)].
Proof.
  intros H%hinv_reachable Ha Hi Hw Hf h1 h2.
  destruct (connect_unaware send_str _ clock now w h i t H Ha Hf Hi) as (Hc & He & l & Ho & Hl & Hty). fold h1 in Hc, He, Ho.
  destruct (fold_add (all_msg l) l (Page ∅ []) Hty) as [Hpe Hpt].
  assert (page_of w (Service.outbox (h_svc h1)) = fold_left (page_add (all_msg l)) l (Page ∅ [])) as Hp.
  { rewrite Ho, page_of_snoc, decide_True, page_of_new by done. done. }
  assert (p_tasks (page_of w (Service.outbox (h_svc h1))) !! t_id t = None) as Hn by (rewrite Hp, Hpt by done; apply lookup_empty).
  assert (p_errors (page_of w (Service.outbox (h_svc h1))) = []) as Hne by (by rewrite Hp, Hpe).
  assert (Service.outbox (h_svc h2) = Service.outbox (h_svc h1) ++ ((fun c => (c, finished_msg (t_id t))) <$> Service.clients (h_svc h1))) as Ho2.
  { apply end_task_sent; [done|]. destruct (hi_dict _ _ H t) with (now := now') as [d Hd].
    - apply elem_of_app. right. by eapply list_elem_of_lookup_2.
    - by apply (to_dict_event now' now' t _ d). }
  split_and!; [by exists l | done | done | by rewrite He| |].
  - rewrite Ho2, Hc, fmap_app, !elem_of_app. right. right. by apply list_elem_of_singleton.
  - rewrite Ho2, page_of_broadcast, decide_True.
    + rewrite page_finish, Hn. cbn. by rewrite Hne.
    + rewrite Hc. apply elem_of_app. right. by apply list_elem_of_singleton.
    + rewrite Hc. apply clients_snoc; [apply H | done].
Qed.

(** The task of the demonstration, whose [run] is over. *)
Definition late1 : hub (W := nat) (R := unit) := (start_task demo_send 0%Q demo_task (hub0 60)).2.
Definition late2 := pop_task 0 demo_task late1.

Lemma late2_reachable : hub_reachable (eq demo_send) late2.
Proof.
  exists 60%Z. eapply rtc_l; [exists demo_send; split; [done|]; apply (hs_start demo_send 0%Q demo_task (hub0 60))|].
  { split_and!; [by vm_compute; apply not_elem_of_nil | by vm_compute; apply not_elem_of_nil | apply NoDup_singleton]. }
  eapply rtc_l; [exists demo_send; split; [done|]; by apply (hs_pop demo_send 0 demo_task late1) | constructor].
Qed.

Lemma late_client_throws_witness :
  let h2 := (end_task demo_send 9%Q 0 demo_task (connect demo_send 0%Q 5%Q 1 late2).2).2 in
  p_errors (page_of 1 (Service.outbox (h_svc h2))) = [finished_msg "EVNT1"].
Proof.
  apply (late_client_throws demo_send (eq demo_send) 0%Q 5%Q 9%Q late2 0 demo_task 1 late2_reachable).
  - done.
  - reflexivity.
  - vm_compute. apply not_elem_of_nil.
  - vm_compute. apply not_elem_of_nil.
Defined.
