(* ===== verification/Stream.v ===== *)
(** * The Gerrit stream on the root

    [Class.run] and [Class.cleanup] of [services/gerrit.py] (the endless loop over a file of recorded events, or the events
    of [gerrit stream-events] over ssh), and the stream together with the root's start handlers: what a web socket that
    raises does to the changes of the stream. *)

From Stdlib Require Import QArith.
From S2P Require Import Prelude PyStr PyVal PyRe Utils Job Task Gerrit Status Hub.
Open Scope nat_scope.

Section Run.
Context {R : Type} (data cfg : pydict) (mk_task : string -> pydict -> res (task R)).
Context (root_start : task R -> res unit) (json_loads : string -> res pyval).
(** [open(fake_stream, 'rb')] on each pass: the lines of the file or the exception; and [AsyncSSH(..).run("gerrit
    stream-events")] with the parameters of the configuration: the lines it passes to its callback and how it ends. *)
Context (open_stream : nat -> res (list string)) (ssh_stream : pydict -> list string * res unit).

Notation handle_lines := (handle_lines data cfg mk_task root_start json_loads).

(** The first [n] passes of [while 1: with open(...) as fs: for line in fs: ...]. *)
Fixpoint fake_passes (n i : nat) : se (gst R) unit :=
  match n with
  | 0 => mret tt
  | S n =>
      lines ← se_lift (open_stream i);
      _ ← handle_lines lines;
      fake_passes n (S i)
  end.

(** [run], observed for [n] passes when it reads a file. *)
Definition run (n : nat) : se (gst R) unit :=
  if truthy (dget cfg "fake-stream" PNone) then fake_passes n 0
  else
    params ← se_lift (ssh_params cfg);
    let '(lines, r) := ssh_stream params in
    _ ← handle_lines lines;
    se_lift r.

(** [cleanup]: the keys and tasks stay. *)
Definition cleanup : se (gst R) unit := mret tt.
End Run.

(** The loop over the file ends only at a pass whose file cannot be opened or has a line that is not JSON. *)
Lemma fake_passes_Raise {R} data cfg (mk_task : string -> pydict -> res (task R)) root_start json_loads open_stream n i s e s' :
  fake_passes data cfg mk_task root_start json_loads open_stream n i s = (Raise e, s') -> is_Exception e = true ->
  exists k, i <= k < i + n /\ (open_stream k = Raise e \/
    exists lines line, open_stream k = Ok lines /\ line ∈ lines /\ json_loads line = Raise e).
Proof.
  revert i s. induction n as [|n IH]; intros i s; cbn [fake_passes]; [done|]. rewrite se_bind_eq. unfold se_lift.
  destruct (open_stream i) as [lines|e1] eqn:Eo; [|intros [= -> _] _; exists i; split; [lia | by left]].
  rewrite se_bind_eq. destruct (handle_lines _ _ _ _ _ lines s) as [[[]|e1] s1] eqn:Eh.
  - intros H He. destruct (IH _ _ H He) as (k & Hk & Hc). exists k. split; [lia | done].
  - intros [= -> ->] He. apply handle_lines_Raise in Eh as (before & line & after & -> & _ & Hj & _); [|done].
    exists i. split; [lia|]. right. exists (before ++ line :: after), line. split_and!; [done | set_solver | done].
Qed.

(** ** The stream and the page's web sockets *)

Section Dead.
Context {W R : Type} `{EqDecision W} (send_str : W -> pyval -> res unit) (now : Q).
Context (data cfg : pydict) (mk_task : string -> pydict -> res (task R)) (json_loads : string -> res pyval).

(** [Root.start_task] on the daemon's state, as the stream sees it. *)
Definition start_on (h : hub (W := W) (R := R)) (t : task R) : res unit := (start_task send_str now t h).1.

(** A client whose socket raises: the start handlers stop there, and the task is not started. *)
Lemma start_dead h t d c e : Task.to_dict now t = Ok d -> c ∈ Service.clients (h_svc h) -> send_str c (started_msg d) = Raise e ->
  exists e' c', start_on h t = Raise e' /\ h_tasks (start_task send_str now t h).2 = h_tasks h /\ send_str c' (started_msg d) = Raise e'.
Proof.
  intros Hd Hc He. unfold start_on, start_task. cbn [se_iter task_start_handlers]. rewrite !se_bind_eq.
  unfold Service.task_started_cb, on_svc at 1 2. rewrite se_bind_eq. unfold se_lift. rewrite Hd. fold (started_msg d).
  destruct (send_all_delivery send_str (started_msg d) (h_svc h)) as [[Hall _]|(b & c' & a & e' & s' & _ & He' & -> & _)].
  - rewrite Forall_forall in Hall. by rewrite Hall in He.
  - exists e', c'. by cbn.
Qed.
End Dead.

(** C39: one broken web socket blocks changes.  When a client of the status page is still registered and its socket raises (any
    [Exception]) on the announcement of a new task, the event is handled without an error, but the task is not started,
    nobody reports it, and the change stays registered: every further event for it is ignored as a duplicate. *)
Theorem dead_socket_blocks_change {W R} `{EqDecision W} (send_str : W -> pyval -> res unit) now data cfg
    (mk_task : string -> pydict -> res (task R)) json_loads (h : hub (W := W)) s line event p ev t d c e :
  json_loads line = Ok event -> line <> "" -> classify data cfg event = Ok (VKeyed p ev) -> get_key ev ∉ keys s ->
  mk_task p ev = Ok t -> Task.to_dict now t = Ok d -> c ∈ Service.clients (h_svc h) -> send_str c (started_msg d) = Raise e ->
  (forall w m x, send_str w m = Raise x -> is_Exception x = true) ->
  h_tasks (start_task send_str now t h).2 = h_tasks h /\
  exists s', handle_line data cfg mk_task (start_on send_str now h) json_loads line s = (Ok tt, s') /\ started s' = started s /\
    forall event' p' ev', classify data cfg event' = Ok (VKeyed p' ev') -> get_key ev' = get_key ev ->
      get_task data cfg mk_task event' s' = (Ok None, s').
Proof.
  intros Hj Hl Hc Hk Hm Hd Hcl He Hex.
  destruct (start_dead send_str now h t d c e Hd Hcl He) as (e' & c' & Hst & Hts & He'). split; [done|].
  exists (GSt ({[get_key ev]} ∪ keys s) (started s)). split_and!; [|done|].
  - unfold handle_line. apply str_eqb_false in Hl. rewrite Hl, se_bind_eq. unfold se_lift at 1. rewrite Hj. unfold se_catch.
    rewrite se_bind_eq, get_task_eq, Hc, decide_False, Hm by done. cbn. unfold start. rewrite se_bind_eq. unfold se_lift.
    rewrite Hst. by rewrite (Hex _ _ _ He').
  - intros event' p' ev' Hc' Hk'. rewrite get_task_eq, Hc', Hk', decide_True by set_solver. done.
Qed.

(** A client that has gone. *)
Definition dead_send (w : nat) (m : pyval) : res unit := if str_eqb (message_type m) "all-tasks" then Ok tt else Raise RuntimeError.
Definition dead_hub : hub (W := nat) (R := unit) := (connect dead_send 0%Q 0%Q 1 (hub0 60)).2.
Definition dead_event : pydict := [("type", PStr "patchset-created"); ("change", PDict [("project", PStr "openstack/rally")]);
                                   ("patchSet", PDict [("ref", PStr "refs/changes/45/12345/2")])].

Lemma dead_socket_blocks_change_witness : exists s',
  handle_line data_gerrit_ex [] mk_ex (start_on dead_send 0%Q dead_hub) (fun _ => Ok (PDict dead_event)) "{}" (GSt ∅ []) = (Ok tt, s') /\
  started s' = [] /\ get_task data_gerrit_ex [] mk_ex (PDict dead_event) s' = (Ok None, s').
Proof.
  destruct (dead_socket_blocks_change dead_send 0%Q data_gerrit_ex [] mk_ex (fun _ => Ok (PDict dead_event)) dead_hub (GSt ∅ []) "{}"
    (PDict dead_event) "openstack/rally" dead_event (MkTask "T" dead_event "openstack/rally" [] 0 PNone)
    (match Task.to_dict 0%Q (MkTask (R := unit) "T" dead_event "openstack/rally" [] 0 PNone) with Ok d => d | Raise _ => [] end) 1 RuntimeError)
    as (_ & s' & H & Hs & Hb).
  - reflexivity.
  - discriminate.
  - reflexivity.
  - set_solver.
  - reflexivity.
  - reflexivity.
  - apply list_elem_of_lookup. exists 0. reflexivity.
  - reflexivity.
  - intros w m x. unfold dead_send. case_match; [done | by intros [= <-]].
  - exists s'. split_and!; [exact H | exact Hs | by apply (Hb _ "openstack/rally" dead_event)].
Defined.
