(* ===== verification/FakeStream.v ===== *)
(** * [rallyci/streams/fake.py]: a stream that replays a file

    [Class.run]: an endless loop over the lines of a file, with a random pause after each.  Its base class, and with it
    [_handle_line], is of a module that is not in the repository, [rallyci.streams.gerrit]; it is a parameter here. *)

From S2P Require Import Prelude PyStr PyVal Utils.
Open Scope nat_scope.

(** The state of the base class, the lines handed to it, and the pauses so far: only there other coroutines run. *)
Record replay (S : Type) := Replay { base : S; handled : list string; pauses : nat }.
Arguments Replay {S}. Arguments base {S}. Arguments handled {S}. Arguments pauses {S}.

Section Fake.
Context {S : Type} (handle_line : string -> se S unit).
(** [open(path)] on each pass; whether each pause ends with a cancellation. *)
Context (open_file : nat -> string -> res (list string)) (cancelled : nat -> bool).
(** [self.cfg = kwargs] *)
Context (cfg : pydict).

(** [self._handle_line(line)] *)
Definition hand_over (line : string) : se (replay S) unit := fun s =>
  let '(r, b) := handle_line line (base s) in (r, Replay b (handled s ++ [line]) (pauses s)).

(** [yield from asyncio.sleep(random.randint(...))] of the two ends of the interval. *)
Definition pause (sleep : pyval) : se (replay S) unit :=
  l ← se_lift (iter sleep);
  match l with
  | [PInt a; PInt b] =>
      if (a <=? b)%Z then fun s => (if cancelled (pauses s) then Raise CancelledError else Ok tt, Replay (base s) (handled s) (1 + pauses s))
      else se_lift (Raise ValueError)
  | _ => se_lift (Raise TypeError)
  end.

Fixpoint replay_lines (lines : list string) : se (replay S) unit :=
  match lines with
  | [] => mret tt
  | line :: lines =>
      let sleep := dget cfg "sleep" (PList [PInt 1; PInt 2]) in
      _ ← hand_over line;
      _ ← pause sleep;
      replay_lines lines
  end.

(** One pass of [while 1]: the body of [try] and its handlers. *)
Definition replay_pass (i : nat) : se (replay S) unit :=
  se_catch
    (path ← se_lift (p ← dgetitem cfg "path"; as_str p);
     lines ← se_lift (open_file i path);
     replay_lines lines)
    (fun e => match e with CancelledError => None | e => if is_Exception e then Some (mret tt) else None end).

(** [run] for its first [n] passes; it never returns by itself. *)
Fixpoint replay_passes (n i : nat) : se (replay S) unit :=
  match n with 0 => mret tt | Datatypes.S n => _ ← replay_pass i; replay_passes n (Datatypes.S i) end.
End Fake.

Section Replays.
Context {S : Type} (handle_line : string -> se S unit) (open_file : nat -> string -> res (list string)) (cfg : pydict).
Context (cancelled : nat -> bool).

Notation replay_pass := (replay_pass handle_line open_file cancelled cfg).
Notation replay_passes := (replay_passes handle_line open_file cancelled cfg).
Notation replay_lines := (replay_lines handle_line cancelled cfg).

(** [run] ends only when it is cancelled or the process is interrupted. *)
Lemma pass_ends i s e s' : replay_pass i s = (Raise e, s') -> e = CancelledError \/ is_Exception e = false.
Proof.
  unfold FakeStream.replay_pass, se_catch. set (m := mbind _ _). destruct (m s) as [[[]|[]] s1]; cbn; intros [=]; subst; auto.
Qed.

Lemma passes_end n : forall i s e s', replay_passes n i s = (Raise e, s') -> e = CancelledError \/ is_Exception e = false.
Proof.
  induction n as [|n IH]; intros i s e s'; cbn [FakeStream.replay_passes]; [done|]. rewrite se_bind_eq.
  destruct (replay_pass i s) as [[[]|e1] s1] eqn:E; [apply IH|]. intros [= <- <-]. by eapply pass_ends.
Qed.

(** The file of every pass, and a proper interval for the pauses; nobody cancels the stream. *)
Context (path : string) (a b : Z).
Hypothesis Hpath : dict_get cfg "path" = Some (PStr path).
Hypothesis Hsleep : dget cfg "sleep" (PList [PInt 1; PInt 2]) = PList [PInt a; PInt b].
Hypothesis Hab : (a <= b)%Z.
Hypothesis Hcancel : forall n, cancelled n = false.

(** The lines up to the first that raises are handed over, each followed by a pause. *)
Lemma replay_fine lines rest : (forall l s, l ∈ lines -> (handle_line l s).1 = Ok tt) -> forall s,
  exists s1, replay_lines (lines ++ rest) s = replay_lines rest s1 /\ handled s1 = handled s ++ lines /\
    pauses s1 = length lines + pauses s.
Proof.
  induction lines as [|l lines IH]; intros Hok s; [exists s; by rewrite app_nil_r|]. cbn [app FakeStream.replay_lines].
  pose proof (Hok l (base s) (list_elem_of_here _ _)) as Hl. destruct (handle_line l (base s)) as [r b1] eqn:E. cbn in Hl. subst r.
  destruct (IH (fun l' s' Hl' => Hok l' s' (list_elem_of_further _ _ _ Hl'))
    (Replay b1 (handled s ++ [l]) (1 + pauses s))) as (s1 & H1 & H2 & H3).
  exists s1. rewrite se_bind_eq. unfold hand_over. rewrite E, se_bind_eq, Hsleep. unfold pause. rewrite se_bind_eq. cbn [se_lift iter].
  rewrite (proj2 (Z.leb_le a b) Hab). cbn [pauses]. rewrite Hcancel. cbn [base handled]. rewrite H1, H2, H3. split; [done|].
  cbn. split; [by rewrite <- app_assoc | lia].
Qed.

Lemma pass_body i s : replay_pass i s = match open_file i path with
  | Ok lines => se_catch (replay_lines lines)
      (fun e => match e with CancelledError => None | e => if is_Exception e then Some (mret tt) else None end) s
  | Raise e => se_catch (se_lift (Raise e))
      (fun e => match e with CancelledError => None | e => if is_Exception e then Some (mret tt) else None end) s
  end.
Proof.
  unfold FakeStream.replay_pass, se_catch. rewrite !se_bind_eq. unfold dgetitem, getitem. rewrite Hpath. cbn [mbind res_bind as_str se_lift].
  rewrite se_bind_eq. unfold se_lift. by destruct (open_file i path).
Qed.
End Replays.

(** A line whose handling raises an exception stops the replay there, for good: the handlers of [run] are around the
    loop over the lines, so every pass starts again with the first line, and no line after that one is ever handed over.
    After [n] passes exactly the lines up to it have been handled [n] times, with a pause after each but it. *)
Theorem replay_stuck {S} (handle_line : string -> se S unit) open_file cfg cancelled path a b before line after :
  dict_get cfg "path" = Some (PStr path) -> dget cfg "sleep" (PList [PInt 1; PInt 2]) = PList [PInt a; PInt b] -> (a <= b)%Z ->
  (forall n, cancelled n = false) -> (forall i, open_file i path = Ok (before ++ line :: after)) ->
  (forall l s, l ∈ before -> (handle_line l s).1 = Ok tt) ->
  (forall s, exists e s', handle_line line s = (Raise e, s') /\ is_Exception e = true /\ e <> CancelledError) ->
  forall n i s, exists s', replay_passes handle_line open_file cancelled cfg n i s = (Ok tt, s') /\
    handled s' = handled s ++ concat (replicate n (before ++ [line])) /\ pauses s' = n * length before + pauses s.
Proof.
  intros Hpath Hsleep Hab Hcancel Hopen Hbefore Hline n. induction n as [|n IH]; intros i s; cbn [replay_passes replicate concat].
  { exists s. by rewrite app_nil_r. }
  rewrite se_bind_eq, (pass_body _ _ _ _ path Hpath), Hopen. unfold se_catch.
  destruct (replay_fine handle_line cfg cancelled a b Hsleep Hab Hcancel before (line :: after) Hbefore s) as (s1 & -> & Hh & Hp).
  destruct (Hline (base s1)) as (e & b1 & E & He & Hne). cbn [replay_lines]. rewrite se_bind_eq. unfold hand_over. rewrite E.
  assert (match e with CancelledError => None | e => if is_Exception e then Some (mret tt : se (replay S) unit) else None end = Some (mret tt)) as ->
    by (by destruct e). cbn.
  destruct (IH (Datatypes.S i) (Replay b1 (handled s1 ++ [line]) (pauses s1))) as (s' & -> & H2 & H3). exists s'. split; [done|].
  rewrite H2, H3. cbn. rewrite Hh, Hp, <- !app_assoc. split; [done | lia].
Qed.

(** A file that cannot be opened: [run] tries again at once, for ever, and never lets another coroutine run. *)
Theorem replay_spins {S} (handle_line : string -> se S unit) open_file cfg cancelled path :
  dict_get cfg "path" = Some (PStr path) -> (forall i, open_file i path = Raise (OSError 2)) ->
  forall n i s, replay_passes handle_line open_file cancelled cfg n i s = (Ok tt, s).
Proof.
  intros Hpath Hopen n. induction n as [|n IH]; intros i s; [done|]. cbn [replay_passes].
  rewrite se_bind_eq, (pass_body _ _ _ _ path Hpath), Hopen. cbn. apply IH.
Qed.

Lemma replay_stuck_witness : exists s',
  replay_passes (fun l => if str_eqb l "bad" then se_lift (Raise KeyError) else se_modify Datatypes.S) (fun _ _ => Ok ["ok"; "bad"; "never"])
    (fun _ => false) [("path", PStr "events.json")] 3 0 (Replay 0 [] 0) = (Ok tt, s') /\
  handled s' = [] ++ concat (replicate 3 (["ok"] ++ ["bad"])) /\ pauses s' = 3 * 1 + 0.
Proof.
  apply (replay_stuck _ _ [("path", PStr "events.json")] _ "events.json" 1 2 ["ok"] "bad" ["never"]); try done; try lia.
  - intros l s ->%list_elem_of_singleton. reflexivity.
  - intros s. by exists KeyError, s.
Defined.
