(* ===== verification/Verdict.v ===== *)
(** * From an event to its review

    The parts put together for one event of a change: [Task(stream, project, event)] creates the jobs, [Job.run] runs each of
    them on its runner, and when all have ended [Task.cleanup] publishes the result.  Which vote the review carries. *)

From Stdlib Require Import QArith.
From S2P Require Import Prelude PyStr PyVal Utils Job Task.
Open Scope nat_scope.

Section Review.
Context {R : Type} `{RunnerOk R}.
Context (data : pydict) (times : nat -> Q * Q).

(** [root.run_obj(job)] of the [i]-th job: an exception of [Job.run] is logged.  A job changes no other job, so the order in
    which the jobs of a task make progress does not matter. *)
Definition run_job (i : nat) (j : job R) : job R :=
  jb (Job.run (fun _ => Ok tt) data (times i).1 (times i).2 (JSt j [])).2.

Definition run_jobs (t : task R) : task R :=
  MkTask (t_id t) (t_event t) (t_project t) (imap run_job (t_jobs_list t)) (t_finished_at t) (t_cfg t).

(** What the vote should go by: the runner of the job can be created and its [run] returns a false value within the timeout. *)
Definition passes (i : nat) (j : job R) : bool :=
  match runner_cfgs data (config j) with
  | Ok (rc, lc) =>
      match new_runner rc lc (JSt (set_started (times i).1 (set_status_attr "queued" j)) ["queued"]) with
      | Ok r =>
          match (wait_runner r (timeout j) (prepared (times i).1 r (JSt j []))).1 with
          | Ok v => negb (truthy v)
          | Raise _ => false
          end
      | Raise _ => false
      end
  | Raise _ => false
  end.

(** [create, run, clean up]: what the task of an event does to the keys of the stream and which reviews it sends. *)
Definition review (stream_cfg : pydict) (ssh_run : list string -> res unit) (end_handlers : list (task R -> res unit)) (now : Q)
    (keys : gset string) (t : task R) : cst (R := R) :=
  (cleanup stream_cfg ssh_run end_handlers now (CSt (run_jobs t) keys [] [])).2.

Lemma run_job_keeps i j : voting (run_job i j) = voting j.
Proof.
  unfold run_job. rewrite run_prefix. cbn [jb announced app]. destruct (runner_cfgs data (config j)) as [[rc lc]|e]; [|done].
  destruct (new_runner _ _ _) as [r|e]; [|done]. destruct (wait_runner r (timeout j) (prepared (times i).1 r (JSt j []))) as [o s2] eqn:Hw.
  rewrite (run_tail _ _ _ _ _ _ Hw). pose proof (runner_ok r (timeout j) (prepared (times i).1 r (JSt j []))) as (Hv & _).
  rewrite Hw in Hv. cbn in Hv. destruct o as [v|e]; [done|]. by destruct (is_Exception e).
Qed.

Lemma run_job_error i j : truthy (error j) = true -> truthy (error (run_job i j)) = negb (passes i j).
Proof.
  intros Ht. unfold run_job, passes. rewrite run_prefix. cbn [jb announced app].
  destruct (runner_cfgs data (config j)) as [[rc lc]|e]; [|done].
  destruct (new_runner _ _ _) as [r|e]; [|done]. destruct (wait_runner r (timeout j) (prepared (times i).1 r (JSt j []))) as [o s2] eqn:Hw.
  rewrite (run_tail _ _ _ _ _ _ Hw). pose proof (runner_ok r (timeout j) (prepared (times i).1 r (JSt j []))) as (_ & He & _).
  rewrite Hw in He. cbn in He. destruct o as [v|e]; cbn; [by rewrite negb_involutive|].
  rewrite <- He in Ht. by destruct (is_Exception e).
Qed.

(** The voting jobs that fail make the vote. *)
Lemma any_failed_jobs jobs : Forall (fun j => truthy (error j) = true) jobs ->
  any_failed (imap run_job jobs) = negb (forallb (fun ij => negb (voting ij.2) || passes ij.1 ij.2) (imap pair jobs)).
Proof.
  unfold any_failed. intros Hj.
  enough (forall f g : nat -> nat, (forall i, f i = g i) -> existsb (fun j => voting j && truthy (error j)) (imap (fun i => run_job (f i)) jobs) =
    negb (forallb (fun ij => negb (voting ij.2) || passes ij.1 ij.2) (imap (fun i => pair (g i)) jobs))) as E by (by apply (E (fun i => i) (fun i => i))).
  induction Hj as [|j jobs Ht Hj IH]; intros f g Hfg; [done|]. rewrite !imap_cons. cbn [existsb forallb fst snd].
  rewrite run_job_keeps, run_job_error by done. specialize (IH (fun i => f (S i)) (fun i => g (S i)) (fun i => Hfg (S i))).
  unfold compose. rewrite IH, Hfg.
  destruct (voting j), (passes (g 0) j); cbn; try done; by destruct (forallb _ _).
Qed.
End Review.

(** The review command of a task, if any, and what it votes. *)
Lemma publish_cmd_vote {R} stream_cfg (t : task R) cmd : publish_cmd stream_cfg t = Ok (Some cmd) ->
  truthy (dget stream_cfg "vote" PNone) = true ->
  cmd !! 2 = Some (if any_failed (t_jobs_list t) then "--verified=-1" else "--verified=+1").
Proof.
  unfold publish_cmd. intros Hc Hv. rewrite Hv in Hc. destruct (negb (truthy _)); [done|].
  do 6 (apply res_bind_Ok in Hc as (? & _ & Hc)). by injection Hc as <-.
Qed.

Lemma publish_step_reviews {R} stream_cfg ssh_run (s : cst (R := R)) cfg : truthy (dget stream_cfg "silent" PNone) = false ->
  dgetitem stream_cfg "ssh" = Ok cfg ->
  c_reviews (publish_step stream_cfg ssh_run s).2 =
    c_reviews s ++ match publish_cmd stream_cfg (c_task s) with Ok (Some cmd) => [cmd] | _ => [] end.
Proof.
  intros Hs Hc. rewrite publish_step_sent. unfold sent. rewrite Hs, Hc. by destruct (publish_cmd stream_cfg (c_task s)) as [[cmd|]|e].
Qed.

(** The jobs a task votes by are those the project names under [jobs]. *)
Lemma new_task_voters {R} data rnds now stream_cfg project event rnd (t : task R) type cfg names :
  new_task data rnds now stream_cfg project event rnd = Ok t -> dgetitem event "type" = Ok type -> is_str type "ref-updated" = false ->
  (projects ← dgetitem data "project"; getitem projects project) = Ok cfg -> job_names cfg "jobs" = Ok names ->
  Forall (fun j => truthy (error j) = true) (t_jobs_list t) /\
  PStr ∘ name <$> filter (fun j => voting j = true) (t_jobs_list t) = names.
Proof.
  unfold new_task. intros Hn Hty Hr Hcfg Hnames. apply res_bind_Ok in Hn as (id & _ & Hn). apply res_bind_Ok in Hn as (projects & Hp & Hn).
  rewrite Hp in Hcfg. cbn in Hcfg. rewrite Hcfg in Hn. cbn [mbind res_bind] in Hn. apply res_bind_Ok in Hn as (env & _ & Hn).
  rewrite Hty in Hn. cbn [mbind res_bind] in Hn. rewrite Hr, Hnames in Hn. cbn [mbind res_bind] in Hn.
  apply res_bind_Ok in Hn as (js & [Hj Ej]%make_jobs_spec & Hn). apply res_bind_Ok in Hn as (nv & _ & Hn).
  apply res_bind_Ok in Hn as (njs & [Hv Ev]%make_jobs_spec & [= <-]). cbn [t_jobs_list]. split.
  - apply Forall_app. split; (eapply Forall_impl; [eassumption|]); by intros j [-> _].
  - rewrite filter_app. assert (filter (fun j => voting j = true) js = js) as ->.
    { clear -Hj. revert names Hj. induction js as [|j js IH]; intros [|n names]; try done. rewrite !fmap_cons. intros [= _ Hvj Hjs]. rewrite filter_cons_True, (IH names); done. }
    assert (filter (fun j => voting j = true) njs = []) as ->.
    { clear -Hv. revert nv Hv. induction njs as [|j js IH]; intros [|n names]; try done. rewrite !fmap_cons. intros [= _ Hvj Hjs].
      rewrite filter_cons_False by congruence. by apply (IH names). }
    rewrite app_nil_r. clear -Hj. revert names Hj. induction js as [|j js IH]; intros [|n names]; try done. cbn. intros [= <- _ Hjs].
    f_equal. by apply IH.
Qed.

(** C3: (functional) The review of an event.  For an event of a change whose stream votes and may publish, the task that [Task()] makes of
    it, once its jobs have run, releases the change and sends at most one review, the command of [publish_results]; and that
    review votes +1 exactly if every job the project names under [jobs] passed (its runner could be created and its [run]
    returned a false value in time): a job that fails, times out, crashes or whose runner cannot be created makes it -1, and the
    non-voting jobs do not count. *)
Theorem review_vote {R} `{RunnerOk R} data times rnds clock stream_cfg project event rnd ssh_run end_handlers now keys
    (t : task R) type cfg names ssh :
  new_task data rnds clock stream_cfg project event rnd = Ok t ->
  dgetitem event "type" = Ok type -> is_str type "ref-updated" = false ->
  (projects ← dgetitem data "project"; getitem projects project) = Ok cfg -> job_names cfg "jobs" = Ok names ->
  truthy (dget stream_cfg "vote" PNone) = true -> truthy (dget stream_cfg "silent" PNone) = false ->
  dgetitem stream_cfg "ssh" = Ok ssh -> get_key event ∈ keys ->
  Forall (fun cb => forall t e, cb t = Raise e -> is_Exception e = true) end_handlers ->
  let s := review data times stream_cfg ssh_run end_handlers now keys t in
  let passed := forallb (fun ij => negb (voting ij.2) || passes data times ij.1 ij.2) (imap pair (t_jobs_list t)) in
  PStr ∘ name <$> filter (fun j => voting j = true) (t_jobs_list t) = names /\
  c_keys s = keys ∖ {[get_key event]} /\
  c_reviews s = match publish_cmd stream_cfg (run_jobs data times t) with Ok (Some cmd) => [cmd] | _ => [] end /\
  forall cmd, cmd ∈ c_reviews s -> cmd !! 2 = Some (if passed then "--verified=+1" else "--verified=-1").
Proof.
  intros Hn Hty Hr Hcfg Hnames Hvote Hsil Hssh Hkey Hcbs s passed.
  destruct (new_task_voters _ _ _ _ _ _ _ _ _ _ _ Hn Hty Hr Hcfg Hnames) as [Herr Hvoters].
  assert (t_event t = event) as Hev by (by eapply new_task_event).
  set (s0 := CSt (set_finished_at (int_of_float now) (run_jobs data times t)) (keys ∖ {[get_key event]}) [] []).
  assert (s = (se_iter call_end_handler end_handlers (publish_step stream_cfg ssh_run s0).2).2) as Hs.
  { unfold s, review, cleanup. rewrite se_bind_eq. cbn [se_modify]. rewrite se_bind_eq. cbn [se_get]. rewrite se_bind_eq.
    unfold remove_key. cbn [c_task c_keys set_finished_at t_event run_jobs]. rewrite Hev, decide_True by done. rewrite se_bind_eq.
    match goal with |- context [publish_step _ _ ?x] => change x with s0 end.
    by destruct (publish_step_frame stream_cfg ssh_run s0) as (s2 & -> & _). }
  destruct (publish_step_frame stream_cfg ssh_run s0) as (s2 & E & _ & Hk & _).
  pose proof (publish_step_reviews stream_cfg ssh_run s0 ssh Hsil Hssh) as Hrev.
  rewrite Hs, call_end_handlers_spec by done. cbn [c_keys c_reviews snd]. rewrite Hrev. cbn [c_reviews s0 app].
  change (publish_cmd stream_cfg (c_task s0)) with (publish_cmd stream_cfg (run_jobs data times t)).
  split; [done|]. split; [by rewrite E|]. split; [done|]. intros cmd.
  destruct (publish_cmd stream_cfg (run_jobs data times t)) as [[cmd'|]|e] eqn:Ec; [|by intros ?%not_elem_of_nil..].
  intros ->%list_elem_of_singleton. rewrite (publish_cmd_vote _ _ _ Ec Hvote). cbn [run_jobs t_jobs_list].
  rewrite any_failed_jobs by done. fold passed. by destruct passed.
Qed.

(** A voting and a non-voting job on a runner that succeeds. *)
Definition review_ex : cst (R := unit) :=
  @review unit (OutcomeRunner.outcome_ops (Ok PNone)) task_data_ex (fun i => (1, 61)%Q) stream_ex (fun _ => Ok tt) [] 70%Q
    {[get_key event_ex]} task_ex.

Lemma review_vote_witness : exists cmd, c_reviews review_ex = [cmd] /\ cmd !! 2 = Some "--verified=+1".
Proof.
  edestruct (@review_vote unit (OutcomeRunner.outcome_ops (Ok PNone)) (OutcomeRunner.outcome_ok _) task_data_ex (fun i => (1, 61)%Q)
    (fun _ => rnd_ex) (fun _ => 0%Q) stream_ex "openstack/rally" event_ex rnd_ex (fun _ => Ok tt) [] 70%Q {[get_key event_ex]} task_ex)
    as (_ & _ & Hrev & Hvote); try reflexivity; [constructor |].
  fold review_ex in Hrev, Hvote. destruct (publish_cmd _ _) as [[cmd|]|e] eqn:Ec; [|vm_compute in Ec; discriminate Ec..].
  exists cmd. split; [exact Hrev|]. rewrite (Hvote cmd); [reflexivity|]. rewrite Hrev. by apply list_elem_of_singleton.
Defined.
