(* ===== verification/StatusLife.v ===== *)
(** * Start and end of the status service

    [Class.run] and [Class.cleanup] of [services/status.py]: what the service registers, what it releases, and how far it
    gets when the HTTP server cannot be started.  The web framework is a parameter: whether the server starts, whether its
    parts close without error, and which clients leave while another one is being closed. *)

From S2P Require Import Prelude PyStr PyVal Status.
Open Scope nat_scope.

Section Life.
Context {W : Type} `{EqDecision W}.

(** The root's handlers and the attributes of the service; [None] and [false] while an attribute does not exist.
    [v_closed] lists the clients whose [close()] was awaited and [v_finished] tells that [app.finish()] was. *)
Record svc := Svc { v_hooks : hooks; v_sender : option PeriodicTask.pt; v_app : bool; v_handler : bool; v_srv : bool;
                    v_clients : list W; v_closed : list W; v_finished : bool }.

Definition with_hooks x s := Svc x (v_sender s) (v_app s) (v_handler s) (v_srv s) (v_clients s) (v_closed s) (v_finished s).
Definition with_sender x s := Svc (v_hooks s) x (v_app s) (v_handler s) (v_srv s) (v_clients s) (v_closed s) (v_finished s).
Definition with_app s := Svc (v_hooks s) (v_sender s) true (v_handler s) (v_srv s) (v_clients s) (v_closed s) (v_finished s).
Definition with_handler s := Svc (v_hooks s) (v_sender s) (v_app s) true (v_srv s) (v_clients s) (v_closed s) (v_finished s).
Definition with_srv s := Svc (v_hooks s) (v_sender s) (v_app s) (v_handler s) true (v_clients s) (v_closed s) (v_finished s).
Definition with_clients cs closed s := Svc (v_hooks s) (v_sender s) (v_app s) (v_handler s) (v_srv s) cs closed (v_finished s).
Definition with_finished s := Svc (v_hooks s) (v_sender s) (v_app s) (v_handler s) (v_srv s) (v_clients s) (v_closed s) true.

(** The bound methods of the service, its configuration, and the outcome of [create_server(handler, addr, port)]. *)
Context (m : methods) (config : pydict) (create_server : pyval -> pyval -> res unit).

(** [addr, port = v] *)
Definition unpack2 (v : pyval) : res (pyval * pyval) :=
  l ← iter v;
  match l with [a; b] => Ok (a, b) | _ => Raise ValueError end.

(** The interval of the statistics timer, a number of seconds; the timer only looks at it when it is armed. *)
Definition stats_interval : Z := match dget config "stats-interval" (PInt 60) with PInt n => n | _ => 0 end.

(** [run] up to [asyncio.Event().wait()], where it stays until it is cancelled. *)
Definition run : se svc unit :=
  _ ← se_modify (with_sender (Some (PeriodicTask.new stats_interval)));
  _ ← se_modify (fun s => with_hooks (register_hooks m (v_hooks s)) s);
  _ ← se_modify with_app;
  listen ← se_lift (unpack2 (dget config "listen" (PList [PStr "localhost"; PInt 8080])));
  _ ← se_modify with_handler;
  _ ← se_lift (create_server listen.1 listen.2);
  se_modify with_srv.

(** The outcomes of [c.close()], [handler.finish_connections(8)], [srv.wait_closed()] and [app.finish()]; and the clients
    whose handlers end, and leave the list, while [c.close()] is awaited. *)
Context (close : W -> res unit) (finish_connections wait_closed app_finish : res unit) (leave : W -> list W).

Definition without (gone cs : list W) : list W := List.filter (fun c => negb (bool_decide (c ∈ gone))) cs.

(** [for c in self.clients: yield from c.close()]: the loop is at index [i] of a list that may lose members. *)
Fixpoint close_clients (fuel i : nat) : se svc unit :=
  match fuel with
  | 0 => mret tt
  | S fuel =>
      s ← se_get;
      match v_clients s !! i with
      | None => mret tt
      | Some c =>
          _ ← se_modify (fun s => with_clients (without (leave c) (v_clients s)) (v_closed s ++ [c]) s);
          _ ← se_lift (close c);
          close_clients fuel (S i)
      end
  end.

(** [x.f()] where [x] is an attribute that [run] may not have created. *)
Definition attr (exists_ : bool) (r : res unit) : res unit := if exists_ then r else Raise AttributeError.

(** [self.root.<list>.remove(<method>)] for the three lists in turn. *)
Definition remove_hooks : se svc unit :=
  s ← se_get;
  l ← se_lift (list_remove (m_started m) (task_start_handlers (v_hooks s)));
  _ ← se_modify (fun s => with_hooks (Hooks l (task_end_handlers (v_hooks s)) (job_update_handlers (v_hooks s))) s);
  l ← se_lift (list_remove (m_finished m) (task_end_handlers (v_hooks s)));
  _ ← se_modify (fun s => with_hooks (Hooks (task_start_handlers (v_hooks s)) l (job_update_handlers (v_hooks s))) s);
  l ← se_lift (list_remove (m_job m) (job_update_handlers (v_hooks s)));
  se_modify (fun s => with_hooks (Hooks (task_start_handlers (v_hooks s)) (task_end_handlers (v_hooks s)) l) s).

Definition cleanup : se svc unit :=
  s ← se_get;
  sender ← se_lift (match v_sender s with Some p => Ok p | None => Raise AttributeError end);
  _ ← se_modify (with_sender (Some (PeriodicTask.stop sender)));
  _ ← remove_hooks;
  _ ← close_clients (length (v_clients s)) 0;
  _ ← se_lift (attr (v_handler s) finish_connections);
  _ ← se_lift (attr (v_srv s) (Ok tt));
  _ ← se_lift (attr (v_srv s) wait_closed);
  _ ← se_lift (attr (v_app s) app_finish);
  se_modify with_finished.

(** ** The handlers *)

Definition hooks_app (h later : hooks) : hooks :=
  Hooks (task_start_handlers h ++ task_start_handlers later) (task_end_handlers h ++ task_end_handlers later)
        (job_update_handlers h ++ job_update_handlers later).

Definition unhooked (h : hooks) : Prop :=
  m_started m ∉ task_start_handlers h /\ m_finished m ∉ task_end_handlers h /\ m_job m ∉ job_update_handlers h.

Lemma remove_hooks_ok h later s : unhooked h -> v_hooks s = hooks_app (register_hooks m h) later ->
  remove_hooks s = (Ok tt, with_hooks (hooks_app h later) s).
Proof.
  intros (Hs & He & Hj) E. unfold remove_hooks, mbind, se_bind, se_get, se_lift, se_modify. rewrite E.
  unfold hooks_app, register_hooks. cbn. rewrite <- !app_assoc. cbn [app]. rewrite !list_remove_app by done. done.
Qed.

(** However [run] ends, the timer exists and the handlers are registered. *)
Lemma run_registers s : exists r app handler srv,
  run s = (r, Svc (register_hooks m (v_hooks s)) (Some (PeriodicTask.new stats_interval)) app handler srv (v_clients s) (v_closed s) (v_finished s)) /\
  app = true /\ (r = Ok tt -> handler = true /\ srv = true) /\ (v_srv s = false -> r <> Ok tt -> srv = false).
Proof.
  unfold run, mbind, se_bind, se_lift, se_modify. destruct (unpack2 _) as [[a p]|e]; cbn.
  - destruct (create_server a p) as [[]|e]; repeat eexists; done || auto.
  - repeat eexists; done || auto.
Qed.

Lemma close_frame fuel : forall i s, exists cs closed, (close_clients fuel i s).2 = with_clients cs closed s.
Proof.
  induction fuel as [|fuel IH]; intros i s; [by exists (v_clients s), (v_closed s); destruct s|]. cbn [close_clients].
  rewrite se_bind_eq. cbn [se_get]. destruct (v_clients s !! i) as [c|]; [|by exists (v_clients s), (v_closed s); destruct s].
  rewrite se_bind_eq. cbn [se_modify]. rewrite se_bind_eq. unfold se_lift. destruct (close c) as [[]|e]; [|by eexists _, _].
  destruct (IH (S i) (with_clients (without (leave c) (v_clients s)) (v_closed s ++ [c]) s)) as (cs & closed & ->). by eexists _, _.
Qed.

(** The cleanup: the handlers are gone whatever happens next. *)
Lemma cleanup_unhooks h later s : unhooked h -> v_hooks s = hooks_app (register_hooks m h) later -> is_Some (v_sender s) ->
  v_hooks (cleanup s).2 = hooks_app h later.
Proof.
  intros Hu E [p Hp]. unfold cleanup. rewrite se_bind_eq. cbn [se_get]. rewrite Hp, se_bind_eq. cbn [se_lift]. rewrite se_bind_eq.
  cbn [se_modify]. rewrite se_bind_eq, (remove_hooks_ok h later) by done. rewrite se_bind_eq. set (s1 := with_hooks _ _).
  destruct (close_frame (length (v_clients s)) 0 s1) as (cs & closed & Hc).
  destruct (close_clients (length (v_clients s)) 0 s1) as [[[]|e] s2]; cbn in Hc; subst s2; [|done].
  unfold mbind, se_bind, se_lift, se_modify. by repeat case_match.
Qed.

(** ** The clients *)

Fixpoint evens {A} (l : list A) : list A := match l with x :: _ :: l => x :: evens l | l => l end.
Definition odds {A} (l : list A) : list A := evens (tail l).

Lemma without_nil (cs : list W) : without [] cs = cs.
Proof. unfold without. induction cs as [|c cs IH]; [done|]. cbn. by rewrite IH. Qed.

Lemma without_notin c (cs : list W) : c ∉ cs -> without [c] cs = cs.
Proof.
  unfold without. induction cs as [|d cs IH]; intros Hc; [done|]. apply not_elem_of_cons in Hc as [Hd Hc]. cbn.
  rewrite bool_decide_false, IH by set_solver. done.
Qed.

Lemma without_middle (cs : list W) i c : NoDup cs -> cs !! i = Some c -> without [c] cs = take i cs ++ drop (S i) cs.
Proof.
  intros Hn Hi. pose proof (take_drop_middle _ _ _ Hi) as E. rewrite <- E in Hn |- * at 1.
  apply NoDup_app in Hn as (Hn1 & Hn2 & [Hn3 Hn4]%NoDup_cons). unfold without. rewrite List.filter_app. cbn.
  rewrite bool_decide_true by set_solver. cbn. fold (without [c] (take i cs)). fold (without [c] (drop (S i) cs)).
  rewrite !without_notin; [done | done|]. intros Hc. apply (Hn2 c); [done | by left].
Qed.

Lemma close_all fuel : (forall c, close c = Ok tt) -> (forall c, leave c = []) -> forall i s, length (v_clients s) <= i + fuel ->
  close_clients fuel i s = (Ok tt, with_clients (v_clients s) (v_closed s ++ drop i (v_clients s)) s).
Proof.
  intros Hc Hl. induction fuel as [|fuel IH]; intros i s Hf.
  - cbn. rewrite drop_ge, app_nil_r by lia. by destruct s.
  - cbn [close_clients]. rewrite se_bind_eq. cbn [se_get]. destruct (v_clients s !! i) as [c|] eqn:Hi.
    + rewrite se_bind_eq. cbn [se_modify]. rewrite se_bind_eq. unfold se_lift. rewrite Hc, IH.
      * cbn. rewrite Hl, without_nil, (drop_S _ c i) by done. by rewrite <- app_assoc.
      * cbn. rewrite Hl, without_nil. lia.
    + apply lookup_ge_None in Hi. rewrite drop_ge, app_nil_r by done. by destruct s.
Qed.

Lemma evens_cons (x : W) l : evens (x :: l) = x :: evens (tail l).
Proof. by destruct l. Qed.

Lemma close_skips fuel : (forall c, close c = Ok tt) -> (forall c, leave c = [c]) -> forall i s, NoDup (v_clients s) ->
  length (v_clients s) <= i + fuel ->
  close_clients fuel i s = (Ok tt, with_clients (take i (v_clients s) ++ odds (drop i (v_clients s)))
                                                (v_closed s ++ evens (drop i (v_clients s))) s).
Proof.
  intros Hc Hl. induction fuel as [|fuel IH]; intros i s Hn Hf.
  - cbn. rewrite drop_ge, take_ge, !app_nil_r by lia. by destruct s.
  - cbn [close_clients]. rewrite se_bind_eq. cbn [se_get]. destruct (v_clients s !! i) as [c|] eqn:Hi.
    + rewrite se_bind_eq. cbn [se_modify]. rewrite se_bind_eq. unfold se_lift. rewrite Hc.
      pose proof (lookup_lt_Some _ _ _ Hi) as Hlt. pose proof (without_middle _ _ _ Hn Hi) as Ew.
      rewrite IH; cbn [v_clients with_clients]; rewrite ?Hl, Ew.
      * rewrite (drop_S _ c i Hi), evens_cons. unfold odds at 2. cbn [tail].
        rewrite drop_app_ge, length_take_le, Nat.sub_succ_l, Nat.sub_diag by (rewrite ?length_take; lia).
        rewrite take_app_ge, length_take_le, Nat.sub_succ_l, Nat.sub_diag by (rewrite ?length_take; lia).
        cbn [v_closed with_clients]. unfold with_clients. cbn. f_equal. f_equal.
        -- rewrite <- app_assoc. f_equal. destruct (drop (S i) (v_clients s)) as [|d l]; [done|]. cbn [take app odds drop].
           unfold odds. by rewrite evens_cons.
        -- rewrite <- app_assoc. cbn. by destruct (drop (S i) (v_clients s)).
      * eapply sublist_NoDup; [exact Hn|]. rewrite <- (take_drop_middle _ _ _ Hi) at 3. apply sublist_app; [done | by apply sublist_cons].
      * rewrite length_app, length_take, length_drop. lia.
    + apply lookup_ge_None in Hi. rewrite drop_ge, take_ge, !app_nil_r by done. by destruct s.
Qed.
End Life.
Arguments Svc {W}. Arguments v_hooks {W}. Arguments v_sender {W}. Arguments v_app {W}. Arguments v_handler {W}. Arguments v_srv {W}.
Arguments v_clients {W}. Arguments v_closed {W}. Arguments v_finished {W}.

(** A service that was just created. *)
Definition new_svc {W} (h : hooks) : svc (W := W) := Svc h None false false false [] [] false.

(** The service while it runs: others have registered the handlers [later], the clients are [cs]. *)
Definition meanwhile {W} (later : hooks) (cs : list W) (s : svc (W := W)) : svc := with_clients cs [] (with_hooks (hooks_app (v_hooks s) later) s).

(** C32: the status service gives back what it took.  However its [run] ends (the [listen] entry may be malformed, the port may be
    taken) and however its [cleanup] ends, after both of them the root's lists hold the handlers that others registered before
    and after it, in order, and none of its own.  When every part closes and no client leaves meanwhile, all clients have been
    closed; the cleanup is complete if the server had started, and otherwise ends with the [AttributeError] of the attribute
    that [run] did not create, before [app.finish()]. *)
Theorem status_lifecycle {W} `{EqDecision W} m config create_server (close : W -> res unit) fin wc af leave h later cs :
  unhooked m h ->
  let r := run (W := W) m config create_server (new_svc h) in
  let c := cleanup m close fin wc af leave (meanwhile later cs r.2) in
  v_hooks c.2 = hooks_app h later /\
  ((forall w, close w = Ok tt) -> fin = Ok tt -> wc = Ok tt -> af = Ok tt -> (forall w, leave w = []) ->
   v_closed c.2 = cs /\ v_finished c.2 = bool_decide (r.1 = Ok tt) /\ c.1 = if decide (r.1 = Ok tt) then Ok tt else Raise AttributeError).
Proof.
  intros Hu r c. destruct (run_registers (W := W) m config create_server (new_svc h)) as (r0 & app & handler & srv & E & -> & Hok & Hbad).
  unfold c, r. rewrite E. cbn [fst snd]. set (s := meanwhile _ _ _). split; [by apply cleanup_unhooks|].
  intros Hc -> -> -> Hl. unfold cleanup. rewrite se_bind_eq. cbn [se_get]. rewrite se_bind_eq. cbn [se_lift v_sender s meanwhile with_clients with_hooks].
  rewrite se_bind_eq. cbn [se_modify]. rewrite se_bind_eq, (remove_hooks_ok m h later) by done. rewrite se_bind_eq, close_all by (done || cbn; lia).
  unfold mbind, se_bind, se_lift, se_modify. cbn [v_handler v_srv v_app s meanwhile with_clients with_hooks].
  case_bool_decide as Er; (destruct (decide (r0 = Ok tt)); [|]); try done.
  - destruct (Hok Er) as [-> ->]. done.
  - rewrite (Hbad eq_refl Er). by destruct handler.
Qed.

(** A handler of another service is registered before it, one after it; the port is taken. *)
Lemma status_lifecycle_witness :
  let r := run (W := nat) (Methods 1 2 3) [] (fun _ _ => Raise (OSError 98)) (new_svc (Hooks [7] [] [])) in
  let c := cleanup (Methods 1 2 3) (fun _ => Ok tt) (Ok tt) (Ok tt) (Ok tt) (fun _ => []) (meanwhile (Hooks [9] [] []) [4; 5] r.2) in
  v_hooks c.2 = Hooks [7; 9] [] [] /\ v_closed c.2 = [4; 5] /\ c.1 = Raise AttributeError.
Proof.
  destruct (status_lifecycle (W := nat) (Methods 1 2 3) [] (fun _ _ => Raise (OSError 98)) (fun _ => Ok tt) (Ok tt) (Ok tt) (Ok tt)
    (fun _ => []) (Hooks [7] [] []) (Hooks [9] [] []) [4; 5]) as [Hh Hrest].
  - split_and!; apply (bool_decide_unpack _); vm_compute; exact I.
  - destruct Hrest as (Hc & _ & Hr); [done..|]. split_and!; [exact Hh | exact Hc | exact Hr].
Defined.

(** the loop over [self.clients] that closes them walks a list its clients take themselves out of: when each client's handler
    ends while its [close()] is awaited, only every other client is closed, and the others are still in the list when the server
    is closed. *)
Theorem cleanup_skips_clients {W} `{EqDecision W} (close : W -> res unit) s :
  (forall w, close w = Ok tt) -> NoDup (v_clients s) ->
  let s' := (close_clients close (fun w => [w]) (length (v_clients s)) 0 s).2 in
  v_closed s' = v_closed s ++ evens (v_clients s) /\ v_clients s' = odds (v_clients s) /\
  (2 <= length (v_clients s) -> v_clients s' <> []).
Proof.
  intros Hc Hn s'. unfold s'. rewrite close_skips by (done || lia). cbn. split_and!; [done | done|].
  destruct (v_clients s) as [|x [|y l]]; cbn; [lia | lia|]. intros _. unfold odds. cbn. by destruct l.
Qed.

Lemma cleanup_skips_clients_witness :
  v_closed (close_clients (fun _ => Ok tt) (fun w => [w]) 3 0 (with_clients [4; 5; 6] [] (new_svc (Hooks [] [] [])))).2 = [4; 6].
Proof.
  apply (cleanup_skips_clients (fun _ => Ok tt) (with_clients [4; 5; 6] [] (new_svc (Hooks [] [] []))) (fun _ => eq_refl)).
  apply (bool_decide_unpack _). vm_compute. exact I.
Defined.
