(* ===== verification/ChangeRequest.v ===== *)
(** * [rallyci/cr.py]

    The change request, the class that [Task] has replaced.  Its jobs are created with four arguments where [Job] takes two,
    and its results are published with a method that [Config] does not have: the definitions follow the code into both
    exceptions. *)

From Stdlib Require Import QArith.
From S2P Require Import Prelude PyStr PyVal PyRe Utils Job Gerrit.
Open Scope nat_scope.

(** The attributes; [cr_project] is [None] when the constructor returns before the attribute is set. *)
Record cr (R : Type) := CR { cr_id : string; cr_event : pydict; cr_project : option pyval; cr_jobs : list (job R) }.
Arguments CR {R}. Arguments cr_id {R}. Arguments cr_event {R}. Arguments cr_project {R}. Arguments cr_jobs {R}.

(** [d.get(key)] for a key taken from an event. *)
Definition get_by (v key : pyval) : res pyval :=
  match v, key with
  | PDict d, PStr k => Ok (dget d k PNone)
  | PDict _, (PList _ | PDict _) => Raise TypeError
  | PDict _, _ => Ok PNone
  | _, _ => Raise AttributeError
  end.

(** [cgi.escape(v)] *)
Definition escape_val (v : pyval) : res string := s ← as_str v; Ok (escape s).

Section CR.
Context {R : Type} (data : pydict).

(** The random source and the clock of a new job. *)
Context (jrnd : nat -> nat) (now : Q).

(** A call with [given] positional arguments of a function that takes [params]. *)
Definition call {A} (params given : nat) (body : res A) : res A := if decide (given = params) then body else Raise TypeError.

(** [Job(self, job_name, cfg, self.event)]: [Job.__init__] takes an event and a name. *)
Definition job_call (cid : string) (job_name : pyval) : res (job R) := call 2 4 (new_job data jrnd now cid job_name).

(** [_prepare_job] of the change request named [cid] *)
Definition prepare_job (cid : string) (voting : bool) (jobs : list (job R)) (job_name : pyval) : res (list (job R)) :=
  cfgs ← dgetitem data "jobs";
  _ ← getitem_key cfgs job_name;
  j ← job_call cid job_name;
  Ok (jobs ++ [set_voting voting j]).

Definition job_names (project : pyval) (key : string) : res (list pyval) :=
  v ← get project key (PList []);
  iter v.

(** [prepare_jobs] *)
Definition prepare_jobs (cid : string) (project : pyval) : res (list (job R)) :=
  names ← job_names project "jobs";
  jobs ← res_fold (prepare_job cid true) [] names;
  names ← job_names project "non-voting-jobs";
  res_fold (prepare_job cid false) jobs names.

(** The configured expression for rechecks: [self.config.data.get("recheck", {}).get("regexp")]. *)
Definition recheck_regexp : res pyval := get (dget data "recheck" (PDict [])) "regexp" PNone.

(** [CR(config, event)] *)
Definition new_cr (rnd : nat -> nat) (event : pydict) : res (cr R) :=
  id ← get_rnd_name rnd "CR" 10;
  type ← dgetitem event "type";
  if is_str type "ref-updated" then Ok (CR id event None [])
  else
    project_name ← (change ← dgetitem event "change"; getitem change "project");
    projects ← dgetitem data "projects";
    project ← get_by projects project_name;
    if negb (truthy project) then Ok (CR id event (Some project) [])
    else if is_str type "patchset-created" then
      jobs ← prepare_jobs id project; Ok (CR id event (Some project) jobs)
    else if is_str type "comment-added" then
      regexp ← recheck_regexp;
      if negb (truthy regexp) then Ok (CR id event (Some project) [])
      else
        comment ← dgetitem event "comment";
        m ← re_search regexp comment;
        if (m : bool) then jobs ← prepare_jobs id project; Ok (CR id event (Some project) jobs)
        else Ok (CR id event (Some project) [])
    else Ok (CR id event (Some project) []).

(** [to_dict]; [dict_of] is the [to_dict] of a job. *)
Definition to_dict (dict_of : job R -> pydict) (c : cr R) : res pydict :=
  change ← get (PDict (cr_event c)) "change" (PDict []);
  subject ← (v ← get change "subject" (PStr ""); escape_val v);
  project ← (v ← get change "project" (PStr ""); escape_val v);
  Ok [("id", PStr (cr_id c)); ("jobs", PList (PDict ∘ dict_of <$> cr_jobs c)); ("subject", PStr subject); ("project", PStr project)].

(** [run]: the jobs run, each with its result or exception [outcome]; publishing needs [Config.init_obj], which does not
    exist. *)
Definition run (outcome : job R -> pyval) (c : cr R) : res (list pyval) :=
  let results := outcome <$> cr_jobs c in
  match cr_project c with
  | None => Raise AttributeError
  | Some project =>
      silent ← get project "silent" PNone;
      if truthy silent then Ok results
      else if truthy (dget data "publisher" PNone) then Raise AttributeError else Ok results
  end.

(** ** What is left of it *)

Lemma prepare_job_raises cid voting jobs name : exists e, prepare_job cid voting jobs name = Raise e.
Proof.
  unfold prepare_job. destruct (dgetitem data "jobs") as [cfgs|e]; [|by eexists]. cbn.
  destruct (getitem_key cfgs name) as [cfg|e]; by eexists.
Qed.

Lemma fold_jobs cid voting jobs names l : res_fold (prepare_job cid voting) jobs names = Ok l -> names = [] /\ l = jobs.
Proof.
  destruct names as [|n names]; cbn [res_fold]; [intros [= <-]; done|]. destruct (prepare_job_raises cid voting jobs n) as [e ->]. done.
Qed.

Lemma prepare_jobs_Ok cid project l : prepare_jobs cid project = Ok l ->
  l = [] /\ job_names project "jobs" = Ok [] /\ job_names project "non-voting-jobs" = Ok [].
Proof.
  unfold prepare_jobs. intros (n1 & H1 & H)%res_bind_Ok. apply res_bind_Ok in H as (j1 & [-> ->]%fold_jobs & H).
  apply res_bind_Ok in H as (n2 & H2 & [-> ->]%fold_jobs). done.
Qed.

Lemma new_cr_no_jobs rnd event c : new_cr rnd event = Ok c -> cr_jobs c = [] /\ cr_event c = event /\
  forall project, cr_project c = Some project -> truthy project = true -> dgetitem event "type" = Ok (PStr "patchset-created") ->
    job_names project "jobs" = Ok [] /\ job_names project "non-voting-jobs" = Ok [].
Proof.
  unfold new_cr. intros (id & _ & H)%res_bind_Ok. apply res_bind_Ok in H as (type & Ht & H).
  destruct (is_str type "ref-updated"); [injection H as <-; done|].
  apply res_bind_Ok in H as (name & _ & H). apply res_bind_Ok in H as (projects & _ & H). apply res_bind_Ok in H as (project & _ & H).
  destruct (truthy project) eqn:Etr; cbn [negb] in H.
  2:{ injection H as <-. split_and!; [done | done|]. intros ? [= <-]. congruence. }
  destruct (is_str type "patchset-created") eqn:Ep.
  - apply res_bind_Ok in H as (jobs & (-> & Hj)%prepare_jobs_Ok & [= <-]). split_and!; [done | done|]. by intros ? [= <-].
  - assert (dgetitem event "type" = Ok (PStr "patchset-created") -> False) as Hno.
    { rewrite Ht. intros [= ->]. by rewrite (proj2 (is_str_true _ _) eq_refl) in Ep. }
    assert (cr_jobs c = [] /\ cr_event c = event) as [Hj He]; [|split_and!; [done | done|]; intros; exfalso; auto].
    clear Hno. destruct (is_str type "comment-added"); [|by injection H as <-]. apply res_bind_Ok in H as (re & _ & H).
    destruct (truthy re); cbn [negb] in H; [|by injection H as <-]. apply res_bind_Ok in H as (comment & _ & H).
    apply res_bind_Ok in H as (m & _ & H). destruct m; [|by injection H as <-].
    by apply res_bind_Ok in H as (jobs & (-> & Hj)%prepare_jobs_Ok & [= <-]).
Qed.
End CR.

(** a change request never has a job: whatever the configuration and the event, the constructor either raises (and it does for
    every new patch set of a project that has jobs) or gives an object without jobs, whose summary lists none and whose [run] runs nothing. *)
Theorem change_request_has_no_jobs {R} data jrnd now rnd event :
  match new_cr (R := R) data jrnd now rnd event with
  | Ok c => cr_jobs c = [] /\ (forall dict_of d, to_dict dict_of c = Ok d -> dict_get d "jobs" = Some (PList [])) /\
      (forall outcome l, run data outcome c = Ok l -> l = []) /\
      forall project, cr_project c = Some project -> truthy project = true -> dgetitem event "type" = Ok (PStr "patchset-created") ->
        job_names project "jobs" = Ok [] /\ job_names project "non-voting-jobs" = Ok []
  | Raise _ => True
  end.
Proof.
  destruct (new_cr data jrnd now rnd event) as [c|] eqn:E; [|done]. apply new_cr_no_jobs in E as (Hj & _ & Hp). split_and!; [done | | |done].
  2:{ unfold run. rewrite Hj. intros outcome l. destruct (cr_project c) as [project|]; [|done]. intros (v & _ & H)%res_bind_Ok.
      by repeat case_match; simplify_eq. }
  unfold to_dict. rewrite Hj. intros dict_of d H. apply res_bind_Ok in H as (change & _ & H). apply res_bind_Ok in H as (s & _ & H).
  by apply res_bind_Ok in H as (p & _ & [= <-]).
Qed.
