(* ===== verification/Root.v ===== *)
(** * [rallyci/root.py] and [Task.run]: the root object on the event loop

    The state is the event loop's (futures with their done callbacks, the FIFO queue of ready handles, the
    [asyncio.wait] calls in progress) together with the root's: [running_objects], [running_cleanups], [tasks]
    and how far [Root.run] has got.  Each callback and each resumption of a coroutine is one handle and runs
    atomically.  What the objects do inside [run()] and [cleanup()] is the environment: a service, a job or a
    cleanup finishes at an arbitrary moment, a running service may start a task at any moment, and the stop
    signal arrives at any moment.  [Task.run] is not environment: it starts its jobs and waits for them. *)

From S2P Require Import Prelude PyStr PyVal.

(** ** Futures, callbacks, handles *)

Inductive obj : Type :=
| OService (n : nat)
| OTask (n : nat) (jobs : list nat)
| OJob (n : nat).

(** The coroutine behind a future: [run_obj(obj)], or [run_cleanup(obj)] for the object of run future [origin]. *)
Inductive kind : Type := KRun | KCleanup (origin : nat).

Inductive owner : Type := OwnMain | OwnTask (f : nat).

Inductive callback : Type :=
| CbCleanup            (* Root.schedule_cleanup *)
| CbTasksPop           (* Root.tasks.pop *)
| CbWait (wid : nat).  (* the _on_completion of an asyncio.wait call *)

Inductive handle : Type :=
| HStep (f : nat)               (* the first step of a coroutine *)
| HCb (f : nat) (c : callback)  (* a done callback of a finished future *)
| HWake (wid : nat)             (* the coroutine suspended in an asyncio.wait call resumes *)
| HCancel (f : nat).            (* a task coroutine resumes with CancelledError *)

#[export] Instance kind_eq_dec : EqDecision kind. Proof. solve_decision. Defined.
#[export] Instance callback_eq_dec : EqDecision callback. Proof. solve_decision. Defined.
#[export] Instance handle_eq_dec : EqDecision handle. Proof. solve_decision. Defined.

Record fut := Fut { f_obj : obj; f_kind : kind; f_started : bool; f_done : bool; f_cancel : bool;
                    f_cbs : list callback }.

(** An [asyncio.wait] call: the futures, those whose callback has not run (its counter is their number), whether
    it waits for all of them, whether its waiter is done, and the coroutine it suspends. *)
Record wait_rec := Wait { w_fs : list nat; w_left : list nat; w_all : bool; w_fired : bool; w_owner : owner }.

(** How far [Root.run] is: waiting for the stop event; suspended in the wait call [wid] for the running objects or
    for the cleanups; past [loop.stop()]. *)
Inductive phase_t : Type := PRun | PWaitObjs (wid : nat) | PWaitCleanups (wid : nat) | PStopped.

Record st := St {
  next : nat; futs : gmap nat fut; ready : list handle;
  running_objects : list (nat * obj); running_cleanups : list nat; tasks : list (nat * obj);
  next_w : nat; waits : gmap nat wait_rec; cur_wait : gmap nat nat;
  task_fs : gmap nat (list (nat * obj));
  phase : phase_t;
  (* history: run futures whose cleanup was scheduled; those schedule_cleanup did not find; those wait_fs
     deleted from running_objects; the job futures each task started *)
  cleaned : list nat; errors : list nat; lost : list nat; jobs_of : gmap nat (list nat) }.

Definition init : st := St 0 ∅ [] [] [] [] 0 ∅ ∅ ∅ PRun [] [] [] ∅.

(** Record updates *)
Definition with_futs m s := St (next s) m (ready s) (running_objects s) (running_cleanups s) (tasks s) (next_w s)
  (waits s) (cur_wait s) (task_fs s) (phase s) (cleaned s) (errors s) (lost s) (jobs_of s).
Definition with_ready l s := St (next s) (futs s) l (running_objects s) (running_cleanups s) (tasks s) (next_w s)
  (waits s) (cur_wait s) (task_fs s) (phase s) (cleaned s) (errors s) (lost s) (jobs_of s).
Definition with_running l s := St (next s) (futs s) (ready s) l (running_cleanups s) (tasks s) (next_w s)
  (waits s) (cur_wait s) (task_fs s) (phase s) (cleaned s) (errors s) (lost s) (jobs_of s).
Definition with_tasks l s := St (next s) (futs s) (ready s) (running_objects s) (running_cleanups s) l (next_w s)
  (waits s) (cur_wait s) (task_fs s) (phase s) (cleaned s) (errors s) (lost s) (jobs_of s).
Definition with_waits m s := St (next s) (futs s) (ready s) (running_objects s) (running_cleanups s) (tasks s) (next_w s)
  m (cur_wait s) (task_fs s) (phase s) (cleaned s) (errors s) (lost s) (jobs_of s).
Definition with_task_fs m s := St (next s) (futs s) (ready s) (running_objects s) (running_cleanups s) (tasks s) (next_w s)
  (waits s) (cur_wait s) m (phase s) (cleaned s) (errors s) (lost s) (jobs_of s).
Definition with_phase p s := St (next s) (futs s) (ready s) (running_objects s) (running_cleanups s) (tasks s) (next_w s)
  (waits s) (cur_wait s) (task_fs s) p (cleaned s) (errors s) (lost s) (jobs_of s).
Definition with_errors l s := St (next s) (futs s) (ready s) (running_objects s) (running_cleanups s) (tasks s) (next_w s)
  (waits s) (cur_wait s) (task_fs s) (phase s) (cleaned s) l (lost s) (jobs_of s).
Definition with_lost l s := St (next s) (futs s) (ready s) (running_objects s) (running_cleanups s) (tasks s) (next_w s)
  (waits s) (cur_wait s) (task_fs s) (phase s) (cleaned s) (errors s) l (jobs_of s).
Definition with_jobs_of m s := St (next s) (futs s) (ready s) (running_objects s) (running_cleanups s) (tasks s) (next_w s)
  (waits s) (cur_wait s) (task_fs s) (phase s) (cleaned s) (errors s) (lost s) m.

(** ** asyncio *)

(** [loop.call_soon] *)
Definition call_soon (h : handle) (s : st) : st := with_ready (ready s ++ [h]) s.

Definition is_done (s : st) (f : nat) : bool :=
  match futs s !! f with Some r => f_done r | None => false end.

(** [fut.add_done_callback(c)] *)
Definition add_cb (c : callback) (s : st) (f : nat) : st :=
  match futs s !! f with
  | Some r =>
      if f_done r then call_soon (HCb f c) s
      else with_futs (<[f := Fut (f_obj r) (f_kind r) (f_started r) false (f_cancel r) (f_cbs r ++ [c])]> (futs s)) s
  | None => s
  end.

(** [fut.remove_done_callback(c)] *)
Definition remove_cb (c : callback) (s : st) (f : nat) : st :=
  match futs s !! f with
  | Some r =>
      with_futs (<[f := Fut (f_obj r) (f_kind r) (f_started r) (f_done r) (f_cancel r)
                            (List.filter (fun c' => negb (bool_decide (c' = c))) (f_cbs r))]> (futs s)) s
  | None => s
  end.

(** The coroutine of [f] ends: its callbacks are scheduled in the order they were added. *)
Definition complete (f : nat) (s : st) : st :=
  match futs s !! f with
  | Some r =>
      if f_done r then s
      else with_ready (ready s ++ (HCb f <$> f_cbs r))
             (with_futs (<[f := Fut (f_obj r) (f_kind r) (f_started r) true (f_cancel r) []]> (futs s)) s)
  | None => s
  end.

(** Suspend a coroutine in [asyncio.wait(fs)]. *)
Definition wait (o : owner) (all : bool) (fs : list nat) (s : st) : st :=
  let wid := next_w s in
  let s := St (next s) (futs s) (ready s) (running_objects s) (running_cleanups s) (tasks s) (S wid)
              (<[wid := Wait fs fs all false o]> (waits s))
              (match o with OwnMain => cur_wait s | OwnTask f => <[f := wid]> (cur_wait s) end)
              (task_fs s) (phase s) (cleaned s) (errors s) (lost s) (jobs_of s) in
  fold_left (add_cb (CbWait wid)) fs s.

(** The callback of an [asyncio.wait] call: one future less; the waiter is set once, when the first future is
    done or, for [ALL_COMPLETED], when none is left. *)
Definition on_completion (wid f : nat) (s : st) : st :=
  match waits s !! wid with
  | Some w =>
      let left := List.filter (fun g => negb (g =? f)) (w_left w) in
      let fire := negb (w_fired w) && (negb (w_all w) || bool_decide (left = [])) in
      let s := with_waits (<[wid := Wait (w_fs w) left (w_all w) (w_fired w || fire) (w_owner w)]> (waits s)) s in
      if fire then call_soon (HWake wid) s else s
  | None => s
  end.

(** ** Root *)

(** [start_obj(obj)]: the new future and the state. *)
Definition start_obj (o : obj) (s : st) : nat * st :=
  let f := next s in
  (f, St (S f) (<[f := Fut o KRun false false false [CbCleanup]]> (futs s)) (ready s ++ [HStep f])
         (running_objects s ++ [(f, o)]) (running_cleanups s) (tasks s) (next_w s) (waits s) (cur_wait s)
         (task_fs s) (phase s) (cleaned s) (errors s) (lost s) (jobs_of s)).

(** [start_task(task)] once the start handlers have returned. *)
Definition start_task (o : obj) (s : st) : st :=
  let '(f, s) := start_obj o s in
  add_cb CbTasksPop (with_tasks (dict_set (tasks s) f o) s) f.

(** [schedule_cleanup(fut)]: [KeyError] when the future is not in [running_objects]. *)
Definition schedule_cleanup (f : nat) (s : st) : st :=
  match dict_get (running_objects s) f with
  | Some o =>
      let g := next s in
      St (S g) (<[g := Fut o (KCleanup f) false false false []]> (futs s)) (ready s ++ [HStep g])
         (dict_del (running_objects s) f) (running_cleanups s ++ [g]) (tasks s) (next_w s) (waits s) (cur_wait s)
         (task_fs s) (phase s) (cleaned s ++ [f]) (errors s) (lost s) (jobs_of s)
  | None => with_errors (errors s ++ [f]) s
  end.

(** [wait_fs] on the running objects, from the test of its loop; then the rest of [Root.run]. *)
Definition main_loop (s : st) : st :=
  match dict_keys (running_objects s) with
  | [] =>
      match running_cleanups s with
      | [] => with_phase PStopped s
      | cs => wait OwnMain true cs (with_phase (PWaitCleanups (next_w s)) s)
      end
  | fs => wait OwnMain false fs (with_phase (PWaitObjs (next_w s)) s)
  end.

(** [for fut in done: if fut in fs: del(fs[fut])] *)
Definition delete_done {V} (done : list nat) (d : list (nat * V)) : list (nat * V) :=
  fold_left (fun d f => dict_del d f) done d.

(** [Root.run] resumes from the wait call [wid] it is suspended in, with the finished futures [done]. *)
Definition main_wake (wid : nat) (done : list nat) (s : st) : st :=
  match phase s with
  | PWaitObjs wid' =>
      if decide (wid = wid') then
        let gone := List.filter (fun f => bool_decide (f ∈ dict_keys (running_objects s))) done in
        main_loop (with_lost (lost s ++ gone) (with_running (delete_done done (running_objects s)) s))
      else s
  | PWaitCleanups wid' => if decide (wid = wid') then with_phase PStopped s else s
  | _ => s
  end.

(** ** Task.run *)

Definition fs_of (f : nat) (s : st) : list (nat * obj) := default [] (task_fs s !! f).

(** [wait_fs(fs)] in the task of future [f], from the test of its loop; an empty [fs] ends [Task.run]. *)
Definition task_loop (f : nat) (s : st) : st :=
  match dict_keys (fs_of f s) with
  | [] => complete f s
  | fs => wait (OwnTask f) false fs s
  end.

Definition set_started (f : nat) (s : st) : st :=
  match futs s !! f with
  | Some r => with_futs (<[f := Fut (f_obj r) (f_kind r) true (f_done r) (f_cancel r) (f_cbs r)]> (futs s)) s
  | None => s
  end.

Definition set_cancel (b : bool) (f : nat) (s : st) : st :=
  match futs s !! f with
  | Some r => with_futs (<[f := Fut (f_obj r) (f_kind r) (f_started r) (f_done r) b (f_cbs r)]> (futs s)) s
  | None => s
  end.

(** [fs[self.root.start_obj(job)] = job] for each job of the task. *)
Definition start_jobs (f : nat) (jobs : list nat) (s : st) : st :=
  fold_left (fun s n =>
    let '(g, s) := start_obj (OJob n) s in
    with_jobs_of (<[f := default [] (jobs_of s !! f) ++ [g]]> (jobs_of s))
      (with_task_fs (<[f := dict_set (fs_of f s) g (OJob n)]> (task_fs s)) s)) jobs s.

(** [fut.cancel()].  For a service, a job or a cleanup it only asks for the end that comes from the environment. *)
Definition cancel (f : nat) (s : st) : st :=
  match futs s !! f with
  | Some r =>
      if f_done r then s
      else
        match f_obj r, f_kind r with
        | OTask _ _, KRun =>
            let s := set_cancel true f s in
            match cur_wait s !! f with
            | Some wid =>
                match waits s !! wid with
                | Some w =>
                    if w_fired w then s
                    else call_soon (HCancel f)
                           (with_waits (<[wid := Wait (w_fs w) (w_left w) (w_all w) true (w_owner w)]> (waits s)) s)
                | None => s
                end
            | None => s
            end
        | _, _ => s
        end
  | None => s
  end.

(** The [except asyncio.CancelledError] clause of [Task.run] and what follows it. *)
Definition task_cancelled (f : nat) (s : st) : st :=
  let s := set_cancel false f s in
  task_loop f (fold_left (fun s g => cancel g s) (dict_keys (fs_of f s)) s).

(** The first step of a coroutine: a cancelled one ends at once; a task starts its jobs and waits. *)
Definition first_step (f : nat) (s : st) : st :=
  match futs s !! f with
  | Some r =>
      if f_started r || f_done r then s
      else
        let s := set_started f s in
        match f_obj r, f_kind r with
        | OTask _ jobs, KRun => if f_cancel r then complete f s else task_loop f (start_jobs f jobs s)
        | _, _ => s
        end
  | None => s
  end.

(** The tail of [asyncio.wait]: its callbacks are taken off the futures; those that are done. *)
Definition collect (wid : nat) (w : wait_rec) (s : st) : list nat * st :=
  let s := fold_left (remove_cb (CbWait wid)) (w_fs w) s in
  (List.filter (is_done s) (w_fs w), s).

(** The coroutine suspended in the wait call [wid] resumes; a cancelled task gets the exception instead. *)
Definition wake (wid : nat) (s : st) : st :=
  match waits s !! wid with
  | Some w =>
      match w_owner w with
      | OwnMain => let '(done, s) := collect wid w s in main_wake wid done s
      | OwnTask f =>
          match futs s !! f with
          | Some r =>
              if f_done r || negb (bool_decide (cur_wait s !! f = Some wid)) then s
              else if f_cancel r then task_cancelled f s
              else
                let '(done, s) := collect wid w s in
                task_loop f (with_task_fs (<[f := delete_done done (fs_of f s)]> (task_fs s)) s)
          | None => s
          end
      end
  | None => s
  end.

(** One handle of the queue. *)
Definition run_handle (h : handle) (s : st) : st :=
  match h with
  | HStep f => first_step f s
  | HCb f CbCleanup => schedule_cleanup f s
  | HCb f CbTasksPop => with_tasks (dict_del (tasks s) f) s
  | HCb f (CbWait wid) => on_completion wid f s
  | HWake wid => wake wid s
  | HCancel f => if is_done s f then s else task_cancelled f s
  end.

(** What the environment may finish: everything but a task's [run]. *)
Definition env_finishes (r : fut) : bool :=
  match f_obj r, f_kind r with OTask _ _, KRun => false | _, _ => true end.

Definition is_service (r : fut) : bool :=
  match f_obj r, f_kind r with OService _, KRun => true | _, _ => false end.

(** [Root.run] from the stop event on: cancel everything, then wait. *)
Definition stop (s : st) : st := main_loop (fold_left (fun s f => cancel f s) (dict_keys (running_objects s)) s).

Inductive step : st -> st -> Prop :=
| step_handle s h rest :
    phase s <> PStopped -> ready s = h :: rest -> step s (run_handle h (with_ready rest s))
| step_finish s f r :
    phase s <> PStopped -> futs s !! f = Some r -> f_done r = false -> env_finishes r = true ->
    step s (complete f s)
| step_service s n :
    phase s = PRun -> step s (start_obj (OService n) s).2
| step_task s n jobs f r :
    phase s <> PStopped -> futs s !! f = Some r -> f_done r = false -> is_service r = true ->
    step s (start_task (OTask n jobs) s)
| step_stop s : phase s = PRun -> step s (stop s).

Definition reachable (s : st) : Prop := rtc step init s.

(** The steps as a function of what happens, for concrete runs. *)
Inductive act : Type := AHandle | AFinish (f : nat) | AService (n : nat) | ATask (n : nat) (jobs : list nat) (f : nat) | AStop.

#[export] Instance phase_eq_dec : EqDecision phase_t. Proof. solve_decision. Defined.

Definition exec (a : act) (s : st) : option st :=
  match a with
  | AHandle =>
      match ready s with
      | h :: rest => if decide (phase s = PStopped) then None else Some (run_handle h (with_ready rest s))
      | [] => None
      end
  | AFinish f =>
      match futs s !! f with
      | Some r => if decide (phase s = PStopped) then None
                  else if negb (f_done r) && env_finishes r then Some (complete f s) else None
      | None => None
      end
  | AService n => if decide (phase s = PRun) then Some (start_obj (OService n) s).2 else None
  | ATask n jobs f =>
      match futs s !! f with
      | Some r => if decide (phase s = PStopped) then None
                  else if negb (f_done r) && is_service r then Some (start_task (OTask n jobs) s) else None
      | None => None
      end
  | AStop => if decide (phase s = PRun) then Some (stop s) else None
  end.

Fixpoint execs (l : list act) (s : st) : option st :=
  match l with [] => Some s | a :: l => match exec a s with Some s => execs l s | None => None end end.

Lemma exec_step a s s' : exec a s = Some s' -> step s s'.
Proof.
  destruct a; cbn [exec]; intros; repeat case_match; simplify_eq;
    try match goal with H : _ && _ = true |- _ => apply andb_true_iff in H as [?%negb_true_iff ?] end;
    econstructor; eauto.
Qed.

Lemma execs_reachable l s : execs l init = Some s -> reachable s.
Proof.
  unfold reachable. generalize init. induction l as [|a l IH]; simpl; intros s0; [intros [= ->]; constructor|].
  destruct (exec a s0) as [s1|] eqn:E; [|done]. intros. eapply rtc_l; [by eapply exec_step | auto].
Qed.
