(* ===== verification/RootInv.v ===== *)
(** * The cleanup of every object the root runs

    The invariants of the step relation of [Root]: where the [schedule_cleanup] callback of every run future is,
    what [running_objects] and [running_cleanups] hold, and which objects the shutdown loop drops. *)

From S2P Require Import Prelude PyVal Root.

(** ** Counting the cleanup callbacks *)

Definition countb {A} (p : A -> bool) (l : list A) : nat := length (List.filter p l).

Lemma countb_app {A} (p : A -> bool) l1 l2 : countb p (l1 ++ l2) = countb p l1 + countb p l2.
Proof. unfold countb. by rewrite List.filter_app, length_app. Qed.

Lemma countb_cons {A} (p : A -> bool) x l : countb p (x :: l) = (if p x then 1 else 0) + countb p l.
Proof. unfold countb. simpl. by destruct (p x). Qed.

Definition is_cleanup_cb (c : callback) : bool := bool_decide (c = CbCleanup).
Definition is_cleanup_of (f : nat) (h : handle) : bool := bool_decide (h = HCb f CbCleanup).

Definition kind_of (s : st) (f : nat) : option kind := f_kind <$> futs s !! f.
Definition is_run (s : st) (f : nat) : bool := bool_decide (kind_of s f = Some KRun).

(** Where the [schedule_cleanup] callback of a future is: still attached, in the queue, or executed. *)
Definition n_attached (s : st) (f : nat) : nat :=
  match futs s !! f with Some r => countb is_cleanup_cb (f_cbs r) | None => 0 end.
Definition n_queued (s : st) (f : nat) : nat := countb (is_cleanup_of f) (ready s).
Definition n_executed (s : st) (f : nat) : nat :=
  count_occ Nat.eq_dec (cleaned s) f + count_occ Nat.eq_dec (errors s) f.

Record inv (s : st) : Prop := {
  inv_fresh : forall f, next s <= f -> futs s !! f = None;
  inv_token : forall f, n_attached s f + n_queued s f + n_executed s f = if is_run s f then 1 else 0;
  inv_pending : forall f, is_run s f = true -> is_done s f = false -> n_attached s f = 1;
  inv_done : forall f, is_done s f = true -> n_attached s f = 0;
  inv_running : forall f, f ∈ dict_keys (running_objects s) <-> is_run s f = true /\ n_executed s f = 0 /\ f ∉ lost s;
  inv_lost_done : forall f, f ∈ lost s -> is_done s f = true;
  inv_errors : forall f, f ∈ errors s -> f ∈ lost s;
  inv_cleaned : forall f, f ∈ cleaned s -> f ∉ lost s;
  inv_cleanups : kind_of s <$> running_cleanups s = Some ∘ KCleanup <$> cleaned s;
  inv_dict : dict_ok (running_objects s);
  inv_phase : phase s = PRun -> lost s = [] }.

(** Two states that agree on everything the invariant speaks of, but the phase. *)
Record same (s s' : st) : Prop := {
  same_next : next s' = next s;
  same_kind : forall f, kind_of s' f = kind_of s f;
  same_done : forall f, is_done s' f = is_done s f;
  same_attached : forall f, n_attached s' f = n_attached s f;
  same_queued : forall f, n_queued s' f = n_queued s f;
  same_running : running_objects s' = running_objects s;
  same_cleanups : running_cleanups s' = running_cleanups s;
  same_cleaned : cleaned s' = cleaned s;
  same_errors : errors s' = errors s;
  same_lost : lost s' = lost s }.

#[export] Instance same_refl : Reflexive same.
Proof. by constructor. Qed.
#[export] Instance same_trans : Transitive same.
Proof. intros s1 s2 s3 [] []. constructor; intros; etrans; eauto. Qed.

Lemma kind_None s f : kind_of s f = None <-> futs s !! f = None.
Proof. unfold kind_of. by destruct (futs s !! f). Qed.

Lemma kinds_ext s s' l : (forall f, is_Some (kind_of s f) -> kind_of s' f = kind_of s f) ->
  kind_of s <$> l = Some ∘ KCleanup <$> cleaned s -> kind_of s' <$> l = Some ∘ KCleanup <$> cleaned s.
Proof.
  intros Hk Hl. rewrite <- Hl. apply list_fmap_ext. intros i f Hi. apply Hk.
  assert (kind_of s f ∈ kind_of s <$> l) as Hin by (apply list_elem_of_fmap; eauto using list_elem_of_lookup_2).
  rewrite Hl in Hin. apply list_elem_of_fmap in Hin as (g & -> & _). by eexists.
Qed.

Lemma same_inv s s' : same s s' -> (phase s' = PRun -> phase s = PRun) -> inv s -> inv s'.
Proof.
  intros [Hn Hk Hd Ha Hq Hr Hc Hcl He Hl] Hp [].
  assert (forall f, is_run s' f = is_run s f) as Hrun by (intros f; unfold is_run; by rewrite Hk).
  assert (forall f, n_executed s' f = n_executed s f) as Hx by (intros f; unfold n_executed; by rewrite Hcl, He).
  constructor; intros; rewrite ?Hr, ?Hl, ?Hrun, ?Hx, ?Ha, ?Hq, ?Hd in *; auto.
  - apply kind_None. rewrite Hk. apply kind_None. rewrite Hn in *. auto.
  - rewrite He in *. auto.
  - rewrite Hcl in *. auto.
  - rewrite Hc, Hcl. by apply kinds_ext.
Qed.

Lemma same_fold {A} (step : st -> A -> st) l s : (forall s x, same s (step s x)) -> same s (fold_left step l s).
Proof. intros H. revert s. induction l as [|x l IH]; intros s; simpl; [done|]. etrans; [apply H | apply IH]. Qed.

Create HintDb root.

Lemma same_with_futs s f r r' :
  futs s !! f = Some r -> f_kind r' = f_kind r -> f_done r' = f_done r ->
  countb is_cleanup_cb (f_cbs r') = countb is_cleanup_cb (f_cbs r) ->
  same s (with_futs (<[f := r']> (futs s)) s).
Proof.
  intros Hf Hk Hd Hc. constructor; try done; intros g; unfold kind_of, is_done, n_attached; cbn [futs with_futs];
    (destruct (decide (f = g)) as [<-|]; [rewrite lookup_insert_eq, Hf | by rewrite lookup_insert_ne]); simpl; congruence.
Qed.

Definition no_cleanup (h : handle) : Prop := forall f, h <> HCb f CbCleanup.

Lemma same_call_soon h s : no_cleanup h -> same s (call_soon h s).
Proof.
  intros Hh. constructor; try done. intros f. unfold n_queued. cbn [ready call_soon with_ready]. rewrite countb_app, countb_cons.
  unfold is_cleanup_of at 2. rewrite bool_decide_false by apply Hh. unfold countb at 2. simpl. lia.
Qed.

Lemma same_add_cb c s f : c <> CbCleanup -> same s (add_cb c s f).
Proof.
  intros Hc. unfold add_cb. destruct (futs s !! f) as [r|] eqn:Hf; [|done]. destruct (f_done r) eqn:Hd.
  - apply same_call_soon. intros g [=]. done.
  - eapply same_with_futs; [done|done|by rewrite Hd|]. cbn [f_cbs]. rewrite countb_app, countb_cons.
    unfold is_cleanup_cb at 2. rewrite bool_decide_false by done. unfold countb at 2. simpl. lia.
Qed.

Lemma same_remove_cb c s f : c <> CbCleanup -> same s (remove_cb c s f).
Proof.
  intros Hc. unfold remove_cb. destruct (futs s !! f) as [r|] eqn:Hf; [|done].
  eapply same_with_futs; [done|done|done|]. cbn [f_cbs]. induction (f_cbs r) as [|c' l IH]; [done|]. cbn [List.filter].
  case_bool_decide; subst; cbn [negb]; rewrite ?countb_cons, ?IH; [|done].
  unfold is_cleanup_cb at 2. by rewrite bool_decide_false.
Qed.

Lemma same_set_started f s : same s (set_started f s).
Proof. unfold set_started. destruct (futs s !! f) eqn:E; [|done]. by eapply same_with_futs. Qed.

Lemma same_set_cancel b f s : same s (set_cancel b f s).
Proof. unfold set_cancel. destruct (futs s !! f) eqn:E; [|done]. by eapply same_with_futs. Qed.

Lemma same_on_completion wid f s : same s (on_completion wid f s).
Proof.
  unfold on_completion. destruct (waits s !! wid) as [w|]; [|done]. case_match; [|done].
  etrans; [|by apply same_call_soon]. done.
Qed.

Lemma same_wait o all fs s : same s (wait o all fs s).
Proof. unfold wait. etrans; [|apply same_fold; intros; by apply same_add_cb]. done. Qed.

Lemma same_cancel f s : same s (cancel f s).
Proof.
  unfold cancel. destruct (futs s !! f) as [r|]; [|done]. destruct (f_done r); [done|].
  destruct (f_obj r), (f_kind r); try done.
  etrans; [apply (same_set_cancel true f)|]. repeat case_match; try done.
  etrans; [|by apply same_call_soon]. done.
Qed.

Lemma same_collect wid w s : same s (collect wid w s).2.
Proof. unfold collect. cbn. apply same_fold. intros. by apply same_remove_cb. Qed.

#[export] Hint Resolve same_add_cb same_remove_cb same_set_started same_set_cancel same_on_completion same_wait
  same_cancel same_collect same_refl : root.

(** Operations that leave the phase alone. *)
Lemma phase_fold {A} (step : st -> A -> st) l s : (forall s x, phase (step s x) = phase s) -> phase (fold_left step l s) = phase s.
Proof. intros H. revert s. induction l as [|x l IH]; intros s; simpl; [done|]. by rewrite IH, H. Qed.

Lemma phase_add_cb c s f : phase (add_cb c s f) = phase s.
Proof. unfold add_cb. by repeat case_match. Qed.
Lemma phase_remove_cb c s f : phase (remove_cb c s f) = phase s.
Proof. unfold remove_cb. by repeat case_match. Qed.
Lemma phase_complete f s : phase (complete f s) = phase s.
Proof. unfold complete. by repeat case_match. Qed.
Lemma phase_wait o all fs s : phase (wait o all fs s) = phase s.
Proof. unfold wait. rewrite phase_fold; [done|]. intros. apply phase_add_cb. Qed.
Lemma phase_set_cancel b f s : phase (set_cancel b f s) = phase s.
Proof. unfold set_cancel. by repeat case_match. Qed.
Lemma phase_set_started f s : phase (set_started f s) = phase s.
Proof. unfold set_started. by repeat case_match. Qed.
Lemma phase_cancel f s : phase (cancel f s) = phase s.
Proof. unfold cancel. repeat case_match; simpl; rewrite ?phase_set_cancel; done. Qed.
Lemma phase_on_completion wid f s : phase (on_completion wid f s) = phase s.
Proof. unfold on_completion. by repeat case_match. Qed.
Lemma phase_task_loop f s : phase (task_loop f s) = phase s.
Proof. unfold task_loop. case_match; [apply phase_complete | apply phase_wait]. Qed.
Lemma phase_collect wid w s : phase (collect wid w s).2 = phase s.
Proof. unfold collect. cbn. apply phase_fold. intros. apply phase_remove_cb. Qed.
Lemma phase_task_cancelled f s : phase (task_cancelled f s) = phase s.
Proof.
  unfold task_cancelled. rewrite phase_task_loop, phase_fold by (intros; apply phase_cancel). apply phase_set_cancel.
Qed.
Lemma phase_start_jobs f jobs s : phase (start_jobs f jobs s) = phase s.
Proof. unfold start_jobs. by apply phase_fold. Qed.
Lemma phase_start_task o s : phase (start_task o s) = phase s.
Proof. unfold start_task. simpl. by rewrite phase_add_cb. Qed.

Create Rewrite HintDb root_phase.
#[export] Hint Rewrite phase_add_cb phase_remove_cb phase_complete phase_wait phase_set_cancel phase_set_started
  phase_cancel phase_on_completion phase_task_loop phase_collect phase_task_cancelled phase_start_jobs
  phase_start_task : root_phase.

(** ** Preservation of the invariant *)

Lemma n_queued_pop s h rest f : ready s = h :: rest ->
  n_queued s f = (if is_cleanup_of f h then 1 else 0) + n_queued (with_ready rest s) f.
Proof. intros E. unfold n_queued. cbn [ready with_ready]. by rewrite E, countb_cons. Qed.

Lemma same_pop s h rest : ready s = h :: rest -> no_cleanup h -> same s (with_ready rest s).
Proof.
  intros E Hh. constructor; try done. intros f. rewrite (n_queued_pop s h rest) by done.
  unfold is_cleanup_of. by rewrite bool_decide_false by apply Hh.
Qed.

Lemma countb_nil {A} (p : A -> bool) : countb p [] = 0.
Proof. done. Qed.

Lemma countb_cbs f g cbs :
  countb (is_cleanup_of g) (HCb f <$> cbs) = if decide (f = g) then countb is_cleanup_cb cbs else 0.
Proof.
  induction cbs as [|c cbs IH]; [by case_decide|]. rewrite fmap_cons, !countb_cons, IH.
  unfold is_cleanup_of, is_cleanup_cb. repeat case_decide; repeat case_bool_decide; naive_solver.
Qed.

Lemma is_run_Some s f : is_run s f = true <-> exists r, futs s !! f = Some r /\ f_kind r = KRun.
Proof.
  unfold is_run, kind_of. rewrite bool_decide_eq_true. destruct (futs s !! f) as [r|]; simpl.
  - split; [intros [= ?]; eauto | by intros (? & [= ->] & ->)].
  - split; [done | by intros (? & ? & _)].
Qed.

(** The end of a coroutine moves its callback from the future to the queue. *)
Lemma inv_complete f s : inv s -> inv (complete f s).
Proof.
  intros H. unfold complete. destruct (futs s !! f) as [r|] eqn:Hf; [|done]. destruct (f_done r) eqn:Hd; [done|].
  set (s' := with_ready _ _).
  assert (forall g, kind_of s' g = kind_of s g) as Hk.
  { intros g. unfold kind_of, s'; cbn. destruct (decide (f = g)) as [<-|].
    - by rewrite lookup_insert_eq, Hf. - by rewrite lookup_insert_ne. }
  assert (forall g, is_run s' g = is_run s g) as Hr by (intros; unfold is_run; by rewrite Hk).
  assert (forall g, is_done s' g = bool_decide (f = g) || is_done s g) as Hdn.
  { intros g. unfold is_done, s'; cbn. case_bool_decide as E; simpl.
    - subst. by rewrite lookup_insert_eq. - by rewrite lookup_insert_ne. }
  assert (forall g, n_attached s' g = if decide (f = g) then 0 else n_attached s g) as Ha.
  { intros g. unfold n_attached, s'; cbn [futs with_ready with_futs]. case_decide.
    - subst. by rewrite lookup_insert_eq. - by rewrite lookup_insert_ne. }
  assert (forall g, n_queued s' g = n_queued s g + if decide (f = g) then n_attached s g else 0) as Hq.
  { intros g. unfold n_queued, n_attached, s'; cbn [ready with_ready with_futs]. rewrite countb_app, countb_cbs.
    case_decide; [subst; by rewrite Hf | done]. }
  destruct H. constructor; intros; rewrite ?Hr, ?Hdn, ?Ha, ?Hq in *; try (by auto).
  - apply kind_None. rewrite Hk. apply kind_None. auto.
  - rewrite <- (inv_token0 f0). change (n_executed s' f0) with (n_executed s f0). case_decide; lia.
  - apply orb_false_iff in H0 as [?%bool_decide_eq_false ?]. rewrite decide_False by done. auto.
  - case_decide; [done|]. rewrite bool_decide_false in H by done. by apply inv_done0.
  - apply orb_true_iff. right. auto.
  - by apply (kinds_ext s).
Qed.

Lemma executed_0 s f : n_executed s f = 0 <-> f ∉ cleaned s /\ f ∉ errors s.
Proof.
  unfold n_executed. rewrite !list_elem_of_In, !(count_occ_not_In Nat.eq_dec). lia.
Qed.

(** What a state with one more future looks like. *)
Lemma obs_fresh s s' f r :
  futs s !! f = None -> futs s' = <[f := r]> (futs s) -> f_done r = false ->
  (forall g, kind_of s' g = if decide (f = g) then Some (f_kind r) else kind_of s g) /\
  (forall g, is_done s' g = is_done s g) /\
  (forall g, n_attached s' g = if decide (f = g) then countb is_cleanup_cb (f_cbs r) else n_attached s g).
Proof.
  intros Hf E Hd. unfold kind_of, is_done, n_attached. rewrite E.
  repeat split; intros g; (destruct (decide (f = g)) as [<-|Hn];
    [rewrite lookup_insert_eq, ?Hf | rewrite lookup_insert_ne by done]); done.
Qed.

(** What an unused number looks like. *)
Lemma fresh_obs s f : inv s -> futs s !! f = None ->
  n_attached s f = 0 /\ n_queued s f = 0 /\ n_executed s f = 0 /\ is_run s f = false /\ f ∉ lost s /\
  f ∉ dict_keys (running_objects s).
Proof.
  intros [] Hf. assert (is_run s f = false) as Hr by (unfold is_run, kind_of; by rewrite Hf).
  specialize (inv_token0 f). rewrite Hr in inv_token0.
  assert (f ∉ lost s) by (intros Hl%inv_lost_done0; unfold is_done in Hl; by rewrite Hf in Hl).
  rewrite inv_running0, Hr. naive_solver lia.
Qed.

Lemma is_run_kind s s' f : kind_of s' f = kind_of s f -> is_run s' f = is_run s f.
Proof. unfold is_run. by intros ->. Qed.

(** A new run future: attached, running. *)
Lemma inv_start_obj o s : inv s -> inv (start_obj o s).2.
Proof.
  intros H. unfold start_obj; cbn [snd]. set (f := next s). set (s' := St _ _ _ _ _ _ _ _ _ _ _ _ _ _ _).
  assert (futs s !! f = None) as Hf by (by apply (inv_fresh _ H)).
  destruct (obs_fresh s s' f (Fut o KRun false false false [CbCleanup]) Hf eq_refl eq_refl) as (Hk & Hd & Ha).
  destruct (fresh_obs s f H Hf) as (Ha0 & Hq0 & Hx0 & Hr0 & Hl0 & Hko).
  assert (forall g, n_queued s' g = n_queued s g) as Hq.
  { intros g. unfold n_queued, s'; cbn [ready]. rewrite countb_app. unfold countb at 2. simpl. lia. }
  assert (forall g, n_executed s' g = n_executed s g) as Hx by done.
  assert (forall g, is_run s' g = bool_decide (f = g) || is_run s g) as Hr.
  { intros g. unfold is_run. rewrite Hk. by destruct (decide (f = g)); repeat case_bool_decide. }
  assert (dict_keys (running_objects s') = dict_keys (running_objects s) ++ [f]) as Hkeys
    by (unfold dict_keys, s'; cbn [running_objects]; by rewrite fmap_app).
  destruct H. constructor; try (intros g; rewrite ?Hr, ?Hq, ?Ha, ?Hx, ?Hd);
    try first [done | exact (inv_lost_done0 g) | exact (inv_errors0 g)].
  - intros Hg. apply kind_None. rewrite Hk, decide_False; cbn in Hg; [apply kind_None, inv_fresh0; unfold f in *; lia | lia].
  - destruct (decide (f = g)) as [<-|].
    + rewrite bool_decide_true by done. cbn. unfold is_cleanup_cb. simpl. lia.
    + rewrite bool_decide_false by done. apply inv_token0.
  - destruct (decide (f = g)) as [<-|]; [done|]. rewrite bool_decide_false by done. apply inv_pending0.
  - destruct (decide (f = g)) as [<-|]; [|apply inv_done0]. unfold is_done. by rewrite Hf.
  - rewrite Hkeys, elem_of_app, list_elem_of_singleton, inv_running0. unfold s'; cbn [lost].
    destruct (decide (f = g)) as [<-|]; [rewrite bool_decide_true by done; naive_solver|].
    rewrite bool_decide_false by done. naive_solver.
  - by apply inv_cleaned0.
  - apply (kinds_ext s); [|done]. intros g [k Hg]. rewrite Hk, decide_False; [done|].
    intros <-. unfold kind_of in Hg. by rewrite Hf in Hg.
  - unfold dict_ok. rewrite Hkeys. apply NoDup_app. split; [done|]. split; [set_solver | apply NoDup_singleton].
  - by apply inv_phase0.
Qed.

(** When the [schedule_cleanup] callback of [f] is at the head of the queue, [f] is a finished run future whose
    callback is nowhere else. *)
Lemma popped s f rest : inv s -> ready s = HCb f CbCleanup :: rest ->
  is_run s f = true /\ n_attached s f = 0 /\ n_queued (with_ready rest s) f = 0 /\ n_executed s f = 0 /\ is_done s f = true.
Proof.
  intros [] E. specialize (inv_token0 f). rewrite (n_queued_pop _ _ _ _ E) in inv_token0.
  unfold is_cleanup_of in inv_token0. rewrite bool_decide_true in inv_token0 by done.
  destruct (is_run s f) eqn:Hr; [|lia]. split_and!; [done|lia..|].
  destruct (is_done s f) eqn:Hd; [done|]. specialize (inv_pending0 f Hr Hd). lia.
Qed.

Lemma n_queued_pop_ne s f g rest : ready s = HCb f CbCleanup :: rest -> f <> g ->
  n_queued (with_ready rest s) g = n_queued s g.
Proof.
  intros E ?. rewrite (n_queued_pop _ _ _ g E). unfold is_cleanup_of. by rewrite bool_decide_false by congruence.
Qed.

Lemma count_occ_snoc (l : list nat) f g :
  count_occ Nat.eq_dec (l ++ [f]) g = count_occ Nat.eq_dec l g + if decide (f = g) then 1 else 0.
Proof. rewrite count_occ_app. simpl. by destruct (Nat.eq_dec f g), (decide (f = g)). Qed.

(** [schedule_cleanup] of an object in [running_objects]. *)
Lemma inv_schedule_ok s f rest o : inv s -> ready s = HCb f CbCleanup :: rest ->
  dict_get (running_objects s) f = Some o -> inv (schedule_cleanup f (with_ready rest s)).
Proof.
  intros H E Ho. unfold schedule_cleanup. cbn [running_objects with_ready]. rewrite Ho.
  set (n := next (with_ready rest s)). set (s' := St _ _ _ _ _ _ _ _ _ _ _ _ _ _ _).
  destruct (popped s f rest H E) as (Hrf & Haf & Hqf & Hxf & Hdf).
  assert (futs s !! n = None) as Hf by (by apply (inv_fresh _ H)).
  destruct (obs_fresh s s' n (Fut o (KCleanup f) false false false []) Hf eq_refl eq_refl) as (Hk & Hd & Ha).
  destruct (fresh_obs s n H Hf) as (Ha0 & Hq0 & Hx0 & Hr0 & Hl0 & Hko).
  assert (f <> n) as Hfn by congruence.
  assert (forall g, is_run s' g = is_run s g) as Hr.
  { intros g. unfold is_run. rewrite Hk. destruct (decide (n = g)) as [<-|]; [|done].
    unfold is_run in Hr0. by rewrite Hr0. }
  assert (forall g, n_queued s' g = n_queued (with_ready rest s) g) as Hq.
  { intros g. unfold n_queued, s'; cbn [ready with_ready]. rewrite countb_app. unfold countb at 2. simpl. lia. }
  assert (forall g, n_executed s' g = n_executed s g + if decide (f = g) then 1 else 0) as Hx.
  { intros g. unfold n_executed, s'; cbn [cleaned errors with_ready]. rewrite count_occ_snoc. lia. }
  assert (forall g, n_attached s' g = n_attached s g) as Ha'.
  { intros g. rewrite Ha. destruct (decide (n = g)) as [<-|]; [|done]. by rewrite Ha0. }
  destruct H. constructor; try (intros g; rewrite ?Hr, ?Hq, ?Ha', ?Hx, ?Hd);
    try first [done | exact (inv_lost_done0 g) | exact (inv_errors0 g) | exact (inv_pending0 g) | exact (inv_done0 g)].
  - change (S (next s) <= g -> futs s' !! g = None). intros Hg. apply kind_None.
    rewrite Hk, decide_False by (change n with (next s); lia). apply kind_None, inv_fresh0. lia.
  - rewrite <- (inv_token0 g). destruct (decide (f = g)) as [<-|].
    + rewrite Hqf, (n_queued_pop _ _ _ _ E). unfold is_cleanup_of. rewrite bool_decide_true by done. lia.
    + rewrite (n_queued_pop_ne _ _ _ _ E) by done. lia.
  - unfold s'; cbn [running_objects lost with_ready]. rewrite dict_keys_del, inv_running0 by done.
    destruct (decide (f = g)) as [<-|]; naive_solver lia.
  - unfold s'; cbn [cleaned lost running_cleanups with_ready]. rewrite elem_of_app, list_elem_of_singleton.
    intros [?%inv_cleaned0| ->]; [done|]. apply inv_running0, dict_get_Some_keys. by eexists.
  - unfold s' at 2 3; cbn [cleaned running_cleanups with_ready]. rewrite !fmap_app. f_equal.
    + apply (kinds_ext s); [|done]. intros g [k Hg]. rewrite Hk, decide_False; [done|].
      intros <-. unfold kind_of in Hg. by rewrite Hf in Hg.
    + cbn. by rewrite Hk, decide_True.
  - apply dict_ok_del, inv_dict0.
  - by apply inv_phase0.
Qed.

(** [schedule_cleanup] of an object the shutdown loop has deleted: [KeyError], and no cleanup. *)
Lemma inv_schedule_lost s f rest : inv s -> ready s = HCb f CbCleanup :: rest ->
  dict_get (running_objects s) f = None -> inv (schedule_cleanup f (with_ready rest s)).
Proof.
  intros H E Ho. unfold schedule_cleanup. cbn [running_objects with_ready]. rewrite Ho.
  set (s' := with_errors _ _). destruct (popped s f rest H E) as (Hrf & Haf & Hqf & Hxf & Hdf).
  assert (forall g, n_executed s' g = n_executed s g + if decide (f = g) then 1 else 0) as Hx.
  { intros g. unfold n_executed, s'; cbn [cleaned errors with_ready with_errors]. rewrite count_occ_snoc. lia. }
  assert (f ∈ lost s) as Hl.
  { destruct (decide (f ∈ lost s)) as [?|Hn]; [done|]. apply dict_get_None in Ho. destruct Ho.
    by apply (inv_running _ H). }
  destruct H. constructor; try (intros g; rewrite ?Hx);
    try first [done | exact (inv_lost_done0 g) | exact (inv_pending0 g) | exact (inv_done0 g) | exact (inv_fresh0 g)
              | exact (inv_cleaned0 g)].
  - change (is_run s' g) with (is_run s g). rewrite <- (inv_token0 g). change (n_attached s' g) with (n_attached s g).
    change (n_queued s' g) with (n_queued (with_ready rest s) g). destruct (decide (f = g)) as [<-|].
    + rewrite Hqf, (n_queued_pop _ _ _ _ E). unfold is_cleanup_of. rewrite bool_decide_true by done. lia.
    + rewrite (n_queued_pop_ne _ _ _ _ E) by done. lia.
  - change (is_run s' g) with (is_run s g). unfold s'; cbn [running_objects lost with_ready with_errors].
    rewrite inv_running0. destruct (decide (f = g)) as [<-|]; naive_solver lia.
  - unfold s'; cbn [errors lost with_ready with_errors]. rewrite elem_of_app, list_elem_of_singleton. naive_solver.
  - by apply inv_phase0.
Qed.

Lemma inv_schedule_cleanup s f rest : inv s -> ready s = HCb f CbCleanup :: rest ->
  inv (schedule_cleanup f (with_ready rest s)).
Proof.
  intros H E. destruct (dict_get (running_objects s) f) eqn:Ho; [by eapply inv_schedule_ok | by apply inv_schedule_lost].
Qed.

Lemma delete_done_ok {V} done (d : list (nat * V)) : dict_ok d -> dict_ok (delete_done done d) /\
  forall f, f ∈ dict_keys (delete_done done d) <-> f ∈ dict_keys d /\ f ∉ done.
Proof.
  unfold delete_done. revert d. induction done as [|g done IH]; intros d Hd; simpl; [set_solver|].
  destruct (IH (dict_del d g)) as [Hok Hin]; [by apply dict_ok_del|]. split; [done|]. intros f.
  rewrite Hin, dict_keys_del by done. set_solver.
Qed.

(** The shutdown loop drops finished objects from [running_objects]: those still there are lost. *)
Lemma inv_drop s done : inv s -> phase s <> PRun -> (forall f, f ∈ done -> is_done s f = true) ->
  inv (with_lost (lost s ++ List.filter (fun f => bool_decide (f ∈ dict_keys (running_objects s))) done)
        (with_running (delete_done done (running_objects s)) s)).
Proof.
  intros [] Hp Hdone. set (s' := with_lost _ _).
  destruct (delete_done_ok done (running_objects s) inv_dict0) as [Hok Hin].
  assert (forall f, f ∈ lost s' <-> f ∈ lost s \/ (f ∈ done /\ f ∈ dict_keys (running_objects s))) as Hl.
  { intros f. unfold s'; cbn [lost with_lost]. rewrite elem_of_app, !list_elem_of_In, filter_In, bool_decide_eq_true.
    by rewrite <- !list_elem_of_In. }
  constructor; try done.
  - intros f. unfold s' at 1; cbn [running_objects with_running with_lost]. rewrite Hin, Hl, inv_running0.
    change (is_run s' f) with (is_run s f). change (n_executed s' f) with (n_executed s f). naive_solver.
  - intros f [?|[? ?]]%Hl; [by apply inv_lost_done0 | by apply Hdone].
  - intros f He. apply Hl. left. by apply inv_errors0.
  - intros f Hc. pose proof (inv_cleaned0 f Hc). rewrite Hl, inv_running0, executed_0. naive_solver.
Qed.

Lemma same_main_loop s : same s (main_loop s).
Proof.
  unfold main_loop. repeat case_match; (etrans; [|apply same_wait] || idtac); done.
Qed.

Lemma phase_main_loop s : phase (main_loop s) <> PRun.
Proof. unfold main_loop. repeat case_match; rewrite ?phase_wait; done. Qed.

Lemma inv_main_loop s : inv s -> inv (main_loop s).
Proof. apply same_inv; [apply same_main_loop | intros E; by destruct (phase_main_loop s)]. Qed.

Lemma inv_main_wake wid done s : inv s -> (forall f, f ∈ done -> is_done s f = true) -> inv (main_wake wid done s).
Proof.
  intros H Hd. unfold main_wake. destruct (phase s) eqn:Hp; try done; case_decide; try done.
  - apply inv_main_loop, inv_drop; congruence || done.
  - by apply (same_inv s).
Qed.

(** Operations that the invariant does not see and that keep the phase. *)
Lemma inv_same s s' : same s s' -> phase s' = phase s -> inv s -> inv s'.
Proof. intros ? Hp. apply same_inv; [done | by rewrite Hp]. Qed.

Lemma inv_fold {A} (step : st -> A -> st) l s : (forall s x, inv s -> inv (step s x)) -> inv s -> inv (fold_left step l s).
Proof. intros H. revert s. induction l as [|x l IH]; intros s Hs; simpl; auto. Qed.

Ltac inv_same := eapply inv_same; [|autorewrite with root_phase; reflexivity|]; auto with root.

Lemma inv_task_loop f s : inv s -> inv (task_loop f s).
Proof. intros. unfold task_loop. case_match; [by apply inv_complete | inv_same]. Qed.

Lemma inv_start_jobs f jobs s : inv s -> inv (start_jobs f jobs s).
Proof.
  apply inv_fold. intros s' n H. cbn [start_obj]. apply (inv_start_obj (OJob n)) in H. by apply (inv_same (start_obj (OJob n) s').2).
Qed.

Lemma inv_task_cancelled f s : inv s -> inv (task_cancelled f s).
Proof.
  intros. unfold task_cancelled. apply inv_task_loop, inv_fold; [intros; inv_same|]. inv_same.
Qed.

Lemma inv_first_step f s : inv s -> inv (first_step f s).
Proof.
  intros H. unfold first_step. destruct (futs s !! f) as [r|]; [|done]. destruct (_ || _); [done|].
  assert (inv (set_started f s)) by inv_same.
  destruct (f_obj r), (f_kind r); try done. destruct (f_cancel r); [by apply inv_complete|].
  by apply inv_task_loop, inv_start_jobs.
Qed.

Lemma collect_done wid w s f : f ∈ (collect wid w s).1 -> is_done (collect wid w s).2 f = true.
Proof. unfold collect. cbn. by intros [_ ?]%list_elem_of_In%filter_In. Qed.

Lemma inv_collect wid w s : inv s -> inv (collect wid w s).2.
Proof. intros. inv_same. Qed.

Lemma inv_wake wid s : inv s -> inv (wake wid s).
Proof.
  intros H. unfold wake. destruct (waits s !! wid) as [w|]; [|done].
  pose proof (inv_collect wid w s H) as Hc. pose proof (collect_done wid w s) as Hd.
  destruct (collect wid w s) as [done s']; cbn in *.
  destruct (w_owner w) as [|f]; [by apply inv_main_wake|].
  destruct (futs s !! f) as [r|]; [|done]. repeat case_match; try done; [by apply inv_task_cancelled|].
  apply inv_task_loop. by apply (inv_same s').
Qed.

Lemma inv_start_task o s : inv s -> inv (start_task o s).
Proof.
  intros H. unfold start_task. destruct (start_obj o s) as [f s'] eqn:E.
  pose proof (inv_start_obj o s H) as H'. rewrite E in H'.
  eapply inv_same; [by apply same_add_cb | by rewrite phase_add_cb |]. by apply (inv_same s').
Qed.

Lemma inv_run_handle s h rest : inv s -> ready s = h :: rest -> inv (run_handle h (with_ready rest s)).
Proof.
  intros H E. assert (no_cleanup h -> inv (with_ready rest s)) as Hpop.
  { intros. eapply inv_same; [by eapply same_pop | done | done]. }
  destruct h as [f|f [| |wid]|wid|f]; cbn [run_handle]; try (specialize (Hpop ltac:(by intros ? [=]))).
  - by apply inv_first_step.
  - by apply inv_schedule_cleanup.
  - by apply (inv_same (with_ready rest s)).
  - inv_same.
  - by apply inv_wake.
  - case_match; [done | by apply inv_task_cancelled].
Qed.

Lemma inv_init : inv init.
Proof.
  assert (forall f, is_run init f = false) as Hr by (intros; unfold is_run, kind_of; cbn; by rewrite lookup_empty).
  constructor; try (intros f; rewrite ?Hr); try done.
  - cbn. set_solver.
  - cbn. set_solver.
  - cbn. set_solver.
  - constructor.
Qed.

Lemma inv_step s s' : step s s' -> inv s -> inv s'.
Proof.
  intros [] H'.
  - by apply inv_run_handle.
  - by apply inv_complete.
  - by apply inv_start_obj.
  - by apply inv_start_task.
  - unfold stop. apply inv_main_loop, inv_fold; [intros; inv_same | done].
Qed.

Lemma inv_reachable s : reachable s -> inv s.
Proof. unfold reachable. intros Hs. eapply (rtc_ind_r inv); [apply inv_init | eauto using inv_step | done]. Qed.
