(* ===== verification/RootStop.v ===== *)
(** * The shutdown of the root

    The invariants of the [asyncio.wait] calls in progress (whose callbacks are still to come, when a waiter may
    fire) and, with the cleanup invariant of [RootInv], what holds once [Root.run] calls [loop.stop()]. *)

From S2P Require Import Prelude PyVal Root RootInv.

Record winv (s : st) : Prop := {
  w_cb : forall f c, HCb f c ∈ ready s -> is_done s f = true;
  w_wake : forall wid, HWake wid ∈ ready s -> exists w, waits s !! wid = Some w /\ w_fired w = true;
  w_rest : forall wid w f, waits s !! wid = Some w -> f ∈ w_fs w -> f ∈ w_left w \/ is_done s f = true;
  w_full : forall wid w, waits s !! wid = Some w -> w_all w = true -> w_fired w = true -> w_left w = [];
  w_cur : forall f wid w, cur_wait s !! f = Some wid -> waits s !! wid = Some w -> w_all w = false;
  w_new : forall wid, next_w s <= wid -> waits s !! wid = None;
  w_cur_new : forall f wid, cur_wait s !! f = Some wid -> wid < next_w s }.

(** What [Root.run] waits for at the end, and what holds when it is over. *)
Record pinv (s : st) : Prop := {
  w_cleanups : forall wid, phase s = PWaitCleanups wid -> running_objects s = [] /\
    exists w, waits s !! wid = Some w /\ w_fs w = running_cleanups s /\ w_all w = true;
  w_stopped : phase s = PStopped -> running_objects s = [] /\
    forall g, g ∈ running_cleanups s -> is_done s g = true }.

(** Operations that touch no [asyncio.wait] call: futures only get done, and the callbacks they queue are those of
    finished futures. *)
Record mild (s s' : st) : Prop := {
  mild_done : forall f, is_done s f = true -> is_done s' f = true;
  mild_ready : forall h, h ∈ ready s' -> h ∈ ready s \/
    match h with HCb f _ => is_done s' f = true | HWake _ => False | _ => True end;
  mild_waits : waits s' = waits s;
  mild_cur : cur_wait s' = cur_wait s;
  mild_next : next_w s' = next_w s;
  mild_phase : phase s' = phase s }.

#[export] Instance mild_refl : Reflexive mild.
Proof. constructor; auto. Qed.
#[export] Instance mild_trans : Transitive mild.
Proof.
  intros s1 s2 s3 [Hd1 Hr1 Hw1 Hc1 Hn1 Hp1] [Hd2 Hr2 Hw2 Hc2 Hn2 Hp2].
  constructor; try congruence; [auto|]. intros h [Hh|Hh]%Hr2; [|auto]. apply Hr1 in Hh as [?|Hh]; [auto|].
  right. destruct h; auto.
Qed.

Lemma mild_winv s s' : mild s s' -> winv s -> winv s'.
Proof.
  intros [Hd Hr Hw Hc Hn Hp] []. constructor; rewrite ?Hw, ?Hc, ?Hn; auto.
  - intros f c [?|?]%Hr; eauto.
  - intros wid [?|?]%Hr; [auto | done].
  - intros wid w f Hwid Hf. destruct (w_rest0 wid w f Hwid Hf); auto.
Qed.

Lemma mild_fold {A} (step : st -> A -> st) l s : (forall s x, mild s (step s x)) -> mild s (fold_left step l s).
Proof. intros H. revert s. induction l as [|x l IH]; intros s; simpl; [done|]. etrans; [apply H | apply IH]. Qed.

Lemma mild_with_futs s f r : (is_done s f = true -> f_done r = true) -> mild s (with_futs (<[f := r]> (futs s)) s).
Proof.
  intros Hd. constructor; try done; [|by left]. intros g. unfold is_done. cbn.
  destruct (decide (f = g)) as [<-|]; [by rewrite lookup_insert_eq | by rewrite lookup_insert_ne].
Qed.

Lemma mild_call_soon h s :
  match h with HCb f _ => is_done s f = true | HWake _ => False | _ => True end -> mild s (call_soon h s).
Proof. intros Hh. constructor; try done. cbn. intros h' [?|E%list_elem_of_singleton]%elem_of_app; subst; auto. Qed.

Lemma mild_add_cb c s f : mild s (add_cb c s f).
Proof.
  unfold add_cb. destruct (futs s !! f) as [r|] eqn:Hf; [|done]. destruct (f_done r) eqn:Hd.
  - apply mild_call_soon. unfold is_done. by rewrite Hf.
  - apply mild_with_futs. unfold is_done. by rewrite Hf, Hd.
Qed.

Lemma mild_same_done s f r r' : futs s !! f = Some r -> f_done r' = f_done r -> mild s (with_futs (<[f := r']> (futs s)) s).
Proof. intros Hf E. apply mild_with_futs. unfold is_done. by rewrite Hf, E. Qed.

Lemma mild_remove_cb c s f : mild s (remove_cb c s f).
Proof. unfold remove_cb. destruct (futs s !! f) eqn:Hf; [|done]. by eapply mild_same_done. Qed.
Lemma mild_set_started f s : mild s (set_started f s).
Proof. unfold set_started. destruct (futs s !! f) eqn:Hf; [|done]. by eapply mild_same_done. Qed.
Lemma mild_set_cancel b f s : mild s (set_cancel b f s).
Proof. unfold set_cancel. destruct (futs s !! f) eqn:Hf; [|done]. by eapply mild_same_done. Qed.
Lemma mild_collect wid w s : mild s (collect wid w s).2.
Proof. apply mild_fold. intros. apply mild_remove_cb. Qed.
Lemma mild_pop s h rest : ready s = h :: rest -> mild s (with_ready rest s).
Proof. intros E. constructor; try done. cbn. rewrite E. intros; left. by apply list_elem_of_further. Qed.

Lemma mild_complete f s : mild s (complete f s).
Proof.
  unfold complete. destruct (futs s !! f) as [r|] eqn:Hf; [|done]. destruct (f_done r) eqn:Hd; [done|].
  set (r' := Fut _ _ _ _ _ _). etrans; [apply (mild_with_futs s f r'); done|]. constructor; try done.
  cbn. intros h [?|(c & -> & _)%list_elem_of_fmap]%elem_of_app; [auto|]. right. unfold is_done. cbn. by rewrite lookup_insert_eq.
Qed.

Lemma mild_start_obj o s : futs s !! next s = None -> mild s (start_obj o s).2.
Proof.
  intros Hf. constructor; try done; cbn.
  - intros f. unfold is_done. cbn. destruct (decide (next s = f)) as [<-|]; [by rewrite Hf | by rewrite lookup_insert_ne].
  - intros h [?|E%list_elem_of_singleton]%elem_of_app; subst; auto.
Qed.

Lemma mild_start_jobs f jobs s : inv s -> mild s (start_jobs f jobs s).
Proof.
  unfold start_jobs. revert s. induction jobs as [|n jobs IH]; intros s H; [done|]. cbn [fold_left].
  pose proof (mild_start_obj (OJob n) s (inv_fresh _ H _ (le_n _))) as Hm. apply (inv_start_obj (OJob n)) in H.
  destruct (start_obj (OJob n) s) as [g s']. cbn [snd] in *. etrans; [exact Hm|].
  etrans; [|apply IH; by apply (inv_same s')]. by constructor; auto.
Qed.

(** ** The operations on waits *)

Lemma wait_obs o all fs s :
  (forall wid, waits (wait o all fs s) !! wid = if decide (next_w s = wid) then Some (Wait fs fs all false o) else waits s !! wid) /\
  phase (wait o all fs s) = phase s /\ running_objects (wait o all fs s) = running_objects s /\
  running_cleanups (wait o all fs s) = running_cleanups s /\ (forall f, is_done (wait o all fs s) f = is_done s f).
Proof.
  split; [|split; [apply phase_wait | split_and!; [apply (same_wait o all fs s)..|]; intros; apply same_wait]].
  intros wid. unfold wait. rewrite (mild_waits _ _ (mild_fold _ _ _ (fun s f => mild_add_cb _ s f))). cbn.
  destruct (decide _) as [<-|]; [by rewrite lookup_insert_eq | by rewrite lookup_insert_ne].
Qed.

Lemma winv_wait o all fs s : winv s -> (all = true -> o = OwnMain) -> winv (wait o all fs s).
Proof.
  intros [] Ho. unfold wait. eapply mild_winv; [apply mild_fold; intros; apply mild_add_cb|].
  set (s' := St _ _ _ _ _ _ _ _ _ _ _ _ _ _ _).
  assert (forall wid w, waits s' !! wid = Some w ->
    (wid = next_w s /\ w = Wait fs fs all false o) \/ (wid < next_w s /\ waits s !! wid = Some w)) as Hw.
  { intros wid w. unfold s'; cbn. destruct (decide (next_w s = wid)) as [<-|].
    - rewrite lookup_insert_eq. naive_solver.
    - rewrite lookup_insert_ne by done. intros E. right. split; [|done].
      destruct (decide (wid < next_w s)); [done|]. by rewrite w_new0 in E by lia. }
  constructor.
  - done.
  - intros wid (w & E & ?)%w_wake0. exists w. unfold s'; cbn. rewrite lookup_insert_ne; [done|].
    intros <-. by rewrite w_new0 in E.
  - intros wid w f [[-> ->]|[? E]]%Hw; [by left|]. apply (w_rest0 _ _ _ E).
  - intros wid w [[-> ->]|[? E]]%Hw; [done|]. apply (w_full0 _ _ E).
  - intros f wid w Hc [[-> ->]|[? E]]%Hw; unfold s' in Hc; cbn in *; destruct o as [|g]; eauto.
    + destruct all; [|done]. apply w_cur_new0 in Hc. lia.
    + destruct all; [by specialize (Ho eq_refl)|done].
    + destruct (decide (g = f)) as [<-|]; [rewrite lookup_insert_eq in Hc; simplify_eq; lia|].
      rewrite lookup_insert_ne in Hc by done. eauto.
  - intros wid Hn. unfold s' in *; cbn in *. rewrite lookup_insert_ne by lia. apply w_new0. lia.
  - intros f wid. unfold s'; cbn. destruct o as [|g]; [intros ?%w_cur_new0; lia|].
    destruct (decide (g = f)) as [<-|]; [rewrite lookup_insert_eq; intros; simplify_eq; lia|].
    rewrite lookup_insert_ne by done. intros ?%w_cur_new0. lia.
Qed.

Lemma winv_update wid w w' s : winv s -> waits s !! wid = Some w -> w_fs w' = w_fs w -> w_all w' = w_all w ->
  (forall f, f ∈ w_left w -> f ∈ w_left w' \/ is_done s f = true) -> (w_fired w = true -> w_fired w' = true) ->
  (w_all w = true -> w_fired w' = true -> w_left w' = []) -> winv (with_waits (<[wid := w']> (waits s)) s).
Proof.
  intros [] E Hfs Hall Hleft Hfired Hfull.
  assert (forall v u, <[wid := w']> (waits s) !! v = Some u -> (v = wid /\ u = w') \/ waits s !! v = Some u) as Hw.
  { intros v u. destruct (decide (wid = v)) as [<-|]; [rewrite lookup_insert_eq; naive_solver|].
    rewrite lookup_insert_ne by done. auto. }
  constructor; cbn; try done.
  - intros v (u & Hu & ?)%w_wake0. destruct (decide (wid = v)) as [<-|].
    + rewrite lookup_insert_eq. eexists. split; [done|]. apply Hfired. congruence.
    + rewrite lookup_insert_ne by done. eauto.
  - intros v u f [[-> ->]|Hu]%Hw; [rewrite Hfs|by apply (w_rest0 _ _ _ Hu)]. intros Hf.
    destruct (w_rest0 _ _ _ E Hf); auto.
  - intros v u [[-> ->]|Hu]%Hw; [by rewrite Hall | eauto].
  - intros f v u Hc [[-> ->]|Hu]%Hw; [rewrite Hall|]; eauto.
  - intros v Hv. rewrite lookup_insert_ne; [auto|]. intros <-. by rewrite w_new0 in E.
Qed.

Lemma winv_call_soon_wake wid w s : winv s -> waits s !! wid = Some w -> w_fired w = true -> winv (call_soon (HWake wid) s).
Proof.
  intros [] E Hf. constructor; cbn; try done.
  - intros f c [?|?%list_elem_of_singleton]%elem_of_app; [eauto | done].
  - intros v [?|Hv%list_elem_of_singleton]%elem_of_app; [eauto | simplify_eq; eauto].
Qed.

Lemma winv_on_completion wid f s : winv s -> is_done s f = true -> winv (on_completion wid f s).
Proof.
  intros H Hd. unfold on_completion. destruct (waits s !! wid) as [w|] eqn:E; [|done].
  set (left := List.filter _ _). set (fire := negb (w_fired w) && _). set (w' := Wait _ _ _ _ _).
  assert (winv (with_waits (<[wid := w']> (waits s)) s)) as H'.
  { apply (winv_update wid w); try done; unfold w'; cbn.
    - intros g Hg. destruct (decide (g = f)) as [->|]; [by right|]. left. unfold left.
      apply list_elem_of_In, filter_In. split; [by apply list_elem_of_In|]. by apply negb_true_iff, Nat.eqb_neq.
    - by intros ->.
    - intros Ha [Hf|Hf]%orb_true_iff.
      + pose proof (w_full _ H _ _ E Ha Hf) as Hl. unfold left. by rewrite Hl.
      + unfold fire in Hf. rewrite Ha in Hf. apply andb_true_iff in Hf as [_ Hf]. by apply bool_decide_eq_true in Hf. }
  destruct fire; [|done]. eapply winv_call_soon_wake; [done | apply lookup_insert_eq|].
  unfold w'; cbn. apply orb_true_r.
Qed.

(** Cancelling a task fires its current wait, never one of the root's. *)
Lemma winv_cancel f s : winv s -> winv (cancel f s).
Proof.
  intros H. unfold cancel. destruct (futs s !! f) as [r|]; [|done]. destruct (f_done r); [done|].
  destruct (f_obj r), (f_kind r); try done.
  assert (winv (set_cancel true f s)) as H' by (eapply mild_winv; [apply mild_set_cancel | done]).
  destruct (cur_wait _ !! f) as [wid|] eqn:Hc; [|done]. destruct (waits (set_cancel true f s) !! wid) as [w|] eqn:E; [|done].
  destruct (w_fired w); [done|]. eapply mild_winv; [by apply mild_call_soon|].
  apply (winv_update wid w); try done; cbn; [auto|]. intros Ha. pose proof (w_cur _ H' _ _ _ Hc E). congruence.
Qed.

Lemma winv_fold {A} (step : st -> A -> st) l s : (forall s x, winv s -> winv (step s x)) -> winv s -> winv (fold_left step l s).
Proof. intros H. revert s. induction l as [|x l IH]; intros s Hs; simpl; auto. Qed.

Lemma winv_task_loop f s : winv s -> winv (task_loop f s).
Proof.
  intros. unfold task_loop. case_match; [eapply mild_winv; [apply mild_complete | done] | by apply winv_wait].
Qed.

Lemma winv_task_cancelled f s : winv s -> winv (task_cancelled f s).
Proof.
  intros. apply winv_task_loop, winv_fold; [intros; by apply winv_cancel|].
  eapply mild_winv; [apply mild_set_cancel | done].
Qed.

Lemma winv_main_loop s : winv s -> winv (main_loop s).
Proof.
  intros H. assert (forall p, winv (with_phase p s)) as Hp by (intros; by destruct H).
  unfold main_loop. repeat case_match; [apply Hp|apply winv_wait; done..].
Qed.

(** ** The last part of [Root.run] *)

(** Operations that keep the root's two collections (or run before the last part of [Root.run]) and what the waits
    are for. *)
Record pres (s s' : st) : Prop := {
  pres_done : forall f, is_done s f = true -> is_done s' f = true;
  pres_phase : phase s' = phase s;
  pres_keeps : (running_objects s' = running_objects s /\ running_cleanups s' = running_cleanups s) \/
    (phase s <> PStopped /\ forall wid, phase s <> PWaitCleanups wid);
  pres_waits : forall wid w, waits s !! wid = Some w ->
    exists w', waits s' !! wid = Some w' /\ w_fs w' = w_fs w /\ w_all w' = w_all w }.

#[export] Instance pres_refl : Reflexive pres.
Proof. constructor; eauto. Qed.
#[export] Instance pres_trans : Transitive pres.
Proof.
  intros s1 s2 s3 [Hd1 Hp1 Hk1 Hw1] [Hd2 Hp2 Hk2 Hw2]. rewrite Hp1 in *.
  constructor; [auto|congruence| |].
  - destruct Hk1 as [[? ?]|?]; [|auto]. destruct Hk2 as [[? ?]|?]; [left; split; congruence | auto].
  - intros wid w (w' & Hw & ? & ?)%Hw1. apply Hw2 in Hw as (w'' & ? & ? & ?). exists w''. split_and!; congruence.
Qed.

Lemma pres_pinv s s' : pres s s' -> pinv s -> pinv s'.
Proof.
  intros [Hd Hp Hk Hw] []. constructor; rewrite Hp.
  - intros wid Hwid. destruct Hk as [[-> ->]|[_ Hk]]; [|by destruct (Hk wid)].
    destruct (w_cleanups0 wid Hwid) as [? (w & (w' & ? & ? & ?)%Hw & ? & ?)]. split; [done|]. exists w'. split_and!; congruence.
  - intros Hs. destruct Hk as [[-> ->]|[Hk _]]; [|done]. destruct (w_stopped0 Hs). auto.
Qed.

Lemma pres_fold {A} (step : st -> A -> st) l s : (forall s x, pres s (step s x)) -> pres s (fold_left step l s).
Proof. intros H. revert s. induction l as [|x l IH]; intros s; simpl; [done|]. etrans; [apply H | apply IH]. Qed.

Lemma mild_pres s s' : mild s s' -> running_objects s' = running_objects s -> running_cleanups s' = running_cleanups s ->
  pres s s'.
Proof. intros [Hd Hr Hw Hc Hn Hp] ? ?. constructor; auto. rewrite Hw. eauto. Qed.

Lemma mild_same_pres s s' : mild s s' -> same s s' -> pres s s'.
Proof. intros ? []. by apply mild_pres. Qed.

Lemma pres_update wid w w' s : waits s !! wid = Some w -> w_fs w' = w_fs w -> w_all w' = w_all w ->
  pres s (with_waits (<[wid := w']> (waits s)) s).
Proof.
  intros E Hf Ha. constructor; auto. cbn. intros v u Hu. destruct (decide (wid = v)) as [<-|].
  - rewrite lookup_insert_eq. exists w'. naive_solver.
  - rewrite lookup_insert_ne by done. eauto.
Qed.

Lemma pres_call_soon h s : pres s (call_soon h s).
Proof. constructor; eauto. Qed.

Lemma pres_on_completion wid f s : pres s (on_completion wid f s).
Proof.
  unfold on_completion. destruct (waits s !! wid) as [w|] eqn:E; [|done].
  case_match; [etrans; [|apply pres_call_soon]|]; by eapply pres_update.
Qed.

Lemma pres_cancel f s : pres s (cancel f s).
Proof.
  unfold cancel. destruct (futs s !! f) as [r|]; [|done]. destruct (f_done r); [done|].
  destruct (f_obj r), (f_kind r); try done.
  etrans; [apply mild_same_pres; [apply (mild_set_cancel true f) | apply same_set_cancel]|].
  destruct (cur_wait _ !! f) as [wid|]; [|done]. destruct (waits (set_cancel true f s) !! wid) as [w|] eqn:E; [|done].
  destruct (w_fired w); [done|]. etrans; [|apply pres_call_soon]. by eapply pres_update.
Qed.

Lemma pres_wait o all fs s : winv s -> pres s (wait o all fs s).
Proof.
  intros []. destruct (wait_obs o all fs s) as (Hw & Hp & Hr & Hc & Hd). constructor; auto.
  - intros f. by rewrite Hd.
  - intros wid w E. rewrite Hw, decide_False; [eauto|]. intros <-. by rewrite w_new0 in E.
Qed.

Lemma pres_complete f s : pres s (complete f s).
Proof. apply mild_pres; [apply mild_complete|..]; unfold complete; by repeat case_match. Qed.

Lemma pres_task_loop f s : winv s -> pres s (task_loop f s).
Proof. intros. unfold task_loop. case_match; [apply pres_complete | by apply pres_wait]. Qed.

Lemma pres_task_cancelled f s : winv s -> pres s (task_cancelled f s).
Proof.
  intros. unfold task_cancelled.
  etrans; [apply mild_same_pres; [apply (mild_set_cancel false f) | apply same_set_cancel]|].
  etrans; [|apply pres_task_loop]; [apply pres_fold; intros; apply pres_cancel|].
  apply winv_fold; [intros; by apply winv_cancel|]. eapply mild_winv; [apply mild_set_cancel | done].
Qed.

(** With nothing left in [running_objects], every run future is done. *)
Lemma all_done s f : inv s -> running_objects s = [] -> is_run s f = true -> is_done s f = true.
Proof.
  intros H E Hr. destruct (is_done s f) eqn:Hd; [done|]. pose proof (inv_pending _ H f Hr Hd) as Ha.
  pose proof (inv_token _ H f) as Ht. rewrite Hr in Ht.
  assert (f ∈ dict_keys (running_objects s)) as Hin.
  { apply (inv_running _ H). split_and!; [done | lia|]. intros ?%(inv_lost_done _ H). congruence. }
  rewrite E in Hin. by apply not_elem_of_nil in Hin.
Qed.

(** While a run future is pending, [Root.run] is not in its last part. *)
Lemma pending_phase s f r : inv s -> pinv s -> futs s !! f = Some r -> f_kind r = KRun -> f_done r = false ->
  phase s <> PStopped /\ forall wid, phase s <> PWaitCleanups wid.
Proof.
  intros H Hp Hf Hk Hd. assert (is_run s f = true) as Hr by (apply is_run_Some; eauto).
  assert (running_objects s <> []) as Hne.
  { intros E. pose proof (all_done s f H E Hr) as Hdn. unfold is_done in Hdn. rewrite Hf in Hdn. congruence. }
  split; [intros E; by apply (w_stopped _ Hp) in E as [? _] | intros wid E; by apply (w_cleanups _ Hp) in E as [? _]].
Qed.

Lemma mild_pres_early s s' : mild s s' -> phase s <> PStopped -> (forall wid, phase s <> PWaitCleanups wid) -> pres s s'.
Proof. intros [Hd Hr Hw Hc Hn Hp] ? ?. constructor; auto. rewrite Hw. eauto. Qed.

(** The three invariants together. *)
Definition rinv (s : st) : Prop := inv s /\ winv s /\ pinv s.

Lemma rinv_first_step f s : rinv s -> rinv (first_step f s).
Proof.
  intros (H & Hw & Hp). split; [by apply inv_first_step|]. unfold first_step.
  destruct (futs s !! f) as [r|] eqn:Hf; [|done]. destruct (f_started r || f_done r) eqn:Hd; [done|].
  apply orb_false_iff in Hd as [_ Hd].
  pose proof (mild_same_pres _ _ (mild_set_started f s) (same_set_started f s)) as Hps.
  assert (winv (set_started f s)) as Hw' by (eapply mild_winv; [apply mild_set_started | done]).
  assert (pinv (set_started f s)) as Hp' by (by eapply pres_pinv).
  destruct (f_obj r), (f_kind r) eqn:Hk; try done. destruct (f_cancel r).
  - split; [eapply mild_winv; [apply mild_complete | done] | eapply pres_pinv; [apply pres_complete | done]].
  - assert (inv (set_started f s)) as H' by (eapply inv_same; [apply same_set_started | apply phase_set_started | done]).
    destruct (pending_phase s f r H Hp Hf Hk Hd) as [Hp1 Hp2]. rewrite <- (pres_phase _ _ Hps) in Hp1.
    setoid_rewrite <- (pres_phase _ _ Hps) in Hp2.
    pose proof (mild_start_jobs f jobs _ H') as Hm. assert (winv (start_jobs f jobs (set_started f s))) by (by eapply mild_winv).
    split; [by apply winv_task_loop|]. eapply pres_pinv; [by apply pres_task_loop|].
    eapply pres_pinv; [by apply mild_pres_early | done].
Qed.

Lemma pinv_main_loop s : pinv (main_loop s).
Proof.
  unfold main_loop. destruct (dict_keys (running_objects s)) as [|f fs] eqn:Ek.
  - apply fmap_nil_inv in Ek. destruct (running_cleanups s) as [|c cs] eqn:Ec.
    + constructor; cbn; [done|]. intros _. rewrite Ek, Ec. split; [done|]. intros g. by intros ?%not_elem_of_nil.
    + edestruct (wait_obs OwnMain true (c :: cs)) as (Hw & Hp & Hr & Hc & Hd).
      constructor; rewrite Hp, Hr, Hc; cbn; [|done]. intros wid [= <-]. split; [done|].
      setoid_rewrite Hw. cbn. rewrite decide_True by done. eauto.
  - edestruct (wait_obs OwnMain false (f :: fs)) as (Hw & Hp & _). constructor; rewrite Hp; done.
Qed.

(** The root's wait for the cleanups has fired: they are all done. *)
Lemma rinv_main_wake wid w done s : rinv s -> (forall f, f ∈ done -> is_done s f = true) ->
  waits s !! wid = Some w -> w_fired w = true -> rinv (main_wake wid done s).
Proof.
  intros (H & Hw & Hp) Hd Hwid Hf. split; [by apply inv_main_wake|]. unfold main_wake.
  destruct (phase s) eqn:Eph; try done; case_decide; try done; subst wid0.
  - split; [|apply pinv_main_loop]. apply winv_main_loop. by destruct Hw.
  - destruct (w_cleanups _ Hp wid Eph) as [Hr (w' & Hw' & Hfs & Hall)]. simplify_eq.
    split; [by destruct Hw|]. constructor; cbn; [done|]. intros _. split; [done|]. intros g Hg.
    destruct (w_rest _ Hw _ _ g Hwid) as [Hl|?]; [congruence| |done].
    rewrite (w_full _ Hw _ _ Hwid Hall Hf) in Hl. by apply not_elem_of_nil in Hl.
Qed.

Lemma rinv_pres s s' : inv s' -> winv s' -> pres s s' -> rinv s -> rinv s'.
Proof. intros ? ? ? (_ & _ & ?). split_and!; [done | done | by eapply pres_pinv]. Qed.

Lemma rinv_mild s s' : same s s' -> mild s s' -> rinv s -> rinv s'.
Proof.
  intros Hs Hm (H & Hw & Hp). eapply rinv_pres; [|by eapply mild_winv|by apply mild_same_pres|done].
  eapply inv_same; [done | apply Hm | done].
Qed.

Lemma rinv_wake wid w s : rinv s -> waits s !! wid = Some w -> w_fired w = true -> rinv (wake wid s).
Proof.
  intros H Hwid Hf. unfold wake. rewrite Hwid.
  pose proof (rinv_mild _ _ (same_collect wid w s) (mild_collect wid w s) H) as Hc.
  pose proof (collect_done wid w s) as Hd. pose proof (mild_waits _ _ (mild_collect wid w s)) as Hw.
  destruct (collect wid w s) as [done s']; cbn in *.
  destruct (w_owner w) as [|f]; [eapply rinv_main_wake; [done|done|by rewrite Hw|done]|].
  destruct (futs s !! f) as [r|]; [|done]. destruct H as (H & Hwi & Hp). destruct (_ || _); [done|]. destruct (f_cancel r).
  - eapply rinv_pres; [by apply inv_task_cancelled | by apply winv_task_cancelled | by apply pres_task_cancelled | done].
  - set (s'' := with_task_fs _ _). assert (rinv s'') as (H2 & Hw2 & Hp2).
    { eapply (rinv_mild s'); [done | | done]. by constructor; auto. }
    eapply rinv_pres; [by apply inv_task_loop | by apply winv_task_loop | by apply pres_task_loop | done].
Qed.

Lemma rinv_schedule_cleanup s f rest : rinv s -> ready s = HCb f CbCleanup :: rest ->
  rinv (schedule_cleanup f (with_ready rest s)).
Proof.
  intros (H & Hw & Hp) E. split; [by apply inv_schedule_cleanup|].
  pose proof (mild_pop _ _ _ E) as Hm. assert (winv (with_ready rest s)) as Hw' by (by eapply mild_winv).
  assert (pinv (with_ready rest s)) as Hp' by (eapply pres_pinv; [by apply mild_pres | done]).
  unfold schedule_cleanup. cbn [running_objects with_ready]. destruct (dict_get _ f) as [o|] eqn:Ho.
  - set (s' := St _ _ _ _ _ _ _ _ _ _ _ _ _ _ _). assert (mild (with_ready rest s) s') as Hms.
    { constructor; try done; unfold s'; cbn.
      - intros g. unfold is_done. cbn. destruct (decide (next s = g)) as [<-|]; [|by rewrite lookup_insert_ne].
        by rewrite (inv_fresh _ H _ (le_n _)).
      - intros h [?|?%list_elem_of_singleton]%elem_of_app; subst; auto. }
    split; [by eapply mild_winv|]. eapply pres_pinv; [|exact Hp']. apply mild_pres_early; [done|..]; cbn.
    + intros Eph. apply (w_stopped _ Hp) in Eph as [Er _]. by rewrite Er in Ho.
    + intros wid Eph. apply (w_cleanups _ Hp) in Eph as [Er _]. by rewrite Er in Ho.
  - split; [by destruct Hw' | by destruct Hp'].
Qed.

Lemma rinv_run_handle s h rest : rinv s -> ready s = h :: rest -> rinv (run_handle h (with_ready rest s)).
Proof.
  intros H E. pose proof (mild_pop _ _ _ E) as Hm. pose proof H as (Hi & Hw & Hp).
  assert (no_cleanup h -> rinv (with_ready rest s)) as Hpop.
  { intros. eapply rinv_mild; [by eapply same_pop | done | done]. }
  assert (h ∈ ready s) as Hin by (rewrite E; apply list_elem_of_here).
  destruct h as [f|f [| |wid]|wid|f]; cbn [run_handle]; try (specialize (Hpop ltac:(by intros ? [=]))).
  - by apply rinv_first_step.
  - by apply rinv_schedule_cleanup.
  - eapply rinv_mild; [| |exact Hpop]; [done|]. by constructor; auto.
  - destruct Hpop as (Hi' & Hw' & Hp'). apply (rinv_pres (with_ready rest s)); [inv_same| | apply pres_on_completion | done].
    apply winv_on_completion; [done|]. apply (w_cb _ Hw _ _ Hin).
  - apply (w_wake _ Hw) in Hin as (w & ? & ?). by eapply rinv_wake.
  - destruct Hpop as (Hi' & Hw' & Hp'). case_match; [done|].
    eapply rinv_pres; [by apply inv_task_cancelled | by apply winv_task_cancelled | by apply pres_task_cancelled | done].
Qed.

Lemma rinv_step s s' : step s s' -> rinv s -> rinv s'.
Proof.
  intros Hst H. assert (inv s') as Hi by (eapply inv_step; [done | apply H]). pose proof H as (H0 & Hw & Hp). destruct Hst.
  - by apply rinv_run_handle.
  - eapply rinv_pres; [done | eapply mild_winv; [apply mild_complete | done] | apply pres_complete | done].
  - pose proof (mild_start_obj (OService n) s (inv_fresh _ H0 _ (le_n _))) as Hm.
    eapply rinv_pres; [done | by eapply mild_winv | apply mild_pres_early; [done | congruence..] | done].
  - assert (f_kind r = KRun) as Hk by (unfold is_service in *; by destruct (f_obj r), (f_kind r)).
    destruct (pending_phase s f r) as [Hp1 Hp2]; [done..|].
    assert (mild s (start_task (OTask n jobs) s)) as Hm.
    { unfold start_task. pose proof (mild_start_obj (OTask n jobs) s (inv_fresh _ H0 _ (le_n _))) as Hm.
      destruct (start_obj _ s) as [g s']. etrans; [exact Hm|]. etrans; [|apply mild_add_cb]. by constructor; auto. }
    eapply rinv_pres; [done | by eapply mild_winv | by apply mild_pres_early | done].
  - split_and!; [done| |apply pinv_main_loop]. apply winv_main_loop, winv_fold; [intros; by apply winv_cancel | done].
Qed.

Lemma rinv_reachable s : reachable s -> rinv s.
Proof.
  intros Hs. eapply (rtc_ind_r rinv); [|eauto using rinv_step|exact Hs]. split; [apply inv_init|].
  split; constructor; cbn; try done; intros; try set_solver.
Qed.

(** ** What every run future has *)

(** The cleanup futures of the object of run future [f]. *)
Definition cleanups_of (s : st) (f : nat) : list nat :=
  List.filter (fun g => bool_decide (kind_of s g = Some (KCleanup f))) (running_cleanups s).

Lemma cleanups_of_count s f : inv s -> length (cleanups_of s f) = count_occ Nat.eq_dec (cleaned s) f.
Proof.
  intros H. pose proof (inv_cleanups _ H) as E. unfold cleanups_of. revert E.
  generalize (running_cleanups s) as l. generalize (cleaned s) as c.
  induction c as [|x c IH]; intros [|g l]; cbn; intros E; [done..|]. injection E as E1 E2. rewrite E1.
  destruct (Nat.eq_dec x f) as [->|].
  - rewrite bool_decide_true by done. simpl. by rewrite IH.
  - rewrite bool_decide_false by congruence. auto.
Qed.

Lemma queued_In s f : n_queued s f = 1 -> HCb f CbCleanup ∈ ready s.
Proof.
  unfold n_queued, countb. intros E. destruct (List.filter _ (ready s)) as [|h l] eqn:Ef; [done|].
  assert (In h (List.filter (is_cleanup_of f) (ready s))) as Hin by (rewrite Ef; by left).
  apply filter_In in Hin as [? ->%bool_decide_eq_true]. by apply list_elem_of_In.
Qed.

(** The four stages of an object: running; finished with [schedule_cleanup] queued; with its one cleanup; dropped. *)
Lemma lifecycle s f : inv s -> is_run s f = true ->
  let keys := dict_keys (running_objects s) in
  (is_done s f = false /\ f ∈ keys /\ length (cleanups_of s f) = 0) \/
  (is_done s f = true /\ HCb f CbCleanup ∈ ready s /\ (f ∈ keys \/ f ∈ lost s) /\ length (cleanups_of s f) = 0) \/
  (is_done s f = true /\ f ∉ keys /\ f ∉ lost s /\ length (cleanups_of s f) = 1) \/
  (is_done s f = true /\ f ∉ keys /\ f ∈ lost s /\ f ∈ errors s /\ length (cleanups_of s f) = 0).
Proof.
  intros H Hr keys. unfold keys. rewrite (cleanups_of_count _ _ H), (inv_running _ H), Hr.
  pose proof (inv_token _ H f) as Ht. rewrite Hr in Ht. pose proof (inv_pending _ H f Hr) as Hpend.
  pose proof (inv_lost_done _ H f) as Hl. pose proof (executed_0 s f) as Hx.
  destruct (is_done s f) eqn:Hd.
  - right. pose proof (inv_done _ H f Hd) as Ha. destruct (decide (n_queued s f = 1)) as [Hq|Hq].
    + left. assert (n_executed s f = 0) by lia. split_and!; [done | by apply queued_In | |unfold n_executed in *; lia].
      destruct (decide (f ∈ lost s)); auto.
    + right. assert (n_executed s f = 1) as He by lia. unfold n_executed in He.
      destruct (decide (f ∈ cleaned s)) as [Hc|Hc].
      * left. pose proof (inv_cleaned _ H f Hc). apply list_elem_of_In, (count_occ_In Nat.eq_dec) in Hc.
        split_and!; [done | unfold n_executed; naive_solver lia | done | lia].
      * right. pose proof Hc as Hc'. rewrite list_elem_of_In, (count_occ_not_In Nat.eq_dec) in Hc'.
        assert (f ∈ errors s) as Hf by (apply list_elem_of_In, (count_occ_In Nat.eq_dec); lia).
        split_and!; [done | unfold n_executed; naive_solver lia | by apply (inv_errors _ H) | done | lia].
  - left. specialize (Hpend eq_refl). assert (n_executed s f = 0) by lia.
    split_and!; [done | done | done | naive_solver congruence | unfold n_executed in *; lia].
Qed.

(** ** The root's promises *)

(** C9: in every reachable state the object of each run future is in one of four stages: running, in [running_objects]
    and without a cleanup; finished, with its [schedule_cleanup] callback in the queue; finished and out of
    [running_objects] with exactly one cleanup coroutine; or dropped by the shutdown loop, with no cleanup.  The last
    stage does not exist before the stop signal. *)
Theorem object_lifecycle s f : reachable s -> is_run s f = true ->
  ((is_done s f = false /\ f ∈ dict_keys (running_objects s) /\ length (cleanups_of s f) = 0) \/
   (is_done s f = true /\ HCb f CbCleanup ∈ ready s /\ (f ∈ dict_keys (running_objects s) \/ f ∈ lost s) /\
     length (cleanups_of s f) = 0) \/
   (is_done s f = true /\ f ∉ dict_keys (running_objects s) /\ f ∉ lost s /\ length (cleanups_of s f) = 1) \/
   (is_done s f = true /\ f ∉ dict_keys (running_objects s) /\ f ∈ lost s /\ f ∈ errors s /\
     length (cleanups_of s f) = 0)) /\
  (phase s = PRun -> f ∉ lost s).
Proof.
  intros H%inv_reachable Hr. split; [by apply lifecycle|]. intros ->%(inv_phase _ H). apply not_elem_of_nil.
Qed.

(** A service that starts a task with two jobs; the jobs, then the task, finish. *)
Definition life_trace : list act :=
  [AService 0; AHandle; ATask 7 [1; 2] 0; AHandle; AHandle; AHandle; AFinish 3; AFinish 2]
  ++ replicate 10 AHandle.
Definition life_state : st := default init (execs life_trace init).

Lemma life_reachable : reachable life_state.
Proof. apply (execs_reachable life_trace). vm_compute. reflexivity. Qed.

Lemma object_lifecycle_witness : reachable life_state /\ is_run life_state 3 = true /\ f_done <$> futs life_state !! 3 = Some true /\
  (length (cleanups_of life_state 3) = 1 -> 3 ∉ lost life_state).
Proof.
  split; [exact life_reachable|]. split; [by vm_compute|]. split; [by vm_compute|].
  intros _. apply (object_lifecycle life_state 3 life_reachable); by vm_compute.
Defined.

(** before the stop signal, whenever the loop has run all its ready handles, [running_objects] holds exactly the
    objects still running, every finished object has exactly one cleanup, and [schedule_cleanup] never failed. *)
Theorem quiescent_cleanups s : reachable s -> phase s = PRun -> ready s = [] ->
  errors s = [] /\
  (forall f, f ∈ dict_keys (running_objects s) <-> is_run s f = true /\ is_done s f = false) /\
  (forall f, is_run s f = true -> is_done s f = true -> length (cleanups_of s f) = 1).
Proof.
  intros H%inv_reachable Hp Hq. pose proof (inv_phase _ H Hp) as Hl.
  assert (forall f, is_run s f = true -> (is_done s f = false /\ f ∈ dict_keys (running_objects s)) \/
    (is_done s f = true /\ f ∉ dict_keys (running_objects s) /\ length (cleanups_of s f) = 1)) as Hs.
  { intros f Hr. pose proof (lifecycle s f H Hr) as Hs. cbn in Hs. rewrite Hq, Hl in Hs. set_solver. }
  split_and!.
  - destruct (errors s) as [|f l] eqn:E; [done|]. assert (f ∈ lost s) as Hin; [|rewrite Hl in Hin; set_solver].
    apply (inv_errors _ H). rewrite E. set_solver.
  - intros f. split; [|intros [Hr Hd]; destruct (Hs f Hr); naive_solver congruence].
    intros Hk. assert (is_run s f = true) as Hr by (by apply (inv_running _ H)). destruct (Hs f Hr); naive_solver.
  - intros f Hr Hd. destruct (Hs f Hr); naive_solver congruence.
Qed.

Lemma quiescent_cleanups_witness : reachable life_state /\ phase life_state = PRun /\ ready life_state = [] /\
  length (cleanups_of life_state 1) = 1 /\ (0 ∈ dict_keys (running_objects life_state)).
Proof.
  pose proof (quiescent_cleanups life_state life_reachable ltac:(by vm_compute) ltac:(by vm_compute)) as (_ & Hk & Hc).
  split_and!; [exact life_reachable | by vm_compute | by vm_compute | apply Hc; by vm_compute | apply Hk; by vm_compute].
Defined.

(** C8: when [Root.run] reaches [loop.stop()], every run future is done, and its object either has exactly one cleanup,
    which is done, or was dropped by the shutdown loop; what was dropped had finished. *)
Theorem shutdown_complete s : reachable s -> phase s = PStopped ->
  running_objects s = [] /\
  forall f, is_run s f = true -> is_done s f = true /\
    (f ∈ lost s /\ length (cleanups_of s f) = 0 \/
     exists g, cleanups_of s f = [g] /\ kind_of s g = Some (KCleanup f) /\ is_done s g = true).
Proof.
  intros (H & Hw & Hp)%rinv_reachable Hs. destruct (w_stopped _ Hp Hs) as [Hr Hc]. split; [done|].
  intros f Hf. split; [by apply all_done|]. pose proof (all_done s f H Hr Hf) as Hd.
  destruct (lifecycle s f H Hf) as [(? & _)|[(_ & _ & [Hk|?] & ?)|[(_ & _ & _ & Hl)|(_ & _ & ? & _ & ?)]]]; auto.
  - congruence.
  - rewrite Hr in Hk. by apply not_elem_of_nil in Hk.
  - right. destruct (cleanups_of s f) as [|g [|]] eqn:E; try done. exists g. split; [done|].
    assert (In g (cleanups_of s f)) as Hin by (rewrite E; by left).
    unfold cleanups_of in Hin. apply filter_In in Hin as [Hg ?%bool_decide_eq_true]. split; [done|].
    apply Hc. by apply list_elem_of_In.
Qed.

(** Two services; the stop signal; the second service ends after the first one's end has fired the shutdown wait and
    before [Root.run] resumes; the cleanup of the first ends. *)
Definition race_trace : list act :=
  [AService 0; AService 1; AHandle; AHandle; AStop; AFinish 0; AHandle; AHandle; AFinish 1]
  ++ replicate 4 AHandle ++ [AFinish 2] ++ replicate 2 AHandle.
Definition race_state : st := default init (execs race_trace init).

Lemma race_reachable : reachable race_state.
Proof. apply (execs_reachable race_trace). vm_compute. reflexivity. Qed.

Lemma shutdown_complete_witness : reachable race_state /\ phase race_state = PStopped /\ is_run race_state 0 = true /\
  is_done race_state 0 = true.
Proof.
  split_and!; [exact race_reachable | by vm_compute | by vm_compute|].
  by apply (shutdown_complete race_state race_reachable ltac:(by vm_compute)); vm_compute.
Defined.

(** the shutdown loop can drop an object without its cleanup: a run of two services and the stop signal that ends
    with [loop.stop()], where the second service is done and [schedule_cleanup] raised [KeyError] for it. *)
Theorem shutdown_drops_cleanup : exists s f,
  reachable s /\ phase s = PStopped /\ is_run s f = true /\ is_done s f = true /\ errors s = [f] /\ cleanups_of s f = [].
Proof. exists race_state, 1. split; [exact race_reachable|]. split_and!; by vm_compute. Qed.
