(* ===== verification/RootTask.v ===== *)
(** * Tasks on the root: a task ends after its jobs

    The invariant of [Task.run]: the dictionary [fs] it waits on and the job futures it started. *)

From S2P Require Import Prelude PyVal Root RootInv RootStop.

Definition obj_of (s : st) (f : nat) : option obj := f_obj <$> futs s !! f.
Definition started (s : st) (f : nat) : bool :=
  match futs s !! f with Some r => f_started r | None => false end.

(** The jobs of the task of future [f]: none before its first step; then one future for each job of the task, in
    order, each of them in [fs] or done; and [fs] is empty once [f] is done. *)
Record tok (s : st) (f : nat) : Prop := {
  t_fresh : started s f = false -> jobs_of s !! f = None /\ fs_of f s = [];
  t_jobs : forall gs, jobs_of s !! f = Some gs ->
    exists n jobs, obj_of s f = Some (OTask n jobs) /\ obj_of s <$> gs = Some ∘ OJob <$> jobs;
  t_left : forall g, g ∈ default [] (jobs_of s !! f) -> g ∈ dict_keys (fs_of f s) \/ is_done s g = true;
  t_done : forall r, futs s !! f = Some r -> env_finishes r = false -> f_done r = true -> dict_keys (fs_of f s) = [];
  t_dict : dict_ok (fs_of f s) }.

Definition tinv (s : st) : Prop := forall f, tok s f.

(** Futures keep their object and kind, and get started and done but not the reverse. *)
Definition fgrow (s s' : st) : Prop := forall f r, futs s !! f = Some r -> exists r', futs s' !! f = Some r' /\
  f_obj r' = f_obj r /\ f_kind r' = f_kind r /\ (f_started r = true -> f_started r' = true) /\
  (f_done r = true -> f_done r' = true).

(** The same; no task's future ends and nothing happens to its [fs]. *)
Record tframe (s s' : st) : Prop := {
  tf_grow : fgrow s s';
  tf_done : forall f r', futs s' !! f = Some r' -> env_finishes r' = false -> f_done r' = true ->
    exists r, futs s !! f = Some r /\ f_done r = true;
  tf_jobs : jobs_of s' = jobs_of s;
  tf_fs : task_fs s' = task_fs s }.

Lemma env_finishes_ext r r' : f_obj r' = f_obj r -> f_kind r' = f_kind r -> env_finishes r' = env_finishes r.
Proof. unfold env_finishes. by intros -> ->. Qed.

#[export] Instance fgrow_refl : Reflexive fgrow.
Proof. intros s f r. eauto 10. Qed.
#[export] Instance fgrow_trans : Transitive fgrow.
Proof.
  intros s1 s2 s3 H1 H2 f r (r' & (r'' & ? & ? & ? & ? & ?)%H2 & ? & ? & ? & ?)%H1. exists r''. split_and!; congruence || auto.
Qed.
#[export] Instance tframe_refl : Reflexive tframe.
Proof. constructor; [done | eauto | done | done]. Qed.
#[export] Instance tframe_trans : Transitive tframe.
Proof.
  intros s1 s2 s3 [G1 D1 J1 F1] [G2 D2 J2 F2]. constructor; [by etrans| |congruence|congruence].
  intros f r3 H3 E Hd. destruct (D2 f r3 H3 E Hd) as (r2 & H2 & Hd2).
  destruct (G2 f r2 H2) as (r3' & ? & ? & ? & _). simplify_eq. apply (D1 f r2); [done| |done].
  by rewrite <- (env_finishes_ext r2 r3).
Qed.

Lemma fgrow_obs s s' f : fgrow s s' -> (is_done s f = true -> is_done s' f = true) /\
  (forall o, obj_of s f = Some o -> obj_of s' f = Some o) /\ (started s' f = false -> started s f = false).
Proof.
  intros H. unfold is_done, obj_of, started. destruct (futs s !! f) as [r|] eqn:E; [|done].
  destruct (H f r E) as (r' & -> & Ho & _ & Hs & Hd). cbn. rewrite Ho. split_and!; [auto | done|].
  intros E'. destruct (f_started r); [|done]. by rewrite Hs in E'.
Qed.

Lemma objs_ext s s' gs (jobs : list nat) : fgrow s s' ->
  obj_of s <$> gs = Some ∘ OJob <$> jobs -> obj_of s' <$> gs = Some ∘ OJob <$> jobs.
Proof.
  intros He E. rewrite <- E. apply list_fmap_ext. intros i g Hi.
  assert (obj_of s g ∈ obj_of s <$> gs) as Hin by (apply list_elem_of_fmap; eauto using list_elem_of_lookup_2).
  rewrite E in Hin. apply list_elem_of_fmap in Hin as (n & Ho & _). rewrite Ho. by apply (fgrow_obs s s' g He).
Qed.

(** One future's part of the invariant, when its own [fs] and jobs are untouched. *)
Lemma tok_ext s s' f : fgrow s s' -> jobs_of s' !! f = jobs_of s !! f -> task_fs s' !! f = task_fs s !! f ->
  (forall r, futs s' !! f = Some r -> env_finishes r = false -> f_done r = true -> dict_keys (fs_of f s) = []) ->
  tok s f -> tok s' f.
Proof.
  intros He Hj Hf Hd []. assert (fs_of f s' = fs_of f s) as Hfs by (unfold fs_of; by rewrite Hf).
  constructor; rewrite ?Hj, ?Hf, ?Hfs; auto.
  - intros Hs. apply t_fresh0. by apply (fgrow_obs s s').
  - intros gs (n & jobs & Ho & Hg)%t_jobs0. exists n, jobs. split; [by apply (fgrow_obs s s') | by eapply objs_ext].
  - intros g [?|?]%t_left0; [by left|]. right. by apply (fgrow_obs s s').
Qed.

Lemma tframe_done s s' f r' : tframe s s' -> tok s f -> futs s' !! f = Some r' -> env_finishes r' = false ->
  f_done r' = true -> dict_keys (fs_of f s) = [].
Proof.
  intros [G D _ _] H Hf E Hd. destruct (D f r' Hf E Hd) as (r & Hr & Hdr).
  destruct (G f r Hr) as (r'' & ? & ? & ? & _). simplify_eq. apply (t_done _ _ H r); [done| |done].
  by rewrite <- (env_finishes_ext r r').
Qed.

Lemma tframe_tok s s' f : tframe s s' -> tok s f -> tok s' f.
Proof.
  intros Ht H. apply (tok_ext s); [apply Ht | by rewrite (tf_jobs _ _ Ht) | by rewrite (tf_fs _ _ Ht) | | done].
  intros. by eapply tframe_done.
Qed.

Lemma tframe_tinv s s' : tframe s s' -> tinv s -> tinv s'.
Proof. intros Ht H f. by eapply tframe_tok. Qed.

Lemma tframe_fold {A} (step : st -> A -> st) l s : (forall s x, tframe s (step s x)) -> tframe s (fold_left step l s).
Proof. intros H. revert s. induction l as [|x l IH]; intros s; simpl; [done|]. etrans; [apply H | apply IH]. Qed.
Lemma tinv_fold {A} (step : st -> A -> st) l s : (forall s x, tframe s (step s x)) -> tinv s -> tinv (fold_left step l s).
Proof. intros. eapply tframe_tinv; [by apply tframe_fold | done]. Qed.

(** ** The operations that leave [Task.run] alone *)

Lemma fgrow_insert s s' f r r' : futs s !! f = Some r -> futs s' = <[f := r']> (futs s) ->
  f_obj r' = f_obj r -> f_kind r' = f_kind r -> (f_started r = true -> f_started r' = true) ->
  (f_done r = true -> f_done r' = true) -> fgrow s s'.
Proof.
  intros Hf E ? ? ? ? g q Hg. rewrite E. destruct (decide (f = g)) as [<-|].
  - rewrite lookup_insert_eq. simplify_eq. eauto 10.
  - rewrite lookup_insert_ne by done. eauto 10.
Qed.

Lemma tframe_insert s s' f r r' : futs s !! f = Some r -> futs s' = <[f := r']> (futs s) ->
  jobs_of s' = jobs_of s -> task_fs s' = task_fs s ->
  f_obj r' = f_obj r -> f_kind r' = f_kind r -> (f_started r = true -> f_started r' = true) ->
  (f_done r = true -> f_done r' = true) -> (env_finishes r' = false -> f_done r' = f_done r) -> tframe s s'.
Proof.
  intros Hf E ? ? ? ? ? ? Hd. constructor; [by eapply fgrow_insert| |done|done].
  intros g q. rewrite E. destruct (decide (f = g)) as [<-|]; [|rewrite lookup_insert_ne by done; eauto].
  rewrite lookup_insert_eq. intros [= <-] Eq. rewrite Hd by done. eauto.
Qed.

Lemma tframe_fresh s s' f r : futs s !! f = None -> futs s' = <[f := r]> (futs s) -> f_done r = false ->
  jobs_of s' = jobs_of s -> task_fs s' = task_fs s -> tframe s s'.
Proof.
  intros Hf E Hd ? ?. constructor; [|rewrite E|done|done].
  - intros g q Hg. rewrite E, lookup_insert_ne by congruence. eauto 10.
  - intros g q. destruct (decide (f = g)) as [<-|]; [rewrite lookup_insert_eq; congruence | rewrite lookup_insert_ne by done; eauto].
Qed.

Lemma tframe_futs s s' : futs s' = futs s -> jobs_of s' = jobs_of s -> task_fs s' = task_fs s -> tframe s s'.
Proof. intros E ? ?. constructor; [intros f r; rewrite E; eauto 10 | rewrite E; eauto | done | done]. Qed.

Lemma tframe_with_futs s f r r' : futs s !! f = Some r ->
  f_obj r' = f_obj r -> f_kind r' = f_kind r -> (f_started r = true -> f_started r' = true) ->
  f_done r' = f_done r -> tframe s (with_futs (<[f := r']> (futs s)) s).
Proof. intros Hf ? ? ? E. eapply tframe_insert; try done; by rewrite E. Qed.

Lemma tframe_add_cb c s f : tframe s (add_cb c s f).
Proof.
  unfold add_cb. destruct (futs s !! f) as [r|] eqn:Hf; [|done]. destruct (f_done r) eqn:Hd; [by apply tframe_futs|].
  by eapply tframe_with_futs.
Qed.
Lemma tframe_remove_cb c s f : tframe s (remove_cb c s f).
Proof. unfold remove_cb. destruct (futs s !! f) eqn:Hf; [|done]. by eapply tframe_with_futs. Qed.
Lemma tframe_set_started f s : tframe s (set_started f s).
Proof. unfold set_started. destruct (futs s !! f) eqn:Hf; [|done]. by eapply tframe_with_futs. Qed.
Lemma tframe_set_cancel b f s : tframe s (set_cancel b f s).
Proof. unfold set_cancel. destruct (futs s !! f) eqn:Hf; [|done]. by eapply tframe_with_futs. Qed.
Lemma tframe_wait o all fs s : tframe s (wait o all fs s).
Proof. unfold wait. etrans; [|apply tframe_fold; intros; apply tframe_add_cb]. by apply tframe_futs. Qed.
Lemma tframe_collect wid w s : tframe s (collect wid w s).2.
Proof. apply tframe_fold. intros. apply tframe_remove_cb. Qed.
Lemma tframe_on_completion wid f s : tframe s (on_completion wid f s).
Proof. unfold on_completion. repeat case_match; by apply tframe_futs. Qed.
Lemma tframe_cancel f s : tframe s (cancel f s).
Proof.
  unfold cancel. destruct (futs s !! f) as [r|]; [|done]. destruct (f_done r); [done|].
  destruct (f_obj r), (f_kind r); try done. etrans; [apply (tframe_set_cancel true f)|].
  repeat case_match; by apply tframe_futs.
Qed.
Lemma tframe_main_loop s : tframe s (main_loop s).
Proof.
  unfold main_loop. repeat case_match; (etrans; [|apply tframe_wait] || idtac); by apply tframe_futs.
Qed.
Lemma tframe_main_wake wid done s : tframe s (main_wake wid done s).
Proof.
  unfold main_wake. destruct (phase s); try done; case_decide; try done; [|by apply tframe_futs].
  etrans; [|apply tframe_main_loop]. by apply tframe_futs.
Qed.
Lemma tframe_schedule_cleanup f s : futs s !! next s = None -> tframe s (schedule_cleanup f s).
Proof.
  intros. unfold schedule_cleanup. case_match; [|by apply tframe_futs].
  by eapply tframe_fresh.
Qed.
Lemma tframe_start_obj o s : futs s !! next s = None -> tframe s (start_obj o s).2.
Proof. intros. by eapply tframe_fresh. Qed.
Lemma tframe_start_task o s : futs s !! next s = None -> tframe s (start_task o s).
Proof.
  intros Hf%(tframe_start_obj o). unfold start_task. destruct (start_obj o s) as [f s']. etrans; [exact Hf|].
  etrans; [|apply tframe_add_cb]. by apply tframe_futs.
Qed.
Lemma tframe_env f r s : futs s !! f = Some r -> env_finishes r = true -> tframe s (complete f s).
Proof.
  intros Hf E. unfold complete. rewrite Hf. case_match; [done|]. eapply tframe_insert; try done.
  change (env_finishes r = false -> true = f_done r). congruence.
Qed.

(** ** [Task.run] *)

(** The end of a task whose [fs] is empty. *)
Lemma tinv_complete f s : tinv s -> dict_keys (fs_of f s) = [] -> tinv (complete f s).
Proof.
  intros H Hf. unfold complete. destruct (futs s !! f) as [r|] eqn:Er; [|done]. destruct (f_done r) eqn:Hd; [done|].
  set (r' := Fut _ _ _ _ _ _). intros g. eapply (tok_ext s); [by eapply (fgrow_insert s _ f r r') | done | done | | apply H].
  intros q. cbn [futs with_ready with_futs]. destruct (decide (f = g)) as [<-|]; [done|]. rewrite lookup_insert_ne by done. apply (t_done _ _ (H g)).
Qed.

Lemma tinv_task_loop f s : tinv s -> tinv (task_loop f s).
Proof.
  intros. unfold task_loop. destruct (dict_keys _) eqn:E; [by apply tinv_complete|].
  eapply tframe_tinv; [apply tframe_wait | done].
Qed.

Lemma tinv_task_cancelled f s : tinv s -> tinv (task_cancelled f s).
Proof.
  intros. apply tinv_task_loop, tinv_fold; [intros; apply tframe_cancel|].
  eapply tframe_tinv; [apply tframe_set_cancel | done].
Qed.

Lemma delete_done_nil {V} done : delete_done done [] = @nil (nat * V).
Proof. unfold delete_done. by induction done. Qed.

(** After [asyncio.wait]: the finished futures leave [fs]. *)
Lemma tinv_delete f done s : tinv s -> (forall g, g ∈ done -> is_done s g = true) ->
  tinv (with_task_fs (<[f := delete_done done (fs_of f s)]> (task_fs s)) s).
Proof.
  intros H Hd g. set (s' := with_task_fs _ _). destruct (decide (f = g)) as [<-|].
  2:{ apply (tok_ext s); [exact (fgrow_refl s) | done | by apply lookup_insert_ne | apply (t_done _ _ (H g)) | apply H]. }
  assert (fs_of f s' = delete_done done (fs_of f s)) as Hfs by (unfold fs_of at 1; cbn; by rewrite lookup_insert_eq).
  destruct (delete_done_ok done (fs_of f s) (t_dict _ _ (H f))) as [Hok Hin]. destruct (H f).
  constructor; rewrite ?Hfs; try done.
  - intros Hs. destruct (t_fresh0 Hs) as [? ->]. split; [done|]. apply delete_done_nil.
  - intros g [Hg|?]%t_left0; [|by right]. rewrite Hin. destruct (decide (g ∈ done)) as [?|?]; [right; by apply Hd | by left; split].
  - intros r Hr E Hdn. specialize (t_done0 r Hr E Hdn). destruct (dict_keys (delete_done _ _)) as [|g l] eqn:Ek; [done|].
    assert (g ∈ dict_keys (fs_of f s)) as Hg by (apply Hin; set_solver). rewrite t_done0 in Hg. by apply not_elem_of_nil in Hg.
Qed.

(** The futures of the jobs: [fs] and [jobs_of] grow together, one fresh future per job. *)
Record prog (s : st) (f : nat) (jobs : list nat) : Prop := {
  p_jobs : obj_of s <$> default [] (jobs_of s !! f) = Some ∘ OJob <$> jobs;
  p_fs : dict_keys (fs_of f s) = default [] (jobs_of s !! f);
  p_dict : dict_ok (fs_of f s) }.

Definition start_job (f : nat) (s : st) (n : nat) : st :=
  let '(g, s) := start_obj (OJob n) s in
  with_jobs_of (<[f := default [] (jobs_of s !! f) ++ [g]]> (jobs_of s))
    (with_task_fs (<[f := dict_set (fs_of f s) g (OJob n)]> (task_fs s)) s).

Lemma obj_of_start o s : obj_of (start_obj o s).2 (next s) = Some o.
Proof. unfold obj_of. cbn. by rewrite lookup_insert_eq. Qed.

Lemma prog_start_job f s n jobs : inv s -> prog s f jobs -> prog (start_job f s n) f (jobs ++ [n]).
Proof.
  intros H [Pj Pf Pd]. pose proof (tframe_start_obj (OJob n) s (inv_fresh _ H _ (le_n _))) as Ht.
  pose proof (obj_of_start (OJob n) s) as Ho. pose proof (objs_ext _ _ _ _ (tf_grow _ _ Ht) Pj) as Hobj.
  assert (next s ∉ dict_keys (fs_of f s)) as Hn.
  { rewrite Pf. intros Hin. assert (obj_of s (next s) ∈ obj_of s <$> default [] (jobs_of s !! f)) as E
      by (apply list_elem_of_fmap; eauto).
    rewrite Pj in E. apply list_elem_of_fmap in E as (x & E & _). unfold obj_of in E. by rewrite (inv_fresh _ H _ (le_n _)) in E. }
  set (s' := start_job f s n). assert (jobs_of s' !! f = Some (default [] (jobs_of s !! f) ++ [next s])) as Ej
    by apply lookup_insert_eq.
  assert (fs_of f s' = dict_set (fs_of f s) (next s) (OJob n)) as Ef by (unfold fs_of at 1; cbn; by rewrite lookup_insert_eq).
  constructor; rewrite ?Ej, ?Ef; cbn [default id from_option].
  - rewrite !fmap_app. apply (f_equal2 app); [exact Hobj|]. cbn [fmap list_fmap]. apply (f_equal (fun x => [x])). exact Ho.
  - by rewrite dict_set_new, <- Pf by done; unfold dict_keys; rewrite fmap_app.
  - by apply dict_ok_set.
Qed.

Lemma start_job_other f s n g : inv s -> f <> g -> tok s g -> tok (start_job f s n) g.
Proof.
  intros H Hne Hg. pose proof (tframe_start_obj (OJob n) s (inv_fresh _ H _ (le_n _))) as Ht.
  pose proof (tframe_tok _ _ _ Ht Hg) as Hg'. eapply (tok_ext (start_obj (OJob n) s).2 _ g); [|..|exact Hg'].
  - exact (fgrow_refl (start_obj (OJob n) s).2).
  - by apply lookup_insert_ne.
  - by apply lookup_insert_ne.
  - apply (t_done _ _ Hg').
Qed.

Lemma start_job_fut f s n g r : inv s -> futs s !! g = Some r -> futs (start_job f s n) !! g = Some r.
Proof.
  intros H E. cbn. rewrite lookup_insert_ne; [done|]. intros <-. by rewrite (inv_fresh _ H _ (le_n _)) in E.
Qed.

Lemma start_jobs_prog f jobs : forall s r, inv s -> futs s !! f = Some r ->
  forall jobs0, prog s f jobs0 -> (forall g, f <> g -> tok s g) ->
  let s' := start_jobs f jobs s in
  futs s' !! f = Some r /\ prog s' f (jobs0 ++ jobs) /\ (forall g, f <> g -> tok s' g).
Proof.
  unfold start_jobs. fold (start_job f). induction jobs as [|n jobs IH]; intros s r H Hf jobs0 Hp Ho; [by rewrite app_nil_r|].
  cbn [fold_left]. change (_ :: jobs) with ([n] ++ jobs). rewrite app_assoc.
  apply IH; [ | by apply start_job_fut | by apply prog_start_job | intros; by apply start_job_other; auto].
  apply (inv_start_obj (OJob n)) in H. by apply (inv_same (start_obj (OJob n) s).2).
Qed.

Lemma tinv_first_step f s : inv s -> tinv s -> tinv (first_step f s).
Proof.
  intros H Ht. unfold first_step. destruct (futs s !! f) as [r|] eqn:Hf; [|done].
  destruct (f_started r || f_done r) eqn:Hd; [done|]. apply orb_false_iff in Hd as [Hs Hd].
  pose proof (tframe_tinv _ _ (tframe_set_started f s) Ht) as Ht1.
  destruct (f_obj r) as [|n jobs|] eqn:Eo, (f_kind r); try done.
  destruct (t_fresh _ _ (Ht f)) as [Ej Ef]; [unfold started; by rewrite Hf|].
  assert (jobs_of (set_started f s) !! f = None) as Ej1 by (by rewrite (tf_jobs _ _ (tframe_set_started f s))).
  assert (fs_of f (set_started f s) = []) as Ef1 by (unfold fs_of; by rewrite (tf_fs _ _ (tframe_set_started f s))).
  destruct (f_cancel r); [apply tinv_complete; [done | by rewrite Ef1]|]. apply tinv_task_loop.
  assert (inv (set_started f s)) as H1 by inv_same.
  assert (futs (set_started f s) !! f = Some (Fut (f_obj r) (f_kind r) true (f_done r) (f_cancel r) (f_cbs r))) as Hf1
    by (unfold set_started; rewrite Hf; apply lookup_insert_eq).
  destruct (start_jobs_prog f jobs _ _ H1 Hf1 []) as (Hf2 & [Pj Pf Pd] & Ho).
  { constructor; rewrite ?Ej1, ?Ef1; [done | done | constructor]. }
  { intros; apply Ht1. }
  intros g. destruct (decide (f = g)) as [<-|]; [|by apply Ho]. constructor.
  - unfold started. by rewrite Hf2.
  - intros gs E. rewrite E in Pj. exists n, jobs. split; [unfold obj_of; rewrite Hf2; cbn; by rewrite Eo | exact Pj].
  - intros g Hg. left. by rewrite Pf.
  - intros r'. rewrite Hf2. intros [= <-] _ Hd'. cbn in Hd'. congruence.
  - done.
Qed.

Lemma tinv_wake wid s : tinv s -> tinv (wake wid s).
Proof.
  intros H. unfold wake. destruct (waits s !! wid) as [w|]; [|done].
  pose proof (tframe_tinv _ _ (tframe_collect wid w s) H) as Hc. pose proof (collect_done wid w s) as Hd.
  destruct (collect wid w s) as [done s']; cbn in *.
  destruct (w_owner w) as [|f]; [eapply tframe_tinv; [apply tframe_main_wake | done]|].
  destruct (futs s !! f) as [r|]; [|done]. destruct (_ || _); [done|]. destruct (f_cancel r).
  - by apply tinv_task_cancelled.
  - apply tinv_task_loop. by apply tinv_delete.
Qed.

Lemma tinv_run_handle s h rest : inv s -> ready s = h :: rest -> tinv s -> tinv (run_handle h (with_ready rest s)).
Proof.
  intros H E Ht. pose proof (inv_fresh _ H _ (le_n _)) as Hn.
  assert (tinv (with_ready rest s)) as Ht' by (apply (tframe_tinv s); [by apply tframe_futs | exact Ht]).
  destruct h as [f|f [| |wid]|wid|f]; cbn [run_handle].
  - apply tinv_first_step; [|done]. eapply inv_same; [by eapply same_pop | done | done].
  - eapply tframe_tinv; [by apply tframe_schedule_cleanup | done].
  - apply (tframe_tinv (with_ready rest s)); [by apply tframe_futs | exact Ht'].
  - eapply tframe_tinv; [apply tframe_on_completion | done].
  - by apply tinv_wake.
  - case_match; [done | by apply tinv_task_cancelled].
Qed.

Lemma tinv_step s s' : step s s' -> inv s -> tinv s -> tinv s'.
Proof.
  intros Hst H Ht. pose proof (inv_fresh _ H _ (le_n _)) as Hn. destruct Hst.
  - by apply tinv_run_handle.
  - eapply tframe_tinv; [by eapply tframe_env | done].
  - eapply tframe_tinv; [by apply tframe_start_obj | done].
  - eapply tframe_tinv; [by apply tframe_start_task | done].
  - eapply tframe_tinv; [apply tframe_main_loop|]. apply tinv_fold; [intros; apply tframe_cancel | done].
Qed.

Lemma tinv_reachable s : reachable s -> tinv s.
Proof.
  intros Hs. cut (inv s /\ tinv s); [tauto|].
  eapply (rtc_ind_r (fun s => inv s /\ tinv s)); [| |exact Hs].
  - split; [apply inv_init|]. intros f. constructor; cbn; try done; [intros; set_solver | constructor].
  - intros s1 s2 _ Hst [H Ht]. split; [by eapply inv_step | by eapply tinv_step].
Qed.

(** C5: a task's cleanup (which publishes its results) comes after its jobs: once the [run] of a task is over, and so
    whenever the task has a cleanup coroutine, the job futures it started are those of all its jobs, in order, and
    every one of them is done.  A task cancelled before its first step has started none. *)
Theorem task_ends_after_jobs s f n jobs : reachable s -> obj_of s f = Some (OTask n jobs) -> is_run s f = true ->
  is_done s f = true \/ length (cleanups_of s f) > 0 ->
  forall gs, jobs_of s !! f = Some gs ->
    obj_of s <$> gs = Some ∘ OJob <$> jobs /\ forall g, g ∈ gs -> is_done s g = true.
Proof.
  intros Hs Ho Hr Hd gs Hgs. assert (is_done s f = true) as Hdone.
  { destruct Hd as [|Hc]; [done|]. destruct (lifecycle s f (inv_reachable s Hs) Hr) as [(? & ? & E)|Hl]; [lia | tauto]. }
  destruct (tinv_reachable s Hs f). destruct (t_jobs0 gs Hgs) as (n' & jobs' & Ho' & Hobjs). simplify_eq.
  split; [done|]. intros g Hg. destruct (t_left0 g) as [Hk|?]; [by rewrite Hgs| |done].
  apply is_run_Some in Hr as (r & Hf & Hkind). unfold obj_of in Ho. unfold is_done in Hdone. rewrite Hf in Ho, Hdone.
  cbn in Ho. rewrite (t_done0 r Hf) in Hk; [by apply not_elem_of_nil in Hk | | done].
  unfold env_finishes. injection Ho as ->. by rewrite Hkind.
Qed.

Lemma task_ends_after_jobs_witness : is_run life_state 1 = true /\ length (cleanups_of life_state 1) = 1 /\
  jobs_of life_state !! 1 = Some [2; 3] /\ is_done life_state 2 = true /\ is_done life_state 3 = true.
Proof.
  destruct (task_ends_after_jobs life_state 1 7 [1; 2] life_reachable ltac:(by vm_compute) ltac:(by vm_compute)
    ltac:(left; by vm_compute) [2; 3] ltac:(by vm_compute)) as [_ H].
  split_and!; [by vm_compute | by vm_compute | by vm_compute | apply H, list_elem_of_In; simpl; auto.. ].
Defined.
