(* ===== verification/RootTasks.v ===== *)
(** * The registry of tasks

    [Root.tasks], which the status service reads to tell a new client what is going on: [start_task] enters the run future of a
    task, and the done callback [tasks.pop], added after [schedule_cleanup], takes it out.  What the registry holds at any
    moment, and in which order the callback and the cleanup of the task come. *)

From S2P Require Import Prelude PyVal Root RootInv RootStop RootTask.

Definition is_task (o : obj) : bool := match o with OTask _ _ => true | _ => false end.

Definition is_pop_cb (c : callback) : bool := bool_decide (c = CbTasksPop).
Definition is_pop_of (f : nat) (h : handle) : bool := bool_decide (h = HCb f CbTasksPop).

(** The [tasks.pop] callbacks of a future: attached to it, and in the queue. *)
Definition p_attached (s : st) (f : nat) : nat :=
  match futs s !! f with Some r => countb is_pop_cb (f_cbs r) | None => 0 end.
Definition p_queued (s : st) (f : nat) : nat := countb (is_pop_of f) (ready s).

(** What is in the queue behind the [tasks.pop] of [f]. *)
Fixpoint behind (f : nat) (l : list handle) : list handle :=
  match l with [] => [] | h :: l => if is_pop_of f h then l else behind f l end.

Record reg (s : st) : Prop := {
  g_dict : dict_ok (tasks s);
  g_token f : p_attached s f + p_queued s f = if decide (f ∈ dict_keys (tasks s)) then 1 else 0;
  g_val f o : dict_get (tasks s) f = Some o -> obj_of s f = Some o /\ is_run s f = true /\ is_task o = true;
  g_live f o : obj_of s f = Some o -> is_task o = true -> is_run s f = true -> is_done s f = false -> p_attached s f = 1;
  g_done f : is_done s f = true -> p_attached s f = 0;
  g_clean f g : kind_of s g = Some (KCleanup f) -> is_done s f = true;
  g_order f g : kind_of s g = Some (KCleanup f) -> p_queued s f <> 0 -> HStep g ∈ behind f (ready s) }.

(** ** Queues *)

Lemma countb_0 {A} (p : A -> bool) l : countb p l = 0 <-> Forall (fun x => p x = false) l.
Proof.
  induction l as [|x l IH]; [by rewrite countb_nil|]. rewrite countb_cons, Forall_cons, <- IH. destruct (p x); naive_solver lia.
Qed.

Lemma behind_app_l f l l' : countb (is_pop_of f) l <> 0 -> behind f (l ++ l') = behind f l ++ l'.
Proof. induction l as [|h l IH]; [done|]. rewrite countb_cons. cbn. destruct (is_pop_of f h); auto. Qed.

Lemma p_queued_Some s f : p_queued s f <> 0 <-> HCb f CbTasksPop ∈ ready s.
Proof.
  unfold p_queued. rewrite countb_0. split.
  - intros Hn. destruct (decide (HCb f CbTasksPop ∈ ready s)) as [|Hin]; [done|]. destruct Hn. apply Forall_forall. intros h Hh.
    unfold is_pop_of. case_bool_decide; [subst; done | done].
  - intros Hin Hf. rewrite Forall_forall in Hf. specialize (Hf _ Hin). unfold is_pop_of in Hf. by rewrite bool_decide_true in Hf.
Qed.

(** ** Operations that do not concern the registry *)

Definition no_pop (h : handle) : Prop := forall f, h <> HCb f CbTasksPop.

Lemma no_pop_of h f : no_pop h -> is_pop_of f h = false.
Proof. intros Hh. apply bool_decide_eq_false, Hh. Qed.

Record rframe (s s' : st) : Prop := {
  rf_tasks : tasks s' = tasks s;
  rf_obj f : obj_of s' f = obj_of s f;
  rf_kind f : kind_of s' f = kind_of s f;
  rf_done f : is_done s' f = is_done s f;
  rf_att f : p_attached s' f = p_attached s f;
  rf_ready : exists l, ready s' = ready s ++ l /\ Forall no_pop l }.

#[export] Instance rframe_refl : Reflexive rframe.
Proof. constructor; try done. exists []. by rewrite app_nil_r. Qed.
#[export] Instance rframe_trans : Transitive rframe.
Proof.
  intros s1 s2 s3 [T1 O1 K1 D1 A1 (l1 & R1 & F1)] [T2 O2 K2 D2 A2 (l2 & R2 & F2)]. constructor; intros; try congruence.
  exists (l1 ++ l2). rewrite R2, R1, app_assoc. split; [done|]. by apply Forall_app.
Qed.

Lemma rframe_fold {A} (step : st -> A -> st) l s : (forall s x, rframe s (step s x)) -> rframe s (fold_left step l s).
Proof. intros H. revert s. induction l as [|x l IH]; intros s; simpl; [done|]. etrans; [apply H | apply IH]. Qed.

Lemma no_pop_count l f : Forall no_pop l -> countb (is_pop_of f) l = 0.
Proof. intros Hl. apply countb_0. eapply Forall_impl; [done|]. intros. by apply no_pop_of. Qed.

Lemma rframe_reg s s' : rframe s s' -> reg s -> reg s'.
Proof.
  intros [T O K D A (l & R & F)] G.
  assert (forall f, p_queued s' f = p_queued s f) as Q by (intros f; unfold p_queued; rewrite R, countb_app, (no_pop_count l) by done; lia).
  assert (forall f, is_run s' f = is_run s f) as Hr by (intros f; by apply is_run_kind).
  destruct G. constructor; intros *; rewrite ?T, ?O, ?K, ?D, ?A, ?Q, ?Hr; eauto.
  intros Hk Hq. rewrite R. rewrite behind_app_l by done. apply elem_of_app. left. by apply g_order0.
Qed.

Lemma rframe_with_futs s f r r' : futs s !! f = Some r -> f_obj r' = f_obj r -> f_kind r' = f_kind r -> f_done r' = f_done r ->
  countb is_pop_cb (f_cbs r') = countb is_pop_cb (f_cbs r) -> rframe s (with_futs (<[f := r']> (futs s)) s).
Proof.
  intros Hf Ho Hk Hd Hc. constructor; try done; [..|exists []; by rewrite app_nil_r];
    intros g; unfold obj_of, kind_of, is_done, p_attached; cbn [futs with_futs];
    (destruct (decide (f = g)) as [<-|]; [rewrite lookup_insert_eq, Hf | by rewrite lookup_insert_ne]); simpl; congruence.
Qed.

Lemma rframe_call_soon h s : no_pop h -> rframe s (call_soon h s).
Proof. intros Hh. constructor; try done. exists [h]. split; [done|]. by constructor. Qed.

Lemma rframe_futs s s' : futs s' = futs s -> ready s' = ready s -> tasks s' = tasks s -> rframe s s'.
Proof.
  intros F R T. constructor; try done; [..|exists []; by rewrite app_nil_r, R]; intros f; unfold obj_of, kind_of, is_done, p_attached;
    by rewrite F.
Qed.

Lemma rframe_add_cb wid s f : rframe s (add_cb (CbWait wid) s f).
Proof.
  unfold add_cb. destruct (futs s !! f) as [r|] eqn:Hf; [|done]. destruct (f_done r) eqn:Hd; [by apply rframe_call_soon|].
  eapply rframe_with_futs; [done|done|done|by rewrite Hd|]. cbn [f_cbs]. rewrite countb_app, countb_cons, countb_nil. unfold is_pop_cb. simpl. lia.
Qed.
Lemma rframe_remove_cb wid s f : rframe s (remove_cb (CbWait wid) s f).
Proof.
  unfold remove_cb. destruct (futs s !! f) as [r|] eqn:Hf; [|done]. eapply rframe_with_futs; [done|done|done|done|]. cbn [f_cbs].
  induction (f_cbs r) as [|c l IH]; [done|]. cbn [List.filter]. case_bool_decide; subst; cbn [negb]; by rewrite ?countb_cons, ?IH.
Qed.
Lemma rframe_set_started f s : rframe s (set_started f s).
Proof. unfold set_started. destruct (futs s !! f) eqn:E; [|done]. by eapply rframe_with_futs. Qed.
Lemma rframe_set_cancel b f s : rframe s (set_cancel b f s).
Proof. unfold set_cancel. destruct (futs s !! f) eqn:E; [|done]. by eapply rframe_with_futs. Qed.
Lemma rframe_on_completion wid f s : rframe s (on_completion wid f s).
Proof.
  unfold on_completion. destruct (waits s !! wid) as [w|]; [|done]. case_match; [|by apply rframe_futs].
  etrans; [|by apply rframe_call_soon]. by apply rframe_futs.
Qed.
Lemma rframe_wait o all fs s : rframe s (wait o all fs s).
Proof. unfold wait. etrans; [|apply rframe_fold; intros; apply rframe_add_cb]. by apply rframe_futs. Qed.
Lemma rframe_collect wid w s : rframe s (collect wid w s).2.
Proof. apply rframe_fold. intros. apply rframe_remove_cb. Qed.
Lemma rframe_cancel f s : rframe s (cancel f s).
Proof.
  unfold cancel. destruct (futs s !! f) as [r|]; [|done]. destruct (f_done r); [done|]. destruct (f_obj r), (f_kind r); try done.
  etrans; [apply (rframe_set_cancel true f)|]. repeat case_match; try done. etrans; [|by apply rframe_call_soon]. by apply rframe_futs.
Qed.
Lemma rframe_main_loop s : rframe s (main_loop s).
Proof. unfold main_loop. repeat case_match; (etrans; [|apply rframe_wait] || idtac); by apply rframe_futs. Qed.
Lemma rframe_main_wake wid done s : rframe s (main_wake wid done s).
Proof.
  unfold main_wake. destruct (phase s); try done; case_decide; try done; [|by apply rframe_futs].
  etrans; [|apply rframe_main_loop]. by apply rframe_futs.
Qed.

(** ** Operations that do *)

(** The head of the queue, if it is not a [tasks.pop]. *)
Lemma reg_pop s h rest : ready s = h :: rest -> no_pop h -> reg s -> reg (with_ready rest s).
Proof.
  intros E Hh G. assert (forall f, p_queued (with_ready rest s) f = p_queued s f) as Q.
  { intros f. unfold p_queued. cbn. by rewrite E, countb_cons, no_pop_of. }
  destruct G. constructor; intros *; rewrite ?Q; try done; [apply g_token0 | apply g_val0 | apply g_live0 | apply g_done0 | apply g_clean0 |].
  intros Hk Hq. specialize (g_order0 f g Hk Hq). rewrite E in g_order0. cbn in g_order0 |- *. by rewrite no_pop_of in g_order0.
Qed.

Lemma is_pop_same f g : is_pop_of g (HCb f CbTasksPop) = bool_decide (f = g).
Proof. unfold is_pop_of. repeat case_bool_decide; naive_solver. Qed.

(** [tasks.pop(fut)] *)
Lemma reg_tasks_pop s f rest : ready s = HCb f CbTasksPop :: rest -> reg s ->
  reg (with_tasks (dict_del (tasks s) f) (with_ready rest s)).
Proof.
  intros E G. set (s' := with_tasks _ _).
  assert (forall g, p_queued s g = p_queued s' g + if decide (f = g) then 1 else 0) as Q.
  { intros g. unfold p_queued, s'. cbn [ready with_tasks with_ready]. rewrite E, countb_cons, is_pop_same. case_decide; case_bool_decide; try done; lia. }
  destruct G. constructor.
  - by apply dict_ok_del.
  - intros g. specialize (g_token0 g). rewrite Q in g_token0. change (p_attached s' g) with (p_attached s g).
    unfold s' at 2. cbn [tasks with_tasks]. pose proof (dict_keys_del (tasks s) f g_dict0 g) as Hd.
    repeat case_decide; try lia; naive_solver lia.
  - intros g o. unfold s'. cbn [tasks with_tasks]. rewrite dict_get_del by done. case_decide; [done|]. apply g_val0.
  - apply g_live0.
  - apply g_done0.
  - apply g_clean0.
  - intros g c Hk Hq. specialize (g_order0 g c Hk). rewrite Q in g_order0. specialize (g_order0 ltac:(lia)).
    specialize (g_token0 g). rewrite Q in g_token0. rewrite E in g_order0. unfold s'. cbn [behind ready with_tasks with_ready] in g_order0 |- *.
    rewrite is_pop_same in g_order0. case_bool_decide as Hb; [|done]. subst. repeat case_decide; try done; lia.
Qed.

(** The end of a coroutine. *)
Lemma countb_pops f g cbs : countb (is_pop_of g) (HCb f <$> cbs) = if decide (f = g) then countb is_pop_cb cbs else 0.
Proof.
  induction cbs as [|c cbs IH]; [by case_decide|]. rewrite fmap_cons, !countb_cons, IH.
  unfold is_pop_of, is_pop_cb. repeat case_decide; repeat case_bool_decide; naive_solver.
Qed.

Lemma reg_complete f s : reg s -> reg (complete f s).
Proof.
  intros G. unfold complete. destruct (futs s !! f) as [r|] eqn:Hf; [|done]. destruct (f_done r) eqn:Hd; [done|].
  set (s' := with_ready _ _).
  assert (forall g, obj_of s' g = obj_of s g /\ kind_of s' g = kind_of s g /\ is_done s' g = bool_decide (f = g) || is_done s g /\
                    p_attached s' g = if decide (f = g) then 0 else p_attached s g) as Hobs.
  { intros g. unfold obj_of, kind_of, is_done, p_attached, s'; cbn [futs with_ready with_futs].
    destruct (decide (f = g)) as [<-|Hn]; [rewrite lookup_insert_eq, Hf, bool_decide_true by done |
      rewrite lookup_insert_ne, bool_decide_false by done]; done. }
  assert (forall g, p_queued s' g = p_queued s g + if decide (f = g) then p_attached s g else 0) as Q.
  { intros g. unfold p_queued, p_attached, s'; cbn [ready with_ready with_futs]. rewrite countb_app, countb_pops.
    case_decide; [subst; by rewrite Hf | done]. }
  assert (is_done s f = false) as Hdf by (unfold is_done; by rewrite Hf).
  destruct G. constructor; try intros g; try destruct (Hobs g) as (O & K & D & A); rewrite ?O, ?A, ?Q; try done.
  - specialize (g_token0 g). change (tasks s') with (tasks s). repeat case_decide; try done; lia.
  - intros o. rewrite (is_run_kind s s' g K). apply g_val0.
  - intros o. rewrite (is_run_kind s s' g K), D. intros Ho Ht Hr [Hne%bool_decide_eq_false Hdn]%orb_false_iff.
    rewrite decide_False by done. eauto.
  - rewrite D. intros [?%bool_decide_eq_true|?]%orb_true_iff; case_decide; auto; done.
  - intros c. destruct (Hobs c) as (_ & Kc & _). rewrite Kc, D. intros Hk. apply orb_true_iff. right. eauto.
  - intros c. destruct (Hobs c) as (_ & Kc & _). rewrite Kc. intros Hk Hq. pose proof (g_clean0 _ _ Hk). case_decide; [congruence|].
    unfold s'. cbn. rewrite behind_app_l by (unfold p_queued in Hq; lia). apply elem_of_app. left. apply g_order0; [done | lia].
Qed.

(** A new future, with [tasks.pop] attached and an entry in the registry if it runs a task. *)
Lemma reg_fresh s s' n r b : futs s !! n = None -> futs s' = <[n := r]> (futs s) -> f_done r = false -> ready s' = ready s ++ [HStep n] ->
  b = bool_decide (f_kind r = KRun) && is_task (f_obj r) -> countb is_pop_cb (f_cbs r) = (if b : bool then 1 else 0) ->
  tasks s' = (if b then dict_set (tasks s) n (f_obj r) else tasks s) ->
  (forall f, f_kind r = KCleanup f -> is_done s f = true) -> reg s -> reg s'.
Proof.
  intros Hn F Hd R Hb Hc T Hcl G.
  assert (forall g, obj_of s' g = (if decide (n = g) then Some (f_obj r) else obj_of s g) /\
     kind_of s' g = (if decide (n = g) then Some (f_kind r) else kind_of s g) /\ is_done s' g = is_done s g /\
     p_attached s' g = if decide (n = g) then (if b then 1 else 0) else p_attached s g) as Hobs.
  { intros g. unfold obj_of, kind_of, is_done, p_attached. rewrite F.
    destruct (decide (n = g)) as [<-|]; [rewrite lookup_insert_eq, Hn | rewrite lookup_insert_ne by done]; done. }
  assert (forall g, p_queued s' g = p_queued s g) as Q.
  { intros g. unfold p_queued. rewrite R, countb_app, countb_cons, countb_nil. unfold is_pop_of at 2. simpl. lia. }
  assert (n ∉ dict_keys (tasks s)) as Hnt.
  { intros [o Ho]%dict_get_Some_keys. apply (g_val _ G) in Ho as [Ho _]. unfold obj_of in Ho. by rewrite Hn in Ho. }
  assert (p_queued s n = 0) as Hq0 by (pose proof (g_token _ G n) as Ht; rewrite decide_False in Ht by done; lia).
  assert (forall g, dict_get (tasks s') g = if decide (n = g) then (if b then Some (f_obj r) else None) else dict_get (tasks s) g) as Hget.
  { intros g. rewrite T. destruct b; [apply dict_get_set|]. destruct (decide (n = g)); [subst; by apply dict_get_None | done]. }
  destruct G. constructor; try intros g; try destruct (Hobs g) as (O & K & D & A); rewrite ?O, ?A, ?Q, ?D; try done.
  - rewrite T. destruct b; [by apply dict_ok_set | done].
  - specialize (g_token0 g). pose proof (dict_get_Some_keys (tasks s') g) as Hs'. pose proof (dict_get_Some_keys (tasks s) g) as Hs.
    rewrite Hget in Hs'. destruct (decide (n = g)) as [<-|].
    + clear g_token0. destruct b; destruct (decide (n ∈ dict_keys (tasks s'))) as [Hk|Hk]; try lia; [destruct Hk; apply Hs'; eauto | apply Hs' in Hk as [? ?]; done].
    + rewrite g_token0. destruct (decide (g ∈ dict_keys (tasks s))), (decide (g ∈ dict_keys (tasks s'))); tauto.
  - intros o. rewrite Hget. unfold is_run. rewrite K. destruct (decide (n = g)); [|apply g_val0]. destruct b; [|done]. intros [= <-].
    symmetry in Hb. apply andb_true_iff in Hb as [Hr Ht]. split; [done|]. split; [|done]. by apply bool_decide_eq_true in Hr as ->.
  - intros o. unfold is_run. rewrite K. destruct (decide (n = g)); [|apply g_live0]. intros [= <-] Ht Hr Hd'. rewrite Ht in Hb.
    apply bool_decide_eq_true in Hr. injection Hr as Hr. rewrite Hr in Hb. by subst b.
  - destruct (decide (n = g)) as [E|]; [|apply g_done0]. subst. unfold is_done. by rewrite Hn.
  - intros c. destruct (Hobs c) as (_ & Kc & _). rewrite Kc. destruct (decide (n = c)); [|eauto]. intros [= Hk]. by apply Hcl.
  - intros c. destruct (Hobs c) as (_ & Kc & _). rewrite Kc, R. intros Hk Hq. rewrite behind_app_l by done. apply elem_of_app.
    destruct (decide (n = c)); [right; subst; set_solver | left; by apply g_order0].
Qed.

(** ** The steps *)

Lemma reg_start_obj o s : is_task o = false -> inv s -> reg s -> reg (start_obj o s).2.
Proof.
  intros Ho I G. eapply (reg_fresh s _ (next s) (Fut o KRun false false false [CbCleanup]) false); try done.
  - by apply (inv_fresh _ I).
Qed.

Lemma reg_start_task o s : is_task o = true -> inv s -> reg s -> reg (start_task o s).
Proof.
  intros Ho I G. pose proof (inv_fresh _ I _ (le_n _)) as Hn. unfold start_task, start_obj, add_cb. cbn -[dict_set]. rewrite lookup_insert_eq. cbn -[dict_set].
  eapply (reg_fresh s _ (next s) (Fut o KRun false false false [CbCleanup; CbTasksPop]) true); try done; cbn -[dict_set].
  - by rewrite insert_insert_eq.
Qed.

Lemma reg_schedule_cleanup s f rest : ready s = HCb f CbCleanup :: rest -> inv s -> reg s -> reg (schedule_cleanup f (with_ready rest s)).
Proof.
  intros E I G. destruct (popped s f rest I E) as (_ & _ & _ & _ & Hd). apply (reg_pop s _ rest E) in G; [|done]. unfold schedule_cleanup.
  destruct (dict_get (running_objects (with_ready rest s)) f) as [o|]; [|by apply (rframe_reg (with_ready rest s)); [apply rframe_futs|]].
  eapply (reg_fresh (with_ready rest s) _ (next s) (Fut o (KCleanup f) false false false []) false); try done.
  - by apply (inv_fresh _ I).
  - by intros ? [= <-].
Qed.

Lemma reg_fold {A} (step : st -> A -> st) l s : (forall s x, rframe s (step s x)) -> reg s -> reg (fold_left step l s).
Proof. intros. eapply rframe_reg; [by apply rframe_fold | done]. Qed.

Lemma reg_task_loop f s : reg s -> reg (task_loop f s).
Proof. intros G. unfold task_loop. case_match; [by apply reg_complete | eapply rframe_reg; [apply rframe_wait | done]]. Qed.

Lemma reg_task_cancelled f s : reg s -> reg (task_cancelled f s).
Proof.
  intros G. apply reg_task_loop, reg_fold; [intros; apply rframe_cancel|]. eapply rframe_reg; [apply rframe_set_cancel | done].
Qed.

Lemma reg_start_jobs f jobs : forall s, inv s -> reg s -> reg (start_jobs f jobs s).
Proof.
  induction jobs as [|n jobs IH]; intros s I G; [done|]. apply (IH (start_job f s n)); [by apply (inv_start_jobs f [n])|].
  eapply rframe_reg; [|by apply (reg_start_obj (OJob n) s)]. by apply rframe_futs.
Qed.

Lemma reg_first_step f s : inv s -> reg s -> reg (first_step f s).
Proof.
  intros I G. unfold first_step. destruct (futs s !! f) as [r|]; [|done]. destruct (_ || _); [done|].
  assert (inv (set_started f s)) by inv_same. assert (reg (set_started f s)) by (eapply rframe_reg; [apply rframe_set_started | done]).
  destruct (f_obj r), (f_kind r); try done. destruct (f_cancel r); [by apply reg_complete|].
  by apply reg_task_loop, reg_start_jobs.
Qed.

Lemma reg_wake wid s : reg s -> reg (wake wid s).
Proof.
  intros G. unfold wake. destruct (waits s !! wid) as [w|]; [|done].
  assert (reg (collect wid w s).2) as Gc by (eapply rframe_reg; [apply rframe_collect | done]).
  destruct (collect wid w s) as [done s']; cbn in Gc.
  destruct (w_owner w) as [|f]; [eapply rframe_reg; [apply rframe_main_wake | done]|].
  destruct (futs s !! f) as [r|]; [|done]. repeat case_match; try done; [by apply reg_task_cancelled|].
  apply reg_task_loop. eapply rframe_reg; [|exact Gc]. by apply rframe_futs.
Qed.

Lemma reg_run_handle s h rest : inv s -> reg s -> ready s = h :: rest -> reg (run_handle h (with_ready rest s)).
Proof.
  intros I G E. assert (no_cleanup h -> inv (with_ready rest s)) as Ip by (intros; eapply inv_same; [by eapply same_pop | done | done]).
  pose proof (reg_pop s h rest E) as Gp.
  destruct h as [f|f [| |wid]|wid|f]; cbn [run_handle]; try (specialize (Ip ltac:(by intros ? [=])); specialize (Gp ltac:(by intros ? [=]) G)).
  - by apply reg_first_step.
  - by apply reg_schedule_cleanup.
  - exact (reg_tasks_pop s f rest E G).
  - eapply rframe_reg; [apply rframe_on_completion | done].
  - by apply reg_wake.
  - case_match; [done | by apply reg_task_cancelled].
Qed.

Lemma reg_step s s' : step s s' -> inv s -> reg s -> reg s'.
Proof.
  intros Hs I G. destruct Hs.
  - by apply reg_run_handle.
  - by apply reg_complete.
  - by apply reg_start_obj.
  - by apply reg_start_task.
  - eapply rframe_reg; [apply rframe_main_loop|]. apply reg_fold; [intros; apply rframe_cancel | done].
Qed.

Lemma reg_reachable s : reachable s -> reg s.
Proof.
  intros Hs. cut (inv s /\ reg s); [tauto|]. eapply (rtc_ind_r (fun s => inv s /\ reg s)); [| |exact Hs].
  - split; [apply inv_init|]. constructor; cbn; try done. constructor.
  - intros s1 s2 _ Hst [I G]. split; [by eapply inv_step | by eapply reg_step].
Qed.

(** C10: (invariant) In every reachable state of the event loop [Root.tasks] holds exactly the tasks whose [run] is not over or whose
    [tasks.pop] callback is still queued, each under the future of its [run]; the callback always finds its task; and while a
    task is in the registry its cleanup has not begun: the first step of the cleanup coroutine, if there is one, is still
    queued, behind the callback. *)
Theorem task_registry s : reachable s ->
  (forall f o, dict_get (tasks s) f = Some o <->
     obj_of s f = Some o /\ is_run s f = true /\ is_task o = true /\ (is_done s f = false \/ HCb f CbTasksPop ∈ ready s)) /\
  (forall f rest, ready s = HCb f CbTasksPop :: rest -> f ∈ dict_keys (tasks s)) /\
  (forall f g, f ∈ dict_keys (tasks s) -> kind_of s g = Some (KCleanup f) -> HStep g ∈ behind f (ready s)).
Proof.
  intros Hs. pose proof (reg_reachable s Hs) as G.
  assert (forall f, HCb f CbTasksPop ∈ ready s -> f ∈ dict_keys (tasks s)) as Hq.
  { intros f Hin%p_queued_Some. pose proof (g_token _ G f) as Ht. case_decide; [done | lia]. }
  assert (forall f, f ∈ dict_keys (tasks s) -> is_done s f = true -> HCb f CbTasksPop ∈ ready s) as Hk.
  { intros f Hin Hd. apply p_queued_Some. pose proof (g_token _ G f) as Ht. rewrite (g_done _ G _ Hd), decide_True in Ht by done. lia. }
  split_and!.
  - intros f o. split.
    + intros Ho. destruct (g_val _ G _ _ Ho) as (? & ? & ?). split_and!; try done. destruct (is_done s f) eqn:Hd; [right | by left].
      apply Hk; [|done]. apply dict_get_Some_keys. by eexists.
    + intros (Ho & Hr & Ht & Hd). assert (f ∈ dict_keys (tasks s)) as [o' Ho']%dict_get_Some_keys.
      { destruct Hd as [Hd|]; [|auto]. pose proof (g_token _ G f) as Htk. rewrite (g_live _ G f o) in Htk by done. case_decide; [done | lia]. }
      destruct (g_val _ G _ _ Ho') as (? & _). congruence.
  - intros f rest E. apply Hq. rewrite E. by left.
  - intros f g Hin Hg. apply (g_order _ G); [done|]. apply p_queued_Some, Hk; [done|]. by apply (g_clean _ G f g).
Qed.

(** The task of [life_trace] when its [run] is over and its cleanup is scheduled: [tasks.pop] comes next. *)
Definition popping_trace : list act := firstn 8 life_trace ++ replicate 8 AHandle.
Definition popping : st := default init (execs popping_trace init).

Lemma popping_reachable : reachable popping.
Proof. apply (execs_reachable popping_trace). vm_compute. reflexivity. Qed.

Lemma task_registry_witness : reachable popping /\ kind_of popping 6 = Some (KCleanup 1) /\ 1 ∈ dict_keys (tasks popping) /\
  HStep 6 ∈ behind 1 (ready popping).
Proof.
  destruct (task_registry popping popping_reachable) as (_ & Hpop & Horder). split; [exact popping_reachable|].
  assert (kind_of popping 6 = Some (KCleanup 1)) as Hk by reflexivity.
  assert (1 ∈ dict_keys (tasks popping)) as Hin by (apply (Hpop 1 [HStep 6]); reflexivity). split_and!; [done | done |].
  exact (Horder 1 6 Hin Hk).
Defined.
