(* ===== verification/RootSpec.v ===== *)
(** * The life cycle the root promises, and the refinement

    What a service, a task or a job may expect of the root is a small machine with one stage per object.  Every run of
    the event loop of [Root.v] is, object by object, a run of that machine. *)

From S2P Require Import Prelude PyStr PyVal Root RootInv RootStop.

(** ** The abstract life cycle *)

Inductive stage : Type := Absent | Running | Finished | Cleaning | Cleaned | Dropped.
#[export] Instance stage_eq_dec : EqDecision stage. Proof. solve_decision. Defined.

(** An object is started, finishes, gets one cleanup, which finishes; a finished object is dropped without a cleanup
    only while the root is stopping. *)
Inductive life (stopping : bool) : stage -> stage -> Prop :=
| life_start : life stopping Absent Running
| life_finish : life stopping Running Finished
| life_cleanup : life stopping Finished Cleaning
| life_cleaned : life stopping Cleaning Cleaned
| life_drop : stopping = true -> life stopping Finished Dropped.

(** The stage of the object of future [f] in a state of the event loop. *)
Definition stage_of (s : st) (f : nat) : stage :=
  if negb (is_run s f) then Absent
  else if negb (is_done s f) then Running
  else if bool_decide (f ∈ lost s) then Dropped
  else match cleanups_of s f with
       | [] => Finished
       | g :: _ => if is_done s g then Cleaned else Cleaning
       end.

Definition stopping (s : st) : bool := negb (bool_decide (phase s = PRun)).

(** ** What only grows along a step *)

Record grow (s s' : st) : Prop := {
  g_kind : forall f k, kind_of s f = Some k -> kind_of s' f = Some k;
  g_done : forall f, is_done s f = true -> is_done s' f = true;
  g_lost : lost s ⊆ lost s';
  g_cleaned : cleaned s ⊆ cleaned s';
  g_cleanups : running_cleanups s `prefix_of` running_cleanups s';
  g_phase : stopping s = true -> stopping s' = true }.

#[export] Instance grow_refl : Reflexive grow.
Proof. by constructor. Qed.
#[export] Instance grow_trans : Transitive grow.
Proof. intros s1 s2 s3 [] []. constructor; [eauto | eauto | by etrans | by etrans | by etrans | eauto]. Qed.

Lemma same_grow s s' : same s s' -> (phase s' = PRun -> phase s = PRun) -> grow s s'.
Proof.
  intros [_ Hk Hd _ _ _ Hc Hcl _ Hl] Hp. constructor.
  - intros f k. by rewrite Hk.
  - intros f. by rewrite Hd.
  - by rewrite Hl.
  - by rewrite Hcl.
  - by rewrite Hc.
  - unfold stopping. rewrite !negb_true_iff, !bool_decide_eq_false. auto.
Qed.

Lemma grow_same s s' : same s s' -> phase s' = phase s -> grow s s'.
Proof. intros ? Hp. apply same_grow; [done | by rewrite Hp]. Qed.

Lemma grow_fold {A} (step : st -> A -> st) (P : st -> Prop) l s : (forall s x, P s -> P (step s x) /\ grow s (step s x)) ->
  P s -> grow s (fold_left step l s).
Proof.
  intros H. revert s. induction l as [|x l IH]; intros s Hs; simpl; [done|]. destruct (H s x Hs). etrans; [done | auto].
Qed.

Ltac grow_same := apply grow_same; [|autorewrite with root_phase; reflexivity]; auto with root.

Lemma grow_insert s f r s' : futs s' = <[f := r]> (futs s) -> lost s' = lost s -> cleaned s ⊆ cleaned s' ->
  running_cleanups s `prefix_of` running_cleanups s' -> phase s' = phase s ->
  (forall r0, futs s !! f = Some r0 -> f_kind r = f_kind r0 /\ (f_done r0 = true -> f_done r = true)) -> grow s s'.
Proof.
  intros E El Ec Er Ep Hr. constructor; rewrite ?El; auto.
  - intros g k. unfold kind_of. rewrite E. destruct (decide (f = g)) as [<-|]; [|by rewrite lookup_insert_ne].
    rewrite lookup_insert_eq. destruct (futs s !! f) as [r0|]; [|done]. cbn. by destruct (Hr r0 eq_refl) as [-> _].
  - intros g. unfold is_done. rewrite E. destruct (decide (f = g)) as [<-|]; [|by rewrite lookup_insert_ne].
    rewrite lookup_insert_eq. destruct (futs s !! f) as [r0|]; [|done]. by apply Hr.
  - unfold stopping. by rewrite Ep.
Qed.

Lemma grow_complete f s : grow s (complete f s).
Proof.
  unfold complete. destruct (futs s !! f) as [r|] eqn:E; [|done]. destruct (f_done r); [done|].
  eapply grow_insert; try reflexivity. intros r0 ?. by simplify_eq.
Qed.

Lemma grow_start_obj o s : inv s -> grow s (start_obj o s).2.
Proof.
  intros H. eapply grow_insert; try reflexivity. intros r0. by rewrite (inv_fresh _ H).
Qed.

Lemma grow_schedule_cleanup f s : futs s !! next s = None -> grow s (schedule_cleanup f s).
Proof.
  intros Hf. unfold schedule_cleanup. case_match; [|by constructor].
  eapply grow_insert; cbn; try reflexivity; [set_solver | by apply prefix_app_r|]. intros r0. by rewrite Hf.
Qed.

Lemma grow_main_loop s : grow s (main_loop s).
Proof. apply same_grow; [apply same_main_loop | intros E; by destruct (phase_main_loop s)]. Qed.

Lemma grow_main_wake wid done s : grow s (main_wake wid done s).
Proof.
  unfold main_wake. destruct (phase s) eqn:Hp; try done; case_decide; try done.
  etrans; [|apply grow_main_loop]. constructor; cbn; done || set_solver.
Qed.

Lemma grow_task_loop f s : grow s (task_loop f s).
Proof. unfold task_loop. case_match; [apply grow_complete | grow_same]. Qed.

Lemma grow_start_jobs f jobs s : inv s -> grow s (start_jobs f jobs s).
Proof.
  apply grow_fold. intros s' n H. pose proof (inv_start_obj (OJob n) s' H). pose proof (grow_start_obj (OJob n) s' H).
  cbn [start_obj]. split; [by apply (inv_same (start_obj (OJob n) s').2)|].
  etrans; [done|]. by apply grow_same.
Qed.

Lemma grow_task_cancelled f s : grow s (task_cancelled f s).
Proof.
  unfold task_cancelled. etrans; [|apply grow_task_loop].
  etrans; [|apply (grow_fold _ (fun _ => True)); [split; [done | grow_same] | done]]. grow_same.
Qed.

Lemma grow_first_step f s : inv s -> grow s (first_step f s).
Proof.
  intros H. unfold first_step. destruct (futs s !! f) as [r|]; [|done]. destruct (_ || _); [done|].
  assert (grow s (set_started f s)) by grow_same. assert (inv (set_started f s)) by inv_same.
  destruct (f_obj r), (f_kind r); try done. destruct (f_cancel r); (etrans; [done|]); [apply grow_complete|].
  etrans; [by apply grow_start_jobs | apply grow_task_loop].
Qed.

Lemma grow_collect wid w s : grow s (collect wid w s).2.
Proof. grow_same. Qed.

Lemma grow_wake wid s : grow s (wake wid s).
Proof.
  unfold wake. destruct (waits s !! wid) as [w|]; [|done]. pose proof (grow_collect wid w s) as Hc.
  destruct (collect wid w s) as [done s']; cbn in *. destruct (w_owner w) as [|f].
  - etrans; [exact Hc | apply grow_main_wake].
  - destruct (futs s !! f) as [r|]; [|done]. repeat case_match; try done; [apply grow_task_cancelled|].
    etrans; [exact Hc|]. etrans; [|apply grow_task_loop]. by apply grow_same.
Qed.

Lemma grow_pop s rest : grow s (with_ready rest s).
Proof. by constructor. Qed.

Lemma grow_run_handle s h rest : inv s -> ready s = h :: rest -> grow s (run_handle h (with_ready rest s)).
Proof.
  intros H E. etrans; [apply (grow_pop s rest)|]. destruct h as [f|f [| |wid]|wid|f]; cbn [run_handle].
  - apply grow_first_step. eapply inv_same; [by eapply same_pop | done | done].
  - apply grow_schedule_cleanup. by apply (inv_fresh _ H).
  - by constructor.
  - grow_same.
  - apply grow_wake.
  - case_match; [done | apply grow_task_cancelled].
Qed.

Lemma grow_step s s' : step s s' -> inv s -> grow s s'.
Proof.
  intros Hs Hi. destruct Hs.
  - by apply grow_run_handle.
  - apply grow_complete.
  - by apply grow_start_obj.
  - unfold start_task. pose proof (grow_start_obj (OTask n jobs) s Hi) as Hg.
    destruct (start_obj _ _) as [g s1]; cbn in Hg. etrans; [exact Hg|].
    etrans; [|grow_same; by apply same_add_cb]. by apply grow_same.
  - etrans; [|apply grow_main_loop]. apply (grow_fold _ (fun _ => True)); [split; [done | grow_same] | done].
Qed.

Lemma grow_steps s s' : rtc step s s' -> inv s -> inv s' /\ grow s s'.
Proof.
  induction 1 as [|s s1 s' Hs _ IH]; intros H; [done|]. destruct IH; [by eapply inv_step|].
  split; [done|]. etrans; [by apply grow_step | done].
Qed.

(** ** The simulation *)

Lemma kinds_stable s s' g : inv s -> grow s s' -> g ∈ running_cleanups s -> kind_of s' g = kind_of s g.
Proof.
  intros H Hg Hin. destruct (kind_of s g) as [k|] eqn:E; [by apply (g_kind _ _ Hg)|].
  assert (kind_of s g ∈ kind_of s <$> running_cleanups s) as Hk by (apply list_elem_of_fmap; eauto).
  rewrite (inv_cleanups _ H), E in Hk. apply list_elem_of_fmap in Hk as (? & [=] & _).
Qed.

Lemma cleanups_prefix s s' f : inv s -> grow s s' -> cleanups_of s f `prefix_of` cleanups_of s' f.
Proof.
  intros H Hg. destruct (g_cleanups _ _ Hg) as [l El]. unfold cleanups_of. rewrite El, List.filter_app.
  rewrite (filter_ext_in _ (fun g => bool_decide (kind_of s' g = Some (KCleanup f))) (running_cleanups s)).
  - by apply prefix_app_r.
  - intros g Hin. by rewrite (kinds_stable s s') by (done || by apply list_elem_of_In).
Qed.

Lemma cleanups_not_lost s f g l : inv s -> cleanups_of s f = g :: l -> f ∉ lost s.
Proof.
  intros H E. apply (inv_cleaned _ H). apply list_elem_of_In, (count_occ_In Nat.eq_dec).
  rewrite <- cleanups_of_count, E by done. simpl. lia.
Qed.

(** The order of the stages, as a test. *)
Definition rank (a : stage) : nat :=
  match a with Absent => 0 | Running => 1 | Finished => 2 | Cleaning => 3 | Cleaned => 4 | Dropped => 5 end.
Definition leads (stop : bool) (a b : stage) : bool :=
  if decide (a = b) then true
  else if decide (b = Dropped) then stop && (rank a <=? 2) else negb (bool_decide (a = Dropped)) && (rank a <=? rank b).

#[local] Hint Constructors life rtc : core.

Lemma leads_life stop a b : leads stop a b = true -> rtc (life stop) a b.
Proof.
  unfold leads. case_decide as E1; [subst; constructor|]. case_decide as E2.
  - subst. intros [-> Ha]%andb_true_iff. destruct a; try done; eauto 8.
  - intros [_ Hr]%andb_true_iff. destruct a, b; try done; eauto 10.
Qed.

Lemma stage_leads s s' f : inv s -> inv s' -> grow s s' -> leads (stopping s') (stage_of s f) (stage_of s' f) = true.
Proof.
  intros H H' Hg. pose proof (cleanups_prefix s s' f H Hg) as [l Hl]. pose proof (cleanups_not_lost s f) as Hn.
  pose proof (cleanups_not_lost s' f) as Hn'.
  assert (is_run s f = true -> is_run s' f = true) as Hr
    by (unfold is_run; rewrite !bool_decide_eq_true; apply (g_kind _ _ Hg)).
  pose proof (g_done _ _ Hg) as Hd. pose proof (g_lost _ _ Hg f) as Hlo.
  assert (f ∈ lost s' -> stopping s' = true) as Hs.
  { intros Hf. unfold stopping. rewrite negb_true_iff, bool_decide_eq_false. intros Hp.
    rewrite (inv_phase _ H' Hp) in Hf. by apply not_elem_of_nil in Hf. }
  unfold stage_of. rewrite Hl in *.
  destruct (is_run s f); [rewrite Hr by done; cbn [negb]|].
  2: { repeat case_match; try done; cbn. case_bool_decide; [|done]. by rewrite Hs. }
  destruct (is_done s f) eqn:Ed; [rewrite (Hd f) by done; cbn [negb]|].
  2: { repeat case_match; try done; cbn; case_bool_decide; try done. by rewrite Hs. }
  repeat case_bool_decide; try tauto; try done.
  - destruct (cleanups_of s f) as [|g k]; [cbn; by rewrite Hs|]. exfalso. by eapply Hn'.
  - destruct (cleanups_of s f) as [|g k]; [by repeat case_match|]. cbn.
    destruct (is_done s g) eqn:Eg; [by rewrite Hd | by repeat case_match].
Qed.

(** C4: the event loop refines the life cycle: along any run from a reachable state, every object moves only along the
    stages of [life] (it is never started twice, gets its cleanup only after it finished and at most once, and is
    dropped only while the root stops), and when [Root.run] reaches [loop.stop()] every object that was started has
    finished and is cleaned up or dropped. *)
Theorem root_refines_life s s' f : reachable s -> rtc step s s' ->
  rtc (life (stopping s')) (stage_of s f) (stage_of s' f) /\
  (phase s' = PStopped -> stage_of s' f = Absent \/ stage_of s' f = Cleaned \/ stage_of s' f = Dropped).
Proof.
  intros Hs Hr. assert (reachable s') as (H' & Hw & Hp)%rinv_reachable by (unfold reachable in *; by etrans).
  destruct (grow_steps s s' Hr (inv_reachable s Hs)) as [_ Hg]. split.
  - apply leads_life, stage_leads; [by apply inv_reachable | done | done].
  - intros Hst. destruct (w_stopped _ Hp Hst) as [Ho Hc]. unfold stage_of.
    destruct (is_run s' f) eqn:Ef; [cbn | by left]. rewrite (all_done s' f) by done. cbn.
    case_bool_decide as Hlo; [by right; right|]. right; left.
    destruct (cleanups_of s' f) as [|g l] eqn:E.
    + exfalso. destruct (lifecycle s' f H' Ef) as [(Hd & _)|[(_ & _ & [Hk|?] & _)|[(_ & _ & _ & Hn)|(_ & _ & ? & _)]]]; try done.
      * rewrite (all_done s' f) in Hd by done. done.
      * rewrite Ho in Hk. by apply not_elem_of_nil in Hk.
      * by rewrite E in Hn.
    + rewrite Hc; [done|]. apply list_elem_of_In.
      apply (filter_In (fun g => bool_decide (kind_of s' g = Some (KCleanup f)))). unfold cleanups_of in E. rewrite E. by left.
Qed.

Definition mid_trace : list act := take 6 race_trace.
Definition mid_state : st := default init (execs mid_trace init).

Lemma mid_reachable : reachable mid_state.
Proof. apply (execs_reachable mid_trace). vm_compute. reflexivity. Qed.

Lemma execs_steps l s s' : execs l s = Some s' -> rtc step s s'.
Proof.
  revert s. induction l as [|a l IH]; simpl; intros s0; [intros [= ->]; constructor|].
  destruct (exec a s0) as [s1|] eqn:E; [|done]. intros. eapply rtc_l; [by eapply exec_step | auto].
Qed.

Lemma mid_to_race : rtc step mid_state race_state.
Proof. apply (execs_steps (drop 6 race_trace)). vm_compute. reflexivity. Qed.

Lemma root_refines_life_witness : stage_of mid_state 0 = Finished /\ stage_of mid_state 1 = Running /\
  rtc (life true) Finished Cleaned /\ rtc (life true) Running Dropped.
Proof.
  split_and!; [by vm_compute | by vm_compute | |].
  - pose proof (root_refines_life mid_state race_state 0 mid_reachable mid_to_race) as [H _]. vm_compute in H. exact H.
  - pose proof (root_refines_life mid_state race_state 1 mid_reachable mid_to_race) as [H _]. vm_compute in H. exact H.
Defined.
