(* ===== verification/RootLive.v ===== *)
(** * A stopping root is never stuck

    Who waits for whom in the event loop: [Root.run] and every task are suspended in an [asyncio.wait] call that is armed
    (each future it still waits for has its callback attached or queued) or about to resume.  So when no handle is ready,
    the chain of waits ends at a future that the environment can finish. *)

From S2P Require Import Prelude PyStr PyVal Root RootInv RootStop.

#[export] Instance owner_eq_dec : EqDecision owner. Proof. solve_decision. Defined.

(** The queue with the handle [x] that is being run in front of it. *)
Definition queued (x : list handle) (s : st) (h : handle) : Prop := h ∈ x ++ ready s.

(** A wait call that has not fired: for each future left, its callback is attached or queued; a task waits for futures
    that the environment finishes. *)
Definition armed (x : list handle) (s : st) (wid : nat) (w : wait_rec) : Prop :=
  w_left w <> [] /\ forall g, g ∈ w_left w -> exists r, futs s !! g = Some r /\
    ((f_done r = false /\ CbWait wid ∈ f_cbs r) \/ (f_done r = true /\ queued x s (HCb g (CbWait wid)))) /\
    (forall f, w_owner w = OwnTask f -> env_finishes r = true).

(** The owner of the call is suspended in it, or its resumption is queued. *)
Definition suspended (x : list handle) (s : st) (wid : nat) (o : owner) : Prop :=
  exists w, waits s !! wid = Some w /\ w_owner w = o /\ (w_fired w = false \/ queued x s (HWake wid)).

(** [x] is the handle being run; the task [e], if any, is in the middle of a step. *)
Record live (x : list handle) (e : option nat) (s : st) : Prop := {
  l_wait : forall wid w, waits s !! wid = Some w -> w_fired w = false -> armed x s wid w;
  l_main : forall wid, phase s = PWaitObjs wid \/ phase s = PWaitCleanups wid -> suspended x s wid OwnMain;
  l_task : forall f r, e <> Some f -> futs s !! f = Some r -> env_finishes r = false -> f_done r = false ->
    (f_started r = false /\ queued x s (HStep f)) \/
    (exists wid, cur_wait s !! f = Some wid /\ suspended x s wid (OwnTask f)) \/ queued x s (HCancel f);
  l_cur : forall f wid, cur_wait s !! f = Some wid -> exists w, waits s !! wid = Some w /\ w_owner w = OwnTask f;
  l_new : forall wid, next_w s <= wid -> waits s !! wid = None;
  l_fs : forall f g, g ∈ dict_keys (fs_of f s) -> exists r, futs s !! g = Some r /\ env_finishes r = true }.

(** ** Operations that keep it *)

Record keeps (s s' : st) : Prop := {
  k_ready : forall h, h ∈ ready s -> h ∈ ready s';
  k_waits : waits s' = waits s;
  k_cur : cur_wait s' = cur_wait s;
  k_phase : phase s' = phase s;
  k_next : next_w s' = next_w s;
  k_fs : task_fs s' = task_fs s;
  k_old : forall f r, futs s !! f = Some r -> exists r', futs s' !! f = Some r' /\ f_obj r' = f_obj r /\
    f_kind r' = f_kind r /\ f_started r' = f_started r /\ (f_done r = true -> f_done r' = true) /\
    forall wid, CbWait wid ∈ f_cbs r -> f_done r = false ->
      (f_done r' = false /\ CbWait wid ∈ f_cbs r') \/ (f_done r' = true /\ HCb f (CbWait wid) ∈ ready s');
  k_fresh : forall f r', futs s' !! f = Some r' -> futs s !! f = None -> f_started r' = false /\ HStep f ∈ ready s' }.

#[export] Instance keeps_refl : Reflexive keeps.
Proof. intros s. constructor; try done; [|congruence]. intros f r Hf. exists r. split_and!; auto. Qed.

#[export] Instance keeps_trans : Transitive keeps.
Proof.
  intros s1 s2 s3 K1 K2. constructor.
  - intros h Hh. by apply K2, K1.
  - by rewrite (k_waits _ _ K2), (k_waits _ _ K1).
  - by rewrite (k_cur _ _ K2), (k_cur _ _ K1).
  - by rewrite (k_phase _ _ K2), (k_phase _ _ K1).
  - by rewrite (k_next _ _ K2), (k_next _ _ K1).
  - by rewrite (k_fs _ _ K2), (k_fs _ _ K1).
  - intros f r Hf. destruct (k_old _ _ K1 f r Hf) as (r1 & Hf1 & Ho1 & Hk1 & Hs1 & Hd1 & Hc1).
    destruct (k_old _ _ K2 f r1 Hf1) as (r2 & Hf2 & Ho2 & Hk2 & Hs2 & Hd2 & Hc2).
    exists r2. split_and!; try congruence; [auto|]. intros wid Hin Hd.
    destruct (Hc1 wid Hin Hd) as [[Hd' Hin']|[Hd' Hq]]; [by apply Hc2|]. right. split; [auto|]. by apply K2.
  - intros f r3 Hf3 Hn. destruct (futs s2 !! f) as [r2|] eqn:Hf2.
    + destruct (k_fresh _ _ K1 f r2 Hf2 Hn) as [Hs2 Hq].
      destruct (k_old _ _ K2 f r2 Hf2) as (r3' & Hf3' & _ & _ & Hs3 & _). rewrite Hf3 in Hf3'. injection Hf3' as <-.
      split; [congruence | by apply K2].
    + by apply (k_fresh _ _ K2).
Qed.

Lemma queued_keeps x s s' h : keeps s s' -> queued x s h -> queued x s' h.
Proof. intros K. unfold queued. rewrite !elem_of_app. intros [?|?]; [by left|]. right. by apply K. Qed.

Lemma env_finishes_same r r' : f_obj r' = f_obj r -> f_kind r' = f_kind r -> env_finishes r' = env_finishes r.
Proof. unfold env_finishes. by intros -> ->. Qed.

Lemma armed_keeps x s s' wid w : keeps s s' -> armed x s wid w -> armed x s' wid w.
Proof.
  intros K [Hn Ha]. split; [done|]. intros g Hg. destruct (Ha g Hg) as (r & Hf & Hc & He).
  destruct (k_old _ _ K g r Hf) as (r' & Hf' & Ho & Hk & _ & Hd & Hcb). exists r'. split; [done|]. split.
  - destruct Hc as [[Hd0 Hin]|[Hd0 Hq]]; [|right; split; [auto | by eapply queued_keeps]].
    destruct (Hcb wid Hin Hd0) as [?|[? Hq]]; [by left|]. right. split; [done|]. unfold queued. rewrite elem_of_app. by right.
  - intros f Hf0. rewrite (env_finishes_same r r') by done. eauto.
Qed.

Lemma suspended_keeps x s s' wid o : keeps s s' -> suspended x s wid o -> suspended x s' wid o.
Proof.
  intros K (w & Hw & Ho & Hq). exists w. rewrite (k_waits _ _ K). split_and!; [done | done|].
  destruct Hq; [by left | right; by eapply queued_keeps].
Qed.

Lemma keeps_live x e s s' : keeps s s' -> live x e s -> live x e s'.
Proof.
  intros K L. constructor.
  - intros wid w. rewrite (k_waits _ _ K). intros Hw Hf. eapply armed_keeps; [done|]. by apply (l_wait _ _ _ L).
  - intros wid. rewrite (k_phase _ _ K). intros Hp. eapply suspended_keeps; [done|]. by apply (l_main _ _ _ L).
  - intros f r' He Hf' Hn Hd'. destruct (futs s !! f) as [r|] eqn:Hf.
    + destruct (k_old _ _ K f r Hf) as (r1 & Hf1 & Ho & Hk & Hs & Hd & _). rewrite Hf' in Hf1. injection Hf1 as <-.
      rewrite (env_finishes_same r r') in Hn by done.
      assert (f_done r = false) as Hd0 by (destruct (f_done r); [by rewrite Hd in Hd' | done]).
      rewrite Hs. destruct (l_task _ _ _ L f r He Hf Hn Hd0) as [[? Hq]|[(wid & Hc & Hsu)|Hq]].
      * left. split; [done | by eapply queued_keeps].
      * right; left. exists wid. rewrite (k_cur _ _ K). split; [done | by eapply suspended_keeps].
      * right; right. by eapply queued_keeps.
    + destruct (k_fresh _ _ K f r' Hf' Hf) as [-> Hq]. left. split; [done|]. unfold queued. rewrite elem_of_app. by right.
  - intros f wid. rewrite (k_cur _ _ K), (k_waits _ _ K). apply L.
  - intros wid. rewrite (k_next _ _ K), (k_waits _ _ K). apply L.
  - intros f g. unfold fs_of. rewrite (k_fs _ _ K). intros Hg. destruct (l_fs _ _ _ L f g Hg) as (r & Hf & He).
    destruct (k_old _ _ K g r Hf) as (r' & Hf' & Ho & Hk & _). exists r'. split; [done|]. by rewrite (env_finishes_same r r').
Qed.

(** The same futures. *)
Lemma keeps_futs s s' : (forall h, h ∈ ready s -> h ∈ ready s') -> waits s' = waits s -> cur_wait s' = cur_wait s ->
  phase s' = phase s -> next_w s' = next_w s -> task_fs s' = task_fs s -> futs s' = futs s -> keeps s s'.
Proof.
  intros Hr Hw Hc Hp Hn Ht Hf. constructor; try done; rewrite Hf; [|congruence].
  intros f r E. exists r. split_and!; auto.
Qed.

Lemma keeps_insert s s' f r r' : (forall h, h ∈ ready s -> h ∈ ready s') -> waits s' = waits s -> cur_wait s' = cur_wait s ->
  phase s' = phase s -> next_w s' = next_w s -> task_fs s' = task_fs s -> futs s' = <[f := r']> (futs s) ->
  futs s !! f = Some r -> f_obj r' = f_obj r -> f_kind r' = f_kind r -> f_started r' = f_started r ->
  (f_done r = true -> f_done r' = true) ->
  (forall wid, CbWait wid ∈ f_cbs r -> f_done r = false ->
     (f_done r' = false /\ CbWait wid ∈ f_cbs r') \/ (f_done r' = true /\ HCb f (CbWait wid) ∈ ready s')) -> keeps s s'.
Proof.
  intros Hr Hw Hc Hp Hn Ht Hf Ef Ho Hk Hs Hd Hcb. constructor; try done; rewrite Hf.
  - intros g rg Eg. destruct (decide (f = g)) as [<-|Hne].
    + rewrite Ef in Eg. injection Eg as <-. rewrite lookup_insert_eq. exists r'. split_and!; auto.
    + rewrite lookup_insert_ne by done. exists rg. split_and!; auto.
  - intros g rg. destruct (decide (f = g)) as [<-|Hne]; [congruence|]. rewrite lookup_insert_ne by done. congruence.
Qed.

Lemma keeps_add_fut s s' f r' : (forall h, h ∈ ready s -> h ∈ ready s') -> waits s' = waits s -> cur_wait s' = cur_wait s ->
  phase s' = phase s -> next_w s' = next_w s -> task_fs s' = task_fs s -> futs s' = <[f := r']> (futs s) ->
  futs s !! f = None -> f_started r' = false -> HStep f ∈ ready s' -> keeps s s'.
Proof.
  intros Hr Hw Hc Hp Hn Ht Hf Ef Hs Hq. constructor; try done; rewrite Hf.
  - intros g rg Eg. assert (f <> g) by congruence. rewrite lookup_insert_ne by done. exists rg. split_and!; auto.
  - intros g rg. destruct (decide (f = g)) as [<-|Hne].
    + rewrite lookup_insert_eq. by intros [= <-] _.
    + rewrite lookup_insert_ne by done. congruence.
Qed.

Lemma snoc_in {A} (l : list A) y x : x ∈ l -> x ∈ l ++ y.
Proof. rewrite elem_of_app. by left. Qed.

Lemma keeps_call_soon h s : keeps s (call_soon h s).
Proof. apply keeps_futs; try done. intros h'. apply snoc_in. Qed.

Lemma keeps_add_cb c s f : keeps s (add_cb c s f).
Proof.
  unfold add_cb. destruct (futs s !! f) as [r|] eqn:E; [|done]. destruct (f_done r) eqn:Hd; [apply keeps_call_soon|].
  eapply keeps_insert; try done; [by rewrite Hd|]. intros wid Hin _. left. split; [done|]. by apply snoc_in.
Qed.

Lemma keeps_complete f s : keeps s (complete f s).
Proof.
  unfold complete. destruct (futs s !! f) as [r|] eqn:E; [|done]. destruct (f_done r) eqn:Hd; [done|].
  eapply keeps_insert; try done; [intros h; apply snoc_in|]. intros wid Hin _. right. split; [done|].
  cbn. rewrite elem_of_app. right. by apply list_elem_of_fmap_2.
Qed.

Lemma keeps_set_cancel b f s : keeps s (set_cancel b f s).
Proof.
  unfold set_cancel. destruct (futs s !! f) as [r|] eqn:E; [|done]. eapply keeps_insert; try done. intros wid Hin Hd. by left.
Qed.

Lemma keeps_start_obj o s : futs s !! next s = None -> keeps s (start_obj o s).2.
Proof.
  intros Hn. eapply keeps_add_fut; try done; [intros h; apply snoc_in|]. cbn. rewrite elem_of_app. right. by apply list_elem_of_singleton.
Qed.

Lemma keeps_schedule_cleanup f s : futs s !! next s = None -> keeps s (schedule_cleanup f s).
Proof.
  intros Hn. unfold schedule_cleanup. case_match; [|by apply keeps_futs].
  eapply keeps_add_fut; try done; [intros h; apply snoc_in|]. cbn. rewrite elem_of_app. right. by apply list_elem_of_singleton.
Qed.

Lemma keeps_start_task o s : futs s !! next s = None -> keeps s (start_task o s).
Proof.
  intros Hn. unfold start_task. pose proof (keeps_start_obj o s Hn) as K. destruct (start_obj o s) as [f s']. cbn in K.
  etrans; [exact K|]. etrans; [|apply keeps_add_cb]. by apply keeps_futs.
Qed.

Lemma keeps_fold {A} (step : st -> A -> st) l s : (forall s x, keeps s (step s x)) -> keeps s (fold_left step l s).
Proof. intros H. revert s. induction l as [|x l IH]; intros s; simpl; [done|]. etrans; [apply H | apply IH]. Qed.

(** ** Suspending *)

(** Every future of the list has the callback after [wait] has added it. *)
Lemma add_cbs_armed wid fs g : forall s r, g ∈ fs -> futs s !! g = Some r ->
  exists r', futs (fold_left (add_cb (CbWait wid)) fs s) !! g = Some r' /\ f_obj r' = f_obj r /\ f_kind r' = f_kind r /\
    ((f_done r' = false /\ CbWait wid ∈ f_cbs r') \/
     (f_done r' = true /\ HCb g (CbWait wid) ∈ ready (fold_left (add_cb (CbWait wid)) fs s))).
Proof.
  assert (forall fs s r, futs s !! g = Some r ->
    ((f_done r = false /\ CbWait wid ∈ f_cbs r) \/ (f_done r = true /\ HCb g (CbWait wid) ∈ ready s)) ->
    let s' := fold_left (add_cb (CbWait wid)) fs s in
    exists r', futs s' !! g = Some r' /\ f_obj r' = f_obj r /\ f_kind r' = f_kind r /\
      ((f_done r' = false /\ CbWait wid ∈ f_cbs r') \/ (f_done r' = true /\ HCb g (CbWait wid) ∈ ready s'))) as Hkeep.
  { intros fs' s r Hf Hc s'. assert (keeps s s') as K by (apply keeps_fold; intros; apply keeps_add_cb).
    destruct (k_old _ _ K g r Hf) as (r' & Hf' & Ho & Hk & _ & Hd & Hcb). exists r'. split_and!; try done.
    destruct Hc as [[Hd0 Hin]|[Hd0 Hq]]; [by apply Hcb | right; split; [auto | by apply K]]. }
  induction fs as [|f fs IH]; intros s r Hin Hf; [by apply not_elem_of_nil in Hin|]. cbn [fold_left].
  apply elem_of_cons in Hin as [<-|Hin].
  - assert (exists r1, futs (add_cb (CbWait wid) s g) !! g = Some r1 /\ f_obj r1 = f_obj r /\ f_kind r1 = f_kind r /\
      ((f_done r1 = false /\ CbWait wid ∈ f_cbs r1) \/ (f_done r1 = true /\ HCb g (CbWait wid) ∈ ready (add_cb (CbWait wid) s g))))
      as (r1 & Hf1 & Ho1 & Hk1 & Hc1).
    { unfold add_cb. rewrite Hf. destruct (f_done r) eqn:Hd.
      - exists r. split_and!; try done. right. split; [done|]. cbn. rewrite elem_of_app. right. by apply list_elem_of_singleton.
      - eexists. cbn. rewrite lookup_insert_eq. split_and!; try done. left. split; [done|]. cbn.
        rewrite elem_of_app. right. by apply list_elem_of_singleton. }
    destruct (Hkeep fs _ r1 Hf1 Hc1) as (r' & ? & ? & ? & ?). exists r'. split_and!; congruence || done.
  - destruct (k_old _ _ (keeps_add_cb (CbWait wid) s f) g r Hf) as (r1 & Hf1 & Ho1 & Hk1 & _).
    destruct (IH _ r1 Hin Hf1) as (r' & ? & ? & ? & ?). exists r'. split_and!; congruence || done.
Qed.

Lemma old_of_add_cbs wid fs : forall s f r', futs (fold_left (add_cb (CbWait wid)) fs s) !! f = Some r' ->
  exists r, futs s !! f = Some r /\ f_obj r' = f_obj r /\ f_kind r' = f_kind r /\ f_started r' = f_started r /\
    f_done r = f_done r'.
Proof.
  induction fs as [|g fs IH]; intros s f r'; cbn [fold_left]; [eauto 10|].
  intros (r1 & Hf1 & Ho1 & Hk1 & Hs1 & Hd1)%IH. revert Hf1. unfold add_cb. destruct (futs s !! g) as [rg|] eqn:Eg; [|eauto 10].
  destruct (f_done rg) eqn:Edg; [eauto 10|]. cbn. destruct (decide (g = f)) as [->|].
  - rewrite lookup_insert_eq. intros [= <-]. exists rg. cbn in *. split_and!; congruence.
  - rewrite lookup_insert_ne by done. eauto 10.
Qed.

(** What the task in the middle of a step was is settled by suspending it. *)
Definition settled (o : owner) (e : option nat) : option nat :=
  match o with OwnMain => e | OwnTask f => if decide (e = Some f) then None else e end.

Lemma live_suspend x e o all fs s p : live x e s -> fs <> [] ->
  (forall g, g ∈ fs -> exists r, futs s !! g = Some r /\ forall f, o = OwnTask f -> env_finishes r = true) ->
  match o with OwnMain => p = PWaitObjs (next_w s) \/ p = PWaitCleanups (next_w s) | OwnTask _ => p = phase s end ->
  live x (settled o e) (wait o all fs (with_phase p s)).
Proof.
  intros L Hne Hfs Hp. unfold wait. cbn [next_w with_phase]. set (wid := next_w s). set (s1 := St _ _ _ _ _ _ _ _ _ _ _ _ _ _ _).
  set (s2 := fold_left _ _ _). assert (keeps s1 s2) as K by (apply keeps_fold; intros; apply keeps_add_cb).
  assert (waits s !! wid = None) as Hfr by (by apply (l_new _ _ _ L)).
  assert (forall wid0 w, armed x s wid0 w -> armed x s2 wid0 w) as Harm.
  { intros wid0 w Ha. apply (armed_keeps x s1 s2); [exact K | exact Ha]. }
  assert (forall wid0 o0, suspended x s wid0 o0 -> suspended x s2 wid0 o0) as Hsus.
  { intros wid0 o0 (w & Hw & Ho & Hq). apply (suspended_keeps x s1 s2); [exact K|]. exists w.
    assert (wid <> wid0) by congruence. cbn. rewrite lookup_insert_ne by done. split_and!; [done | done | exact Hq]. }
  assert (suspended x s2 wid o) as Hown.
  { apply (suspended_keeps x s1 s2); [exact K|]. eexists. cbn. rewrite lookup_insert_eq. split_and!; try done. by left. }
  constructor.
  - intros wid0 w. rewrite (k_waits _ _ K). cbn. destruct (decide (wid = wid0)) as [<-|].
    + rewrite lookup_insert_eq. intros [= <-] _. split; [done|]. cbn. intros g Hg. destruct (Hfs g Hg) as (r & Hr & He).
      destruct (add_cbs_armed wid fs g s1 r Hg Hr) as (r' & Hr' & Ho & Hk & Hc). exists r'. split; [done|]. split.
      * destruct Hc as [?|[? Hq]]; [by left|]. right. split; [done|]. unfold queued. rewrite elem_of_app. by right.
      * intros f Ef. rewrite (env_finishes_same r r') by done. eauto.
    + rewrite lookup_insert_ne by done. intros Hw Hf. apply Harm. by apply (l_wait _ _ _ L).
  - intros wid0. rewrite (k_phase _ _ K). cbn. destruct o as [|f].
    + intros Hph. assert (wid0 = wid) as -> by (unfold wid; destruct Hp, Hph; congruence). exact Hown.
    + subst p. intros Hph. apply Hsus. by apply (l_main _ _ _ L).
  - intros f r' He Hf' Hn Hd'.
    destruct (old_of_add_cbs wid fs s1 f r' Hf') as (r & Hf & Ho & Hk & Hs & Hd).
    rewrite Hs. rewrite (env_finishes_same r r') in Hn by done. rewrite (k_cur _ _ K). cbn. destruct (decide (o = OwnTask f)) as [->|Hof].
    + right; left. exists wid. rewrite lookup_insert_eq. split; [done | exact Hown].
    + assert (e <> Some f) as He' by (destruct o as [|g]; [done|]; cbn in He; case_decide; congruence).
      destruct (l_task _ _ _ L f r He' Hf Hn) as [[? Hq]|[(wid0 & Hc & Hsu)|Hq]]; [congruence| | |].
      * left. split; [done|]. by apply (queued_keeps x s1 s2).
      * right; left. exists wid0. split; [|by apply Hsus]. destruct o as [|g]; [done|]. rewrite lookup_insert_ne; congruence.
      * right; right. by apply (queued_keeps x s1 s2).
  - intros f wid0. rewrite (k_cur _ _ K), (k_waits _ _ K). cbn. intros Hc.
    assert ((exists w, waits s !! wid0 = Some w /\ w_owner w = OwnTask f) \/ (wid0 = wid /\ o = OwnTask f)) as [(w & Hw & Ho)|[-> ->]].
    { destruct o as [|g]; [left; by apply L|]. destruct (decide (g = f)) as [->|].
      - rewrite lookup_insert_eq in Hc. injection Hc as <-. by right.
      - rewrite lookup_insert_ne in Hc by done. left. by apply L. }
    + assert (wid <> wid0) by congruence. rewrite lookup_insert_ne by done. eauto.
    + rewrite lookup_insert_eq. eauto.
  - intros wid0. rewrite (k_next _ _ K), (k_waits _ _ K). cbn. intros Hle. assert (wid <> wid0) by lia.
    rewrite lookup_insert_ne by done. apply (l_new _ _ _ L). unfold wid in *. lia.
  - intros f g. unfold fs_of. rewrite (k_fs _ _ K). intros Hg. destruct (l_fs _ _ _ L f g Hg) as (r & Hf & He).
    destruct (k_old _ _ K g r Hf) as (r' & Hf' & Ho & Hk & _). exists r'. split; [done|]. by rewrite (env_finishes_same r r').
Qed.

(** ** The handle being run *)

(** Nobody counts on the handle any more. *)
Record spent (h : handle) (e : option nat) (s : st) : Prop := {
  sp_cb : forall wid g w, h = HCb g (CbWait wid) -> waits s !! wid = Some w -> w_fired w = false -> g ∉ w_left w;
  sp_main : forall wid w, h = HWake wid -> waits s !! wid = Some w -> w_owner w = OwnMain -> w_fired w = true ->
    phase s <> PWaitObjs wid /\ phase s <> PWaitCleanups wid;
  sp_task : forall wid w f r, h = HWake wid -> waits s !! wid = Some w -> w_owner w = OwnTask f -> w_fired w = true ->
    cur_wait s !! f = Some wid -> e = Some f \/ (futs s !! f = Some r -> f_done r = true);
  sp_step : forall f r, h = HStep f -> futs s !! f = Some r -> env_finishes r = false -> f_done r = false ->
    f_started r = false -> e = Some f;
  sp_cancel : forall f r, h = HCancel f -> futs s !! f = Some r -> f_done r = false -> e = Some f }.

Lemma queued_cons h s k : queued [h] s k -> k <> h -> queued [] s k.
Proof. unfold queued. cbn. rewrite elem_of_cons. intros [?|?] ?; done. Qed.

Lemma live_spent h e s : live [h] e s -> spent h e s -> live [] e s.
Proof.
  intros L S. constructor.
  - intros wid w Hw Hf. destruct (l_wait _ _ _ L wid w Hw Hf) as [Hn Ha]. split; [done|]. intros g Hg.
    destruct (Ha g Hg) as (r & Hr & Hc & He). exists r. split_and!; [done| |done].
    destruct Hc as [?|[? Hq]]; [by left|]. right. split; [done|]. apply (queued_cons h); [done|].
    intros E. by apply (sp_cb _ _ _ S wid g w (eq_sym E) Hw Hf).
  - intros wid Hp. destruct (l_main _ _ _ L wid Hp) as (w & Hw & Ho & Hq). exists w. split_and!; [done | done|].
    destruct (w_fired w) eqn:Ef; [|by left]. destruct Hq as [?|Hq]; [done|]. right. apply (queued_cons h); [done|].
    intros E. destruct (sp_main _ _ _ S wid w (eq_sym E) Hw Ho Ef). naive_solver.
  - intros f r He Hf Hn Hd. destruct (l_task _ _ _ L f r He Hf Hn Hd) as [[Hs Hq]|[(wid & Hc & w & Hw & Ho & Hq)|Hq]].
    + left. split; [done|]. apply (queued_cons h); [done|]. intros E. destruct He. by apply (sp_step _ _ _ S f r).
    + right; left. exists wid. split; [done|]. exists w. split_and!; [done | done|]. destruct (w_fired w) eqn:Ef; [|by left].
      destruct Hq as [?|Hq]; [done|]. right. apply (queued_cons h); [done|]. intros E.
      destruct (sp_task _ _ _ S wid w f r (eq_sym E) Hw Ho Ef Hc) as [?|Hd']; [done|]. specialize (Hd' Hf). congruence.
    + right; right. apply (queued_cons h); [done|]. intros E. destruct He. by apply (sp_cancel _ _ _ S f r).
  - apply L.
  - apply L.
  - apply L.
Qed.

Lemma live_pop s h rest : live [] None s -> ready s = h :: rest -> live [h] None (with_ready rest s).
Proof.
  intros L E. assert (forall k, queued [] s k -> queued [h] (with_ready rest s) k) as Hq.
  { intros k. unfold queued. cbn. by rewrite E. }
  constructor.
  - intros wid w Hw Hf. destruct (l_wait _ _ _ L wid w Hw Hf) as [Hn Ha]. split; [done|]. intros g Hg.
    destruct (Ha g Hg) as (r & Hr & Hc & He). exists r. split_and!; [done| |done]. destruct Hc as [?|[? ?]]; auto.
  - intros wid Hp. destruct (l_main _ _ _ L wid Hp) as (w & Hw & Ho & Hf). exists w. split_and!; [done | done|]. destruct Hf; auto.
  - intros f r He Hf Hn Hd. destruct (l_task _ _ _ L f r He Hf Hn Hd) as [[Hs ?]|[(wid & Hc & w & Hw & Ho & Hf')|?]]; auto.
    right; left. exists wid. split; [done|]. exists w. split_and!; [done | done|]. destruct Hf'; auto.
  - apply L.
  - apply L.
  - apply L.
Qed.

(** A task may be taken to be in the middle of a step, and one that is done is not. *)
Lemma live_except x f s : live x None s -> live x (Some f) s.
Proof. intros []. constructor; auto. Qed.

Lemma live_done x f s : live x (Some f) s ->
  (forall r, futs s !! f = Some r -> env_finishes r = true \/ f_done r = true) -> live x None s.
Proof.
  intros L Hd. constructor; try apply L. intros g r _ Hg Hn Hgd. destruct (decide (f = g)) as [<-|].
  - destruct (Hd r Hg); congruence.
  - apply (l_task _ _ _ L); [congruence | done..].
Qed.

Lemma live_task_loop x f s : live x (Some f) s -> live x None (task_loop f s).
Proof.
  intros L. unfold task_loop. destruct (dict_keys (fs_of f s)) as [|g gs] eqn:E.
  - apply (live_done x f); [eapply keeps_live; [apply keeps_complete | done]|]. intros r. unfold complete.
    destruct (futs s !! f) as [r0|] eqn:Ef; [|congruence]. destruct (f_done r0) eqn:Ed; [intros ?; right; congruence|]. cbn.
    rewrite lookup_insert_eq. intros [= <-]. by right.
  - pose proof (live_suspend x (Some f) (OwnTask f) false (g :: gs) s (phase s) L) as Hl. cbn [settled] in Hl.
    rewrite decide_True in Hl by done. replace (with_phase (phase s) s) with s in Hl by (by destruct s).
    apply Hl; [done| |done]. intros g' Hg'. rewrite <- E in Hg'. destruct (l_fs _ _ _ L f g' Hg') as (r & Hr & He). eauto.
Qed.

(** ** The other operations *)

(** A wait call fires by a cancellation: its task resumes with the exception. *)
Lemma live_fire x e s wid w f : live x e s -> waits s !! wid = Some w -> w_owner w = OwnTask f ->
  live x e (call_soon (HCancel f)
    (with_waits (<[wid := Wait (w_fs w) (w_left w) (w_all w) true (w_owner w)]> (waits s)) s)).
Proof.
  intros L Hw Ho. set (s' := call_soon _ _).
  assert (forall k, queued x s k -> queued x s' k) as Hq.
  { intros k. unfold queued, s'. cbn. rewrite !elem_of_app. naive_solver. }
  assert (forall wid0 o0, suspended x s wid0 o0 -> wid0 <> wid -> suspended x s' wid0 o0) as Hsus.
  { intros wid0 o0 (w0 & Hw0 & Ho0 & Hf0) Hne. exists w0. unfold s'. cbn. rewrite lookup_insert_ne by done.
    split_and!; [done | done|]. destruct Hf0; auto. }
  constructor.
  - intros wid0 w0. unfold s' at 1. cbn. destruct (decide (wid = wid0)) as [<-|]; [rewrite lookup_insert_eq; by intros [= <-]|].
    rewrite lookup_insert_ne by done. intros Hw0 Hf0. destruct (l_wait _ _ _ L wid0 w0 Hw0 Hf0) as [Hn Ha]. split; [done|].
    intros g Hg. destruct (Ha g Hg) as (r & Hr & Hc & He). exists r. split_and!; [done| |done]. destruct Hc as [?|[? ?]]; auto.
  - intros wid0 Hp. destruct (l_main _ _ _ L wid0 Hp) as (w0 & Hw0 & Ho0 & Hf0). apply Hsus; [by exists w0|]. congruence.
  - intros g r He Hg Hn Hd. destruct (l_task _ _ _ L g r He Hg Hn Hd) as [[Hs ?]|[(wid0 & Hc & Hsu)|?]]; auto.
    destruct (decide (wid0 = wid)) as [->|]; [|right; left; exists wid0; split; [done | by apply Hsus]].
    destruct Hsu as (w0 & Hw0 & Ho0 & _). assert (g = f) as -> by congruence. right; right.
    unfold queued, s'. cbn. rewrite !elem_of_app, list_elem_of_singleton. auto.
  - intros g wid0 Hc. destruct (l_cur _ _ _ L g wid0 Hc) as (w0 & Hw0 & Ho0). unfold s'. cbn.
    destruct (decide (wid = wid0)) as [<-|]; [rewrite lookup_insert_eq; eexists; split; [done|]; cbn; congruence|].
    rewrite lookup_insert_ne by done. eauto.
  - intros wid0 Hle. unfold s'. cbn. pose proof (l_new _ _ _ L wid0 Hle). rewrite lookup_insert_ne by congruence. done.
  - apply L.
Qed.

Lemma live_cancel x e f s : live x e s -> live x e (cancel f s).
Proof.
  intros L. unfold cancel. destruct (futs s !! f) as [r|]; [|done]. destruct (f_done r); [done|].
  destruct (f_obj r), (f_kind r); try done. pose proof (keeps_live x e s _ (keeps_set_cancel true f s) L) as L1.
  destruct (cur_wait (set_cancel true f s) !! f) as [wid|] eqn:Ec; [|done].
  destruct (waits (set_cancel true f s) !! wid) as [w|] eqn:Ew; [|done]. destruct (w_fired w); [done|].
  apply live_fire; [done | done|]. destruct (l_cur _ _ _ L1 f wid Ec) as (w' & Hw' & Ho). congruence.
Qed.

Lemma live_fold {A} x e (step : st -> A -> st) l s : (forall s a, live x e s -> live x e (step s a)) ->
  live x e s -> live x e (fold_left step l s).
Proof. intros H. revert s. induction l as [|a l IH]; intros s L; simpl; auto. Qed.

Lemma live_task_cancelled x f s : live x (Some f) s -> live x None (task_cancelled f s).
Proof.
  intros L. unfold task_cancelled. apply live_task_loop, live_fold; [intros; by apply live_cancel|].
  eapply keeps_live; [apply keeps_set_cancel | done].
Qed.

(** A future of which only the callbacks of fired calls, or the start of the task in its step, change. *)
Lemma live_set_fut x e s f r r' : live x e s -> futs s !! f = Some r -> f_obj r' = f_obj r -> f_kind r' = f_kind r ->
  f_done r' = f_done r -> (e = Some f \/ f_started r' = f_started r) ->
  (forall wid w, waits s !! wid = Some w -> w_fired w = false -> CbWait wid ∈ f_cbs r -> CbWait wid ∈ f_cbs r') ->
  live x e (with_futs (<[f := r']> (futs s)) s).
Proof.
  intros L Hf Ho Hk Hd Hs Hc. constructor; try apply L.
  - intros wid w Hw Hfi. destruct (l_wait _ _ _ L wid w Hw Hfi) as [Hn Ha]. split; [done|]. intros g Hg.
    destruct (Ha g Hg) as (rg & Hrg & Hcb & He). cbn. destruct (decide (f = g)) as [<-|].
    + rewrite lookup_insert_eq. exists r'. rewrite Hf in Hrg. injection Hrg as <-. split; [done|]. rewrite Hd. split.
      * destruct Hcb as [[? ?]|?]; [left; eauto | by right].
      * intros h Hh. rewrite (env_finishes_same r r') by done. eauto.
    + rewrite lookup_insert_ne by done. eauto.
  - intros g rg He. cbn. destruct (decide (f = g)) as [<-|].
    + rewrite lookup_insert_eq. intros [= <-] Hn Hgd. destruct Hs as [?|Hs]; [done|].
      rewrite Hs. apply (l_task _ _ _ L f r); try done; [by rewrite <- (env_finishes_same r r') | congruence].
    + rewrite lookup_insert_ne by done. by apply L.
  - intros h g Hg. destruct (l_fs _ _ _ L h g Hg) as (rg & Hrg & He). cbn. destruct (decide (f = g)) as [<-|].
    + rewrite lookup_insert_eq. exists r'. split; [done|]. rewrite (env_finishes_same r r') by done. congruence.
    + rewrite lookup_insert_ne by done. eauto.
Qed.

Lemma live_collect x e wid w s : live x e s -> waits s !! wid = Some w -> w_fired w = true -> live x e (collect wid w s).2.
Proof.
  intros L Hw Hf. unfold collect. cbn.
  cut (forall fs s, live x e s -> waits s !! wid = Some w -> live x e (fold_left (remove_cb (CbWait wid)) fs s)); [auto|].
  clear s L Hw. induction fs as [|g fs IH]; intros s L Hw; cbn [fold_left]; [done|]. unfold remove_cb at 2.
  destruct (futs s !! g) as [r|] eqn:Eg; [|by apply IH]. apply IH; [|done].
  eapply live_set_fut; try done; [by right|]. cbn. intros wid0 w0 Hw0 Hf0 Hin. apply list_elem_of_In, filter_In.
  split; [by apply list_elem_of_In|]. rewrite bool_decide_false; [done|]. intros [= ->]. congruence.
Qed.

(** The callback of a wait call: the future is not waited for any more; the last one that is needed fires the call. *)
Lemma live_on_completion wid f s : live [HCb f (CbWait wid)] None s -> live [] None (on_completion wid f s).
Proof.
  intros L. unfold on_completion. destruct (waits s !! wid) as [w|] eqn:Hw.
  2:{ apply (live_spent _ _ _ L). constructor; try done. intros wid0 g w [= -> ->]. congruence. }
  set (left := List.filter _ _). set (fire := negb (w_fired w) && _).
  set (w' := Wait (w_fs w) left (w_all w) (w_fired w || fire) (w_owner w)). set (s1 := with_waits _ _).
  set (s' := if fire then _ else _).
  assert (forall k, queued [HCb f (CbWait wid)] s k -> k <> HCb f (CbWait wid) -> queued [] s' k) as Hq.
  { intros k Hk Hne. apply queued_cons in Hk; [|done]. unfold queued, s' in *. cbn in *. destruct fire; cbn; [by apply snoc_in | done]. }
  assert (waits s' = <[wid := w']> (waits s) /\ futs s' = futs s /\ phase s' = phase s /\ cur_wait s' = cur_wait s /\
    next_w s' = next_w s /\ task_fs s' = task_fs s) as (Ew & Ef & Ep & Ec & En & Et) by (unfold s'; by destruct fire).
  assert (forall wid0 o, suspended [HCb f (CbWait wid)] s wid0 o -> suspended [] s' wid0 o) as Hsus.
  { intros wid0 o (w0 & Hw0 & Ho & Hf0). unfold suspended. rewrite Ew. destruct (decide (wid = wid0)) as [<-|].
    - rewrite lookup_insert_eq. exists w'. rewrite Hw in Hw0. injection Hw0 as <-. split_and!; [done | done|]. cbn.
      destruct fire eqn:Efi; [|rewrite orb_false_r; destruct Hf0; [by left | right; by apply Hq]].
      right. unfold queued, s'. cbn. rewrite elem_of_app. right. by apply list_elem_of_singleton.
    - rewrite lookup_insert_ne by done. exists w0. split_and!; [done | done|]. destruct Hf0; [by left | right; by apply Hq]. }
  constructor.
  - intros wid0 w0. rewrite Ew. destruct (decide (wid = wid0)) as [<-|Hne].
    + rewrite lookup_insert_eq. intros [= <-] Hf0. cbn in Hf0. apply orb_false_iff in Hf0 as [Hf0 Hfire].
      destruct (l_wait _ _ _ L wid w Hw Hf0) as [Hn Ha]. unfold fire in Hfire. rewrite Hf0 in Hfire. cbn in Hfire.
      apply orb_false_iff in Hfire as [_ Hfire%bool_decide_eq_false]. split; [exact Hfire|]. cbn. intros g Hg.
      apply list_elem_of_In, filter_In in Hg as [Hg%list_elem_of_In Hgf%negb_true_iff%Nat.eqb_neq].
      rewrite Ef. destruct (Ha g Hg) as (r & Hr & Hc & He). exists r. split_and!; [done| |done].
      destruct Hc as [?|[? Hk]]; [by left|]. right. split; [done|]. apply Hq; [done|]. congruence.
    + rewrite lookup_insert_ne by done. intros Hw0 Hf0. destruct (l_wait _ _ _ L wid0 w0 Hw0 Hf0) as [Hn Ha]. split; [done|].
      intros g Hg. rewrite Ef. destruct (Ha g Hg) as (r & Hr & Hc & He). exists r. split_and!; [done| |done].
      destruct Hc as [?|[? Hk]]; [by left|]. right. split; [done|]. apply Hq; [done|]. congruence.
  - intros wid0. rewrite Ep. intros Hp. apply Hsus. by apply (l_main _ _ _ L).
  - intros g r He. rewrite Ef, Ec. intros Hg Hn Hd.
    destruct (l_task _ _ _ L g r He Hg Hn Hd) as [[Hs Hk]|[(wid0 & Hc & Hsu)|Hk]].
    + left. split; [done|]. by apply Hq.
    + right; left. eauto.
    + right; right. by apply Hq.
  - intros g wid0. rewrite Ec, Ew. intros Hc. destruct (l_cur _ _ _ L g wid0 Hc) as (w0 & Hw0 & Ho).
    destruct (decide (wid = wid0)) as [<-|]; [rewrite lookup_insert_eq; exists w'; split; [done|]; cbn; congruence|].
    rewrite lookup_insert_ne by done. eauto.
  - intros wid0. rewrite En, Ew. intros Hle. pose proof (l_new _ _ _ L wid0 Hle). by rewrite lookup_insert_ne by congruence.
  - intros h g. unfold fs_of. rewrite Et, Ef. apply (l_fs _ _ _ L h g).
Qed.

(** [Root.run] goes on waiting, or ends. *)
Lemma live_main_loop x e s : live x e s -> inv s -> live x e (main_loop s).
Proof.
  intros L H. unfold main_loop. destruct (dict_keys (running_objects s)) as [|f fs] eqn:Ek.
  - destruct (running_cleanups s) as [|c cs] eqn:Ec.
    + constructor; try apply L. by intros wid [?|?].
    + apply (live_suspend x e OwnMain true (c :: cs) s (PWaitCleanups (next_w s)) L); [done| |by right].
      intros g Hg. rewrite <- Ec in Hg. pose proof (list_elem_of_fmap_2 (kind_of s) _ _ Hg) as Hk.
      rewrite (inv_cleanups _ H) in Hk. apply list_elem_of_fmap in Hk as (k & Hk & _). unfold kind_of in Hk.
      destruct (futs s !! g) as [r|]; [|done]. by exists r.
  - apply (live_suspend x e OwnMain false (f :: fs) s (PWaitObjs (next_w s)) L); [done| |by left].
    intros g Hg. rewrite <- Ek in Hg. apply (inv_running _ H) in Hg as (Hr & _). apply is_run_Some in Hr as (r & Hr & _). by exists r.
Qed.

Lemma phase_main_loop_next s wid : phase (main_loop s) = PWaitObjs wid \/ phase (main_loop s) = PWaitCleanups wid -> wid = next_w s.
Proof. unfold main_loop. repeat case_match; rewrite ?phase_wait; cbn; naive_solver. Qed.

Lemma waits_main_loop s wid : wid <> next_w s -> waits (main_loop s) !! wid = waits s !! wid.
Proof.
  intros Hne. unfold main_loop. repeat case_match; try done;
    (rewrite (proj1 (wait_obs _ _ _ _)); cbn; by rewrite decide_False by congruence).
Qed.

(** [Task.run] starts its jobs. *)
Lemma live_start_jobs x f jobs : forall s, live x (Some f) s -> inv s -> live x (Some f) (start_jobs f jobs s).
Proof.
  induction jobs as [|n jobs IH]; intros s L H; [done|]. unfold start_jobs. cbn [fold_left]. apply IH.
  - assert (futs s !! next s = None) as Hf by (by apply (inv_fresh _ H)).
    pose proof (keeps_live x (Some f) s _ (keeps_start_obj (OJob n) s Hf) L) as L1. cbn [start_obj] in L1 |- *.
    constructor; try apply L1. intros h g. unfold fs_of at 1. cbn [task_fs with_jobs_of with_task_fs].
    destruct (decide (f = h)) as [<-|]; [|rewrite lookup_insert_ne by done; apply (l_fs _ _ _ L1 h g)].
    rewrite lookup_insert_eq. cbn [from_option id]. rewrite dict_keys_set. intros Hg.
    assert (g ∈ dict_keys (fs_of f (start_obj (OJob n) s).2) \/ g = next s) as [Hg'| ->].
    { case_decide; [by left|]. apply elem_of_app in Hg as [?|Hg]; [by left | right; by apply list_elem_of_singleton]. }
    + apply (l_fs _ _ _ L1 f g Hg').
    + eexists. cbn. rewrite lookup_insert_eq. done.
  - pose proof (inv_start_obj (OJob n) s H). by apply (inv_same (start_obj (OJob n) s).2).
Qed.

Lemma live_first_step f s : live [HStep f] None s -> inv s -> live [] None (first_step f s).
Proof.
  intros L H. unfold first_step. destruct (futs s !! f) as [r|] eqn:Ef.
  2:{ apply (live_spent _ _ _ L). constructor; try done. intros g r [= ->]. congruence. }
  destruct (f_started r || f_done r) eqn:Esd.
  { apply (live_spent _ _ _ L). constructor; try done. intros g r' [= ->] Hg _ Hd Hs. rewrite Ef in Hg. injection Hg as <-.
    by rewrite Hs, Hd in Esd. }
  assert (live [] (Some f) (set_started f s)) as L1.
  { apply (live_spent (HStep f)); [|by constructor; congruence]. unfold set_started. rewrite Ef.
    eapply live_set_fut; [by apply live_except | done..| by left | done]. }
  assert (inv (set_started f s)) as H1 by inv_same.
  assert (futs (set_started f s) !! f = Some (Fut (f_obj r) (f_kind r) true (f_done r) (f_cancel r) (f_cbs r))) as Ef1.
  { unfold set_started. rewrite Ef. cbn. by rewrite lookup_insert_eq. }
  destruct (f_obj r) as [k|k jobs|k] eqn:Eo; [|destruct (f_kind r) eqn:Ek|].
  - apply (live_done [] f); [done|]. rewrite Ef1. intros r' [= <-]. by left.
  - destruct (f_cancel r); [|apply live_task_loop; by apply live_start_jobs].
    apply (live_done [] f); [eapply keeps_live; [apply keeps_complete | done]|]. unfold complete. rewrite Ef1. cbn [f_done].
    apply orb_false_iff in Esd as [_ ->]. cbn. rewrite lookup_insert_eq. intros r' [= <-]. by right.
  - apply (live_done [] f); [done|]. rewrite Ef1. intros r' [= <-]. by left.
  - apply (live_done [] f); [done|]. rewrite Ef1. intros r' [= <-]. by left.
Qed.

Lemma delete_done_keys {V} done (d : list (nat * V)) f : f ∈ dict_keys (delete_done done d) -> f ∈ dict_keys d.
Proof.
  unfold delete_done. revert d. induction done as [|g done IH]; intros d; cbn [fold_left]; [done|].
  intros Hf%IH. unfold dict_keys in *. eapply sublist_subseteq; [|exact Hf]. apply fmap_sublist, dict_del_sublist.
Qed.

(** The coroutine of a wait call resumes. *)
Lemma live_wake wid w s : live [HWake wid] None s -> inv s -> waits s !! wid = Some w -> w_fired w = true ->
  live [] None (wake wid s).
Proof.
  intros L H Hw Hf. unfold wake. rewrite Hw. pose proof (live_collect _ _ _ _ _ L Hw Hf) as Lc.
  pose proof (inv_collect wid w s H) as Hc. pose proof (collect_done wid w s) as Hd.
  assert (keeps_waits : waits (collect wid w s).2 = waits s /\ cur_wait (collect wid w s).2 = cur_wait s /\
    phase (collect wid w s).2 = phase s /\ next_w (collect wid w s).2 = next_w s).
  { destruct (mild_collect wid w s). by split_and!. }
  destruct (collect wid w s) as [done s1]; cbn [fst snd] in *. destruct keeps_waits as (Ew & Ecw & Ep & En).
  destruct (w_owner w) as [|f] eqn:Ho.
  - assert (phase s1 <> PWaitObjs wid -> phase s1 <> PWaitCleanups wid -> live [] None s1) as Hother.
    { intros Hp1 Hp2. apply (live_spent (HWake wid)); [done|]. constructor; try done.
      - intros wid0 w0 [= <-]. by split.
      - intros wid0 w0 g r [= <-]. rewrite Ew. congruence. }
    unfold main_wake. destruct (phase s1) as [|wid'|wid'|] eqn:Hp; try (by apply Hother); case_decide as E; subst.
    + apply (live_spent (HWake wid')).
      * apply live_main_loop; [apply (keeps_live _ _ s1); [by apply keeps_futs | done]|]. apply inv_drop; [done | congruence | exact Hd].
      * assert (next_w s1 <> wid') as Hne.
        { intros <-. rewrite En in Hw. by rewrite (l_new _ _ _ L) in Hw. }
        constructor; try done.
        -- intros wid0 w0 [= <-] _ _ _. split; intros Hph; apply Hne; symmetry.
           ++ exact (phase_main_loop_next _ wid' (or_introl Hph)).
           ++ exact (phase_main_loop_next _ wid' (or_intror Hph)).
        -- intros wid0 w0 g r [= <-]. rewrite waits_main_loop by (cbn; congruence). cbn. rewrite Ew. congruence.
    + apply Hother; congruence.
    + apply (live_spent (HWake wid')); [|].
      * constructor; try apply Lc. by intros wid0 [?|?].
      * constructor; try done. intros wid0 w0 g r [= <-]. cbn. rewrite Ew. congruence.
    + apply Hother; congruence.
  - destruct (futs s !! f) as [r|] eqn:Ef.
    2:{ apply (live_spent (HWake wid)); [done|]. constructor; try done; intros wid0 w0; [congruence|].
        intros g r [= <-] Hw0 Ho0 _ _. right. congruence. }
    destruct (f_done r || negb (bool_decide (cur_wait s !! f = Some wid))) eqn:Edc.
    { apply (live_spent (HWake wid)); [done|]. constructor; try done; intros wid0 w0; [congruence|].
      intros g r' [= <-] Hw0 Ho0 _ Hcur. right. assert (g = f) as -> by congruence. rewrite Ef. intros [= <-].
      rewrite bool_decide_true, orb_false_r in Edc by done. exact Edc. }
    assert (forall s', live [HWake wid] (Some f) s' -> waits s' = waits s -> live [] (Some f) s') as Hsp.
    { intros s' L' Ew'. apply (live_spent (HWake wid)); [done|]. constructor; try done; intros wid0 w0.
      - intros [= <-]. rewrite Ew'. congruence.
      - intros g r' [= <-]. rewrite Ew'. intros Hw0 Ho0 _ _. left. congruence. }
    destruct (f_cancel r); [apply live_task_cancelled, Hsp; [by apply live_except | done]|].
    apply live_task_loop. assert (live [] (Some f) s1) as L1 by (apply Hsp; [by apply live_except | done]).
    constructor; try apply L1. intros h g. unfold fs_of at 1. cbn [task_fs with_task_fs]. destruct (decide (f = h)) as [<-|].
    + rewrite lookup_insert_eq. cbn [from_option id]. intros Hg. apply (l_fs _ _ _ L1 f g). by apply delete_done_keys in Hg.
    + rewrite lookup_insert_ne by done. apply (l_fs _ _ _ L1 h g).
Qed.

Lemma live_run_handle s h rest : live [] None s -> inv s -> winv s -> ready s = h :: rest ->
  live [] None (run_handle h (with_ready rest s)).
Proof.
  intros L H Hw E. pose proof (live_pop s h rest L E) as Lp.
  assert (no_cleanup h -> inv (with_ready rest s)) as Hpop.
  { intros. eapply inv_same; [by eapply same_pop | done | done]. }
  destruct h as [f|f [| |wid]|wid|f]; cbn [run_handle]; try (specialize (Hpop ltac:(by intros ? [=]))).
  - by apply live_first_step.
  - eapply keeps_live; [apply keeps_schedule_cleanup; by apply (inv_fresh _ H)|].
    apply (live_spent _ _ _ Lp). by constructor.
  - apply (keeps_live _ _ (with_ready rest s)); [by apply keeps_futs|]. apply (live_spent _ _ _ Lp). by constructor.
  - by apply live_on_completion.
  - destruct (w_wake _ Hw wid) as (w & Hwid & Hf); [rewrite E; by left|]. by apply (live_wake wid w).
  - assert (live [] (Some f) (with_ready rest s)) as L1.
    { apply (live_spent (HCancel f)); [by apply live_except|]. by constructor; congruence. }
    unfold is_done. destruct (futs (with_ready rest s) !! f) as [r|] eqn:Ef; [|by apply live_task_cancelled].
    destruct (f_done r) eqn:Ed; [|by apply live_task_cancelled].
    apply (live_done [] f); [done|]. rewrite Ef. intros r' [= <-]. by right.
Qed.

Lemma live_step s s' : step s s' -> live [] None s -> rinv s -> live [] None s'.
Proof.
  intros Hs L (H & Hw & _). assert (futs s !! next s = None) as Hn by (by apply (inv_fresh _ H)). destruct Hs.
  - by apply live_run_handle.
  - eapply keeps_live; [apply keeps_complete | done].
  - eapply keeps_live; [by apply keeps_start_obj | done].
  - eapply keeps_live; [by apply keeps_start_task | done].
  - unfold stop. apply live_main_loop; [apply live_fold; [intros; by apply live_cancel | done]|].
    apply inv_fold; [intros; inv_same | done].
Qed.

Lemma live_init : live [] None init.
Proof.
  constructor; cbn.
  - intros wid w. by rewrite lookup_empty.
  - by intros wid [?|?].
  - intros f r _. by rewrite lookup_empty.
  - intros f wid. by rewrite lookup_empty.
  - intros wid _. apply lookup_empty.
  - intros f g. unfold fs_of. cbn. rewrite lookup_empty. by intros ?%not_elem_of_nil.
Qed.

Lemma live_reachable s : reachable s -> live [] None s /\ rinv s.
Proof.
  unfold reachable. intros Hs. refine (rtc_ind_r (fun s => live [] None s /\ rinv s) init _ _ s Hs).
  - split; [apply live_init | apply rinv_reachable; constructor].
  - intros y z _ Hyz [L R]. split; [by eapply live_step | by eapply rinv_step].
Qed.

(** A future that the environment has not finished yet. *)
Definition pending (s : st) (f : nat) : Prop := exists r, futs s !! f = Some r /\ f_done r = false /\ env_finishes r = true.

(** An unfired call waits for something that is not done. *)
Lemma armed_undone s wid w : armed [] s wid w -> ready s = [] -> exists g r, futs s !! g = Some r /\ f_done r = false /\
  (forall f, w_owner w = OwnTask f -> env_finishes r = true).
Proof.
  intros [Hn Ha] Hr. destruct (w_left w) as [|g l]; [done|]. destruct (Ha g) as (r & Hg & Hc & He); [by left|].
  exists g, r. split_and!; [done| |done]. destruct Hc as [[? _]|[_ Hq]]; [done|].
  unfold queued in Hq. rewrite Hr in Hq. by apply not_elem_of_nil in Hq.
Qed.

Lemma stopping_moves s : reachable s -> phase s <> PRun -> phase s <> PStopped ->
  (exists h rest, ready s = h :: rest /\ step s (run_handle h (with_ready rest s))) \/
  (ready s = [] /\ exists f, pending s f /\ step s (complete f s)).
Proof.
  intros [L _]%live_reachable Hp1 Hp2. destruct (ready s) as [|h rest] eqn:Er; [|left; eauto using step_handle].
  right. split; [done|]. cut (exists f, pending s f).
  { intros (f & r & Hf & Hd & He). exists f. split; [by exists r | by eapply step_finish]. }
  assert (exists wid, phase s = PWaitObjs wid \/ phase s = PWaitCleanups wid) as [wid Hp] by (destruct (phase s); naive_solver).
  assert (forall k, ~ queued [] s k) as Hq by (intros k; unfold queued; rewrite Er; apply not_elem_of_nil).
  destruct (l_main _ _ _ L wid Hp) as (w & Hw & Ho & [Hf|?]); [|by destruct (Hq (HWake wid))].
  destruct (armed_undone s wid w) as (g & r & Hg & Hd & _); [by apply (l_wait _ _ _ L) | done|].
  destruct (env_finishes r) eqn:He; [exists g, r; done|].
  destruct (l_task _ _ _ L g r) as [[_ ?]|[(wid' & Hc & w' & Hw' & Ho' & [Hf'|?])|?]]; try done; try (by edestruct Hq).
  destruct (armed_undone s wid' w') as (g' & r' & Hg' & Hd' & He'); [by apply (l_wait _ _ _ L) | done|].
  exists g', r'. eauto.
Qed.

(** a stopping root is never stuck: in every reachable state between the stop signal and [loop.stop()] either a handle
    is ready, or some service, job or cleanup is still running whose end moves the loop on: neither [Root.run] nor a task
    waits for something that cannot happen. *)
Theorem stopping_never_stuck s : reachable s -> phase s <> PRun -> phase s <> PStopped ->
  (exists h rest, ready s = h :: rest /\ step s (run_handle h (with_ready rest s))) \/
  (ready s = [] /\ exists f, pending s f /\ step s (complete f s)).
Proof. apply stopping_moves. Qed.

(** A service, a task with a job, the stop signal: the cancelled task waits for its job. *)
Definition stuck_trace : list act := [AService 0; AHandle; ATask 7 [1] 0; AHandle; AHandle; AStop] ++ replicate 1 AHandle.
Definition stuck_state : st := default init (execs stuck_trace init).

Lemma stuck_reachable : reachable stuck_state.
Proof. apply (execs_reachable stuck_trace). vm_compute. reflexivity. Qed.

Lemma stopping_never_stuck_witness : ready stuck_state = [] /\ exists f, pending stuck_state f.
Proof.
  split; [by vm_compute|].
  destruct (stopping_never_stuck stuck_state stuck_reachable) as [(h & rest & E & _)|(_ & f & Hf & _)];
    [by vm_compute | by vm_compute | | exists f; exact Hf].
  exfalso. assert (ready stuck_state = []) as E' by (by vm_compute). rewrite E in E'. discriminate E'.
Defined.
