(* ===== verification/RootShutdown.v ===== *)
(** * The shutdown of the root ends

    Once the root is stopping and no service starts another task, the event loop cannot run forever: every handle and
    every end of a service, a job or a cleanup takes something away from a measure of three numbers, and the loop cannot
    get stuck before [loop.stop()] ([RootLive.v]). *)

From S2P Require Import Prelude PyStr PyVal Root RootInv RootStop RootTask RootLive.

(** ** Which futures a wait call is about *)

Definition has (s : st) (wid f : nat) : Prop := exists w, waits s !! wid = Some w /\ f ∈ w_fs w.
Definition attached (s : st) (wid f : nat) : Prop := exists r, futs s !! f = Some r /\ CbWait wid ∈ f_cbs r.
Definition woken (s : st) (wid : nat) : Prop := exists g, has s wid g /\ is_done s g = true.
(** The call is about futures that the task [f] still waits for. *)
Definition waits_for (s : st) (f wid : nat) : Prop := forall g, has s wid g -> g ∈ dict_keys (fs_of f s).

(** The callbacks of a wait call are on its futures; when its owner is to resume, one of them is done; and a task is
    suspended in a call about futures of its [fs], except the task [e] in the middle of a step. *)
Record about (e : option nat) (s : st) : Prop := {
  a_cb : forall f wid, attached s wid f -> has s wid f;
  a_queue : forall f wid, HCb f (CbWait wid) ∈ ready s -> has s wid f;
  a_wake : forall wid, HWake wid ∈ ready s -> woken s wid;
  a_old : forall f wid, cur_wait s !! f = Some wid -> is_Some (waits s !! wid);
  a_cur : forall f wid, e <> Some f -> cur_wait s !! f = Some wid -> is_done s f = false -> waits_for s f wid }.

(** No wait call changes; handles [hs] are queued; the futures of a task's [fs] stay. *)
Lemma about_ext e s s' hs : about e s -> waits s' = waits s -> cur_wait s' = cur_wait s -> ready s' = ready s ++ hs ->
  (forall f, is_done s f = true -> is_done s' f = true) ->
  (forall f wid, attached s' wid f -> attached s wid f \/ has s wid f) ->
  (forall f wid, HCb f (CbWait wid) ∈ hs -> attached s wid f \/ has s wid f) -> (forall wid, HWake wid ∉ hs) ->
  (forall f g, g ∈ dict_keys (fs_of f s) -> g ∈ dict_keys (fs_of f s')) -> about e s'.
Proof.
  intros A Hw Hc Hr Hd Hcb Hq Hwk Hfs.
  assert (forall wid f, has s' wid f <-> has s wid f) as Hh by (intros; unfold has; by rewrite Hw).
  constructor.
  - intros f wid [H|H]%Hcb; apply Hh; [by apply (a_cb _ _ A) | done].
  - intros f wid. rewrite Hr, elem_of_app, Hh. intros [H|[H|H]%Hq]; [by apply (a_queue _ _ A) | by apply (a_cb _ _ A) | done].
  - intros wid. rewrite Hr, elem_of_app. intros [H|H]; [|by apply Hwk in H].
    destruct (a_wake _ _ A wid H) as (g & Hg & Hgd). exists g. by rewrite Hh; auto.
  - intros f wid. rewrite Hc, Hw. apply A.
  - intros f wid He. rewrite Hc. intros Hf Hdf g Hg%Hh. apply Hfs, (a_cur _ _ A f wid); try done.
    destruct (is_done s f) eqn:E; [by rewrite Hd in Hdf | done].
Qed.

(** The same, when one future changes or is new. *)
Lemma about_insert e s s' hs f r' : about e s -> waits s' = waits s -> cur_wait s' = cur_wait s -> ready s' = ready s ++ hs ->
  task_fs s' = task_fs s -> futs s' = <[f := r']> (futs s) -> (is_done s f = true -> f_done r' = true) ->
  (forall wid, CbWait wid ∈ f_cbs r' -> attached s wid f \/ has s wid f) ->
  (forall f wid, HCb f (CbWait wid) ∈ hs -> attached s wid f \/ has s wid f) -> (forall wid, HWake wid ∉ hs) -> about e s'.
Proof.
  intros A Hw Hc Hr Ht Hf Hd Hcb Hq Hwk. eapply about_ext; try done.
  - intros g. unfold is_done. rewrite Hf. destruct (decide (f = g)) as [<-|]; [by rewrite lookup_insert_eq | by rewrite lookup_insert_ne].
  - intros g wid (r & Hg & Hin). rewrite Hf in Hg. destruct (decide (f = g)) as [<-|].
    + rewrite lookup_insert_eq in Hg. injection Hg as <-. auto.
    + rewrite lookup_insert_ne in Hg by done. left. by exists r.
  - intros g h. unfold fs_of. by rewrite Ht.
Qed.

Lemma about_same e s s' : about e s -> waits s' = waits s -> cur_wait s' = cur_wait s -> ready s' = ready s ->
  task_fs s' = task_fs s -> futs s' = futs s -> about e s'.
Proof.
  intros A Hw Hc Hr Ht Hf. eapply (about_ext _ _ _ []); try done; [by rewrite app_nil_r | | | set_solver | |].
  - intros f. unfold is_done. by rewrite Hf.
  - intros f wid (r & ? & ?). left. exists r. by rewrite <- Hf.
  - intros wid. apply not_elem_of_nil.
  - intros f g. unfold fs_of. by rewrite Ht.
Qed.

Lemma snoc_elem {A} (l : list A) x y : x ∈ l ++ [y] <-> x ∈ l \/ x = y.
Proof. by rewrite elem_of_app, list_elem_of_singleton. Qed.

Lemma nil_app {A} (l : list A) : l = l ++ [].
Proof. by rewrite app_nil_r. Qed.

Create HintDb about.
#[local] Hint Resolve nil_app : about.

Lemma about_add_cb e c s f : about e s -> (forall wid, c = CbWait wid -> has s wid f) -> about e (add_cb c s f).
Proof.
  intros A Hh. unfold add_cb. destruct (futs s !! f) as [r|] eqn:E; [|done]. destruct (f_done r) eqn:Hd.
  - eapply (about_ext _ _ _ [HCb f c]); try done; [by left | |].
    + intros g wid. rewrite list_elem_of_singleton. intros [= <- <-]. auto.
    + intros wid. by rewrite list_elem_of_singleton.
  - eapply (about_insert _ _ _ [] f); try done; [by rewrite app_nil_r | unfold is_done; by rewrite E, Hd | | |].
    + intros wid. cbn. rewrite snoc_elem. intros [?|<-]; [left; by exists r | auto].
    + intros g wid ?%not_elem_of_nil. done.
    + intros wid. apply not_elem_of_nil.
Qed.

Lemma about_set_fut e s f r r' : about e s -> futs s !! f = Some r -> f_done r' = f_done r ->
  (forall wid, CbWait wid ∈ f_cbs r' -> CbWait wid ∈ f_cbs r) -> about e (with_futs (<[f := r']> (futs s)) s).
Proof.
  intros A E Hd Hcb. eapply (about_insert _ _ _ [] f); try done; cbn; auto with about.
  - unfold is_done. by rewrite E, Hd.
  - intros wid H%Hcb. left. by exists r.
  - intros g wid ?%not_elem_of_nil. done.
  - intros wid. apply not_elem_of_nil.
Qed.

Lemma about_complete e f s : about e s -> about e (complete f s).
Proof.
  intros A. unfold complete. destruct (futs s !! f) as [r|] eqn:E; [|done]. destruct (f_done r) eqn:Hd; [done|].
  eapply (about_insert _ _ _ (HCb f <$> f_cbs r) f); try done.
  - intros wid ?%not_elem_of_nil. done.
  - intros g wid (c & [= -> <-] & Hin)%list_elem_of_fmap. left. by exists r.
  - intros wid (c & [=] & _)%list_elem_of_fmap.
Qed.

Lemma about_new_fut e s s' f r' : about e s -> waits s' = waits s -> cur_wait s' = cur_wait s -> ready s' = ready s ++ [HStep f] ->
  task_fs s' = task_fs s -> futs s' = <[f := r']> (futs s) -> futs s !! f = None -> (forall wid, CbWait wid ∉ f_cbs r') -> about e s'.
Proof.
  intros A Hw Hc Hr Ht Hf Hn Hcb. eapply (about_insert _ _ _ [HStep f] f); try done.
  - unfold is_done. by rewrite Hn.
  - intros wid H. by apply Hcb in H.
  - intros g wid. by rewrite list_elem_of_singleton.
  - intros wid. by rewrite list_elem_of_singleton.
Qed.

Lemma about_start_obj e o s : about e s -> futs s !! next s = None -> about e (start_obj o s).2.
Proof.
  intros A Hn. eapply about_new_fut; try done. intros wid. cbn. by rewrite list_elem_of_singleton.
Qed.

Lemma about_schedule_cleanup e f s : about e s -> futs s !! next s = None -> about e (schedule_cleanup f s).
Proof.
  intros A Hn. unfold schedule_cleanup. case_match; [|by apply (about_same e s)].
  eapply about_new_fut; try done. intros wid. apply not_elem_of_nil.
Qed.

Lemma about_start_task e o s : about e s -> futs s !! next s = None -> about e (start_task o s).
Proof.
  intros A Hn. unfold start_task. pose proof (about_start_obj e o s A Hn) as A1. destruct (start_obj o s) as [f s1]. cbn in A1.
  apply about_add_cb; [by apply (about_same e s1) | done].
Qed.

Lemma about_fold {A} e (step : st -> A -> st) l s : (forall s x, about e s -> about e (step s x)) ->
  about e s -> about e (fold_left step l s).
Proof. intros H. revert s. induction l as [|x l IH]; intros s Hs; simpl; auto. Qed.

Lemma about_pop e s h rest : about e s -> ready s = h :: rest -> about e (with_ready rest s).
Proof.
  intros A E. assert (forall k, k ∈ rest -> k ∈ ready s) as Hr by (intros; rewrite E; by right).
  constructor; try apply A; cbn; intros.
  - by apply (a_queue _ _ A), Hr.
  - destruct (a_wake _ _ A wid) as (g & Hg & Hd); [by apply Hr | by exists g].
Qed.

Lemma about_add_cbs e wid l : forall s, (forall f, f ∈ l -> has s wid f) -> about e s ->
  about e (fold_left (add_cb (CbWait wid)) l s).
Proof.
  induction l as [|f l IH]; intros s Hh A; cbn [fold_left]; [done|]. apply IH.
  - intros g Hg. unfold has. rewrite (k_waits _ _ (keeps_add_cb (CbWait wid) s f)). apply Hh. by right.
  - apply about_add_cb; [done|]. intros wid' [= <-]. apply Hh. by left.
Qed.

Lemma about_wait e o all fs s : about e s -> waits s !! next_w s = None ->
  (forall f, o = OwnTask f -> forall g, g ∈ fs -> g ∈ dict_keys (fs_of f s)) -> about (settled o e) (wait o all fs s).
Proof.
  intros A Hn Ho. unfold wait. set (wid := next_w s) in *. set (s1 := St _ _ _ _ _ _ _ _ _ _ _ _ _ _ _).
  assert (forall wid0 g, wid0 <> wid -> has s1 wid0 g <-> has s wid0 g) as Hne.
  { intros wid0 g H. unfold has. cbn. by rewrite lookup_insert_ne. }
  assert (forall g, has s1 wid g <-> g ∈ fs) as Hown.
  { intros g. unfold has. cbn. rewrite lookup_insert_eq. naive_solver. }
  assert (forall wid0 g, has s wid0 g -> wid0 <> wid) as Hold by (intros wid0 g (w & Hw & _) ->; congruence).
  apply about_add_cbs; [by intros; apply Hown|]. constructor.
  - intros f wid0 H. apply (a_cb _ _ A) in H. apply Hne; eauto.
  - intros f wid0 H. apply (a_queue _ _ A) in H. apply Hne; eauto.
  - intros wid0 H. destruct (a_wake _ _ A wid0 H) as (g & Hg & Hd). exists g. split; [apply Hne; eauto | done].
  - intros f wid0. cbn. intros H. destruct (decide (wid = wid0)) as [<-|]; [by rewrite lookup_insert_eq|].
    rewrite lookup_insert_ne by done. destruct o as [|g]; [by apply (a_old _ _ A f)|].
    destruct (decide (g = f)) as [->|]; [rewrite lookup_insert_eq in H; congruence|].
    rewrite lookup_insert_ne in H by done. by apply (a_old _ _ A f).
  - intros f wid0 He Hc Hd g Hg. change (g ∈ dict_keys (fs_of f s)). destruct (decide (o = OwnTask f)) as [->|Hof].
    + cbn in Hc. rewrite lookup_insert_eq in Hc. injection Hc as <-. apply Hown in Hg. by apply Ho.
    + assert (e <> Some f /\ cur_wait s !! f = Some wid0) as [He' Hc'].
      { destruct o as [|h]; [done|]. cbn in He, Hc. rewrite lookup_insert_ne in Hc by congruence.
        split; [case_decide; congruence | done]. }
      destruct (a_old _ _ A f wid0 Hc') as [w Hw]. assert (wid0 <> wid) by congruence.
      apply (a_cur _ _ A f wid0); try done. by apply Hne.
Qed.

(** A record of a wait call changes, but not what it is about; handles [hs] are queued. *)
Lemma about_with_waits e s wid w w' hs : about e s -> waits s !! wid = Some w -> w_fs w' = w_fs w ->
  (forall f c, HCb f c ∉ hs) -> (forall wid', HWake wid' ∈ hs -> woken s wid') ->
  about e (with_ready (ready s ++ hs) (with_waits (<[wid := w']> (waits s)) s)).
Proof.
  intros A Hw Ew Hc Hwk. set (s' := with_ready _ _).
  assert (forall wid0 g, has s' wid0 g <-> has s wid0 g) as Hh.
  { intros wid0 g. unfold has, s'. cbn. destruct (decide (wid = wid0)) as [<-|]; [|by rewrite lookup_insert_ne].
    rewrite lookup_insert_eq, Hw. split; intros (v & [= <-] & Hg); [exists w; by rewrite <- Ew | exists w'; by rewrite Ew]. }
  assert (forall wid0, woken s wid0 -> woken s' wid0) as Hwk'.
  { intros wid0 (g & Hg & Hd). exists g. by rewrite Hh. }
  constructor.
  - intros f wid0 H. apply Hh. by apply (a_cb _ _ A).
  - intros f wid0. unfold s'. cbn. rewrite elem_of_app. intros [H|H]; [|by apply Hc in H]. apply Hh. by apply (a_queue _ _ A).
  - intros wid0. unfold s'. cbn. rewrite elem_of_app. intros [H|H]; apply Hwk'; [by apply (a_wake _ _ A) | auto].
  - intros f wid0 H. unfold s'. cbn. apply (a_old _ _ A) in H.
    destruct (decide (wid = wid0)) as [<-|]; [by rewrite lookup_insert_eq | by rewrite lookup_insert_ne].
  - intros f wid0 He H Hd g Hg%Hh. by apply (a_cur _ _ A f wid0).
Qed.

Lemma about_on_completion e wid f s : about e s -> has s wid f -> is_done s f = true -> about e (on_completion wid f s).
Proof.
  intros A Hh Hd. unfold on_completion. destruct (waits s !! wid) as [w|] eqn:Hw; [|done]. case_match.
  - eapply (about_with_waits e s wid w (Wait (w_fs w) _ _ _ _) [HWake wid] A Hw eq_refl); [intros; by rewrite list_elem_of_singleton|].
    intros wid' [= ->]%list_elem_of_singleton. by exists f.
  - set (s1 := with_waits _ _). replace s1 with (with_ready (ready s ++ []) s1) by (unfold s1; rewrite app_nil_r; by destruct s).
    eapply (about_with_waits e s wid w (Wait (w_fs w) _ _ _ _) [] A Hw eq_refl).
    + intros; apply not_elem_of_nil.
    + by intros ? ?%not_elem_of_nil.
Qed.

Lemma about_set_cancel e b f s : about e s -> about e (set_cancel b f s).
Proof. intros A. unfold set_cancel. destruct (futs s !! f) as [r|] eqn:E; [|done]. by apply (about_set_fut e s f r). Qed.

Lemma about_cancel e f s : about e s -> about e (cancel f s).
Proof.
  intros A. unfold cancel. destruct (futs s !! f) as [r|]; [|done]. destruct (f_done r); [done|].
  destruct (f_obj r), (f_kind r); try done. pose proof (about_set_cancel e true f s A) as A1.
  destruct (cur_wait (set_cancel true f s) !! f) as [wid|]; [|done].
  destruct (waits (set_cancel true f s) !! wid) as [w|] eqn:Ew; [|done]. destruct (w_fired w); [done|].
  eapply (about_with_waits e _ wid w (Wait (w_fs w) _ _ _ _) [HCancel f] A1 Ew eq_refl).
  - intros. by rewrite list_elem_of_singleton.
  - intros wid'. by rewrite list_elem_of_singleton.
Qed.

Lemma about_collect e wid w s : about e s -> about e (collect wid w s).2.
Proof.
  unfold collect. cbn. apply about_fold. intros s' f A. unfold remove_cb. destruct (futs s' !! f) as [r|] eqn:E; [|done].
  eapply about_set_fut; try done. cbn. intros wid' [Hin _]%list_elem_of_In%filter_In. by apply list_elem_of_In.
Qed.

Lemma about_done f s : about (Some f) s -> is_done s f = true -> about None s.
Proof.
  intros A Hd. constructor; try apply A. intros g wid _ Hc Hg. apply (a_cur _ _ A g wid); try done. congruence.
Qed.

Lemma about_except f s : about None s -> about (Some f) s.
Proof. intros []. constructor; auto. Qed.

Lemma is_done_complete f s : is_Some (futs s !! f) -> is_done (complete f s) f = true.
Proof.
  intros [r Hr]. unfold complete, is_done. rewrite Hr. destruct (f_done r) eqn:E; [by rewrite Hr, E|]. cbn. by rewrite lookup_insert_eq.
Qed.

(** A step of a task ends: it is done, or suspended in a call about its [fs]. *)
Lemma about_task_loop f s : about (Some f) s -> is_Some (futs s !! f) -> waits s !! next_w s = None ->
  about None (task_loop f s).
Proof.
  intros A Hf Hn. unfold task_loop. destruct (dict_keys (fs_of f s)) as [|g gs] eqn:E.
  - apply (about_done f); [by apply about_complete | by apply is_done_complete].
  - pose proof (about_wait (Some f) (OwnTask f) false (g :: gs) s A Hn) as Hw. cbn [settled] in Hw.
    rewrite decide_True in Hw by done. apply Hw. intros f' [= <-]. by rewrite E.
Qed.

Lemma grow_Some s s' f : fgrow s s' -> is_Some (futs s !! f) -> is_Some (futs s' !! f).
Proof. intros G [r Hr]. destruct (G f r Hr) as (r' & -> & _). done. Qed.

Lemma new_wait x e s : live x e s -> waits s !! next_w s = None.
Proof. intros L. by apply (l_new _ _ _ L). Qed.

Lemma about_task_cancelled x f s : about None s -> live x (Some f) s -> about None (task_cancelled f s).
Proof.
  intros A L. unfold task_cancelled.
  assert (live x (Some f) (set_cancel false f s)) as L1 by (eapply keeps_live; [apply keeps_set_cancel | done]).
  pose proof (about_set_cancel _ false f s A) as A1. revert A1 L1. generalize (dict_keys (fs_of f (set_cancel false f s))) as gs.
  generalize (set_cancel false f s). intros s1 gs. revert s1. induction gs as [|g gs IH]; intros s1 A1 L1; cbn [fold_left].
  - unfold task_loop. destruct (dict_keys (fs_of f s1)) eqn:E; [by apply about_complete|].
    apply (about_wait None (OwnTask f)); [done | by eapply new_wait | intros f' [= <-]; by rewrite E].
  - apply IH; [by apply about_cancel | by apply live_cancel].
Qed.

(** The [fs] of the task in the middle of a step may change in any way. *)
Lemma about_task_fs f d s : about (Some f) s -> about (Some f) (with_task_fs (<[f := d]> (task_fs s)) s).
Proof.
  intros A. constructor; try apply A. intros g wid He Hc Hd h Hh. unfold fs_of. cbn.
  rewrite lookup_insert_ne by congruence. by apply (a_cur _ _ A g wid).
Qed.

Lemma about_start_jobs f jobs : forall s, about (Some f) s -> inv s -> about (Some f) (start_jobs f jobs s).
Proof.
  unfold start_jobs. fold (start_job f). induction jobs as [|n jobs IH]; intros s A H; [done|]. cbn [fold_left]. apply IH.
  - assert (about (Some f) (start_obj (OJob n) s).2) as A1 by (apply about_start_obj; [done | by apply (inv_fresh _ H)]).
    unfold start_job. destruct (start_obj (OJob n) s) as [g s1]. cbn [snd] in A1.
    by apply (about_same _ (with_task_fs (<[f := dict_set (fs_of f s1) g (OJob n)]> (task_fs s1)) s1)); [apply about_task_fs|..].
  - pose proof (inv_start_obj (OJob n) s H). by apply (inv_same (start_obj (OJob n) s).2).
Qed.

Lemma about_first_step f s : about None s -> live [HStep f] None s -> inv s -> about None (first_step f s).
Proof.
  intros A L H. unfold first_step. destruct (futs s !! f) as [r|] eqn:Ef; [|done]. destruct (f_started r || f_done r); [done|].
  assert (about None (set_started f s)) as A1 by (unfold set_started; rewrite Ef; by apply (about_set_fut None s f r)).
  assert (inv (set_started f s)) as H1 by inv_same.
  assert (waits (set_started f s) !! next_w (set_started f s) = None) as Hn.
  { unfold set_started. rewrite Ef. exact (new_wait _ _ _ L). }
  assert (is_Some (futs (set_started f s) !! f)) as Hf1 by (unfold set_started; rewrite Ef; cbn; by rewrite lookup_insert_eq).
  destruct (f_obj r), (f_kind r); try done. destruct (f_cancel r); [by apply about_complete|].
  pose proof (mild_start_jobs f jobs _ H1) as Hm. apply about_task_loop; [by apply about_start_jobs; [apply about_except|]| |].
  - destruct Hf1 as [r1 Hr1]. clear -H1 Hr1. revert Hr1 H1. generalize (set_started f s). unfold start_jobs. fold (start_job f).
    induction jobs as [|n jobs IH]; intros s1 Hr1 H1; [by exists r1|]. cbn [fold_left]. apply IH; [by apply start_job_fut|].
    pose proof (inv_start_obj (OJob n) s1 H1). by apply (inv_same (start_obj (OJob n) s1).2).
  - by rewrite (mild_waits _ _ Hm), (mild_next _ _ Hm).
Qed.

Lemma about_main_loop s : about None s -> waits s !! next_w s = None -> about None (main_loop s).
Proof.
  intros A Hn. assert (forall p, about None (with_phase p s)) as Hp by (intros; by apply (about_same None s)).
  unfold main_loop. repeat case_match; [apply Hp | refine (about_wait None OwnMain _ _ _ (Hp _) Hn _); by intros ? [=]..].
Qed.

Lemma about_main_wake wid done s : about None s -> waits s !! next_w s = None -> about None (main_wake wid done s).
Proof.
  intros A Hn. unfold main_wake. destruct (phase s); try done; case_decide; try done; [|by apply (about_same None s)].
  apply about_main_loop; [by apply (about_same None s) | done].
Qed.

Lemma about_wake wid s : about None s -> live [HWake wid] None s -> about None (wake wid s).
Proof.
  intros A L. unfold wake. destruct (waits s !! wid) as [w|] eqn:Hw; [|done].
  pose proof (about_collect None wid w s A) as Ac. destruct (mild_collect wid w s) as [_ _ Ew _ En _].
  pose proof (fun f => grow_Some _ _ f (tf_grow _ _ (tframe_collect wid w s))) as Hk.
  destruct (collect wid w s) as [done s1]; cbn [fst snd] in *. assert (waits s1 !! next_w s1 = None) as Hn.
  { rewrite Ew, En. by eapply new_wait. }
  destruct (w_owner w) as [|f]; [by apply about_main_wake|]. destruct (futs s !! f) as [r|] eqn:Ef; [|done].
  destruct (_ || _); [done|]. destruct (f_cancel r).
  - apply (about_task_cancelled [HWake wid]); [done | by apply live_except].
  - apply about_task_loop; [by apply about_task_fs, about_except | apply Hk; by exists r | done].
Qed.

Lemma about_run_handle s h rest : about None s -> live [] None s -> inv s -> winv s -> ready s = h :: rest ->
  about None (run_handle h (with_ready rest s)).
Proof.
  intros A L H Hw E. pose proof (live_pop s h rest L E) as Lp. pose proof (about_pop None s h rest A E) as Ap.
  assert (h ∈ ready s) as Hin by (rewrite E; by left). pose proof (inv_fresh _ H _ (le_n _)) as Hn.
  destruct h as [f|f [| |wid]|wid|f]; cbn [run_handle].
  - apply about_first_step; [done | done|]. eapply inv_same; [by eapply same_pop | done | done].
  - by apply about_schedule_cleanup.
  - by apply (about_same None (with_ready rest s)).
  - apply about_on_completion; [done | apply (a_queue _ _ A f wid Hin) | apply (w_cb _ Hw _ _ Hin)].
  - by apply about_wake.
  - destruct (is_done _ f); [done|]. apply (about_task_cancelled [HCancel f]); [done | by apply live_except].
Qed.

Lemma about_step s s' : step s s' -> about None s -> live [] None s -> rinv s -> about None s'.
Proof.
  intros Hs A L (H & Hw & _). assert (futs s !! next s = None) as Hn by (by apply (inv_fresh _ H)). destruct Hs.
  - by apply about_run_handle.
  - by apply about_complete.
  - by apply about_start_obj.
  - by apply about_start_task.
  - unfold stop. assert (live [] None (fold_left (fun s f => cancel f s) (dict_keys (running_objects s)) s)) as L1.
    { apply live_fold; [intros; by apply live_cancel | done]. }
    apply about_main_loop; [apply about_fold; [intros; by apply about_cancel | done] | by eapply new_wait].
Qed.

Lemma about_reachable s : reachable s -> about None s.
Proof.
  unfold reachable. intros Hs. refine (proj2 (rtc_ind_r (fun s => reachable s /\ about None s) init _ _ s Hs)).
  - split; [constructor|]. constructor; cbn; try set_solver.
    intros f wid (r & Hr & _). cbn in Hr. by rewrite lookup_empty in Hr.
  - intros y z _ Hyz [R A]. split; [by eapply rtc_r|]. destruct (live_reachable y R). by eapply about_step.
Qed.

(** ** What is left to do *)

Fixpoint sum_upto (F : nat -> nat) (n : nat) : nat := match n with 0 => 0 | S n => sum_upto F n + F n end.

Lemma sum_upto_le F G n : (forall i, i < n -> F i <= G i) -> sum_upto F n <= sum_upto G n.
Proof. induction n as [|n IH]; intros H; cbn; [done|]. pose proof (H n ltac:(lia)). specialize (IH ltac:(auto)). lia. Qed.

(** A drop of [d] at the place [k]. *)
Lemma sum_upto_drop F G n k d : k < n -> (forall i, i < n -> F i <= G i) -> F k + d <= G k -> sum_upto F n + d <= sum_upto G n.
Proof.
  induction n as [|n IH]; intros Hk H Hd; cbn; [lia|]. pose proof (H n ltac:(lia)). destruct (decide (k = n)) as [->|].
  - pose proof (sum_upto_le F G n ltac:(auto)). lia.
  - specialize (IH ltac:(lia) ltac:(auto) Hd). lia.
Qed.

Lemma sum_upto_ext F G n : (forall i, i < n -> F i = G i) -> sum_upto F n = sum_upto G n.
Proof. induction n as [|n IH]; intros H; cbn; [done|]. rewrite IH, H; auto. Qed.

(** A future: its first step with the futures that step creates, its end, and its cleanup with that cleanup's steps. *)
Definition jobs_in (r : fut) : nat := match f_obj r, f_kind r with OTask _ jobs, KRun => length jobs | _, _ => 0 end.
Definition fut_work (r : fut) (executed : nat) : nat :=
  (if f_started r then 0 else 1 + 5 * jobs_in r) + (if f_done r then 0 else 1)
  + (match f_kind r with KRun => if executed =? 0 then 3 else 0 | KCleanup _ => 0 end).
Definition work_of (s : st) (f : nat) : nat := match futs s !! f with Some r => fut_work r (n_executed s f) | None => 0 end.
Definition work (s : st) : nat := sum_upto (work_of s) (next s).

(** The resumptions of [Root.run] and of the tasks. *)
Definition main_fs (s : st) : list nat :=
  match phase s with
  | PWaitObjs wid => default [] (w_fs <$> waits s !! wid) ++ dict_keys (running_objects s)
  | _ => []
  end.
Definition main_rank (p : phase_t) : nat := match p with PWaitObjs _ => 2 | PWaitCleanups _ => 1 | _ => 0 end.
Definition cancelled (s : st) (f : nat) : nat :=
  match futs s !! f with Some r => if f_cancel r then 1 else 0 | None => 0 end.
Definition resumes_of (s : st) (f : nat) : nat :=
  (if decide (f ∈ main_fs s) then 1 else 0) + length (fs_of f s) + cancelled s f.
Definition is_hcancel (h : handle) : bool := match h with HCancel _ => true | _ => false end.
Definition resumes (s : st) : nat :=
  main_rank (phase s) + sum_upto (resumes_of s) (next s) + countb is_hcancel (ready s).

(** The handles, with those that the unfired wait calls still queue. *)
Definition unfired (s : st) (wid : nat) : nat := match waits s !! wid with Some w => if w_fired w then 0 else 1 | None => 0 end.
Definition handles (s : st) : nat := length (ready s) + sum_upto (unfired s) (next_w s).

(** Less to do. *)
Definition less (s' s : st) : Prop :=
  work s' < work s \/
  (work s' <= work s /\ (resumes s' < resumes s \/ (resumes s' <= resumes s /\ handles s' < handles s))).

Lemma less_ind (P : st -> Prop) : (forall s, (forall s', less s' s -> P s') -> P s) -> forall s, P s.
Proof.
  intros H. cut (forall b m k s, work s <= b -> resumes s <= m -> handles s <= k -> P s); [eauto|].
  induction b as [b IHb] using lt_wf_ind. induction m as [m IHm] using lt_wf_ind. induction k as [k IHk] using lt_wf_ind.
  intros s Hb Hm Hk. apply H. intros s' [Hl|[Hle [Hl|[Hle' Hl]]]].
  - by apply (IHb (work s') ltac:(lia) (resumes s') (handles s')).
  - by apply (IHm (resumes s') ltac:(lia) (handles s')); [lia|..].
  - by apply (IHk (handles s') ltac:(lia)); [lia..|].
Qed.

(** ** Operations that change no work *)

(** Futures keep everything but their callbacks and the request to cancel. *)
Definition core (r : fut) : obj * kind * bool * bool := (f_obj r, f_kind r, f_started r, f_done r).
Record calm (s s' : st) : Prop := {
  c_next : next s' = next s;
  c_core : forall f, core <$> futs s' !! f = core <$> futs s !! f;
  c_cleaned : cleaned s' = cleaned s;
  c_errors : errors s' = errors s }.

#[export] Instance calm_refl : Reflexive calm.
Proof. by constructor. Qed.
#[export] Instance calm_trans : Transitive calm.
Proof. intros s1 s2 s3 [] []. constructor; intros; etrans; eauto. Qed.

Lemma calm_work s s' : calm s s' -> work s' = work s.
Proof.
  intros [Hn Hf Hc He]. unfold work. rewrite Hn. apply sum_upto_ext. intros f _. unfold work_of, n_executed. specialize (Hf f).
  rewrite Hc, He. destruct (futs s' !! f) as [r'|], (futs s !! f) as [r|]; cbn in Hf; try done.
  unfold core in Hf. unfold fut_work, jobs_in. by injection Hf as -> -> -> ->.
Qed.

Lemma calm_fold {A} (step : st -> A -> st) l s : (forall s x, calm s (step s x)) -> calm s (fold_left step l s).
Proof. intros H. revert s. induction l as [|x l IH]; intros s; simpl; [done|]. etrans; [apply H | apply IH]. Qed.

Lemma calm_with_futs s f r r' : futs s !! f = Some r -> core r' = core r -> calm s (with_futs (<[f := r']> (futs s)) s).
Proof.
  intros E Hc. constructor; try done. intros g. cbn. destruct (decide (f = g)) as [<-|]; [|by rewrite lookup_insert_ne].
  rewrite lookup_insert_eq, E. cbn. by rewrite Hc.
Qed.

Lemma calm_add_cb c s f : calm s (add_cb c s f).
Proof.
  unfold add_cb. destruct (futs s !! f) as [r|] eqn:E; [|done]. destruct (f_done r) eqn:Hd; [done|].
  apply (calm_with_futs s f r); [done|]. unfold core. cbn. by rewrite Hd.
Qed.
Lemma calm_remove_cb c s f : calm s (remove_cb c s f).
Proof. unfold remove_cb. destruct (futs s !! f) as [r|] eqn:E; [|done]. by apply (calm_with_futs s f r). Qed.
Lemma calm_set_cancel b f s : calm s (set_cancel b f s).
Proof. unfold set_cancel. destruct (futs s !! f) as [r|] eqn:E; [|done]. by apply (calm_with_futs s f r). Qed.
Lemma calm_wait o all fs s : calm s (wait o all fs s).
Proof. unfold wait. etrans; [|apply calm_fold; intros; apply calm_add_cb]. done. Qed.
Lemma calm_collect wid w s : calm s (collect wid w s).2.
Proof. apply calm_fold. intros. apply calm_remove_cb. Qed.
Lemma calm_on_completion wid f s : calm s (on_completion wid f s).
Proof. unfold on_completion. by repeat case_match. Qed.
Lemma calm_main_loop s : calm s (main_loop s).
Proof. unfold main_loop. repeat case_match; (etrans; [|apply calm_wait] || idtac); done. Qed.
Lemma calm_main_wake wid done s : calm s (main_wake wid done s).
Proof. unfold main_wake. destruct (phase s); try done; case_decide; try done. by etrans; [|apply calm_main_loop]. Qed.

(** ** Operations that do work *)

Lemma fut_bound s f r : inv s -> futs s !! f = Some r -> f < next s.
Proof. intros H E. destruct (decide (f < next s)); [done|]. rewrite (inv_fresh _ H) in E; [done | lia]. Qed.

(** One future changes: its work drops by [d]. *)
Lemma work_insert s s' f r r' d : futs s !! f = Some r -> futs s' = <[f := r']> (futs s) -> next s' = next s -> f < next s ->
  cleaned s' = cleaned s -> errors s' = errors s -> work_of s' f + d <= work_of s f -> work s' + d <= work s.
Proof.
  intros Hf E Hn Hlt Hc He Hd. unfold work. rewrite Hn. eapply sum_upto_drop; [exact Hlt | | exact Hd]. intros g _.
  destruct (decide (f = g)) as [<-|]; [lia|]. unfold work_of, n_executed. by rewrite E, Hc, He, lookup_insert_ne.
Qed.

Lemma work_complete f r s : inv s -> futs s !! f = Some r -> f_done r = false -> work (complete f s) < work s.
Proof.
  intros H Hf Hd. unfold complete. rewrite Hf, Hd. set (s' := with_ready _ _).
  cut (work s' + 1 <= work s); [lia|]. eapply (work_insert s s' f r); try done; [by eapply fut_bound|].
  unfold work_of. change (n_executed s' f) with (n_executed s f). unfold s'. cbn [futs with_ready with_futs].
  rewrite lookup_insert_eq, Hf. unfold fut_work, jobs_in. cbn. rewrite Hd. lia.
Qed.

Lemma work_complete_le f s : inv s -> work (complete f s) <= work s.
Proof.
  intros H. destruct (futs s !! f) as [r|] eqn:E; [|unfold complete; by rewrite E].
  destruct (f_done r) eqn:Hd; [unfold complete; by rewrite E, Hd|]. by apply Nat.lt_le_incl, (work_complete f r).
Qed.

Lemma work_task_loop f s : inv s -> work (task_loop f s) <= work s.
Proof.
  intros H. unfold task_loop. case_match; [by apply work_complete_le | by rewrite (calm_work _ _ (calm_wait _ _ _ _))].
Qed.

(** A new future. *)
Lemma work_new s s' r : futs s' = <[next s := r]> (futs s) -> next s' = S (next s) ->
  (forall f, f < next s -> work_of s' f <= work_of s f) -> work s' <= work s + work_of s' (next s).
Proof. intros E Hn Hx. unfold work. rewrite Hn. cbn. pose proof (sum_upto_le _ _ _ Hx). lia. Qed.

Lemma work_start_job f s n : work (start_job f s n) <= work s + 5.
Proof.
  etrans; [eapply (work_new s)|]; [done | done | |].
  - intros g Hg. unfold work_of. cbn. rewrite lookup_insert_ne by lia. done.
  - unfold work_of. cbn. rewrite lookup_insert_eq. cbn. case_match; lia.
Qed.

Lemma work_start_jobs f jobs : forall s, work (start_jobs f jobs s) <= work s + 5 * length jobs.
Proof.
  unfold start_jobs. fold (start_job f). induction jobs as [|n jobs IH]; intros s; cbn [fold_left length]; [lia|].
  etrans; [apply IH|]. pose proof (work_start_job f s n). lia.
Qed.

(** The first step of a coroutine. *)
Lemma work_first_step f r s : inv s -> futs s !! f = Some r -> f_started r = false -> f_done r = false ->
  work (first_step f s) < work s.
Proof.
  intros H Hf Hs Hd. unfold first_step. rewrite Hf, Hs, Hd. cbn [orb].
  assert (work (set_started f s) + (1 + 5 * jobs_in r) <= work s) as Hw.
  { unfold set_started. rewrite Hf. eapply (work_insert s _ f r); try done; [by eapply fut_bound|].
    unfold work_of. change (n_executed (with_futs _ s) f) with (n_executed s f). cbn [futs with_futs].
    rewrite lookup_insert_eq, Hf. unfold fut_work, jobs_in. cbn. rewrite Hs. lia. }
  assert (inv (set_started f s)) as H1 by inv_same.
  unfold jobs_in in Hw. destruct (f_obj r) as [|k jobs|], (f_kind r); try lia. destruct (f_cancel r).
  - pose proof (work_complete_le f _ H1). lia.
  - pose proof (work_task_loop f _ (inv_start_jobs f jobs _ H1)). pose proof (work_start_jobs f jobs (set_started f s)).
    lia.
Qed.

(** [schedule_cleanup]: the object of [f] is cleaned, or its [KeyError] raised, for the first time. *)
Lemma work_schedule_cleanup s f rest : inv s -> ready s = HCb f CbCleanup :: rest ->
  work (schedule_cleanup f (with_ready rest s)) < work s.
Proof.
  intros H E. destruct (popped s f rest H E) as (Hr & _ & _ & Hx & _). apply is_run_Some in Hr as (r & Hf & Hk).
  pose proof (fut_bound _ _ _ H Hf) as Hlt. set (s' := schedule_cleanup _ _).
  assert (forall g, n_executed s' g = n_executed s g + if decide (f = g) then 1 else 0) as Hx'.
  { intros g. unfold s', schedule_cleanup. destruct (dict_get _ f); unfold n_executed; cbn; rewrite count_occ_snoc; lia. }
  assert (forall g, g < next s -> futs s' !! g = futs s !! g) as Hfs.
  { intros g Hg. unfold s', schedule_cleanup. destruct (dict_get _ f); cbn; [|done]. by rewrite lookup_insert_ne by lia. }
  assert (sum_upto (work_of s') (next s) + 3 <= work s) as Hw.
  { apply (sum_upto_drop _ _ _ f); [done| |].
    - intros g Hg. unfold work_of. rewrite Hfs, Hx' by done. destruct (futs s !! g); [|done].
      unfold fut_work. destruct (f_kind f0); [|lia]. destruct (n_executed s g); case_decide; cbn; lia.
    - unfold work_of. rewrite Hfs, Hx', Hf, Hx, decide_True by done. unfold fut_work. rewrite Hk. cbn. lia. }
  unfold work at 1. destruct (dict_get (running_objects s) f) as [o|] eqn:Eo.
  - assert (next s' = S (next s)) as -> by (unfold s', schedule_cleanup; cbn; by rewrite Eo).
    cbn [sum_upto]. assert (work_of s' (next s) <= 2) as H2; [|lia].
    unfold work_of, s', schedule_cleanup. cbn. rewrite Eo. cbn. rewrite lookup_insert_eq. unfold fut_work, jobs_in. cbn. destruct o; cbn; lia.
  - assert (next s' = next s) as -> by (unfold s', schedule_cleanup; cbn; by rewrite Eo). lia.
Qed.

(** ** The resumptions *)

Record steady (s s' : st) : Prop := {
  s_next : next s' = next s;
  s_fs : task_fs s' = task_fs s;
  s_cancel : forall f, cancelled s' f = cancelled s f;
  s_ready : countb is_hcancel (ready s') = countb is_hcancel (ready s) }.

#[export] Instance steady_refl : Reflexive steady.
Proof. by constructor. Qed.
#[export] Instance steady_trans : Transitive steady.
Proof. intros s1 s2 s3 [] []. constructor; intros; etrans; eauto. Qed.

Lemma steady_fold {A} (step : st -> A -> st) l s : (forall s x, steady s (step s x)) -> steady s (fold_left step l s).
Proof. intros H. revert s. induction l as [|x l IH]; intros s; simpl; [done|]. etrans; [apply H | apply IH]. Qed.

Lemma steady_with_futs s f r r' : futs s !! f = Some r -> f_cancel r' = f_cancel r -> steady s (with_futs (<[f := r']> (futs s)) s).
Proof.
  intros E Hc. constructor; try done. intros g. unfold cancelled. cbn.
  destruct (decide (f = g)) as [<-|]; [|by rewrite lookup_insert_ne]. by rewrite lookup_insert_eq, E, Hc.
Qed.

Lemma steady_call_soon h s : is_hcancel h = false -> steady s (call_soon h s).
Proof. intros Hh. constructor; try done. cbn [ready call_soon with_ready]. rewrite countb_app, countb_cons, Hh, countb_nil. lia. Qed.

Lemma steady_add_cb c s f : steady s (add_cb c s f).
Proof.
  unfold add_cb. destruct (futs s !! f) as [r|] eqn:E; [|done]. destruct (f_done r); [by apply steady_call_soon|].
  by apply (steady_with_futs s f r).
Qed.
Lemma steady_remove_cb c s f : steady s (remove_cb c s f).
Proof. unfold remove_cb. destruct (futs s !! f) as [r|] eqn:E; [|done]. by apply (steady_with_futs s f r). Qed.
Lemma steady_wait o all fs s : steady s (wait o all fs s).
Proof. unfold wait. etrans; [|apply steady_fold; intros; apply steady_add_cb]. done. Qed.
Lemma steady_collect wid w s : steady s (collect wid w s).2.
Proof. apply steady_fold. intros. apply steady_remove_cb. Qed.
Lemma steady_on_completion wid f s : steady s (on_completion wid f s).
Proof.
  unfold on_completion. destruct (waits s !! wid); [|done]. case_match; [|done].
  etrans; [|by apply steady_call_soon]. done.
Qed.
Lemma steady_complete f s : steady s (complete f s).
Proof.
  unfold complete. destruct (futs s !! f) as [r|] eqn:E; [|done]. destruct (f_done r); [done|].
  etrans; [by apply (steady_with_futs s f r (Fut (f_obj r) (f_kind r) (f_started r) true (f_cancel r) []))|].
  constructor; try done. cbn [ready with_ready with_futs]. rewrite countb_app. induction (f_cbs r); [unfold countb; cbn; lia | done].
Qed.
Lemma steady_main_loop s : steady s (main_loop s).
Proof. unfold main_loop. repeat case_match; (etrans; [|apply steady_wait] || idtac); done. Qed.

Lemma resumes_of_le s s' f : steady s s' -> (f ∈ main_fs s' -> f ∈ main_fs s) -> resumes_of s' f <= resumes_of s f.
Proof.
  intros [_ Ht Hc _] Hm. unfold resumes_of, fs_of. rewrite Ht, Hc. destruct (decide (f ∈ main_fs s')), (decide (f ∈ main_fs s)); tauto || lia.
Qed.

Lemma resumes_le s s' : steady s s' -> main_rank (phase s') <= main_rank (phase s) ->
  (forall f, f ∈ main_fs s' -> f ∈ main_fs s) -> resumes s' <= resumes s.
Proof.
  intros S Hp Hm. unfold resumes. rewrite (s_next _ _ S), (s_ready _ _ S).
  pose proof (sum_upto_le (resumes_of s') (resumes_of s) (next s) ltac:(intros; by apply resumes_of_le; auto)). lia.
Qed.

(** [Root.run] is further on, or waits for fewer objects. *)
Lemma resumes_main s s' : steady s s' -> main_rank (phase s') <= main_rank (phase s) ->
  (forall f, f ∈ main_fs s' -> f ∈ main_fs s) ->
  main_rank (phase s') < main_rank (phase s) \/ (exists g, g < next s /\ g ∈ main_fs s /\ g ∉ main_fs s') -> resumes s' < resumes s.
Proof.
  intros S Hp Hm Hs. unfold resumes. rewrite (s_next _ _ S), (s_ready _ _ S).
  assert (forall i, i < next s -> resumes_of s' i <= resumes_of s i) as Hle by (intros; by apply resumes_of_le; auto).
  destruct Hs as [Hs|(g & Hg & Hin & Hout)]; [pose proof (sum_upto_le _ _ _ Hle); lia|].
  cut (sum_upto (resumes_of s') (next s) + 1 <= sum_upto (resumes_of s) (next s)); [lia|].
  apply (sum_upto_drop _ _ _ g); [done | done|]. unfold resumes_of, fs_of. rewrite (s_fs _ _ S), (s_cancel _ _ S).
  rewrite decide_False, decide_True by done. lia.
Qed.

Lemma main_fs_same s s' : phase s' = phase s -> waits s' = waits s -> running_objects s' = running_objects s -> main_fs s' = main_fs s.
Proof. unfold main_fs. by intros -> -> ->. Qed.

Lemma resumes_same s s' : steady s s' -> phase s' = phase s -> main_fs s' = main_fs s -> resumes s' = resumes s.
Proof.
  intros S Hp Hm. unfold resumes. rewrite (s_next _ _ S), (s_ready _ _ S), Hp. do 2 f_equal. apply sum_upto_ext. intros f _.
  unfold resumes_of, fs_of. by rewrite Hm, (s_fs _ _ S), (s_cancel _ _ S).
Qed.

Lemma resumes_collect wid w s : resumes (collect wid w s).2 = resumes s.
Proof.
  apply resumes_same; [apply steady_collect | apply phase_collect|].
  apply main_fs_same; [apply phase_collect | apply mild_collect | apply same_collect].
Qed.

Lemma resumes_complete f s : resumes (complete f s) = resumes s.
Proof.
  apply resumes_same; [apply steady_complete | apply phase_complete|].
  apply main_fs_same; [apply phase_complete | apply mild_complete|]. unfold complete. by repeat case_match.
Qed.

Lemma resumes_on_completion wid f s : resumes (on_completion wid f s) = resumes s.
Proof.
  apply resumes_same; [apply steady_on_completion | apply phase_on_completion|].
  unfold main_fs. rewrite phase_on_completion. destruct (phase s) as [|wid0| |]; try done. unfold on_completion.
  destruct (waits s !! wid) as [w|] eqn:E; [|done].
  case_match; cbn; (destruct (decide (wid = wid0)) as [<-|]; [by rewrite lookup_insert_eq, E | by rewrite lookup_insert_ne]).
Qed.

(** A task is suspended again. *)
Lemma phase_new x e s : live x e s -> phase s <> PWaitObjs (next_w s).
Proof. intros L E. destruct (l_main _ _ _ L (next_w s)) as (w & Hw & _); [by left|]. by rewrite (new_wait _ _ _ L) in Hw. Qed.

Lemma resumes_task_wait f all fs s : phase s <> PWaitObjs (next_w s) -> resumes (wait (OwnTask f) all fs s) = resumes s.
Proof.
  intros Hn. apply resumes_same; [apply steady_wait | apply phase_wait|]. destruct (wait_obs (OwnTask f) all fs s) as (Hw & Hp & Hr & _).
  unfold main_fs. rewrite Hp, Hr. destruct (phase s) as [|wid| |] eqn:Eph; try done. rewrite Hw, decide_False; [done|].
  intros E. by rewrite <- E in Hn.
Qed.

Lemma resumes_pop s h rest : ready s = h :: rest -> resumes (with_ready rest s) + (if is_hcancel h then 1 else 0) = resumes s.
Proof.
  intros E. unfold resumes. rewrite E, countb_cons. cbn [ready phase with_ready].
  change (main_rank (phase s) + sum_upto (resumes_of s) (next s) + countb is_hcancel rest + (if is_hcancel h then 1 else 0) =
    main_rank (phase s) + sum_upto (resumes_of s) (next s) + ((if is_hcancel h then 1 else 0) + countb is_hcancel rest)). lia.
Qed.

(** ** Every step leaves less to do *)

Lemma ready_collect wid w s : ready (collect wid w s).2 = ready s.
Proof.
  unfold collect. cbn. generalize (w_fs w) as fs. intros fs. revert s. induction fs as [|f fs IH]; intros s; cbn; [done|].
  rewrite IH. unfold remove_cb. by case_match.
Qed.

Lemma handles_collect wid w s : handles (collect wid w s).2 = handles s.
Proof.
  unfold handles. rewrite ready_collect, (mild_next _ _ (mild_collect wid w s)). f_equal. apply sum_upto_ext. intros i _.
  unfold unfired. by rewrite (mild_waits _ _ (mild_collect wid w s)).
Qed.

Lemma handles_on_completion x e wid f s : live x e s -> handles (on_completion wid f s) <= handles s.
Proof.
  intros L. unfold on_completion. destruct (waits s !! wid) as [w|] eqn:Hw; [|done].
  assert (wid < next_w s) as Hlt.
  { destruct (decide (wid < next_w s)); [done|]. rewrite (l_new _ _ _ L) in Hw; [done | lia]. }
  set (fire := negb (w_fired w) && _). set (w' := Wait _ _ _ _ _). set (s1 := with_waits _ _).
  assert (sum_upto (unfired s1) (next_w s) + (if fire then 1 else 0) <= sum_upto (unfired s) (next_w s)) as Hs.
  { apply (sum_upto_drop _ _ _ wid); [done| |].
    - intros i _. unfold unfired, s1. cbn. destruct (decide (wid = i)) as [<-|]; [|by rewrite lookup_insert_ne].
      rewrite lookup_insert_eq, Hw. cbn. destruct (w_fired w); cbn; [lia|]. case_match; lia.
    - unfold unfired, s1. cbn. rewrite lookup_insert_eq, Hw. cbn. unfold fire. destruct (w_fired w); cbn; [lia|]. case_match; lia. }
  unfold handles. destruct fire; cbn [ready call_soon with_ready next_w waits]; rewrite ?length_app; cbn;
    change (unfired (call_soon _ s1)) with (unfired s1); fold s1; cbn in Hs; try lia.
Qed.

Lemma handles_pop s h rest : ready s = h :: rest -> handles (with_ready rest s) < handles s.
Proof.
  intros E. unfold handles. rewrite E. change (length rest + sum_upto (unfired s) (next_w s) < S (length rest) + sum_upto (unfired s) (next_w s)). lia.
Qed.

(** The handle only leaves the queue, and what it does costs no more than that. *)
Lemma less_pop s h rest s' : ready s = h :: rest -> work s' = work s -> resumes s' = resumes (with_ready rest s) ->
  handles s' <= handles (with_ready rest s) -> less s' s.
Proof.
  intros E Hw Hr Hh. pose proof (resumes_pop s h rest E). pose proof (handles_pop s h rest E). right. split; [lia|]. right. lia.
Qed.

Lemma less_popped s h rest : ready s = h :: rest -> less (with_ready rest s) s.
Proof. intros E. by apply (less_pop s h rest). Qed.

(** The end of a task's step. *)
Lemma less_task_loop f s0 s : work s <= work s0 -> resumes s < resumes s0 -> inv s -> phase s <> PWaitObjs (next_w s) ->
  less (task_loop f s) s0.
Proof.
  intros Hw Hr H Hn. unfold task_loop. destruct (dict_keys (fs_of f s)); right.
  - pose proof (work_complete_le f s H). rewrite resumes_complete. lia.
  - rewrite (calm_work _ _ (calm_wait _ _ _ _)), resumes_task_wait by done. auto.
Qed.

Lemma cancel_env s f r : futs s !! f = Some r -> env_finishes r = true -> cancel f s = s.
Proof. intros E He. unfold cancel. rewrite E. destruct (f_done r); [done|]. unfold env_finishes in He. by destruct (f_obj r), (f_kind r). Qed.

(** A task's job futures are the environment's to end: cancelling them changes nothing here. *)
Lemma cancel_fs x e f s : live x e s -> fold_left (fun s g => cancel g s) (dict_keys (fs_of f s)) s = s.
Proof.
  intros L. assert (forall g, g ∈ dict_keys (fs_of f s) -> cancel g s = s) as Hg.
  { intros g Hg. destruct (l_fs _ _ _ L f g Hg) as (r & Hr & He). by apply (cancel_env s g r). }
  revert Hg. generalize (dict_keys (fs_of f s)) as gs. induction gs as [|g gs IH]; intros Hg; cbn; [done|].
  rewrite Hg by (by left). apply IH. intros h Hh. apply Hg. by right.
Qed.

Lemma resumes_set_cancel s f : inv s ->
  resumes (set_cancel false f s) + cancelled s f <= resumes s.
Proof.
  intros H. unfold set_cancel. destruct (futs s !! f) as [r|] eqn:E; [|unfold cancelled; rewrite E; lia].
  pose proof (fut_bound s f r H E) as Hlt. set (s' := with_futs _ _). unfold resumes.
  cut (sum_upto (resumes_of s') (next s) + cancelled s f <= sum_upto (resumes_of s) (next s)).
  { change (phase s') with (phase s). change (ready s') with (ready s). change (next s') with (next s). lia. }
  assert (forall i, resumes_of s' i = (if decide (i ∈ main_fs s) then 1 else 0) + length (fs_of i s) + cancelled s' i) as Hr by done.
  apply (sum_upto_drop _ _ _ f); [done| |].
  - intros i _. rewrite Hr. unfold resumes_of, cancelled, s'. cbn. destruct (decide (f = i)) as [<-|]; [|by rewrite lookup_insert_ne].
    rewrite lookup_insert_eq. cbn. lia.
  - rewrite Hr. unfold resumes_of, cancelled, s'. cbn. rewrite lookup_insert_eq, E. cbn. lia.
Qed.

(** A task gets its [CancelledError]: it was asked to cancel, or the handle that brings the exception is gone. *)
Lemma less_task_cancelled x e s0 s f : work s <= work s0 -> inv s -> live x e s ->
  resumes s < resumes s0 + cancelled s f -> less (task_cancelled f s) s0.
Proof.
  intros Hw H L Hr. unfold task_cancelled. pose proof (keeps_live x e s _ (keeps_set_cancel false f s) L) as L1.
  rewrite (cancel_fs x e) by done. pose proof (resumes_set_cancel s f H).
  apply (less_task_loop f); [by rewrite (calm_work _ _ (calm_set_cancel false f s)) | lia | inv_same | by eapply phase_new].
Qed.

Lemma main_fs_main_loop s f : f ∈ main_fs (main_loop s) -> f ∈ dict_keys (running_objects s).
Proof.
  unfold main_loop. destruct (dict_keys (running_objects s)) as [|k ks] eqn:Ek.
  - destruct (running_cleanups s); unfold main_fs; rewrite ?phase_wait; cbn; by intros ?%not_elem_of_nil.
  - destruct (wait_obs OwnMain false (k :: ks) (with_phase (PWaitObjs (next_w s)) s)) as (Hw & Hp & Hr & _).
    unfold main_fs. rewrite Hp, Hr. cbn [phase with_phase running_objects next_w] in *. rewrite Hw, decide_True, Ek by done.
    cbn [fmap option_fmap option_map default from_option w_fs id]. rewrite elem_of_app. tauto.
Qed.

(** [Root.run] resumes with the finished objects [done]: it waits for fewer, or goes on. *)
Lemma resumes_main_loop wid w g s done : inv s -> phase s = PWaitObjs wid -> waits s !! wid = Some w -> g ∈ w_fs w -> g ∈ done ->
  is_done s g = true -> forall l, resumes (main_loop (with_lost l (with_running (delete_done done (running_objects s)) s))) < resumes s.
Proof.
  intros H Hp Hw Hg Hgd Hd l. set (s3 := with_lost _ _). destruct (delete_done_ok done (running_objects s) (inv_dict _ H)) as [_ Hin].
  assert (forall f, f ∈ main_fs (main_loop s3) -> f ∈ dict_keys (running_objects s) /\ f ∉ done) as Hm.
  { intros f Hf. apply Hin. exact (main_fs_main_loop s3 f Hf). }
  assert (main_fs s = w_fs w ++ dict_keys (running_objects s)) as Es by (unfold main_fs; by rewrite Hp, Hw).
  apply resumes_main.
  - etrans; [|apply steady_main_loop]. done.
  - rewrite Hp. destruct (phase (main_loop s3)); cbn; lia.
  - intros f Hf. rewrite Es. apply elem_of_app. right. by apply Hm.
  - right. exists g. split_and!; [|rewrite Es; apply elem_of_app; by left | by intros [_ ?]%Hm].
    unfold is_done in Hd. destruct (futs s !! g) as [r|] eqn:E; [|done]. by eapply fut_bound.
Qed.

Lemma resumes_stopped wid s : phase s = PWaitCleanups wid -> resumes (with_phase PStopped s) < resumes s.
Proof.
  intros Hp. apply resumes_main; [done | cbn; lia | by intros f ?%not_elem_of_nil | left; rewrite Hp; cbn; lia].
Qed.

(** What holds in every reachable state. *)
Record facts (s : st) : Prop := {
  fa_inv : inv s; fa_winv : winv s; fa_live : live [] None s; fa_tinv : tinv s; fa_about : about None s }.

Lemma facts_reachable s : reachable s -> facts s.
Proof.
  intros R. destruct (live_reachable s R) as [L (H & Hw & _)]. constructor; auto using tinv_reachable, about_reachable.
Qed.

Lemma delete_shrinks {V} done (d : list (nat * V)) g : dict_ok d -> g ∈ dict_keys d -> g ∈ done -> length (delete_done done d) < length d.
Proof.
  intros Hok Hg Hd. destruct (delete_done_ok done d Hok) as [Hok' Hin].
  assert (length (dict_keys (delete_done done d)) < length (dict_keys d)) as Hl; [|unfold dict_keys in Hl; by rewrite !length_fmap in Hl].
  apply (Nat.lt_le_trans _ (length (g :: dict_keys (delete_done done d)))); [cbn; lia|].
  apply submseteq_length, NoDup_submseteq.
  - constructor; [by rewrite Hin; intros [_ ?] | exact Hok'].
  - intros f [->|Hf]%elem_of_cons; [done | by apply Hin in Hf as [? _]].
Qed.

(** A task resumes with finished jobs: its [fs] has fewer. *)
Lemma resumes_delete f g done s : f < next s -> dict_ok (fs_of f s) -> g ∈ dict_keys (fs_of f s) -> g ∈ done ->
  resumes (with_task_fs (<[f := delete_done done (fs_of f s)]> (task_fs s)) s) < resumes s.
Proof.
  intros Hlt Hok Hg Hd. set (s' := with_task_fs _ _). pose proof (delete_shrinks done _ g Hok Hg Hd) as Hl.
  cut (sum_upto (resumes_of s') (next s) + 1 <= sum_upto (resumes_of s) (next s)).
  { unfold resumes. change (phase s') with (phase s). change (ready s') with (ready s). change (next s') with (next s). lia. }
  assert (forall i, resumes_of s' i = (if decide (i ∈ main_fs s) then 1 else 0) + length (fs_of i s') + cancelled s i) as Hr by done.
  assert (forall i, fs_of i s' = if decide (f = i) then delete_done done (fs_of f s) else fs_of i s) as Hf.
  { intros i. unfold fs_of at 1, s'. cbn. case_decide; [subst; by rewrite lookup_insert_eq | by rewrite lookup_insert_ne]. }
  apply (sum_upto_drop _ _ _ f); [done| |].
  - intros i _. rewrite Hr, Hf. unfold resumes_of. destruct (decide (f = i)) as [<-|]; lia.
  - rewrite Hr, Hf. unfold resumes_of. destruct (decide (f = f)); [lia | done].
Qed.

Lemma less_main_wake s0 s wid w g done : inv s -> waits s !! wid = Some w -> g ∈ w_fs w -> g ∈ done -> is_done s g = true ->
  work s <= work s0 -> resumes s <= resumes s0 -> less s s0 -> less (main_wake wid done s) s0.
Proof.
  intros H Hw Hg Hgd Hd W R Hless. unfold main_wake. destruct (phase s) eqn:Ep; try done; case_decide; try done; subst wid0; right.
  - rewrite (calm_work _ _ (calm_main_loop _)). split; [done|]. left. eapply Nat.lt_le_trans; [|exact R].
    by apply (resumes_main_loop wid w g).
  - split; [done|]. left. eapply Nat.lt_le_trans; [by eapply resumes_stopped | done].
Qed.

Lemma less_task_wake s0 s f r g done : inv s -> phase s <> PWaitObjs (next_w s) -> futs s !! f = Some r ->
  dict_ok (fs_of f s) -> g ∈ dict_keys (fs_of f s) -> g ∈ done -> work s <= work s0 -> resumes s <= resumes s0 ->
  less (task_loop f (with_task_fs (<[f := delete_done done (fs_of f s)]> (task_fs s)) s)) s0.
Proof.
  intros H Hn Hf Hok Hg Hgd W R. apply (less_task_loop f); try done.
  - eapply Nat.lt_le_trans; [|exact R]. apply (resumes_delete f g); try done. by eapply fut_bound.
  - by apply (inv_same s).
Qed.

Lemma collect_in wid w s g : g ∈ w_fs w -> is_done s g = true -> g ∈ (collect wid w s).1.
Proof.
  intros Hg Hd. unfold collect. cbn. apply list_elem_of_In, filter_In. split; [by apply list_elem_of_In|].
  change (is_done (collect wid w s).2 g = true). by rewrite (same_done _ _ (same_collect wid w s)).
Qed.

(** A coroutine resumes from its wait call, one of whose futures is done. *)
Lemma less_wake s wid rest : facts s -> ready s = HWake wid :: rest -> less (wake wid (with_ready rest s)) s.
Proof.
  intros F E. set (s1 := with_ready rest s). assert (HWake wid ∈ ready s) as Hin by (rewrite E; by left).
  destruct (a_wake _ _ (fa_about _ F) wid Hin) as (g & (w & Hw & Hg) & Hgd).
  assert (resumes s1 = resumes s) as R1 by (pose proof (resumes_pop s _ rest E) as Hr; cbn [is_hcancel] in Hr; unfold s1; lia).
  assert (inv s1) as H1 by (eapply inv_same; [by eapply same_pop | done | apply F]).
  pose proof (live_pop s _ rest (fa_live _ F) E) as L1.
  unfold wake. change (waits s1 !! wid) with (waits s !! wid). rewrite Hw. change (futs s1) with (futs s).
  pose proof (collect_in wid w s1 g Hg Hgd) as Hgc. pose proof (inv_collect wid w s1 H1) as H2.
  pose proof (calm_work _ _ (calm_collect wid w s1)) as W2. pose proof (resumes_collect wid w s1) as R2.
  assert (less (collect wid w s1).2 s) as Hless.
  { apply (less_pop s (HWake wid) rest); [exact E | done | done | by rewrite (handles_collect wid w s1)]. }
  pose proof (mild_collect wid w s1) as [_ _ Ew2 _ En2 Ep2]. pose proof (fun f => grow_Some _ _ f (tf_grow _ _ (tframe_collect wid w s1))) as F2.
  pose proof (tf_fs _ _ (tframe_collect wid w s1)) as T2. pose proof (same_done _ _ (same_collect wid w s1) g) as D2.
  destruct (collect wid w s1) as [done s2]; cbn [fst snd] in *. change (work s1) with (work s) in W2.
  destruct (w_owner w) as [|f].
  - apply (less_main_wake s s2 wid w g); try done; [by rewrite Ew2 | by rewrite D2 | lia | lia].
  - destruct (futs s !! f) as [r|] eqn:Ef; [|by apply (less_popped s (HWake wid))].
    destruct (f_done r || _) eqn:Edc; [by apply (less_popped s (HWake wid))|].
    apply orb_false_iff in Edc as [Hd Hc%negb_false_iff%bool_decide_eq_true]. destruct (f_cancel r) eqn:Hcan.
    + eapply (less_task_cancelled _ _ s s1); [done | done | exact L1|].
      unfold cancelled. change (futs s1) with (futs s). rewrite Ef, Hcan. lia.
    + destruct (F2 f) as [r2 Hf2]; [by exists r|]. assert (fs_of f s2 = fs_of f s) as Efs by (unfold fs_of; by rewrite T2).
      apply (less_task_wake s s2 f r2 g); try done; rewrite ?Efs, ?Ep2, ?En2; try lia; [by eapply phase_new| |].
      * apply (t_dict _ _ (fa_tinv _ F f)).
      * apply (a_cur _ _ (fa_about _ F) f wid); [done | exact Hc | unfold is_done; by rewrite Ef | by exists w].
Qed.

(** A step of the loop or of the environment in which no service starts and no service starts a task. *)
Inductive quiet : st -> st -> Prop :=
| quiet_handle s h rest : phase s <> PStopped -> ready s = h :: rest -> quiet s (run_handle h (with_ready rest s))
| quiet_finish s f r : phase s <> PStopped -> futs s !! f = Some r -> f_done r = false -> env_finishes r = true ->
    quiet s (complete f s).

Lemma quiet_step s s' : quiet s s' -> step s s'.
Proof. intros []; [by apply step_handle | by eapply step_finish]. Qed.

Lemma quiet_reachable s s' : reachable s -> rtc quiet s s' -> reachable s'.
Proof. intros R Q. unfold reachable. etrans; [exact R|]. eapply rtc_subrel; [|exact Q]. apply quiet_step. Qed.

Lemma less_quiet s s' : facts s -> quiet s s' -> less s' s.
Proof.
  intros F Q. pose proof (fa_inv _ F) as H. destruct Q as [s h rest _ E|s f r _ Hf Hd _]; [|left; by eapply work_complete].
  pose proof (less_popped s h rest E) as Hpop. pose proof (live_pop s h rest (fa_live _ F) E) as L1.
  assert (no_cleanup h -> inv (with_ready rest s)) as H1.
  { intros. eapply inv_same; [by eapply same_pop | done | done]. }
  destruct h as [f|f [| |wid]|wid|f]; cbn [run_handle]; try (specialize (H1 ltac:(by intros ? [=]))).
  - destruct (futs s !! f) as [r|] eqn:Ef; [|unfold first_step; cbn; by rewrite Ef].
    destruct (f_started r || f_done r) eqn:Esd; [unfold first_step; cbn; by rewrite Ef, Esd|].
    apply orb_false_iff in Esd as [Hs Hd]. left. by apply (work_first_step f r (with_ready rest s)).
  - left. by apply work_schedule_cleanup.
  - by apply (less_pop s (HCb f CbTasksPop) rest).
  - apply (less_pop s (HCb f (CbWait wid)) rest); [done | | apply resumes_on_completion | by eapply handles_on_completion].
    by rewrite (calm_work _ _ (calm_on_completion _ _ _)).
  - by apply less_wake.
  - case_match; [done|]. eapply (less_task_cancelled _ _ s); [done | done | exact L1|].
    pose proof (resumes_pop s (HCancel f) rest E) as Hr. cbn [is_hcancel] in Hr. lia.
Qed.

Lemma phase_first_step f s : phase (first_step f s) = phase s.
Proof. unfold first_step. repeat case_match; autorewrite with root_phase; done. Qed.

Lemma phase_wake wid s : phase s <> PRun -> phase (wake wid s) <> PRun.
Proof.
  intros Hp. unfold wake. destruct (waits s !! wid) as [w|]; [|done]. pose proof (phase_collect wid w s) as Hc.
  destruct (collect wid w s) as [done s2]; cbn [snd] in Hc. destruct (w_owner w) as [|f].
  - unfold main_wake. destruct (phase s2) eqn:E; rewrite <- Hc in Hp; repeat case_match; try done; try (rewrite E; done).
    apply phase_main_loop.
  - repeat case_match; rewrite ?phase_task_cancelled, ?phase_task_loop; try done. cbn. by rewrite Hc.
Qed.

Lemma quiet_phase s s' : quiet s s' -> phase s <> PRun -> phase s' <> PRun.
Proof.
  intros [s1 h rest _ _|s1 f r _ _ _ _] Hp; [|by rewrite phase_complete].
  destruct h as [f|f [| |wid]|wid|f]; cbn [run_handle]; rewrite ?phase_first_step, ?phase_on_completion; try done.
  - unfold schedule_cleanup. by case_match.
  - by apply phase_wake.
  - case_match; [done | by rewrite phase_task_cancelled].
Qed.

Lemma quiet_phase_rtc s s' : rtc quiet s s' -> phase s <> PRun -> phase s' <> PRun.
Proof. induction 1; eauto using quiet_phase. Qed.

(** A stopping root that has not stopped has a quiet step. *)
Lemma quiet_red s : reachable s -> phase s <> PRun -> phase s <> PStopped -> red quiet s.
Proof.
  intros R Hp1 Hp2. destruct (stopping_moves s R Hp1 Hp2) as [(h & rest & E & _)|(_ & f & (r & Hf & Hd & He) & _)].
  - eexists. by eapply quiet_handle.
  - eexists. by eapply quiet_finish.
Qed.

Lemma quiet_sn s : reachable s -> sn quiet s.
Proof.
  induction s as [s IH] using less_ind. intros R. constructor. intros s' Q. apply IH.
  - apply less_quiet; [by apply facts_reachable | done].
  - eapply quiet_reachable; [exact R | by apply rtc_once].
Qed.

(** C13: the shutdown of the root ends.  From every reachable state after the stop signal, as long as no service starts
    another task, every sequence of handles and of ends of services, jobs and cleanups is finite, in whatever order they
    come; one that cannot be continued has reached [loop.stop()]; and there is one that reaches it. *)
Theorem shutdown_ends s : reachable s -> phase s <> PRun ->
  sn quiet s /\ (forall s', rtc quiet s s' -> nf quiet s' -> phase s' = PStopped) /\
  exists s', rtc quiet s s' /\ phase s' = PStopped.
Proof.
  intros R Hp. split; [by apply quiet_sn|].
  assert (forall s', rtc quiet s s' -> phase s' = PStopped \/ red quiet s') as Hred.
  { intros s' Q. destruct (decide (phase s' = PStopped)) as [?|Hn]; [by left | right].
    apply quiet_red; [by eapply quiet_reachable | by eapply quiet_phase_rtc | done]. }
  split; [intros s' Q Hnf; by destruct (Hred s' Q)|].
  assert (forall t, rtc quiet s t -> exists s', rtc quiet s s' /\ phase s' = PStopped) as Hex; [|by apply (Hex s)].
  intros t Q. pose proof (quiet_sn t (quiet_reachable _ _ R Q)) as Ht. induction Ht as [t _ IH].
  destruct (Hred t Q) as [?|[t' Qt]]; [eauto|]. apply (IH t' Qt). by eapply rtc_r.
Qed.

(** A service, a task with a job, the stop signal: the cancelled task waits for its job. *)
Lemma shutdown_ends_witness : phase stuck_state <> PStopped /\ exists s, rtc quiet stuck_state s /\ phase s = PStopped.
Proof.
  split; [by vm_compute|].
  destruct (shutdown_ends stuck_state stuck_reachable ltac:(by vm_compute)) as (_ & _ & H). exact H.
Defined.
