(* ===== verification/Coro.v ===== *)
(** * Coroutines

    Code that changes a state, may raise and may not end: [co S A] is [None] when a loop has used up its fuel, and
    otherwise the outcome and the final state.  The combinators are those of the source: sequencing, [try]/[except],
    [for] loops over a list and [while True] loops that end with [return]. *)

From S2P Require Import Prelude.

Definition co (S A : Type) : Type := S -> option (res A * S).

#[global] Instance co_ret {S} : MRet (co S) := fun A a s => Some (Ok a, s).
#[global] Instance co_bind {S} : MBind (co S) :=
  fun A B f m s =>
    match m s with
    | Some (Ok a, s') => f a s'
    | Some (Raise e, s') => Some (Raise e, s')
    | None => None
    end.

Section Ops.
Context {S A : Type}.
Definition co_get : co S S := fun s => Some (Ok s, s).
Definition co_modify (f : S -> S) : co S unit := fun s => Some (Ok tt, f s).
Definition co_raise (e : exn) : co S A := fun s => Some (Raise e, s).
Definition co_lift (r : res A) : co S A := fun s => Some (r, s).

(** An operation of the state that may raise and ends. *)
Definition co_op (f : S -> res A * S) : co S A := fun s => Some (f s).

(** [try: m except ...: h e] where [h e] is [None] for the exceptions no clause catches. *)
Definition co_catch (m : co S A) (h : exn -> option (co S A)) : co S A := fun s =>
  match m s with
  | Some (Raise e, s') => match h e with Some k => k s' | None => Some (Raise e, s') end
  | r => r
  end.

(** [while True: body], where [body] gives the value returned or [None] to go round again. *)
Fixpoint co_loop (fuel : nat) (body : co S (option A)) : co S A :=
  match fuel with
  | 0 => fun _ => None
  | Datatypes.S fuel => r ← body; match r with Some a => mret a | None => co_loop fuel body end
  end.
End Ops.

(** [for x in l: f x], and [[f x for x in l]] *)
Fixpoint co_iter {S A} (f : A -> co S unit) (l : list A) : co S unit :=
  match l with
  | [] => mret tt
  | x :: l => _ ← f x; co_iter f l
  end.

Fixpoint co_map {S A B} (f : A -> co S B) (l : list A) : co S (list B) :=
  match l with
  | [] => mret []
  | x :: l => y ← f x; ys ← co_map f l; mret (y :: ys)
  end.

(** A left fold with an accumulator the body replaces. *)
Fixpoint co_fold {S A B} (f : B -> A -> co S B) (b : B) (l : list A) : co S B :=
  match l with
  | [] => mret b
  | x :: l => b' ← f b x; co_fold f b' l
  end.

Lemma co_bind_eq {S A B} (m : co S A) (f : A -> co S B) s :
  (m ≫= f) s = match m s with Some (Ok a, s') => f a s' | Some (Raise e, s') => Some (Raise e, s') | None => None end.
Proof. done. Qed.

Lemma co_bind_Some {S A B} (m : co S A) (f : A -> co S B) s o s' :
  (m ≫= f) s = Some (o, s') <->
    (exists a s1, m s = Some (Ok a, s1) /\ f a s1 = Some (o, s')) \/
    (exists e, m s = Some (Raise e, s') /\ o = Raise e).
Proof. rewrite co_bind_eq. destruct (m s) as [[[a|e] s1]|]; naive_solver. Qed.

Lemma co_bind_Ok {S A B} (m : co S A) (f : A -> co S B) s b s' :
  (m ≫= f) s = Some (Ok b, s') <-> exists a s1, m s = Some (Ok a, s1) /\ f a s1 = Some (Ok b, s').
Proof. rewrite co_bind_Some. naive_solver. Qed.

(** A loop whose body always ends and makes progress towards zero whenever it goes round again ends. *)
Lemma co_loop_ends {S A} (P : S -> nat -> Prop) (body : co S (option A)) n s :
  (forall s k, P s k -> exists o s', body s = Some (o, s') /\ (o = Ok None -> exists k', k' < k /\ P s' k')) ->
  P s n -> exists o s', co_loop (Datatypes.S n) body s = Some (o, s').
Proof.
  intros Hb. cut (forall m s k, k <= m -> P s k -> exists o s', co_loop (Datatypes.S m) body s = Some (o, s')).
  { intros H Hp. by apply (H n s n). }
  clear n s. induction m as [|m IH]; intros s k Hk Hp; destruct (Hb s k Hp) as (o & s' & E & Ho);
    cbn [co_loop]; rewrite co_bind_eq, E.
  - destruct o as [[a|]|e]; [eauto| |eauto]. destruct (Ho eq_refl) as (k' & ? & _). lia.
  - destruct o as [[a|]|e]; [eauto| |eauto]. destruct (Ho eq_refl) as (k' & ? & Hp').
    apply (IH s' k'); [lia | done].
Qed.

(** An invariant of the body that holds however it ends is one of the loop. *)
Lemma co_loop_inv {S A} (P : S -> Prop) (Q : res A -> S -> Prop) (body : co S (option A)) fuel s o s' :
  (forall s o s', P s -> body s = Some (o, s') ->
     match o with Ok (Some a) => Q (Ok a) s' | Ok None => P s' | Raise e => Q (Raise e) s' end) ->
  P s -> co_loop fuel body s = Some (o, s') -> Q o s'.
Proof.
  intros Hb. revert s. induction fuel as [|fuel IH]; intros s Hp; cbn [co_loop]; [done|].
  rewrite co_bind_eq. destruct (body s) as [[r s1]|] eqn:E; [|done]. specialize (Hb _ _ _ Hp E).
  destruct r as [[a|]|e]; [by intros [= <- <-] | by apply IH | by intros [= <- <-]].
Qed.

(** How a loop got to its end: the rounds that went round again, then the one that did not. *)
Lemma co_loop_trace {S A} (body : co S (option A)) fuel s o s' : co_loop fuel body s = Some (o, s') ->
  exists k s1, k < fuel /\ nsteps (fun a b => body a = Some (Ok None, b)) k s s1 /\
    body s1 = Some (match o with Ok a => Ok (Some a) | Raise e => Raise e end, s').
Proof.
  revert s. induction fuel as [|fuel IH]; intros s; cbn [co_loop]; [done|]. rewrite co_bind_eq.
  destruct (body s) as [[[[a|]|e] s1]|] eqn:E; [|  | |done].
  - intros [= <- <-]. exists 0, s. split; [lia|]. split; [constructor | done].
  - intros (k & s2 & ? & ? & ?)%IH. exists (Datatypes.S k), s2. split; [lia|]. split; [by econstructor | done].
  - intros [= <- <-]. exists 0, s. split; [lia|]. split; [constructor | done].
Qed.

(** ** What a coroutine keeps, and that it ends

    [within R m]: however [m] ends, the states before and after are related by [R]; for a preorder [R] the rules below
    follow the structure of the program.  [ends P m]: from a state with [P], [m] ends, in a state with [P]. *)
Definition within {S A} (R : S -> S -> Prop) (m : co S A) : Prop := forall s o s', m s = Some (o, s') -> R s s'.
Definition ends {S A} (P : S -> Prop) (m : co S A) : Prop := forall s, P s -> exists o s', m s = Some (o, s') /\ P s'.

Create HintDb co.

Section Within.
Context {S : Type} (R : S -> S -> Prop) `{!Reflexive R} `{!Transitive R}.

Lemma within_ret {A} (a : A) : within R (mret a : co S A).
Proof. intros s o s' [= <- <-]. done. Qed.
Lemma within_lift {A} (r : res A) : within R (co_lift r : co S A).
Proof. intros s o s' [= <- <-]. done. Qed.
Lemma within_raise {A} e : within R (co_raise e : co S A).
Proof. intros s o s' [= <- <-]. done. Qed.
Lemma within_get : within R co_get.
Proof. intros s o s' [= <- <-]. done. Qed.
Lemma within_modify f : (forall s, R s (f s)) -> within R (co_modify f).
Proof. intros Hf s o s' [= <- <-]. done. Qed.
Lemma within_bind {A B} (m : co S A) (f : A -> co S B) : within R m -> (forall a, within R (f a)) -> within R (m ≫= f).
Proof. intros Hm Hf s o s' [(a & s1 & ? & ?)|(e & ? & ->)]%co_bind_Some; [etrans; [by eapply Hm | by eapply Hf] | by eapply Hm]. Qed.
Lemma within_catch {A} (m : co S A) h : within R m -> (forall e k, h e = Some k -> within R k) -> within R (co_catch m h).
Proof.
  intros Hm Hh s o s'. unfold co_catch. destruct (m s) as [[[a|e] s1]|] eqn:Em; [| |done].
  - intros [= <- <-]. by eapply Hm.
  - destruct (h e) as [k|] eqn:Eh; [|intros [= <- <-]; by eapply Hm]. intros. etrans; [by eapply Hm | by eapply Hh].
Qed.
Lemma within_iter {A} (f : A -> co S unit) l : (forall x, within R (f x)) -> within R (co_iter f l).
Proof. intros Hf. induction l as [|x l IH]; [apply within_ret | apply within_bind; auto]. Qed.
Lemma within_fold {A B} (f : B -> A -> co S B) b l : (forall b x, within R (f b x)) -> within R (co_fold f b l).
Proof. intros Hf. revert b. induction l as [|x l IH]; intros b; [apply within_ret | apply within_bind; auto]. Qed.
Lemma within_loop {A} fuel (body : co S (option A)) : within R body -> within R (co_loop fuel body).
Proof.
  intros Hb. induction fuel as [|fuel IH]; [by intros s o s' [=]|]. apply within_bind; [done|].
  intros [a|]; [apply within_ret | done].
Qed.
End Within.

Section Ends.
Context {S : Type} (P : S -> Prop).

Lemma ends_ret {A} (a : A) : ends P (mret a : co S A).
Proof. intros s Hs. by do 2 eexists. Qed.
Lemma ends_lift {A} (r : res A) : ends P (co_lift r : co S A).
Proof. intros s Hs. by do 2 eexists. Qed.
Lemma ends_raise {A} e : ends P (co_raise e : co S A).
Proof. intros s Hs. by do 2 eexists. Qed.
Lemma ends_get : ends P co_get.
Proof. intros s Hs. by do 2 eexists. Qed.
Lemma ends_modify f : (forall s, P s -> P (f s)) -> ends P (co_modify f).
Proof. intros Hf s Hs. do 2 eexists. split; [done|]. auto. Qed.
Lemma ends_bind {A B} (m : co S A) (f : A -> co S B) : ends P m -> (forall a, ends P (f a)) -> ends P (m ≫= f).
Proof. intros Hm Hf s Hs. rewrite co_bind_eq. destruct (Hm s Hs) as ([a|e] & s1 & -> & ?); [by apply Hf | eauto]. Qed.
Lemma ends_catch {A} (m : co S A) h : ends P m -> (forall e k, h e = Some k -> ends P k) -> ends P (co_catch m h).
Proof.
  intros Hm Hh s Hs. unfold co_catch. destruct (Hm s Hs) as ([a|e] & s1 & -> & ?); [eauto|].
  destruct (h e) eqn:He; [by eapply Hh | eauto].
Qed.
Lemma ends_iter {A} (f : A -> co S unit) l : (forall x, ends P (f x)) -> ends P (co_iter f l).
Proof. intros Hf. induction l as [|x l IH]; [apply ends_ret | apply ends_bind; auto]. Qed.
Lemma ends_fold {A B} (f : B -> A -> co S B) b l : (forall b x, ends P (f b x)) -> ends P (co_fold f b l).
Proof. intros Hf. revert b. induction l as [|x l IH]; intros b; [apply ends_ret | apply ends_bind; auto]. Qed.
End Ends.

#[export] Hint Resolve within_ret within_lift within_raise within_get within_modify within_bind within_catch within_iter
  within_fold within_loop ends_ret ends_lift ends_raise ends_get ends_modify ends_bind ends_catch ends_iter ends_fold : co.

(** Follow the structure of a program: binds, conditionals and matches. *)
Ltac co_step :=
  repeat first
    [ progress intros
    | match goal with
      | |- within _ (if ?b then _ else _) => destruct b
      | |- ends _ (if ?b then _ else _) => destruct b
      | |- within _ (match ?x with _ => _ end) => destruct x
      | |- ends _ (match ?x with _ => _ end) => destruct x
      end
    | solve [eauto 3 with co]
    | apply within_bind; try exact _
    | apply ends_bind
    | apply within_fold; try exact _
    | apply ends_fold
    | apply within_iter; try exact _
    | apply ends_iter ].
