(* ===== verification/AsyncSSH.v ===== *)
(** * [rallyci/common/asyncssh.py]: the ssh client

    The processes, sockets and clock are a [World]: what the client asks of it is an operation, and [WorldOk] states
    that the clock does not go back and that [asyncio.sleep] sleeps.  A client's only state is its [_ready] flag. *)

From Stdlib Require Import QArith Lqa.
From S2P Require Import Prelude Coro PyStr PyVal.
Open Scope nat_scope.

(** What a subprocess gives: the bytes the calls of [readline] returned until [at_eof()], then the exit code of [wait()] or
    the exception that interrupted the reading or the waiting.  [at_eof()] is true only once the end of the stream has
    been received: when it is received during the last call, that call returns an empty line, so a command that prints
    nothing gives [[""]], or [[]] when its end was known before the first test. *)
Record proc := Proc { p_reads : list string; p_end : res Z }.

Class World (E : Type) := {
  now : E -> Q;                                        (* time.time() *)
  sleep : Q -> E -> E;                                 (* asyncio.sleep(n) *)
  connect : string -> Z -> E -> res unit * E;          (* asyncio.open_connection(host, port) *)
  spawn : list string -> option string -> E -> proc * E; (* asyncio.create_subprocess_exec *)
  reaped : E -> bool;                                  (* has the last subprocess been waited for by the loop? *)
  log_line : string -> E -> E }.                       (* the default callback: LOG.debug *)

Class WorldOk (E : Type) `{World E} : Prop := {
  sleep_sleeps : forall q e, (now e + q <= now (sleep q e))%Q;
  connect_mono : forall h p e, (now e <= now (connect h p e).2)%Q;
  spawn_mono : forall a i e, (now e <= now (spawn a i e).2)%Q;
  log_mono : forall l e, (now e <= now (log_line l e))%Q }.

Record client := Client { username : string; hostname : string; key : string; port : Z }.

(** [AsyncSSH(username, hostname, key, port)]; an absent user or key is the empty string. *)
Definition new_client (username hostname key : string) (port : Z) : client :=
  Client (if str_eqb username "" then "root" else username) hostname key port.

Inductive command := CmdStr (s : string) | CmdList (l : list string).

Definition words (c : command) : list string :=
  match c with CmdStr s => split " " s | CmdList l => l end.

(** The argument list of the [ssh] process. *)
Definition ssh_argv (c : client) (user : string) (cmd : command) : list string :=
  ["ssh"; "-T"; "-o"; "StrictHostKeyChecking=no"; user +:+ "@" +:+ hostname c; "-p"; str_of_Z (port c)]
  ++ (if str_eqb (key c) "" then [] else ["-i"; key c])
  ++ words cmd.

Definition scp_argv (c : client) (src dst : string) : list string :=
  ["scp"; "-B"; "-o"; "StrictHostKeyChecking no"]
  ++ (if str_eqb (key c) "" then [] else ["-i"; key c])
  ++ ["-P"; str_of_Z (port c)]
  ++ ["-r"; username c +:+ "@" +:+ hostname c +:+ ":" +:+ src; dst].

(** The options of [run]. *)
Record opts := Opts { stdin : option string; return_output : bool; strip_output : bool; raise_on_error : bool;
                      user : string }.
Definition default_opts : opts := Opts None false true true "".

Section Client.
Context {E : Type} `{World E}.

Record sst := SSt { ready : bool; env : E }.

Definition upd_env (f : E -> E) : co sst unit := co_modify (fun s => SSt (ready s) (f (env s))).
Definition env_op {A} (f : E -> A * E) : co sst A := fun s =>
  let '(a, e) := f (env s) in Some (Ok a, SSt (ready s) e).
Definition env_res {A} (f : E -> res A * E) : co sst A := fun s =>
  let '(a, e) := f (env s) in Some (a, SSt (ready s) e).

(** One round of the loop of [wait]: a connection, or a second of sleep before the next round. *)
Definition wait_body (c : client) (start timeout : Q) : co sst (option unit) :=
  r ← co_catch (_ ← env_res (connect (hostname c) (port c)); _ ← co_modify (fun s => SSt true (env s)); mret (Some tt))
        (fun e => match e with ConnectionError => Some (mret None) | _ => None end);
  match r with
  | Some _ => mret (Some tt)
  | None =>
      s ← co_get;
      if negb (Qle_bool (now (env s) - start) timeout)
      then co_raise (ExceptionMsg "Timeout waiting for")
      else _ ← upd_env (sleep 1); mret None
  end.

(** [wait(timeout)] with fuel for [timeout] seconds of one-second sleeps. *)
Definition wait_fuel (timeout : nat) : nat := timeout + 2.
Definition wait (c : client) (timeout : nat) : co sst unit :=
  s ← co_get; co_loop (wait_fuel timeout) (wait_body c (now (env s)) (inject_Z (Z.of_nat timeout))).

(** [run(command, ...)] of a client with the callback [cb]. *)
Definition run (c : client) (cb : string -> E -> res unit * E) (cmd : command) (o : opts) : co sst pyval :=
  s ← co_get;
  early ← (if ready s then mret None
           else co_catch (_ ← wait c 300; mret None)
                  (fun e => if is_Exception e && negb (raise_on_error o) then Some (mret (Some (PInt (-1)))) else None));
  match early with
  | Some v => mret v
  | None =>
      let u := if str_eqb (user o) "" then username c else user o in
      p ← env_op (spawn (ssh_argv c u cmd) (stdin o));
      _ ← co_iter (fun l => env_res (cb l)) (p_reads p);
      rc ← co_lift (p_end p);
      if negb (Z.eqb rc 0) && raise_on_error o then
        co_raise (match p_reads p with [] => UnboundLocalError | _ => SSHError end)
      else if return_output o then
        output ← co_lift (decode (join "" (p_reads p)));
        mret (PStr (if strip_output o then strip output else output))
      else mret (PInt rc)
  end.

(** [scp_get(src, dst)]: no connection check; the lines are only logged; [process.returncode] without [wait()]. *)
Definition scp_get (c : client) (src dst : string) : co sst pyval :=
  p ← env_op (spawn (scp_argv c src dst) None);
  _ ← co_iter (fun l => upd_env (log_line l)) (p_reads p);
  rc ← co_lift (p_end p);
  s ← co_get;
  mret (if reaped (env s) then PInt rc else PNone).

(** The default callback. *)
Definition cb_log (l : string) (e : E) : res unit * E := (Ok tt, log_line l e).
End Client.
Arguments sst : clear implicits.

(** ** Properties *)

Section ClientLemmas.
Context {E : Type} `{WorldOk E}.

(** One round of [wait]: what it can give, and how the clock moves when it goes round again. *)
Lemma wait_body_spec c start timeout (s : sst E) :
  exists o s', wait_body c start timeout s = Some (o, s') /\
    match o with
    | Ok (Some _) => ready s' = true
    | Ok None => ready s' = ready s /\ (now (env s) - start <= timeout)%Q /\ (now (env s) + 1 <= now (env s'))%Q
    | Raise e => ready s' = ready s /\ (now (env s) <= now (env s'))%Q /\
        (e = ExceptionMsg "Timeout waiting for" /\ (timeout < now (env s') - start)%Q \/
         e <> ConnectionError /\ exists e1, (connect (hostname c) (port c) e1).1 = Raise e)
    end.
Proof.
  unfold wait_body. rewrite co_bind_eq. unfold co_catch at 1. rewrite co_bind_eq. unfold env_res.
  pose proof (connect_mono (hostname c) (port c) (env s)) as Hc.
  destruct (connect (hostname c) (port c) (env s)) as [[[]|e] e1] eqn:Ec; [by do 2 eexists|]. cbn [snd] in Hc.
  destruct (decide (e = ConnectionError)) as [->|Hne].
  - cbn. rewrite co_bind_eq. cbn. destruct (Qle_bool (now e1 - start) timeout) eqn:Hq; cbn.
    + apply Qle_bool_iff in Hq. do 2 eexists. split; [done|]. cbn. pose proof (sleep_sleeps 1 e1). split; [done|]. split; lra.
    + do 2 eexists. split; [done|]. cbn. split; [done|]. split; [done|]. left. split; [done|].
      apply Qnot_le_lt. rewrite <- Qle_bool_iff. by rewrite Hq.
  - assert (match e with ConnectionError => Some (mret None) | _ => None end = @None (co (sst E) (option unit))) as ->
      by (by destruct e).
    do 2 eexists. split; [done|]. cbn. split; [done|]. split; [done|]. right. split; [done|]. exists (env s). by rewrite Ec.
Qed.

(** The fuel is enough: the sleeps use up the timeout. *)
Lemma wait_ends c timeout (s : sst E) : exists o s', wait c timeout s = Some (o, s').
Proof.
  unfold wait. rewrite co_bind_eq. cbn [co_get]. unfold wait_fuel. replace (timeout + 2) with (S (timeout + 1)) by lia.
  set (start := now (env s)).
  apply (co_loop_ends (fun s k => inject_Z (Z.of_nat timeout + 1 - Z.of_nat k) <= now (env s) - start)%Q).
  - intros s1 k Hk. destruct (wait_body_spec c start (inject_Z (Z.of_nat timeout)) s1) as (o & s' & E1 & Ho).
    exists o, s'. split; [done|]. intros ->. destruct Ho as (_ & Hle & Hs).
    assert (inject_Z (Z.of_nat timeout + 1 - Z.of_nat k) <= inject_Z (Z.of_nat timeout))%Q as Hz by lra.
    rewrite <- Zle_Qle in Hz. exists (k - 1). split; [lia|].
    replace (Z.of_nat timeout + 1 - Z.of_nat (k - 1))%Z with (Z.of_nat timeout + 1 - Z.of_nat k + 1)%Z by lia.
    rewrite inject_Z_plus. change (inject_Z 1) with 1%Q. lra.
  - replace (Z.of_nat timeout + 1 - Z.of_nat (timeout + 1))%Z with 0%Z by lia. change (inject_Z 0) with 0%Q. unfold start. lra.
Qed.

(** A round in which the connection was refused, in time: [wait] sleeps and goes round again. *)
Definition refused (c : client) (start timeout : Q) (s s' : sst E) : Prop :=
  exists e1, connect (hostname c) (port c) (env s) = (Raise ConnectionError, e1) /\ (now e1 - start <= timeout)%Q /\
    s' = SSt (ready s) (sleep 1 e1).

Lemma wait_round c start timeout (s s' : sst E) :
  wait_body c start timeout s = Some (Ok None, s') -> refused c start timeout s s'.
Proof.
  unfold wait_body. rewrite co_bind_eq. unfold co_catch at 1. rewrite co_bind_eq. unfold env_res.
  destruct (connect (hostname c) (port c) (env s)) as [[[]|e] e1] eqn:Ec; [done|].
  destruct (decide (e = ConnectionError)) as [->|Hne]; [|by destruct e].
  cbn. rewrite co_bind_eq. cbn. destruct (Qle_bool (now e1 - start) timeout) eqn:Hq; cbn; [|done].
  intros [= <-]. exists e1. split; [done|]. split; [by apply Qle_bool_iff | done].
Qed.

(** How [wait] ends after some refused rounds: at the first connection that is accepted; out of time after one more that
    is not; or with the exception of a connection attempt. *)
Definition wait_post (c : client) (timeout : nat) (s : sst E) (o : res unit) (s' : sst E) : Prop :=
  exists k s1 e1, k < wait_fuel timeout /\ nsteps (refused c (now (env s)) (inject_Z (Z.of_nat timeout))) k s s1 /\
    match o with
    | Ok _ => connect (hostname c) (port c) (env s1) = (Ok tt, e1) /\ s' = SSt true e1
    | Raise e => s' = SSt (ready s) e1 /\
        (e = ExceptionMsg "Timeout waiting for" /\ connect (hostname c) (port c) (env s1) = (Raise ConnectionError, e1) /\
           (inject_Z (Z.of_nat timeout) < now e1 - now (env s))%Q \/
         e <> ConnectionError /\ connect (hostname c) (port c) (env s1) = (Raise e, e1))
    end.

Lemma refused_ready c start timeout k (s s' : sst E) : nsteps (refused c start timeout) k s s' -> ready s' = ready s.
Proof. induction 1 as [|k s s1 s2 (e1 & _ & _ & ->) _ IH]; [done|]. by rewrite IH. Qed.

Lemma wait_outcome c timeout (s : sst E) o s' : wait c timeout s = Some (o, s') -> wait_post c timeout s o s'.
Proof.
  unfold wait. rewrite co_bind_eq. cbn [co_get]. intros (k & s1 & Hk & Hn & Hb)%co_loop_trace.
  set (start := now (env s)) in *. set (tm := inject_Z (Z.of_nat timeout)) in *.
  assert (nsteps (refused c start tm) k s s1) as Hr by (eapply nsteps_congruence with (f := id); [|exact Hn]; intros ??; apply wait_round).
  pose proof (refused_ready _ _ _ _ _ _ Hr) as Hrd. unfold wait_body in Hb. rewrite co_bind_eq in Hb. unfold co_catch at 1 in Hb.
  rewrite co_bind_eq in Hb. unfold env_res in Hb.
  destruct (connect (hostname c) (port c) (env s1)) as [[[]|e] e1] eqn:Ec; exists k, s1, e1; (split; [done|]); (split; [done|]).
  - cbn in Hb. destruct o as [[]|]; [|done]. injection Hb as <-. done.
  - destruct (decide (e = ConnectionError)) as [->|Hne].
    + cbn in Hb. rewrite co_bind_eq in Hb. cbn in Hb. destruct (Qle_bool (now e1 - start) tm) eqn:Hq; cbn in Hb; [by destruct o|].
      destruct o as [|e']; [done|]. injection Hb as <- <-. rewrite Hrd. split; [done|]. left. do 2 (split; [done|]).
      fold start tm. apply Qnot_le_lt. rewrite <- Qle_bool_iff. by rewrite Hq.
    + assert (match e with ConnectionError => Some (mret None) | _ => None end = @None (co (sst E) (option unit))) as Hm
        by (by destruct e).
      rewrite Hm in Hb. destruct o as [|e']; [done|]. injection Hb as <- <-. rewrite Hrd. split; [done|]. by right.
Qed.

Lemma wait_ready c timeout (s s' : sst E) : wait c timeout s = Some (Ok tt, s') -> ready s' = true.
Proof. intros Hw. by destruct (wait_outcome _ _ _ _ _ Hw) as (k & s1 & e1 & _ & _ & _ & ->). Qed.
End ClientLemmas.

(** C25: [wait] ends: whatever the connection attempts do, the loop stops within its timeout's worth of one-second
    sleeps.  After at most [timeout + 1] refused attempts, a second of sleep after each, the next attempt ends it: it is
    accepted, and the client is ready in the state the attempt left; it is refused, too, with more than the timeout
    gone by, and the timeout exception is raised; or it raises something else, which is passed on.  Unless an attempt
    was accepted the client is not made ready. *)
Theorem ssh_wait_terminates {E} `{WorldOk E} c timeout (s : sst E) :
  exists o s', wait c timeout s = Some (o, s') /\ wait_post c timeout s o s'.
Proof. destruct (wait_ends c timeout s) as (o & s' & Hw). exists o, s'. split; [done | by apply wait_outcome]. Qed.

(** A host that refuses the first [w_refuse] connections and gives the outcomes of [w_procs] to the processes. *)
Record sim := Sim { w_time : Q; w_refuse : nat; w_procs : list proc; w_argvs : list (list string) }.
#[export] Instance sim_world : World sim := {
  now := w_time;
  sleep q e := Sim (w_time e + q) (w_refuse e) (w_procs e) (w_argvs e);
  connect _ _ e := match w_refuse e with
                   | 0 => (Ok tt, e)
                   | S n => (Raise ConnectionError, Sim (w_time e) n (w_procs e) (w_argvs e))
                   end;
  spawn argv _ e := match w_procs e with
                    | [] => (Proc [] (Ok 0%Z), Sim (w_time e) (w_refuse e) [] (w_argvs e ++ [argv]))
                    | p :: ps => (p, Sim (w_time e) (w_refuse e) ps (w_argvs e ++ [argv]))
                    end;
  reaped _ := true;
  log_line _ e := e }.
#[export] Instance sim_world_ok : WorldOk sim.
Proof.
  constructor.
  - intros q e. cbn. lra.
  - intros h p e. cbn. destruct (w_refuse e); cbn; lra.
  - intros a i e. cbn. destruct (w_procs e); cbn; lra.
  - intros l e. cbn. lra.
Qed.

Lemma ssh_wait_terminates_witness : exists o s',
  wait (new_client "" "host" "" 22) 300 (SSt false (Sim 0 400 [] [])) = Some (o, s') /\ o = Raise (ExceptionMsg "Timeout waiting for").
Proof.
  destruct (ssh_wait_terminates (new_client "" "host" "" 22) 300 (SSt false (Sim 0 400 [] []))) as (o & s' & Hw & _).
  exists o, s'. split; [done|]. revert Hw. vm_compute. by intros [= <- _].
Defined.

(** What [run] makes of a finished process: an exit code that is not zero raises unless the caller asked not to (the log
    line before the [SSHError] needs the variable of the reading loop, which is unbound only if [at_eof()] was true at
    once); the output, when asked for, is decoded. *)
Definition proc_outcome (p : proc) (o : opts) : res pyval :=
  match p_end p with
  | Raise e => Raise e
  | Ok rc =>
      if negb (Z.eqb rc 0) && raise_on_error o then Raise (match p_reads p with [] => UnboundLocalError | _ => SSHError end)
      else if return_output o
           then output ← decode (join "" (p_reads p)); Ok (PStr (if strip_output o then strip output else output))
           else Ok (PInt rc)
  end.

Definition effective_user (c : client) (o : opts) : string := if str_eqb (user o) "" then username c else user o.

Section RunLemmas.
Context {E : Type} `{WorldOk E}.
Context (cb : string -> E -> res unit * E) (cb_ok : forall l e, (cb l e).1 = Ok tt).

Lemma callbacks_ok lines (s : sst E) :
  co_iter (fun l => env_res (cb l)) lines s = Some (Ok tt, SSt (ready s) (fold_left (fun e l => (cb l e).2) lines (env s))).
Proof.
  revert s. induction lines as [|l lines IH]; intros s; [by destruct s|]. cbn [co_iter fold_left]. rewrite co_bind_eq.
  unfold env_res at 1. pose proof (cb_ok l (env s)) as Hl. destruct (cb l (env s)) as [r e]. cbn in *. subst r. by rewrite IH.
Qed.

(** [run] once the client is ready. *)
Lemma run_ready c cmd o (s : sst E) p e1 : ready s = true ->
  spawn (ssh_argv c (effective_user c o) cmd) (stdin o) (env s) = (p, e1) ->
  run c cb cmd o s = Some (proc_outcome p o, SSt true (fold_left (fun e l => (cb l e).2) (p_reads p) e1)).
Proof.
  intros Hr Hp. unfold run. rewrite co_bind_eq. cbn [co_get]. rewrite Hr, co_bind_eq. cbn [mret co_ret].
  rewrite co_bind_eq. fold (effective_user c o). unfold env_op. rewrite Hp, Hr, co_bind_eq, callbacks_ok. cbn [ready env].
  unfold proc_outcome. rewrite co_bind_eq. unfold co_lift. destruct (p_end p) as [rc|e]; [|done].
  destruct (_ && _), (return_output o); try done. rewrite co_bind_eq. by destruct (decode _).
Qed.

(** [run] of a client that is not ready waits first, and is then the [run] of a ready one. *)
Lemma run_not_ready c cmd o (s : sst E) w s1 : ready s = false -> wait c 300 s = Some (w, s1) ->
  run c cb cmd o s =
    match w with
    | Ok _ => run c cb cmd o s1
    | Raise e => Some (if is_Exception e && negb (raise_on_error o) then Ok (PInt (-1)) else Raise e, s1)
    end.
Proof.
  intros Hr Hw. unfold run at 1. rewrite co_bind_eq. cbn [co_get]. rewrite Hr, co_bind_eq. unfold co_catch.
  rewrite co_bind_eq, Hw. destruct w as [[]|e]; [|by destruct (_ && _)].
  pose proof (wait_ready c 300 s s1 Hw) as Hr1. unfold run at 1. rewrite co_bind_eq. cbn [co_get].
  by rewrite Hr1.
Qed.
End RunLemmas.

(** C24: for callbacks that do not raise, [run] always ends.  A client that is not ready first waits for the port; if
    that raises, the exception is passed on, or, when the caller asked for no exceptions, [-1] is returned whatever the
    exception was, cancellation included.  Then one [ssh] process runs with the command, what [readline] returned goes
    to the callback in order, and the end of the process gives the result as [proc_outcome] says: the exception that
    interrupted it; [SSHError] for an exit code other than zero when errors are to be raised ([UnboundLocalError] if
    [readline] was never called); the decoded output, stripped or not, or [UnicodeDecodeError]; or the exit code. *)
Theorem ssh_run_outcome {E} `{WorldOk E} c cb cmd o (s : sst E) : (forall l e, (cb l e).1 = Ok tt) ->
  exists out s', run c cb cmd o s = Some (out, s') /\
    ((ready s = false /\ exists e, wait c 300 s = Some (Raise e, s') /\
        out = if is_Exception e && negb (raise_on_error o) then Ok (PInt (-1)) else Raise e) \/
     (exists s1 p e1, (ready s = true /\ s1 = s \/ ready s = false /\ wait c 300 s = Some (Ok tt, s1)) /\
        spawn (ssh_argv c (effective_user c o) cmd) (stdin o) (env s1) = (p, e1) /\
        out = proc_outcome p o /\ s' = SSt true (fold_left (fun e l => (cb l e).2) (p_reads p) e1))).
Proof.
  intros Hcb. destruct (ready s) eqn:Hr.
  - destruct (spawn (ssh_argv c (effective_user c o) cmd) (stdin o) (env s)) as [p e1] eqn:Hp.
    do 2 eexists. split; [by apply run_ready|]. right. exists s, p, e1. auto.
  - destruct (wait_ends c 300 s) as (w & s1 & Hw). rewrite (run_not_ready cb c cmd o s w s1) by done. destruct w as [[]|e].
    + destruct (spawn (ssh_argv c (effective_user c o) cmd) (stdin o) (env s1)) as [p e1] eqn:Hp.
      do 2 eexists. split; [apply run_ready; [done | exact (wait_ready _ _ _ _ Hw) | done]|]. right. exists s1, p, e1. auto.
    + do 2 eexists. split; [done|]. left. split; [done|]. eauto.
Qed.

(** A command that fails and prints nothing: the end of its output is an empty line. *)
Lemma ssh_run_outcome_witness : exists s',
  run (new_client "" "host" "" 22) cb_log (CmdStr "false") default_opts (SSt false (Sim 0 2 [Proc [""] (Ok 1%Z)] [])) =
    Some (Raise SSHError, s') /\ w_argvs (env s') = [["ssh"; "-T"; "-o"; "StrictHostKeyChecking=no"; "root@host"; "-p"; "22"; "false"]].
Proof.
  destruct (ssh_run_outcome (new_client "" "host" "" 22) cb_log (CmdStr "false") default_opts
    (SSt false (Sim 0 2 [Proc [""] (Ok 1%Z)] [])) (fun _ _ => eq_refl)) as (out & s' & Hr & _).
  exists s'. vm_compute in Hr |- *. injection Hr as <- <-. done.
Defined.

Lemma words_join cmd s : cmd = CmdStr s -> join " " (words cmd) = s.
Proof. intros ->. apply (join_split " "). Qed.

(** the remote shell sees the command unchanged: the words that [run] makes of a command string, which [ssh] joins
    with single spaces, give the string back; they follow the seven fixed arguments and, when there is one, the key. *)
Theorem ssh_argv_roundtrip c user s :
  join " " (drop (if str_eqb (key c) "" then 7 else 9) (ssh_argv c user (CmdStr s))) = s /\
  take 7 (ssh_argv c user (CmdStr s)) =
    ["ssh"; "-T"; "-o"; "StrictHostKeyChecking=no"; user +:+ "@" +:+ hostname c; "-p"; str_of_Z (port c)].
Proof.
  unfold ssh_argv. split; [|done]. destruct (str_eqb (key c) ""); cbn [app drop]; by apply words_join.
Qed.

(** ** The clock of a client *)

Definition later {E} `{World E} (s s' : sst E) : Prop := (now (env s) <= now (env s'))%Q.
#[export] Instance later_refl {E} `{World E} : Reflexive (later (E := E)).
Proof. intros s. apply Qle_refl. Qed.
#[export] Instance later_trans {E} `{World E} : Transitive (later (E := E)).
Proof. intros s1 s2 s3. apply Qle_trans. Qed.

Section Clock.
Context {E : Type} `{WorldOk E}.

Lemma later_env_res {A} (f : E -> res A * E) : (forall e, (now e <= now (f e).2)%Q) -> within later (env_res f).
Proof. intros Hf s o s'. unfold env_res. specialize (Hf (env s)). destruct (f (env s)) as [a e]. by intros [= <- <-]. Qed.
Lemma later_env_op {A} (f : E -> A * E) : (forall e, (now e <= now (f e).2)%Q) -> within later (env_op f).
Proof. intros Hf s o s'. unfold env_op. specialize (Hf (env s)). destruct (f (env s)) as [a e]. by intros [= <- <-]. Qed.
Lemma later_sleep q : (0 <= q)%Q -> within later (upd_env (sleep q)).
Proof. intros Hq. apply within_modify. intros s. unfold later; cbn. pose proof (sleep_sleeps q (env s)). lra. Qed.

Lemma later_wait c timeout : within later (wait (E := E) c timeout).
Proof.
  apply within_bind; [exact _|apply within_get; exact _|]. intros s. apply within_loop; [exact _..|].
  apply within_bind; [exact _| |].
  - apply within_catch; [exact _| |intros [] k [= <-]; apply within_ret; exact _].
    apply within_bind; [exact _|apply later_env_res; apply connect_mono|]. intros [].
    apply within_bind; [exact _|apply within_modify; intros; apply Qle_refl|]. intros []. apply within_ret; exact _.
  - intros [[]|]; [apply within_ret; exact _|]. apply within_bind; [exact _|apply within_get; exact _|].
    intros s1. case_match; [apply within_raise; exact _|]. apply within_bind; [exact _|by apply later_sleep|].
    intros []. apply within_ret; exact _.
Qed.

Lemma later_run c cb cmd o : (forall l e, (now e <= now (cb l e).2)%Q) -> within later (run (E := E) c cb cmd o).
Proof.
  intros Hcb. apply within_bind; [exact _|apply within_get; exact _|]. intros s. apply within_bind; [exact _| |].
  - destruct (ready s); [apply within_ret; exact _|]. apply within_catch; [exact _| |].
    + apply within_bind; [exact _|apply later_wait|]. intros []. apply within_ret; exact _.
    + intros e k. destruct (_ && _); [|done]. intros [= <-]. apply within_ret; exact _.
  - intros [v|]; [apply within_ret; exact _|]. apply within_bind; [exact _|apply later_env_op; apply spawn_mono|].
    intros p. apply within_bind; [exact _|apply within_iter; [exact _..|]; intros; by apply later_env_res|]. intros [].
    apply within_bind; [exact _|apply within_lift; exact _|]. intros rc.
    destruct (_ && _); [apply within_raise; exact _|]. destruct (return_output o); [|apply within_ret; exact _].
    apply within_bind; [exact _|apply within_lift; exact _|]. intros out. apply within_ret; exact _.
Qed.

(** [run] with the default callback ends, and the clock has not gone back. *)
Lemma run_log_ends c cmd o (s : sst E) : exists out s', run c cb_log cmd o s = Some (out, s') /\ later s s'.
Proof.
  assert (exists out s', run c cb_log cmd o s = Some (out, s')) as (out & s' & Hr).
  { destruct (ready s) eqn:Hr.
    - destruct (spawn (ssh_argv c (effective_user c o) cmd) (stdin o) (env s)) as [p e1] eqn:Hp.
      do 2 eexists. by apply run_ready.
    - destruct (wait_ends c 300 s) as (w & s1 & Hw). rewrite (run_not_ready cb_log c cmd o s w s1) by done.
      destruct w as [[]|e]; [|eauto].
      destruct (spawn (ssh_argv c (effective_user c o) cmd) (stdin o) (env s1)) as [p e1] eqn:Hp.
      do 2 eexists. apply run_ready; [done | exact (wait_ready _ _ _ _ Hw) | done]. }
  exists out, s'. split; [done|]. eapply later_run; [|done]. intros. apply log_mono.
Qed.
End Clock.
