(* ===== verification/VirshStorage.v ===== *)
(** * [rallyci/providers/virsh.py]: a host and its storage backends

    The state of a [Host] object and the two storage backends, which turn images into commands on the host.  The
    commands asked of the host are recorded in [h_log]. *)

From Stdlib Require Import QArith Lqa.
From S2P Require Import Prelude Coro PyStr PyVal PyRe AsyncSSH.
Open Scope nat_scope.

(** A [Host]: its ssh client, the VMs on each bridge ([br_vm]; the key [None] is Python's), the VMs it has booted, the
    image locks held; with the commands asked so far, the random draws made and the VM objects created. *)
Record hst (E : Type) := HSt {
  h_ssh : sst E; h_log : list string; h_draw : nat; next_vm : nat;
  br_vm : list (option string * list nat); h_vms : list nat; h_locks : list string }.
Arguments HSt {E}. Arguments h_ssh {E}. Arguments h_log {E}. Arguments h_draw {E}. Arguments next_vm {E}.
Arguments br_vm {E}. Arguments h_vms {E}. Arguments h_locks {E}.

Definition with_br {E} b (s : hst E) := HSt (h_ssh s) (h_log s) (h_draw s) (next_vm s) b (h_vms s) (h_locks s).
Definition with_vms {E} v (s : hst E) := HSt (h_ssh s) (h_log s) (h_draw s) (next_vm s) (br_vm s) v (h_locks s).
Definition with_locks {E} l (s : hst E) := HSt (h_ssh s) (h_log s) (h_draw s) (next_vm s) (br_vm s) (h_vms s) l.
Definition asked {E} (cmd : string) (ssh : sst E) (s : hst E) :=
  HSt ssh (h_log s ++ [cmd]) (h_draw s) (next_vm s) (br_vm s) (h_vms s) (h_locks s).

Section Ssh.
Context {E : Type} `{World E} (hclient : client).

(** [self.ssh.run(cmd, ...)] of the host's client. *)
Definition hrun_opts (o : opts) (cmd : string) : co (hst E) pyval := fun s =>
  match run hclient cb_log (CmdStr cmd) o (h_ssh s) with
  | Some (r, ssh) => Some (r, asked cmd ssh s)
  | None => None
  end.

Definition quiet_opts : opts := Opts None false true false "".
Definition output_opts : opts := Opts None true true true "".

Definition hrun (cmd : string) : co (hst E) unit := _ ← hrun_opts default_opts cmd; mret tt.
Definition hrun_quiet (cmd : string) : co (hst E) pyval := hrun_opts quiet_opts cmd.
Definition hrun_output (cmd : string) : co (hst E) string := v ← hrun_opts output_opts cmd; co_lift (as_str v).

(** What a storage backend offers to the host. *)
Class Storage (B : Type) := {
  st_create : B -> string -> co (hst E) unit;
  st_list_files : B -> string -> co (hst E) (list string);
  st_clone : B -> string -> string -> co (hst E) unit;
  st_exist : B -> string -> co (hst E) bool;
  st_snapshot : B -> string -> co (hst E) unit;
  st_destroy : B -> string -> co (hst E) unit;
  st_download : B -> string -> string -> co (hst E) unit }.

Record ZFS := MkZFS { z_path : string; z_dataset : string }.

Definition zfs_create (b : ZFS) (name : string) : co (hst E) unit :=
  hrun ("zfs create " +:+ z_dataset b +:+ "/" +:+ name).
Definition zfs_list_files (b : ZFS) (name : string) : co (hst E) (list string) :=
  ls ← hrun_output ("ls /" +:+ z_path b +:+ "/" +:+ name);
  mret ((fun f => path_joins "/" [z_dataset b; name; f]) <$> splitlines ls).
Definition zfs_clone (b : ZFS) (src dst : string) : co (hst E) unit :=
  hrun ("zfs clone " +:+ z_dataset b +:+ "/" +:+ src +:+ "@1 " +:+ z_dataset b +:+ "/" +:+ dst).
Definition zfs_exist (b : ZFS) (name : string) : co (hst E) bool :=
  data ← hrun_output "zfs list";
  co_lift (multiline_search ("^" +:+ z_dataset b +:+ "/" +:+ name +:+ " ") data).
Definition zfs_snapshot (b : ZFS) (name snapshot : string) : co (hst E) unit :=
  hrun ("zfs snapshot " +:+ z_dataset b +:+ "/" +:+ name +:+ "@" +:+ snapshot).
Definition zfs_destroy (b : ZFS) (name : string) : co (hst E) unit :=
  hrun ("zfs destroy " +:+ z_dataset b +:+ "/" +:+ name).
Definition zfs_download (b : ZFS) (name url : string) : co (hst E) unit :=
  _ ← zfs_create b name;
  _ ← hrun ("wget -nv " +:+ url +:+ " -O " +:+ z_path b +:+ "/" +:+ name +:+ "/vda.qcow2");
  hrun ("qemu-img resize " +:+ z_path b +:+ "/" +:+ name +:+ "/vda.qcow2 32G").

#[export] Instance zfs_storage : Storage ZFS := {
  st_create := zfs_create; st_list_files := zfs_list_files; st_clone := zfs_clone; st_exist := zfs_exist;
  st_snapshot b name := zfs_snapshot b name "1"; st_destroy := zfs_destroy; st_download := zfs_download }.

Record BTRFS := MkBTRFS { b_path : string }.

Definition btrfs_create (b : BTRFS) (name : string) : co (hst E) unit :=
  hrun ("btrfs subvolume create " +:+ b_path b +:+ "/" +:+ name).
Definition btrfs_list_files (b : BTRFS) (name : string) : co (hst E) (list string) :=
  ls ← hrun_output ("ls " +:+ b_path b +:+ "/" +:+ name);
  mret ((fun f => path_joins "/" [b_path b; name; f]) <$> splitlines ls).
Definition btrfs_clone (b : BTRFS) (src dst : string) : co (hst E) unit :=
  _ ← hrun_quiet ("btrfs subvolume delete " +:+ b_path b +:+ "/" +:+ dst);
  hrun ("btrfs subvolume snapshot " +:+ b_path b +:+ "/" +:+ src +:+ " " +:+ b_path b +:+ "/" +:+ dst).
Definition btrfs_exist (b : BTRFS) (name : string) : co (hst E) bool :=
  data ← hrun_output ("btrfs subvolume list " +:+ b_path b);
  co_lift (multiline_search (" " +:+ name +:+ "$") data).
Definition btrfs_snapshot (b : BTRFS) (name : string) : co (hst E) unit :=
  co_modify (fun s => HSt (SSt (ready (h_ssh s)) (sleep 0 (env (h_ssh s)))) (h_log s) (h_draw s) (next_vm s) (br_vm s)
                          (h_vms s) (h_locks s)).
Definition btrfs_destroy (b : BTRFS) (name : string) : co (hst E) unit :=
  hrun ("btrfs subvolume delete " +:+ b_path b +:+ "/" +:+ name).
Definition btrfs_download (b : BTRFS) (name url : string) : co (hst E) unit :=
  _ ← btrfs_create b name;
  _ ← hrun ("wget -nv " +:+ url +:+ " -O /" +:+ b_path b +:+ "/" +:+ name +:+ "/vda.qcow2");
  hrun ("qemu-img resize /" +:+ b_path b +:+ "/" +:+ name +:+ "/vda.qcow2 32G").

#[export] Instance btrfs_storage : Storage BTRFS := {
  st_create := btrfs_create; st_list_files := btrfs_list_files; st_clone := btrfs_clone; st_exist := btrfs_exist;
  st_snapshot := btrfs_snapshot; st_destroy := btrfs_destroy; st_download := btrfs_download }.
End Ssh.

(** ** What the commands leave alone *)

(** The bookkeeping of the host is untouched, the clock has not gone back and commands are only added to the log. *)
Record hframe {E} `{World E} (s s' : hst E) : Prop := {
  hf_br : br_vm s' = br_vm s; hf_vms : h_vms s' = h_vms s; hf_locks : h_locks s' = h_locks s;
  hf_next : next_vm s' = next_vm s; hf_draw : h_draw s' = h_draw s;
  hf_later : later (h_ssh s) (h_ssh s');
  hf_log : h_log s `prefix_of` h_log s' }.

#[export] Instance hframe_refl {E} `{World E} : Reflexive (hframe (E := E)).
Proof. by constructor. Qed.
#[export] Instance hframe_trans {E} `{World E} : Transitive (hframe (E := E)).
Proof. intros s1 s2 s3 [] []. constructor; try congruence; by etrans. Qed.

(** The clock shows a time after 1970. *)
Definition htime {E} `{World E} (s : hst E) : Prop := (0 <= now (env (h_ssh s)))%Q.

Lemma hframe_htime {E} `{World E} (s s' : hst E) : hframe s s' -> htime s -> htime s'.
Proof. intros [_ _ _ _ _ Hl _] Ht. unfold htime, later in *. by eapply Qle_trans. Qed.

(** What a backend promises to its host: its operations end and leave the bookkeeping alone. *)
Class StorageOk {E} `{World E} (B : Type) `{!Storage (E := E) B} : Prop := {
  ok_create : forall b n, within hframe (st_create b n) /\ ends htime (st_create b n);
  ok_list_files : forall b n, within hframe (st_list_files b n) /\ ends htime (st_list_files b n);
  ok_clone : forall b n m, within hframe (st_clone b n m) /\ ends htime (st_clone b n m);
  ok_exist : forall b n, within hframe (st_exist b n) /\ ends htime (st_exist b n);
  ok_snapshot : forall b n, within hframe (st_snapshot b n) /\ ends htime (st_snapshot b n);
  ok_destroy : forall b n, within hframe (st_destroy b n) /\ ends htime (st_destroy b n);
  ok_download : forall b n u, within hframe (st_download b n u) /\ ends htime (st_download b n u) }.

Section Frames.
Context {E : Type} `{WorldOk E} (hclient : client).

Lemma hrun_opts_frame o cmd : within hframe (hrun_opts (E := E) hclient o cmd) /\ ends htime (hrun_opts (E := E) hclient o cmd).
Proof.
  assert (within hframe (hrun_opts (E := E) hclient o cmd)) as Hw.
  { intros s r s'. unfold hrun_opts. destruct (run_log_ends hclient (CmdStr cmd) o (h_ssh s)) as (out & ss & -> & Hl).
    intros [= <- <-]. constructor; try done. cbn. by apply prefix_app_r. }
  split; [done|]. intros s Hs. assert (exists r s', hrun_opts hclient o cmd s = Some (r, s')) as (r & s' & Hr).
  { unfold hrun_opts. destruct (run_log_ends hclient (CmdStr cmd) o (h_ssh s)) as (out & ss & -> & _). eauto. }
  exists r, s'. split; [done|]. eapply hframe_htime; [by eapply Hw | done].
Qed.

(** A step that only lets the clock run. *)
Lemma pair_bind {A C} (m : co (hst E) A) (f : A -> co (hst E) C) :
  within hframe m /\ ends htime m -> (forall a, within hframe (f a) /\ ends htime (f a)) ->
  within hframe (m ≫= f) /\ ends htime (m ≫= f).
Proof.
  intros [Hw He] Hf. split; [apply within_bind; [exact _|done|intros; apply Hf] | apply ends_bind; [done | intros; apply Hf]].
Qed.
Lemma pair_ret {A} (a : A) : within hframe (mret a : co (hst E) A) /\ ends htime (mret a : co (hst E) A).
Proof. split; [apply within_ret; exact _ | apply ends_ret]. Qed.
Lemma pair_lift {A} (r : res A) : within hframe (co_lift r : co (hst E) A) /\ ends htime (co_lift r : co (hst E) A).
Proof. split; [apply within_lift; exact _ | apply ends_lift]. Qed.
Lemma hrun_frame cmd : within hframe (hrun (E := E) hclient cmd) /\ ends htime (hrun (E := E) hclient cmd).
Proof. apply pair_bind; [apply hrun_opts_frame | intros; apply pair_ret]. Qed.
Lemma hrun_output_frame cmd : within hframe (hrun_output (E := E) hclient cmd) /\ ends htime (hrun_output (E := E) hclient cmd).
Proof. apply pair_bind; [apply hrun_opts_frame | intros; apply pair_lift]. Qed.

#[export] Instance zfs_storage_ok : StorageOk (E := E) ZFS (Storage0 := zfs_storage hclient).
Proof.
  constructor; intros; cbn; try apply hrun_frame.
  - apply pair_bind; [apply hrun_output_frame | intros; apply pair_ret].
  - apply pair_bind; [apply hrun_output_frame | intros; apply pair_lift].
  - do 2 (apply pair_bind; [apply hrun_frame | intros _]). apply hrun_frame.
Qed.

#[export] Instance btrfs_storage_ok : StorageOk (E := E) BTRFS (Storage0 := btrfs_storage hclient).
Proof.
  constructor; intros; cbn; try apply hrun_frame.
  - apply pair_bind; [apply hrun_output_frame | intros; apply pair_ret].
  - apply pair_bind; [apply hrun_opts_frame | intros; apply hrun_frame].
  - apply pair_bind; [apply hrun_output_frame | intros; apply pair_lift].
  - unfold btrfs_snapshot.
    assert (forall s : hst E, hframe s (HSt (SSt (ready (h_ssh s)) (sleep 0 (env (h_ssh s)))) (h_log s) (h_draw s)
      (next_vm s) (br_vm s) (h_vms s) (h_locks s))) as Hf.
    { intros s. constructor; try done. unfold later; cbn. pose proof (sleep_sleeps 0 (env (h_ssh s))). lra. }
    split; [apply within_modify; exact Hf | apply ends_modify; intros s Hs; eapply hframe_htime; [apply Hf | exact Hs]].
  - do 2 (apply pair_bind; [apply hrun_frame | intros _]). apply hrun_frame.
Qed.
End Frames.

(** ** Looking for an image *)

Lemma plain_newline w : plain_str w = true -> nl ∉ chars w -> nl ∉ chars (" " +:+ w).
Proof. intros _ Hw. rewrite string_app_cons. cbn [chars]. apply not_elem_of_cons. split; [done | exact Hw]. Qed.

Lemma Ok_true (b : bool) : b = true <-> Ok b = Ok true.
Proof. split; [by intros -> | by intros [= ->]]. Qed.

(** C30: for names without characters that are special in regular expressions, [exist] tells whether the image is in
    the listing of the host: for ZFS, whether some line starts with the dataset, a slash, the name and a space; for
    BTRFS, whether some line ends with a space and the name. *)
Theorem storage_exist {E} `{World E} hclient z b name (s s' : hst E) data :
  plain_str name = true -> plain_str (z_dataset z) = true -> nl ∉ chars name -> nl ∉ chars (z_dataset z) ->
  (hrun_output hclient "zfs list" s = Some (Ok data, s') ->
   exists r, zfs_exist hclient z name s = Some (Ok r, s') /\
     (r = true <-> exists l t, l ∈ split nl data /\ l = (z_dataset z +:+ "/" +:+ name +:+ " ") +:+ t)) /\
  (hrun_output hclient ("btrfs subvolume list " +:+ b_path b) s = Some (Ok data, s') ->
   exists r, btrfs_exist hclient b name s = Some (Ok r, s') /\
     (r = true <-> exists l t, l ∈ split nl data /\ l = t +:+ " " +:+ name)).
Proof.
  intros Hn Hd Hnl Hdl. split; intros Hr.
  - unfold zfs_exist. rewrite co_bind_eq, Hr. set (w := z_dataset z +:+ "/" +:+ name +:+ " ").
    assert (plain_str w = true) as Hw by (unfold w; by rewrite !plain_str_app, Hd, Hn).
    assert (nl ∉ chars w) as Hwl by 
      (unfold w; rewrite !chars_app, !not_elem_of_app; cbn [chars]; rewrite !list_elem_of_singleton; done).
    exists (bool_decide (is_Some (search true (RSeq RBol (lits w REmpty)) data))).
    unfold co_lift, multiline_search. rewrite (parse_bol w Hw). split; [done|].
    rewrite <- (search_line_prefix w data Hw Hwl). unfold multiline_search. rewrite (parse_bol w Hw). apply Ok_true.
  - unfold btrfs_exist. rewrite co_bind_eq, Hr.
    assert (plain_str (" " +:+ name) = true) as Hw by (by rewrite plain_str_app, Hn).
    assert (nl ∉ chars (" " +:+ name)) as Hwl by (by apply plain_newline).
    rewrite <- string_app_assoc. exists (bool_decide (is_Some (search true (lits (" " +:+ name) (RSeq REol REmpty)) data))).
    unfold co_lift, multiline_search. rewrite (parse_eol _ Hw). split; [done|].
    rewrite <- (search_line_suffix (" " +:+ name) data Hw Hwl). unfold multiline_search. rewrite (parse_eol _ Hw). apply Ok_true.
Qed.

Definition listing_ex : proc :=
  Proc ["tank/rally 10G" +:+ String nl ""; "tank/ubuntu 2G" +:+ String nl ""] (Ok 0%Z).
Definition host_ex (procs : list proc) : hst sim := HSt (SSt true (Sim 0 0 procs [])) [] 0 0 [] [] [].

Lemma storage_exist_witness : exists r s',
  zfs_exist (new_client "" "h" "" 22) (MkZFS "tank" "tank") "ubuntu" (host_ex [listing_ex]) = Some (Ok r, s') /\ r = true.
Proof.
  destruct (storage_exist (new_client "" "h" "" 22) (MkZFS "tank" "tank") (MkBTRFS "x") "ubuntu" (host_ex [listing_ex])
    (asked "zfs list" (SSt true (Sim 0 0 [] [ssh_argv (new_client "" "h" "" 22) "root" (CmdStr "zfs list")])) (host_ex []))
    ("tank/rally 10G" +:+ String nl "tank/ubuntu 2G")) as [Hz _];
    [by vm_compute | by vm_compute | by apply (bool_decide_eq_true_1 (nl ∉ chars "ubuntu"))
    | by apply (bool_decide_eq_true_1 (nl ∉ chars "tank")) |].
  destruct Hz as (r & Hr & Ht); [by vm_compute|]. eexists r, _. split; [exact Hr|]. apply Ht.
  exists "tank/ubuntu 2G", "2G". split; [apply list_elem_of_In; vm_compute; auto | done].
Defined.
