(* ===== verification/VirshVM.v ===== *)
(** * [rallyci/providers/virsh.py]: virtual machines

    [VM] and the part of [Host] it calls back ([cleanup_net]).  A VM object is a record with an identity, which is what
    [br_vm] and the membership tests of the source compare; the libvirt description is a tree of [XMLElement]s. *)

From Stdlib Require Import QArith Lqa.
From S2P Require Import Prelude Coro PyStr PyVal PyRe Utils AsyncSSH VirshStorage.
Open Scope nat_scope.

(** An XML element; the text is the [str()] of a value, [PNone] for none. *)
Inductive xml := Elem (tag : string) (attrs : list (string * string)) (text : pyval) (children : list xml).

Definition el (tag : string) (attrs : list (string * string)) (children : list xml) : xml := Elem tag attrs PNone children.

Record vm := MkVM {
  vm_id : nat; vm_name : string; vm_cfg : pyval; vm_memory : pyval; vm_local : pyval;
  macs : list string; disks : list string; bridges : list string; devices : list xml; ip : option string }.

Definition set_ip a v := MkVM (vm_id v) (vm_name v) (vm_cfg v) (vm_memory v) (vm_local v) (macs v) (disks v) (bridges v) (devices v) (Some a).
Definition add_disk_name d v :=
  MkVM (vm_id v) (vm_name v) (vm_cfg v) (vm_memory v) (vm_local v) (macs v) (disks v ++ [d]) (bridges v) (devices v) (ip v).

(** The devices every VM has. *)
Definition base_devices : list xml :=
  [ Elem "emulator" [] (PStr "/usr/bin/kvm") [];
    el "controller" [("type", "pci"); ("index", "0"); ("model", "pci-root")] [];
    el "graphics" [("type", "spice"); ("autoport", "yes")] [];
    el "memballoon" [("model", "virtio")]
      [el "address" [("type", "pci"); ("domain", "0x0000"); ("bus", "0x00"); ("slot", "0x09"); ("function", "0x0")] []] ].

(** The domain description. *)
Definition vm_xml (v : vm) : xml :=
  el "domain" [("type", "kvm")]
    [ Elem "name" [] (PStr (vm_name v)) [];
      Elem "memory" [("unit", "MiB")] (vm_memory v) [];
      Elem "currentMemory" [("unit", "MiB")] (vm_memory v) [];
      Elem "vcpu" [("placement", "static")] (PStr "1") [];
      el "cpu" [("mode", "host-model")] [el "model" [("fallback", "forbid")] []];
      el "os" [] [Elem "type" [("arch", "x86_64"); ("machine", "pc-1.0")] (PStr "hvm") []];
      el "features" [] [el "acpi" [] []; el "apic" [] []; el "pae" [] []];
      el "devices" [] (devices v) ].

(** [add_disk(path)]: the device is named after the file, up to its first dot. *)
Definition disk_dev (path : string) : string := default "" (head (split "." (path_tail path))).

Definition disk_xml (path : string) : xml :=
  el "disk" [("device", "disk"); ("type", "file")]
    [ el "driver" [("name", "qemu"); ("type", "qcow2"); ("cache", "unsafe")] [];
      el "source" [("file", path)] [];
      el "target" [("dev", disk_dev path); ("bus", "virtio")] [] ].

Definition add_disk (path : string) (v : vm) : vm :=
  MkVM (vm_id v) (vm_name v) (vm_cfg v) (vm_memory v) (vm_local v) (macs v) (disks v) (bridges v) (devices v ++ [disk_xml path]) (ip v).

Definition net_xml (bridge mac : string) : xml :=
  el "interface" [("type", "bridge")]
    [ el "source" [("bridge", bridge)] []; el "model" [("type", "virtio")] []; el "mac" [("address", mac)] [] ].

Definition IP_RE : string := "(\d+\.\d+\.\d+\.\d+)\s".

(** [IP_RE.match(line).group(1)] *)
Definition match_ip (line : string) : option string :=
  r ← parse IP_RE; m ← match_ false r line; group m 1.

Section VM.
Context {E : Type} `{World E} (hclient : client) (vm_key : string).
(** The streams of the random generator, the serialisation of a tree ([ElementTree.write]), and the backend. *)
Context (rnds : nat -> nat -> nat) (xml_bytes : xml -> string).
Context {B : Type} `{!Storage (E := E) B} (storage : B).

Definition hst_sleep (q : Q) : co (hst E) unit :=
  co_modify (fun s => HSt (SSt (ready (h_ssh s)) (sleep q (env (h_ssh s)))) (h_log s) (h_draw s) (next_vm s) (br_vm s)
                          (h_vms s) (h_locks s)).
Definition hst_now : co (hst E) Q := s ← co_get; mret (now (env (h_ssh s))).

(** One use of the random generator. *)
Definition draw : co (hst E) (nat -> nat) := fun s =>
  Some (Ok (rnds (h_draw s)), HSt (h_ssh s) (h_log s) (S (h_draw s)) (next_vm s) (br_vm s) (h_vms s) (h_locks s)).

(** The identity of a new object. *)
Definition new_id : co (hst E) nat := fun s =>
  Some (Ok (next_vm s), HSt (h_ssh s) (h_log s) (h_draw s) (S (next_vm s)) (br_vm s) (h_vms s) (h_locks s)).

(** [VM(host, cfg, local_cfg)]; [cfg or {}]. *)
Definition new_vm (cfg local_cfg : pyval) : co (hst E) vm :=
  name ← co_lift (x ← getitem local_cfg "name"; as_str x);
  r ← draw;
  rnd_name ← co_lift (get_rnd_name r name 12);
  let cfg := if truthy cfg then cfg else PDict [] in
  memory ← co_lift (get cfg "memory" (PInt 1024));
  i ← new_id;
  mret (MkVM i rnd_name cfg memory local_cfg [] [] [] base_devices None).

(** [add_net(bridge, mac)]: a random address unless one is given. *)
Definition add_net (bridge : string) (mac : string) (v : vm) : co (hst E) vm :=
  mac ← (if str_eqb mac "" then (r ← draw; mret (get_rnd_mac r)) else mret mac);
  mret (MkVM (vm_id v) (vm_name v) (vm_cfg v) (vm_memory v) (vm_local v) (macs v ++ [mac]) (disks v) (bridges v ++ [bridge])
             (devices v ++ [net_xml bridge mac]) (ip v)).

Definition boot (v : vm) : co (hst E) unit :=
  let conf := "/tmp/.conf." +:+ vm_name v +:+ ".xml" in
  _ ← hrun_opts hclient (Opts (Some (xml_bytes (vm_xml v))) false true true "") ("cat > " +:+ conf);
  hrun hclient ("virsh create " +:+ conf).

(** ["%s" % br] for a bridge or [None] *)
Definition br_str (br : option string) : string := default "None" br.

(** [Host.cleanup_net]: every bridge without VMs is deleted on the host, then they are all forgotten. *)
Definition cleanup_net : co (hst E) unit :=
  s ← co_get;
  clean ← co_fold (fun clean kv =>
      match kv.2 with
      | [] => _ ← hrun hclient ("ip link del " +:+ br_str kv.1); mret (clean ++ [kv.1])
      | _ => mret clean
      end) [] (br_vm s);
  co_modify (fun s => with_br (fold_left (fun d br => dict_del d br) clean (br_vm s)) s).

(** [lst.remove(self)] of the list of one bridge, if the VM is in it. *)
Definition leave_bridge (i : nat) (d : list (option string * list nat)) (br : string) : list (option string * list nat) :=
  match dict_get d (Some br) with
  | Some lst => match list_remove i lst with Ok lst => dict_set d (Some br) lst | Raise _ => d end
  | None => d
  end.

Definition destroy (with_storage : bool) (v : vm) : co (hst E) unit :=
  _ ← hrun_quiet hclient ("virsh destroy " +:+ vm_name v);
  _ ← (if with_storage then co_iter (st_destroy storage) (disks v) else mret tt);
  _ ← co_modify (fun s => with_br (fold_left (leave_bridge (vm_id v)) (bridges v) (br_vm s)) s);
  cleanup_net.

(** A round of the loop of [get_ip]. *)
Definition get_ip_body (deadline : Q) (v : vm) : co (hst E) (option vm) :=
  t ← hst_now;
  if negb (Qle_bool t deadline) then co_raise (ExceptionMsg "Unable to find ip of VM")
  else
    _ ← hst_sleep 4;
    data ← hrun_opts hclient (Opts None true true false "") ("egrep -i '" +:+ join "|" (macs v) +:+ "' /proc/net/arp");
    text ← co_lift (as_str data);
    match head (omap match_ip (splitlines text)) with
    | Some a => _ ← hst_sleep 8; mret (Some (set_ip a v))
    | None => mret None
    end.

(** [get_ip(timeout)]: the VM with its address.  Each round sleeps four seconds. *)
Definition get_ip (timeout : nat) (v : vm) : co (hst E) vm :=
  match ip v with
  | Some _ => _ ← hst_sleep 0; mret v
  | None =>
      t ← hst_now;
      co_loop (timeout + 2) (get_ip_body (t + inject_Z (Z.of_nat timeout)) v)
  end.

(** [AsyncSSH(user, self.ip, key=self.host.vm_key, cb=cb).run(...)]: a new client, not ready. *)
Definition vm_ssh (v : vm) (user : string) : client := new_client user (default "" (ip v)) vm_key 22.
Definition client_run (c : client) (cb : string -> E -> res unit * E) (cmd : command) (o : opts) : co (hst E) pyval := fun s =>
  match run c cb cmd o (SSt false (env (h_ssh s))) with
  | Some (r, s') => Some (r, HSt (SSt (ready (h_ssh s)) (env s')) (h_log s) (h_draw s) (next_vm s) (br_vm s) (h_vms s) (h_locks s))
  | None => None
  end.

(** [%s='%s' ] for each variable; the values are inserted as they are. *)
Definition env_prefix (envv : list (string * string)) : string :=
  join "" ((fun kv => kv.1 +:+ "='" +:+ kv.2 +:+ "' ") <$> envv).

(** [run_script(script, env, cb=cb)]: the VM (its address may be found on the way) and the exit status. *)
Definition run_script (script : pyval) (envv : list (string * string)) (cb : string -> E -> res unit * E) (v : vm)
  : co (hst E) (vm * pyval) :=
  v ← get_ip 300 v;
  interp ← co_lift (x ← getitem script "interpreter"; as_str x);
  user ← co_lift (x ← get script "user" (PStr "root"); as_str x);
  data ← co_lift (x ← getitem script "data"; as_str x);
  status ← client_run (vm_ssh v user) cb (CmdStr (env_prefix envv +:+ interp)) (Opts (Some data) false true true user);
  mret (v, status).

(** A round of the loop of [shutdown]: true when it returns. *)
Definition shutdown_body (timeout : nat) (with_storage : bool) (v : vm) : co (hst E) (option unit) :=
  _ ← hst_sleep 4;
  err ← hrun_quiet hclient ("virsh list | grep -q " +:+ vm_name v);
  if truthy err then mret (Some tt)
  else
    t ← hst_now;
    if negb (Qle_bool t (inject_Z (Z.of_nat timeout)))
    then _ ← destroy with_storage v; mret (Some tt)
    else mret None.

Definition shutdown (timeout : nat) (with_storage : bool) (v : vm) : co (hst E) unit :=
  match ip v with
  | None => destroy with_storage v
  | Some _ =>
      v ← get_ip 300 v;
      _ ← client_run (vm_ssh v "root") cb_log (CmdStr "shutdown -h now") default_opts;
      co_loop (timeout + 2) (shutdown_body timeout with_storage v)
  end.
End VM.

(** ** Bridges in use *)

Definition no_vms (kv : option string * list nat) : bool := match kv.2 with [] => true | _ => false end.
Definition unused (d : list (option string * list nat)) : list (option string) := dict_keys (List.filter no_vms d).
Definition del_cmd (br : option string) : string := "ip link del " +:+ br_str br.

Lemma dict_del_skip l k (v : list nat) (d : list (option string * list nat)) : k ∉ l ->
  fold_left (fun d br => dict_del d br) l ((k, v) :: d) = (k, v) :: fold_left (fun d br => dict_del d br) l d.
Proof.
  revert d. induction l as [|a l IH]; intros d Hk; [done|]. apply not_elem_of_cons in Hk as [Ha Hk]. cbn [fold_left dict_del].
  rewrite decide_False by done. by apply IH.
Qed.

Lemma delete_unused (d : list (option string * list nat)) : dict_ok d ->
  fold_left (fun d br => dict_del d br) (unused d) d = List.filter (fun kv => negb (no_vms kv)) d.
Proof.
  unfold dict_ok, unused, dict_keys. induction d as [|[k v] d IH]; [done|]. csimpl. intros [Hk Hd]%NoDup_cons.
  destruct v as [|x v]; cbn [no_vms snd negb fmap list_fmap fst].
  - cbn [fold_left dict_del]. rewrite decide_True by done. by apply IH.
  - rewrite dict_del_skip, IH; [done | done|]. intros Hin. apply Hk. apply list_elem_of_fmap in Hin as (y & -> & Hy).
    apply list_elem_of_In, filter_In in Hy as [Hy _]. apply list_elem_of_fmap. exists y. split; [done | by apply list_elem_of_In].
Qed.

Section BridgeLemmas.
Context {E : Type} `{WorldOk E} (hclient : client).

Lemma hrun_log cmd s o (s' : hst E) : hrun hclient cmd s = Some (o, s') -> h_log s' = h_log s ++ [cmd] /\ br_vm s' = br_vm s.
Proof.
  unfold hrun. rewrite co_bind_eq. unfold hrun_opts. destruct (run _ _ _ _ _) as [[[v|e] ss]|]; [| |done];
    by intros [= <- <-].
Qed.

(** The loop of [cleanup_net] over any of its bridges. *)
Lemma cleanup_loop l clean s o (s' : hst E) :
  co_fold (fun clean kv =>
      match kv.2 with
      | [] => _ ← hrun hclient ("ip link del " +:+ br_str kv.1); mret (clean ++ [kv.1])
      | _ => mret clean
      end) clean l s = Some (o, s') ->
  br_vm s' = br_vm s /\
  match o with
  | Ok clean' => clean' = clean ++ unused l /\ h_log s' = h_log s ++ (del_cmd <$> unused l)
  | Raise _ => exists done, done `prefix_of` unused l /\ h_log s' = h_log s ++ (del_cmd <$> done)
  end.
Proof.
  unfold unused, dict_keys. revert clean s. induction l as [|[k v] l IH]; intros clean s; cbn [co_fold].
  - intros [= <- <-]. by rewrite !app_nil_r.
  - rewrite co_bind_eq. destruct v as [|x v]; cbn [fst snd no_vms List.filter]; [|apply IH]. rewrite co_bind_eq.
    destruct (hrun hclient _ s) as [[[[]|e] s1]|] eqn:Hh; [| |done]; apply hrun_log in Hh as [Hl Hb].
    + cbn [mret co_ret]. intros [Hb' Ho]%IH. split; [congruence|]. rewrite Hl in Ho. csimpl. destruct o as [clean'|e].
      * destruct Ho as [-> ->]. by rewrite <- !app_assoc.
      * destruct Ho as (done & Hd & ->). exists (k :: done). split; [by apply prefix_cons|]. csimpl. by rewrite <- app_assoc.
    + intros [= <- <-]. split; [done|]. exists [k]. split; [csimpl; apply prefix_cons, prefix_nil|]. by rewrite Hl.
Qed.

Lemma cleanup_net_spec s o (s' : hst E) : dict_ok (br_vm s) -> cleanup_net hclient s = Some (o, s') ->
  match o with
  | Ok _ => br_vm s' = List.filter (fun kv => negb (no_vms kv)) (br_vm s) /\ h_log s' = h_log s ++ (del_cmd <$> unused (br_vm s))
  | Raise _ => br_vm s' = br_vm s /\ exists done, done `prefix_of` unused (br_vm s) /\ h_log s' = h_log s ++ (del_cmd <$> done)
  end.
Proof.
  intros Hd. unfold cleanup_net. rewrite co_bind_eq. cbn [co_get]. rewrite co_bind_eq.
  destruct (co_fold _ _ _ _) as [[[clean|e] s1]|] eqn:Hf; [| |done]; apply cleanup_loop in Hf as [Hb Ho].
  - destruct Ho as [-> Hl]. intros [= <- <-]. cbn [with_br br_vm h_log app]. rewrite Hb. split; [by apply delete_unused | done].
  - intros [= <- <-]. done.
Qed.
End BridgeLemmas.

(** A list of VMs without one of them; what [remove] does when it is there once. *)
Definition without (i : nat) (l : list nat) : list nat := List.filter (fun j => negb (bool_decide (j = i))) l.

Lemma without_absent i l : i ∉ l -> without i l = l.
Proof.
  unfold without. induction l as [|x l IH]; [done|]. rewrite not_elem_of_cons. intros [Hx Hl]. cbn.
  rewrite bool_decide_false by done. cbn. by rewrite IH.
Qed.

Lemma elem_of_without i l j : j ∈ without i l <-> j ∈ l /\ j <> i.
Proof. unfold without. rewrite !list_elem_of_In, filter_In, negb_true_iff, bool_decide_eq_false. done. Qed.

Lemma remove_without i l : NoDup l -> match list_remove i l with Ok l' => l' = without i l | Raise _ => without i l = l end.
Proof.
  induction 1 as [|x l Hx _ IH]; [done|]. cbn [list_remove]. case_decide as Hd.
  - subst x. unfold without. cbn. rewrite bool_decide_true by done. cbn. symmetry. by apply without_absent.
  - unfold without in *. cbn. rewrite bool_decide_false by done. cbn. destruct (list_remove i l); by rewrite IH.
Qed.

Definition nodups (d : list (option string * list nat)) : Prop := forall k vms, dict_get d k = Some vms -> NoDup vms.

Section Leave.
Context (i : nat).

Lemma leave_bridge_ok d br : dict_ok d -> dict_ok (leave_bridge i d br).
Proof. intros. unfold leave_bridge. repeat case_match; auto using dict_ok_set. Qed.

Lemma leave_bridge_get d br k : nodups d ->
  dict_get (leave_bridge i d br) k = if decide (k = Some br) then without i <$> dict_get d k else dict_get d k.
Proof.
  intros Hd. unfold leave_bridge. destruct (dict_get d (Some br)) as [lst|] eqn:Eb.
  - pose proof (remove_without i lst (Hd _ _ Eb)) as Hr. destruct (list_remove i lst) as [lst'|].
    + subst lst'. rewrite dict_get_set. repeat case_decide; subst; try congruence. by rewrite Eb.
    + case_decide; subst; [|done]. rewrite Eb. cbn. by rewrite Hr.
  - case_decide; subst; [|done]. by rewrite Eb.
Qed.

Lemma leave_bridge_nodups d br : nodups d -> nodups (leave_bridge i d br).
Proof.
  intros Hd k vms. rewrite leave_bridge_get by done. case_decide; [|apply Hd]. intros (l & Hl & ->)%fmap_Some.
  apply NoDup_ListNoDup, List.NoDup_filter, NoDup_ListNoDup. by eapply Hd.
Qed.

Lemma leave_bridges_ok brs d : dict_ok d -> dict_ok (fold_left (leave_bridge i) brs d).
Proof. revert d. induction brs as [|b brs IH]; intros d Hd; simpl; auto using leave_bridge_ok. Qed.

(** After it has left its bridges a VM is in none of their lists; nothing else has changed. *)
Lemma leave_bridges_get brs d k : nodups d ->
  dict_get (fold_left (leave_bridge i) brs d) k =
    if decide (k ∈ Some <$> brs) then without i <$> dict_get d k else dict_get d k.
Proof.
  revert d. induction brs as [|b brs IH]; intros d Hd; cbn [fold_left]; [by rewrite decide_False by set_solver|].
  rewrite IH by by apply leave_bridge_nodups. rewrite leave_bridge_get by done. csimpl.
  destruct (decide (k = Some b)) as [->|Hne]; [rewrite (decide_True (P := Some b ∈ Some b :: _)) by set_solver|].
  - case_decide; [|done]. destruct (dict_get d (Some b)) as [l|]; [|done]. cbn. f_equal. apply without_absent.
    rewrite elem_of_without. naive_solver.
  - repeat case_decide; try done; set_solver.
Qed.
End Leave.

Section Destroy.
Context {E : Type} `{WorldOk E} (hclient : client) {B : Type} `{!Storage (E := E) B} `{!StorageOk B} (storage : B).

(** What [destroy] does before it comes to the bridges: [virsh destroy], then the storage of the disks. *)
Definition destroy_disks (with_storage : bool) (v : vm) : co (hst E) unit :=
  _ ← hrun_quiet hclient ("virsh destroy " +:+ vm_name v);
  if with_storage then co_iter (st_destroy storage) (disks v) else mret tt.

Lemma destroy_disks_frame with_storage v s o s' : destroy_disks with_storage v s = Some (o, s') -> br_vm s' = br_vm s.
Proof.
  cut (within hframe (destroy_disks with_storage v)); [intros Hw Hd; by apply Hw in Hd as []|].
  apply within_bind; [exact _ | apply hrun_opts_frame|]. intros _. destruct with_storage; [|apply within_ret; exact _].
  apply within_iter; [exact _..|]. intros. apply ok_destroy.
Qed.

Lemma destroy_split with_storage v s : destroy hclient storage with_storage v s =
  (_ ← destroy_disks with_storage v;
   _ ← co_modify (fun s => with_br (fold_left (leave_bridge (vm_id v)) (bridges v) (br_vm s)) s);
   cleanup_net hclient) s.
Proof. unfold destroy, destroy_disks. rewrite !co_bind_eq. by destruct (hrun_quiet _ _ _) as [[[r|e] s1]|]. Qed.
End Destroy.


(** VM 7 alone on [br0], with VM 8 on [br1]. *)
Definition vm_ex : vm := MkVM 7 "_rci_vm" (PDict []) (PInt 1024) (PDict []) ["02:00:00:00:00:01"; "02:00:00:00:00:02"] ["d"]
  ["br0"; "br1"] base_devices (Some "10.0.0.7").
Definition host_brs : hst sim := HSt (SSt true (Sim 0 0 [] [])) [] 0 9 [(Some "br0", [7]); (Some "br1", [7; 8])] [7; 8] [].
Definition client_ex : client := new_client "" "h" "" 22.

Definition destroyed_ex : option (res unit * hst sim) :=
  Eval vm_compute in destroy client_ex (B := BTRFS) (Storage0 := btrfs_storage client_ex) (MkBTRFS "ci") true vm_ex host_brs.
Definition destroyed_host : hst sim := default host_brs (snd <$> destroyed_ex).


(** ** Clocks and loops of a VM *)

Section VMClock.
Context {E : Type} `{WorldOk E} (hclient : client) (vm_key : string).
Context {B : Type} `{!Storage (E := E) B} `{!StorageOk B} (storage : B).

Lemma client_run_frame c cmd o : within hframe (client_run (E := E) c cb_log cmd o) /\ ends htime (client_run (E := E) c cb_log cmd o).
Proof.
  assert (forall s, exists r s', client_run (E := E) c cb_log cmd o s = Some (r, s') /\ hframe s s') as Hr.
  { intros s. unfold client_run. destruct (run_log_ends c cmd o (SSt false (env (h_ssh s)))) as (out & ss & -> & Hl).
    do 2 eexists. split; [done|]. by constructor. }
  split.
  - intros s o' s' E1. destruct (Hr s) as (r & s1 & E2 & ?). congruence.
  - intros s Hs. destruct (Hr s) as (r & s1 & ? & ?). exists r, s1. split; [done | by eapply hframe_htime].
Qed.

Lemma sleep_frame q : (0 <= q)%Q -> within hframe (hst_sleep (E := E) q) /\ ends htime (hst_sleep (E := E) q).
Proof.
  intros Hq. assert (forall s : hst E, hframe s (HSt (SSt (ready (h_ssh s)) (sleep q (env (h_ssh s)))) (h_log s) (h_draw s)
      (next_vm s) (br_vm s) (h_vms s) (h_locks s))) as Hf.
  { intros s. constructor; try done. unfold later; cbn. pose proof (sleep_sleeps q (env (h_ssh s))). lra. }
  split; [apply within_modify; exact Hf | apply ends_modify; intros s Hs; eapply hframe_htime; [apply Hf | exact Hs]].
Qed.

Definition time_of (s : hst E) : Q := now (env (h_ssh s)).

Lemma hframe_time s s' : hframe s s' -> (time_of s <= time_of s')%Q.
Proof. by intros [_ _ _ _ _ Hl _]. Qed.

(** After the timeout (as a date), the check of [shutdown] does not go round again. *)
Lemma shutdown_round timeout ws v s : (inject_Z (Z.of_nat timeout) < time_of s)%Q ->
  shutdown_body hclient storage timeout ws v s =
    (_ ← hst_sleep 4; err ← hrun_quiet hclient ("virsh list | grep -q " +:+ vm_name v);
     if truthy err then mret (Some tt) else (_ ← destroy hclient storage ws v; mret (Some tt))) s.
Proof.
  intros Ht. unfold shutdown_body. rewrite !co_bind_eq. destruct (hst_sleep 4 s) as [[[[]|e] s1]|] eqn:E1; [|done|done].
  apply (proj1 (sleep_frame 4 ltac:(lra))) in E1 as F1%hframe_time. rewrite !co_bind_eq.
  destruct (hrun_quiet hclient _ s1) as [[[err|e] s2]|] eqn:E2; [|done|done].
  apply (proj1 (hrun_opts_frame _ _ _)) in E2 as F2%hframe_time. destruct (truthy err); [done|].
  rewrite co_bind_eq. unfold hst_now. rewrite co_bind_eq. cbn [co_get mret co_ret].
  assert (Qle_bool (now (env (h_ssh s2))) (inject_Z (Z.of_nat timeout)) = false) as ->; [|done].
  apply not_true_is_false. rewrite Qle_bool_iff. unfold time_of in *. lra.
Qed.
End VMClock.

(** on any date after the first half minute of 1970, [shutdown] gives a VM no time to halt: after the
    [shutdown -h now] it checks once, four seconds later, and destroys the VM if it is still listed; its 30 seconds are
    compared with the date. *)
Theorem shutdown_checks_once {E} `{WorldOk E} hclient vm_key {B} `{!Storage (E := E) B} `{!StorageOk B} (storage : B)
    timeout ws v a (s : hst E) :
  ip v = Some a -> (inject_Z (Z.of_nat timeout) < time_of s)%Q ->
  shutdown hclient vm_key storage timeout ws v s =
    (_ ← hst_sleep 0;
     _ ← client_run (vm_ssh vm_key v "root") cb_log (CmdStr "shutdown -h now") default_opts;
     _ ← hst_sleep 4;
     err ← hrun_quiet hclient ("virsh list | grep -q " +:+ vm_name v);
     if truthy err then mret tt else destroy hclient storage ws v) s.
Proof.
  intros Hip Ht. unfold shutdown, get_ip. rewrite Hip, !co_bind_eq.
  destruct (hst_sleep 0 s) as [[[[]|e] s1]|] eqn:E1; [|done|done].
  apply (proj1 (sleep_frame 0 ltac:(lra))) in E1 as F1%hframe_time. cbn [mret co_ret]. rewrite !co_bind_eq.
  destruct (client_run _ _ _ _ s1) as [[[r|e] s2]|] eqn:E2; [|done|done].
  apply (proj1 (client_run_frame _ _ _)) in E2 as F2%hframe_time.
  replace (timeout + 2) with (S (S timeout)) by lia. cbn [co_loop]. rewrite co_bind_eq, shutdown_round by lra.
  rewrite !co_bind_eq. destruct (hst_sleep 4 s2) as [[[[]|e] s3]|]; [|done|done]. rewrite !co_bind_eq.
  destruct (hrun_quiet hclient _ s3) as [[[err|e] s4]|]; [|done|done]. destruct (truthy err); [done|].
  rewrite !co_bind_eq. by destruct (destroy _ _ _ _ _) as [[[[]|e] s5]|].
Qed.

Definition host_2015 (procs : list proc) : hst sim :=
  HSt (SSt true (Sim 1430000000 0 procs [])) [] 0 9 [(Some "br0", [7])] [7] [].

(** The VM is still listed at the first check. *)
Lemma shutdown_checks_once_witness : exists s',
  shutdown client_ex "key" (B := BTRFS) (MkBTRFS "ci") (Storage0 := btrfs_storage client_ex) 30 false vm_ex
    (host_2015 [Proc [] (Ok 0%Z); Proc [] (Ok 0%Z)]) = Some (Ok tt, s') /\
  (1430000000 < 1430000010)%Q /\ h_log s' = ["virsh list | grep -q _rci_vm"; "virsh destroy _rci_vm"; "ip link del br0"].
Proof.
  eexists. split_and!; [|done|].
  - rewrite (shutdown_checks_once client_ex "key" (B := BTRFS) (MkBTRFS "ci") 30 false vm_ex "10.0.0.7");
      [vm_compute; reflexivity | done | done].
  - done.
Defined.
