(* ===== verification/VirshHost.v ===== *)
(** * [rallyci/providers/virsh.py]: hosts

    The operations of [Host]: statistics, dynamic bridges, images built from their parents, and the VMs of a job. *)

From Stdlib Require Import QArith.
From stdpp Require Import pretty.
From S2P Require Import Prelude Coro PyStr PyVal PyRe Utils AsyncSSH VirshStorage VirshVM.
Open Scope nat_scope.

(** ** Numbers in command output *)

(** [int(s)] for a string of digits, most significant first. *)
Definition digit_val (c : ascii) : Z := (Z.of_nat (nat_of_ascii c) - 48)%Z.
Definition int_of_digits (s : string) : Z := fold_left (fun n c => 10 * n + digit_val c)%Z (chars s) 0%Z.

(** [float(s)] for digits, a dot, digits. *)
Definition float_of_digits (s : string) : Q :=
  match split "." s with
  | [a; b] => (inject_Z (int_of_digits (a +:+ b)) / inject_Z (10 ^ Z.of_nat (String.length b)))%Q
  | _ => inject_Z (int_of_digits s)
  end.

Definition RE_LA : string := ".*load average: (\d+\.\d+),.*".
Definition RE_MEM : string := ".*Mem: +\d+ +\d+ +(\d+) +\d+ +\d+ +(\d+).*".

(** [R.search(data, re.MULTILINE)] of a compiled pattern: the second argument is the start position, and the value of
    the flag is 8. *)
Definition search_at_flag (pat data : string) : res mstate :=
  match (r ← parse pat; search_pos false r 8 data) with
  | Some m => Ok m
  | None => Raise AttributeError
  end.

Definition group_res (m : mstate) (n : nat) : res string :=
  match group m n with Some s => Ok s | None => Raise IndexError end.

(** The load average and the free memory in the output of [uptime && free -m]. *)
Definition parse_stats (data : string) : res (Q * Z) :=
  m ← search_at_flag RE_LA data;
  la ← group_res m 1;
  m2 ← search_at_flag RE_MEM data;
  a ← group_res m2 1;
  b ← group_res m2 2;
  Ok (float_of_digits la, int_of_digits a + int_of_digits b)%Z.

(** ** Bridges *)

Definition IFACE_RE : string := IFACE_RE_src.

(** The number of an interface [prefix][number] in a line of [ip link list]. *)
Definition iface_num (prefix line : string) : option Z :=
  r ← parse IFACE_RE; m ← match_ false r line;
  p ← group m 1; n ← group m 2;
  if str_eqb p prefix then Some (int_of_digits n) else None.

Definition iface_nums (prefix data : string) : gset Z := list_to_set (omap (iface_num prefix) (splitlines data)).

(** [for i in range(len(nums) + 1): if i not in nums: ... break] *)
Definition free_num (nums : gset Z) : option Z :=
  head (List.filter (fun i => bool_decide (i ∉ nums)) (Z.of_nat <$> seq 0 (size nums + 1))).

(** [ifname[0] = w] *)
Definition set_head (w : string) (l : list string) : list string := match l with [] => [] | _ :: l => w :: l end.

Section Host.
Context {E : Type} `{World E} (hclient : client) (vm_key : string).
Context (rnds : nat -> nat -> nat) (xml_bytes : xml -> string).
Context {B : Type} `{!Storage (E := E) B} (storage : B).
(** The provider's configuration and the root's. *)
Context (config data : pydict).

Definition update_stats : co (hst E) (Q * Z) :=
  out ← hrun_output hclient "uptime && free -m";
  co_lift (parse_stats out).

(** [_get_bridge(prefix)] *)
Definition get_bridge (prefix : string) : co (hst E) string :=
  out ← hrun_output hclient "ip link list";
  match free_num (iface_nums prefix out) with
  | Some i =>
      let br := prefix +:+ str_of_Z i in
      _ ← hrun hclient ("ip link add " +:+ br +:+ " type bridge");
      _ ← hrun hclient ("ip link set " +:+ br +:+ " up");
      mret br
  | None => co_raise UnboundLocalError
  end.

Definition boot_image (name : string) : co (hst E) vm :=
  images ← co_lift (dgetitem config "images");
  conf ← co_lift (getitem images name);
  v ← new_vm rnds conf (PDict [("name", PStr name)]);
  let v := add_disk_name name v in
  files ← st_list_files storage name;
  let v := fold_left (fun v f => add_disk f v) files v in
  net ← co_lift (x ← get conf "build-net" (PStr "virbr0"); as_str x);
  v ← add_net rnds net "" v;
  _ ← boot hclient xml_bytes v;
  mret v.

(** The build scripts, then the shutdown; on any exception the VM and its disks are destroyed and it goes on. *)
Definition run_build_scripts (scripts : list pyval) (v : vm) : co (hst E) unit :=
  co_catch
    (v ← co_fold (fun v name =>
            script ← co_lift (ss ← dgetitem data "script"; n ← as_str name; getitem ss n);
            r ← run_script hclient vm_key script [] cb_log v;
            mret r.1) v scripts;
     shutdown hclient vm_key storage 30 false v)
    (fun e => Some (_ ← destroy hclient storage true v; co_raise e)).

(** What [build_image] does while it holds the lock of [name]; [build_parent] is the recursive call. *)
Definition build_body (build_parent : string -> co (hst E) unit) (name : string) : co (hst E) unit :=
  present ← st_exist storage name;
  if (present : bool) then mret tt
  else
    conf ← co_lift (images ← dgetitem config "images"; getitem images name);
    parent ← co_lift (get conf "parent" PNone);
    finished ←
      (if truthy parent then
         p ← co_lift (as_str parent);
         _ ← build_parent p;
         _ ← st_clone storage p name;
         mret false
       else
         url ← co_lift (get conf "url" PNone);
         if truthy url then
           u ← co_lift (as_str url);
           _ ← st_download storage name u;
           _ ← st_snapshot storage name;
           mret true
         else mret false);
    if (finished : bool) then mret tt
    else
      scripts ← co_lift (get conf "build-scripts" PNone);
      _ ← (if truthy scripts then
             names ← co_lift (iter scripts);
             v ← boot_image name;
             run_build_scripts names v
           else mret tt);
      _ ← hst_sleep 4;
      st_snapshot storage name.

(** [with (yield from self.image_locks[name]): ...]: a lock held by the caller itself is never released. *)
Definition with_image_lock {A} (name : string) (m : co (hst E) A) : co (hst E) A := fun s =>
  if decide (name ∈ h_locks s) then None
  else match m (with_locks (name :: h_locks s) s) with
       | Some (r, s') => Some (r, with_locks (List.filter (fun n => negb (str_eqb n name)) (h_locks s')) s')
       | None => None
       end.

(** [build_image(name)]; the fuel bounds the chain of parents. *)
Fixpoint build_image (fuel : nat) (name : string) : co (hst E) unit :=
  match fuel with
  | 0 => fun _ => None
  | S fuel => with_image_lock name (build_body (build_image fuel) name)
  end.

(** [_get_vm(local_cfg, conf)] *)
Definition get_vm (fuel : nat) (local_cfg conf : pyval) : co (hst E) vm :=
  name ← co_lift (x ← getitem local_cfg "name"; as_str x);
  image ← co_lift (get conf "image" PNone);
  image ← (if truthy image then i ← co_lift (as_str image); _ ← build_image fuel i; mret i else mret name);
  r ← draw rnds;
  rnd_name ← co_lift (get_rnd_name r name 12);
  _ ← st_clone storage image rnd_name;
  v ← new_vm rnds conf local_cfg;
  files ← st_list_files storage rnd_name;
  let v := add_disk_name rnd_name v in
  let v := fold_left (fun v f => add_disk f v) files v in
  nets ← co_lift (x ← getitem conf "net"; iter x);
  v ← co_fold (fun v net =>
        net ← co_lift (as_str net);
        match split " " net with
        | [n] => add_net rnds n "" v
        | n :: mac :: _ => add_net rnds n mac v
        | [] => mret v
        end) v nets;
  _ ← boot hclient xml_bytes v;
  _ ← co_modify (fun s => with_vms (h_vms s ++ [vm_id v]) s);
  mret v.

(** The interfaces of one VM: a name ending in a percent sign is a dynamic bridge, created once per [get_vms] call and
    remembered in [ifs]; [br] is the last one used. *)
Definition map_net (st : list (string * string) * option string * list string) (net : pyval)
  : co (hst E) (list (string * string) * option string * list string) :=
  let '(ifs, br, net_conf) := st in
  n ← co_lift (as_str net);
  let ifname := split " " n in
  let first := default "" (head ifname) in
  if ends_with "%" first then
    match dict_get ifs first with
    | Some b => mret (ifs, Some b, net_conf ++ [join " " (set_head b ifname)])
    | None =>
        b ← get_bridge (drop_last first);
        mret (dict_set ifs first b, Some b, net_conf ++ [join " " (set_head b ifname)])
    end
  else mret (ifs, br, net_conf ++ [join " " ifname]).

(** [conf["net"] = net_conf] on the copy of the VM's configuration. *)
Definition set_net (conf : pyval) (net_conf : list string) : res pyval :=
  match conf with
  | PDict d => Ok (PDict (dict_set d "net" (PList (PStr <$> net_conf))))
  | _ => Raise TypeError
  end.

Definition get_vms_step (fuel : nat) (st : list (string * string) * list vm) (vm_conf : pyval)
  : co (hst E) (list (string * string) * list vm) :=
  let '(ifs, vms) := st in
  name ← co_lift (x ← getitem vm_conf "name"; as_str x);
  conf ← co_lift (vs ← dgetitem config "vms"; getitem vs name);
  nets ← co_lift (x ← getitem conf "net"; iter x);
  r ← co_fold map_net (ifs, None, []) nets;
  let '(ifs, br, net_conf) := r in
  conf ← co_lift (set_net conf net_conf);
  v ← get_vm fuel vm_conf conf;
  _ ← co_modify (fun s =>
        let d := dict_setdefault (br_vm s) br [] in
        with_br (dict_set d br (default [] (dict_get d br) ++ [vm_id v])) s);
  mret (ifs, vms ++ [v]).

(** [Host.get_vms(vm_confs)] *)
Definition get_vms (fuel : nat) (vm_confs : list pyval) : co (hst E) (list vm) :=
  r ← co_fold (get_vms_step fuel) ([], []) vm_confs;
  mret r.2.
End Host.

(** ** What the expression for interfaces recognises *)

Lemma int_pretty_go x : forall s a, (0 <= a)%Z ->
  fold_left (fun n c => 10 * n + digit_val c)%Z (chars (pretty_N_go x s)) 0%Z =
  fold_left (fun n c => 10 * n + digit_val c)%Z (chars s) (Z.of_N x).
Proof.
  induction (N.lt_wf_0 x) as [x _ IH]; intros s a Ha. destruct (decide (x = 0)%N) as [->|Hx]; [by rewrite pretty_N_go_0|].
  rewrite pretty_N_go_step by lia. rewrite (IH (x `div` 10)%N) with (a := a) by (done || (apply N.div_lt; lia)). cbn [chars fold_left]. f_equal.
  assert (digit_val (pretty_N_char (x `mod` 10)) = Z.of_N (x `mod` 10)) as ->.
  { assert (x `mod` 10 < 10)%N as Hm by (apply N.mod_lt; lia). remember (x `mod` 10)%N as y eqn:Ey. clear Ey.
    destruct y as [|p]; [done|]. do 4 (try destruct p as [p|p|]); try done; lia. }
  rewrite N2Z.inj_div, N2Z.inj_mod. change (Z.of_N 10) with 10%Z. pose proof (Z.div_mod (Z.of_N x) 10). lia.
Qed.

(** [int(str(n)) == n] *)
Lemma int_of_str n : (0 <= n)%Z -> int_of_digits (str_of_Z n) = n.
Proof.
  intros Hn. unfold int_of_digits, str_of_Z. destruct n as [|p|p]; [done | | lia].
  change (pretty (Zpos p)) with (pretty_N_go (Npos p) ""). by rewrite (int_pretty_go _ _ 0%Z).
Qed.

Lemma str_of_Z_nonempty n : str_of_Z n <> "".
Proof.
  destruct n as [|p|p]; [done | | done]. intros E. pose proof (int_of_str (Zpos p) ltac:(lia)) as Hi. by rewrite E in Hi.
Qed.

(** The line [ip] prints for an interface: its number and its name, each with a colon, and the rest. *)
Definition digits (s : string) : bool := negb (str_eqb s "") && forallb is_digit (chars s).
Definition line_of (name line : string) : bool :=
  match split " " line with
  | idx :: n :: _ :: _ => bool_decide (n = name +:+ ":") && ends_with ":" idx && digits (drop_last idx)
  | _ => false
  end.

Lemma line_of_spec name line : line_of name line = true ->
  exists idx more, digits idx = true /\ line = idx +:+ ": " +:+ name +:+ ": " +:+ more.
Proof.
  unfold line_of. pose proof (join_split " " line) as Hj. destruct (split " " line) as [|a [|b [|c l]]]; try done.
  rewrite !andb_true_iff, bool_decide_eq_true. intros [[-> He] Hd]. exists (drop_last a), (join " " (c :: l)). split; [done|].
  rewrite <- Hj, (join_cons " " a), (join_cons " " (name +:+ ":")) by done. rewrite <- (ends_with_drop_last ":" a He) at 1.
  by rewrite !string_app_assoc.
Qed.

(** The interfaces whose numbers the expression finds: small letters, then the number. *)
Definition letters (s : string) : bool := negb (str_eqb s "") && forallb (fun c => in_cls c (CRange "a" "z")) (chars s).

(** An interface named by small letters and a number is recognised, whatever its index and the rest of its line. *)
Lemma iface_num_line prefix n idx more : letters prefix = true -> (0 <= n)%Z -> digits idx = true ->
  iface_num prefix (idx +:+ ": " +:+ prefix +:+ str_of_Z n +:+ ": " +:+ more) = Some n.
Proof.
  unfold letters, digits. rewrite !andb_true_iff, !negb_true_iff, !str_eqb_false. intros [Hp Hl] Hn [Hi Hd]. unfold iface_num, match_.
  assert (forall w, w <> "" -> chars w <> []) as Hne by (by intros []).
  assert (forall f ks w, forallb f (chars w) = true -> (forall c, f c = true -> existsb (in_cls c) ks = true) ->
    Forall (fun c => existsb (in_cls c) ks = true) (chars w)) as Hall
    by (intros f ks w Hw Hfg; rewrite forallb_forall in Hw; apply Forall_forall; intros c Hc; apply Hfg, Hw; by apply list_elem_of_In).
  match goal with |- context [parse IFACE_RE] => let r := eval vm_compute in (parse IFACE_RE) in change (parse IFACE_RE) with r end.
  cbn [mbind option_bind]. rewrite !chars_app. set (num := str_of_Z n).
  assert (Forall (fun c => is_digit c = true) (chars num)) as Hnum by by apply str_of_Z_digits.
  set (tl := chars more). cbn [chars app].
  destruct (first_plus_set false [CDigit] (chars idx) (":"%char :: " "%char :: chars prefix ++ chars num ++ ":"%char :: " "%char :: tl) None [])
    as [q1 F1]; [by apply Hne | apply (Hall _ _ _ Hd); intros c Hc; cbn; by rewrite Hc | done|].
  destruct (first_plus_set false [CRange "a" "z"] (chars prefix) (chars num ++ ":"%char :: " "%char :: tl) (Some " "%char) [])
    as [q2 F2]; [by apply Hne | apply (Hall _ _ _ Hl); intros c Hc; cbn [existsb]; by rewrite Hc | |].
  { destruct (chars num) as [|c cs] eqn:E; [done|]. cbn [app]. apply Forall_cons in Hnum as [Hc _].
    destruct c as [[] [] [] [] [] [] [] []]; try done. }
  destruct (first_plus_set false [CDigit] (chars num) (":"%char :: " "%char :: tl) q2 [(1, chars prefix)])
    as [q3 F3]; [by apply Hne, str_of_Z_nonempty | eapply Forall_impl; [exact Hnum|]; intros c Hc; cbn; by rewrite Hc | done|].
  destruct (star_set_caps false [CAny] (length tl) (MState (Some " "%char) tl [(2, chars num); (1, chars prefix)])) as (st & F4 & Hc).
  match goal with |- context [head (matches false ?r ?s)] => assert (first_match false r s st) as F end.
  { eapply first_seq; [exact F1|]. do 2 (eapply first_seq; [by apply first_set|]).
    eapply first_seq; [apply first_group_app; eapply first_seq; [exact F2 | apply first_empty]|].
    eapply first_seq; [apply first_group_app; eapply first_seq; [exact F3 | apply first_empty]|].
    do 2 (eapply first_seq; [by apply first_set|]). eapply first_seq; [exact F4 | apply first_empty]. }
  assert (group st 1 = Some prefix) as G1 by (rewrite <- (of_chars_chars prefix); unfold group; rewrite Hc; reflexivity).
  assert (group st 2 = Some num) as G2 by (rewrite <- (of_chars_chars num); unfold group; rewrite Hc; reflexivity).
  unfold first_match in F. rewrite F. cbn [mbind option_bind]. rewrite G1, G2. cbn [mbind option_bind].
  rewrite (proj2 (str_eqb_true prefix prefix)) by done. unfold num. by rewrite int_of_str.
Qed.

(** So a line of an interface of that name puts its number in the set. *)
Lemma iface_nums_line prefix n out line : letters prefix = true -> (0 <= n)%Z -> line_of (prefix +:+ str_of_Z n) line = true ->
  line ∈ splitlines out -> n ∈ iface_nums prefix out.
Proof.
  intros Hp Hn (idx & more & Hd & ->)%line_of_spec Hin. apply elem_of_list_to_set, list_elem_of_omap. eexists. split; [exact Hin|].
  rewrite <- (iface_num_line prefix n idx more) by done. by rewrite !string_app_assoc.
Qed.

(** ** The number of a new bridge *)

Lemma first_true (P : Z -> bool) n : forall k,
  match head (List.filter P (Z.of_nat <$> seq k n)) with
  | Some i => exists m, i = Z.of_nat m /\ k <= m < k + n /\ P i = true /\ forall j, k <= j < m -> P (Z.of_nat j) = false
  | None => forall j, k <= j < k + n -> P (Z.of_nat j) = false
  end.
Proof.
  induction n as [|n IH]; intros k; cbn [seq fmap list_fmap List.filter]; [cbn; lia|].
  destruct (P (Z.of_nat k)) eqn:Hk; [exists k; split_and!; [done | lia | lia | done | lia]|].
  specialize (IH (S k)). destruct (head _) as [i|].
  - destruct IH as (m & -> & ? & ? & Hj). exists m. split_and!; [done | lia | lia | done|]. intros j Hjk.
    destruct (decide (j = k)) as [->|]; [done | apply Hj; lia].
  - intros j Hjk. destruct (decide (j = k)) as [->|]; [done | apply IH; lia].
Qed.

(** Among [len(nums) + 1] candidates one is free; the first is the least free number. *)
Lemma free_num_spec nums : exists i, free_num nums = Some i /\ (0 <= i <= Z.of_nat (size nums))%Z /\ i ∉ nums /\
  forall j, (0 <= j < i)%Z -> j ∈ nums.
Proof.
  unfold free_num. pose proof (first_true (fun i => bool_decide (i ∉ nums)) (size nums + 1) 0) as Hf.
  destruct (head _) as [i|].
  - destruct Hf as (m & -> & Hm & Hi%bool_decide_eq_true & Hj). exists (Z.of_nat m). split_and!; [done | lia | lia | done|].
    intros j Hjm. specialize (Hj (Z.to_nat j) ltac:(lia)). apply bool_decide_eq_false, dec_stable in Hj.
    by rewrite Z2Nat.id in Hj by lia.
  - exfalso. assert (list_to_set (Z.of_nat <$> seq 0 (size nums + 1)) ⊆ nums) as Hsub.
    { intros i Hi. apply elem_of_list_to_set, list_elem_of_fmap in Hi as (m & -> & Hm%elem_of_seq).
      specialize (Hf m ltac:(lia)). by apply bool_decide_eq_false, dec_stable in Hf. }
    apply subseteq_size in Hsub. rewrite size_list_to_set in Hsub.
    + rewrite length_fmap, length_seq in Hsub. lia.
    + apply NoDup_fmap_2; [apply Nat2Z.inj' | apply NoDup_seq].
Qed.

(** C29: a new dynamic bridge gets the least number that no interface of the host with that prefix has; the host is asked
    for its interfaces once, then to add the bridge and to bring it up, and the number always exists. *)
Theorem get_bridge_fresh {E} `{World E} hclient prefix (s s1 : hst E) out o s' :
  hrun_output hclient "ip link list" s = Some (Ok out, s1) -> get_bridge hclient prefix s = Some (o, s') ->
  exists i, i ∉ iface_nums prefix out /\ (forall j, (0 <= j < i)%Z -> j ∈ iface_nums prefix out) /\ (0 <= i)%Z /\
    let br := prefix +:+ str_of_Z i in
    (forall b, o = Ok b -> b = br /\
       h_log s' = h_log s ++ ["ip link list"; "ip link add " +:+ br +:+ " type bridge"; "ip link set " +:+ br +:+ " up"]) /\
    (forall e, o = Raise e -> exists s2, hrun hclient ("ip link add " +:+ br +:+ " type bridge") s1 = Some (Raise e, s') \/
       hrun hclient ("ip link add " +:+ br +:+ " type bridge") s1 = Some (Ok tt, s2) /\
       hrun hclient ("ip link set " +:+ br +:+ " up") s2 = Some (Raise e, s')).
Proof.
  intros Hl. unfold get_bridge. rewrite co_bind_eq, Hl.
  destruct (free_num_spec (iface_nums prefix out)) as (i & -> & Hi & Hn & Hj). intros Hg. exists i.
  split; [done|]. split; [done|]. split; [lia|]. cbn zeta. set (br := prefix +:+ str_of_Z i) in *.
  assert (h_log s1 = h_log s ++ ["ip link list"]) as Hl1.
  { unfold hrun_output in Hl. rewrite co_bind_eq in Hl. unfold hrun_opts in Hl.
    destruct (run _ _ _ _ _) as [[[v|e] ss]|]; [|done|done]. unfold co_lift in Hl. by injection Hl as _ <-. }
  rewrite co_bind_eq in Hg. destruct (hrun hclient _ s1) as [[[[]|e] s2]|] eqn:E1; [| |done].
  - rewrite co_bind_eq in Hg. destruct (hrun hclient (_ +:+ br +:+ " up") s2) as [[[[]|e] s3]|] eqn:E2; [| |done]; injection Hg as <- <-.
    + apply hrun_log in E1 as [Hl2 _]. apply hrun_log in E2 as [Hl3 _].
      split; [intros b [= <-]; split; [done|] | done]. by rewrite Hl3, Hl2, Hl1, <- !app_assoc.
    + split; [done|]. intros e' [= <-]. exists s2. auto.
  - injection Hg as <- <-. split; [done|]. intros e' [= <-]. exists s1. auto.
Qed.

Definition links_ex : proc :=
  Proc ["1: lo: <LOOPBACK>" +:+ String nl ""; "3: tmp0: <UP>" +:+ String nl ""; "5: tmp2: <UP>" +:+ String nl ""] (Ok 0%Z).

Lemma get_bridge_fresh_witness : exists s', get_bridge client_ex "tmp" (host_ex [links_ex]) = Some (Ok "tmp1", s') /\
  h_log s' = ["ip link list"; "ip link add tmp1 type bridge"; "ip link set tmp1 up"].
Proof.
  edestruct (get_bridge_fresh client_ex "tmp" (host_ex [links_ex])) as (i & _ & _ & _ & Hok & _);
    [vm_compute; reflexivity | vm_compute; reflexivity|].
  destruct (Hok _ eq_refl) as [_ Hlog]. eexists. split; [vm_compute; reflexivity|]. by vm_compute.
Defined.
