(* ===== verification/VirshBuild.v ===== *)
(** * Building images: termination and locks

    Every operation of a VM and of the storage ends, and leaves the image locks alone; so does [build_image] when the
    parents of the images form no cycle ([ImageRace] shows what it does when they do). *)

From Stdlib Require Import QArith Lqa.
From S2P Require Import Prelude Coro PyStr PyVal PyRe Utils AsyncSSH VirshStorage VirshVM VirshHost.
Open Scope nat_scope.

(** The locks are as before and the clock has not gone back. *)
Record lframe {E} `{World E} (s s' : hst E) : Prop := {
  lf_locks : h_locks s' = h_locks s; lf_later : later (h_ssh s) (h_ssh s') }.

#[export] Instance lframe_refl {E} `{World E} : Reflexive (lframe (E := E)).
Proof. by constructor. Qed.
#[export] Instance lframe_trans {E} `{World E} : Transitive (lframe (E := E)).
Proof. intros s1 s2 s3 [] []. constructor; [congruence | by etrans]. Qed.

Lemma hframe_lframe {E} `{World E} (s s' : hst E) : hframe s s' -> lframe s s'.
Proof. intros []. by constructor. Qed.

(** On any date after 1970, [m] ends, with the locks as before. *)
Definition good {E} `{World E} {A} (m : co (hst E) A) : Prop :=
  forall s, htime s -> exists o s', m s = Some (o, s') /\ lframe s s'.

Lemma lframe_htime {E} `{World E} (s s' : hst E) : lframe s s' -> htime s -> htime s'.
Proof. intros [_ Hl] Ht. unfold htime, later in *. by eapply Qle_trans. Qed.

Create HintDb good.

Section Good.
Context {E : Type} `{WorldOk E}.

Lemma good_frame {A} (m : co (hst E) A) : within hframe m /\ ends htime m -> good m.
Proof.
  intros [Hw He] s Hs. destruct (He s Hs) as (o & s' & Hm & _). exists o, s'. split; [done|].
  apply hframe_lframe. by eapply Hw.
Qed.
Lemma good_ret {A} (a : A) : good (mret a : co (hst E) A).
Proof. intros s Hs. by do 2 eexists. Qed.
Lemma good_lift {A} (r : res A) : good (co_lift r : co (hst E) A).
Proof. intros s Hs. by do 2 eexists. Qed.
Lemma good_raise {A} e : good (co_raise e : co (hst E) A).
Proof. intros s Hs. by do 2 eexists. Qed.
Lemma good_get : good (E := E) co_get.
Proof. intros s Hs. by do 2 eexists. Qed.
Lemma good_modify f : (forall s : hst E, lframe s (f s)) -> good (co_modify f).
Proof. intros Hf s Hs. do 2 eexists. split; [done | apply Hf]. Qed.
Lemma good_bind {A C} (m : co (hst E) A) (f : A -> co (hst E) C) : good m -> (forall a, good (f a)) -> good (m ≫= f).
Proof.
  intros Hm Hf s Hs. rewrite co_bind_eq. destruct (Hm s Hs) as ([a|e] & s1 & -> & Hl); [|eauto].
  destruct (Hf a s1) as (o & s2 & -> & ?); [by eapply lframe_htime|]. exists o, s2. split; [done | by etrans].
Qed.
Lemma good_catch {A} (m : co (hst E) A) h : good m -> (forall e k, h e = Some k -> good k) -> good (co_catch m h).
Proof.
  intros Hm Hh s Hs. unfold co_catch. destruct (Hm s Hs) as ([a|e] & s1 & -> & Hl); [eauto|].
  destruct (h e) as [k|] eqn:He; [|eauto]. destruct (Hh e k He s1) as (o & s2 & -> & ?); [by eapply lframe_htime|].
  exists o, s2. split; [done | by etrans].
Qed.
Lemma good_fold {A C} (f : C -> A -> co (hst E) C) b l : (forall b x, good (f b x)) -> good (co_fold f b l).
Proof. intros Hf. revert b. induction l as [|x l IH]; intros b; [apply good_ret | apply good_bind; auto]. Qed.
Lemma good_iter {A} (f : A -> co (hst E) unit) l : (forall x, good (f x)) -> good (co_iter f l).
Proof. intros Hf. induction l as [|x l IH]; [apply good_ret | apply good_bind; auto]. Qed.
End Good.

#[export] Hint Resolve good_ret good_lift good_raise good_get good_iter good_fold : good.

(** Follow the structure of a coroutine. *)
Ltac good_step :=
  repeat first
    [ progress intros
    | solve [auto with good]
    | apply good_bind
    | apply good_fold
    | match goal with
      | |- good (if ?b then _ else _) => destruct b
      | |- good (match ?x with _ => _ end) => destruct x
      | |- good (let _ := _ in _) => cbv zeta
      end ].

(** ** The operations of a VM *)

Section VMGood.
Context {E : Type} `{WorldOk E} (hclient : client) (vm_key : string).
Context (rnds : nat -> nat -> nat) (xml_bytes : xml -> string).
Context {B : Type} `{!Storage (E := E) B} `{!StorageOk B} (storage : B).

Lemma good_hrun_opts o cmd : good (hrun_opts (E := E) hclient o cmd).
Proof. apply good_frame, hrun_opts_frame. Qed.
Lemma good_hrun cmd : good (hrun (E := E) hclient cmd).
Proof. apply good_frame, hrun_frame. Qed.
Lemma good_hrun_output cmd : good (hrun_output (E := E) hclient cmd).
Proof. apply good_frame, hrun_output_frame. Qed.
Lemma good_client_run c cmd o : good (client_run (E := E) c cb_log cmd o).
Proof. apply good_frame, client_run_frame. Qed.
Lemma good_sleep q : (0 <= q)%Q -> good (hst_sleep (E := E) q).
Proof. intros. by apply good_frame, sleep_frame. Qed.
Lemma good_now : good (hst_now (E := E)).
Proof. unfold hst_now. good_step. Qed.
Lemma good_draw : good (draw (E := E) rnds).
Proof. intros s Hs. do 2 eexists. split; [done|]. by constructor. Qed.
Lemma good_new_id : good (new_id (E := E)).
Proof. intros s Hs. do 2 eexists. split; [done|]. by constructor. Qed.
Lemma good_create n : good (st_create storage n). Proof. apply good_frame, ok_create. Qed.
Lemma good_list_files n : good (st_list_files storage n). Proof. apply good_frame, ok_list_files. Qed.
Lemma good_clone n m : good (st_clone storage n m). Proof. apply good_frame, ok_clone. Qed.
Lemma good_exist n : good (st_exist storage n). Proof. apply good_frame, ok_exist. Qed.
Lemma good_snapshot n : good (st_snapshot storage n). Proof. apply good_frame, ok_snapshot. Qed.
Lemma good_st_destroy n : good (st_destroy storage n). Proof. apply good_frame, ok_destroy. Qed.
Lemma good_download n u : good (st_download storage n u). Proof. apply good_frame, ok_download. Qed.

#[local] Hint Resolve good_hrun_opts good_hrun good_hrun_output good_client_run good_now good_draw good_new_id good_create
  good_list_files good_clone good_exist good_snapshot good_st_destroy good_download : good.
#[local] Hint Extern 1 (good (hst_sleep _)) => apply good_sleep; lra : good.

Lemma good_new_vm cfg local : good (new_vm (E := E) rnds cfg local).
Proof. unfold new_vm. good_step. Qed.
Lemma good_add_net br mac v : good (add_net (E := E) rnds br mac v).
Proof. unfold add_net. good_step. Qed.
Lemma good_boot v : good (boot (E := E) hclient xml_bytes v).
Proof. unfold boot. good_step. Qed.
Lemma good_cleanup_net : good (cleanup_net (E := E) hclient).
Proof. unfold cleanup_net. good_step. apply good_modify. by constructor. Qed.
#[local] Hint Resolve good_cleanup_net : good.
Lemma good_destroy ws v : good (destroy hclient storage ws v).
Proof. unfold destroy, hrun_quiet. good_step. apply good_modify. by constructor. Qed.

(** The loops: each round sleeps, so the fuel lasts until the deadline. *)
Lemma get_ip_round deadline v s : htime s -> exists o s', get_ip_body hclient deadline v s = Some (o, s') /\ lframe s s' /\
  (o = Ok None -> time_of s <= deadline /\ time_of s + 4 <= time_of s')%Q.
Proof.
  intros Hs. unfold get_ip_body. rewrite co_bind_eq. unfold hst_now. rewrite co_bind_eq. cbn [co_get mret co_ret].
  destruct (Qle_bool (now (env (h_ssh s))) deadline) eqn:Ht; cbn [negb]; [|by do 2 eexists].
  apply Qle_bool_iff in Ht. rewrite co_bind_eq. unfold hst_sleep at 1, co_modify at 1. set (s1 := HSt _ _ _ _ _ _ _).
  assert (time_of s + 4 <= time_of s1)%Q as H4 by (unfold time_of; cbn; apply sleep_sleeps).
  assert (lframe s s1) as L1 by (constructor; [done|]; unfold later, time_of in *; cbn in *; lra).
  match goal with |- exists o s', ?m s1 = _ /\ _ => assert (good m) as Hg by good_step end.
  destruct (Hg s1 (lframe_htime _ _ L1 Hs)) as (o & s2 & -> & L2). exists o, s2. split; [done|]. split; [by etrans|].
  intros _. split; [done|]. destruct L2 as [_ L2]. unfold later, time_of in *. lra.
Qed.

Lemma inject_S n : (inject_Z (Z.of_nat (S n)) == inject_Z (Z.of_nat n) + 1)%Q.
Proof. rewrite Nat2Z.inj_succ. unfold Z.succ. by rewrite inject_Z_plus. Qed.

(** A loop whose rounds take a second at least and stop going round [n - 1] seconds after [t0]. *)
Lemma loop_good {A} (body : co (hst E) (option A)) (t0 : Q) n :
  (forall s, htime s -> exists o s', body s = Some (o, s') /\ lframe s s' /\
     (o = Ok None -> time_of s <= t0 + inject_Z (Z.of_nat n) - 1 /\ time_of s + 1 <= time_of s')%Q) ->
  forall s, htime s -> (t0 <= time_of s)%Q -> exists o s', co_loop (S n) body s = Some (o, s') /\ lframe s s'.
Proof.
  intros Hb. cut (forall m s, htime s -> (t0 + inject_Z (Z.of_nat n) - inject_Z (Z.of_nat m) <= time_of s)%Q ->
    exists o s', co_loop (S m) body s = Some (o, s') /\ lframe s s').
  { intros Hm s Hs Ht. apply Hm; [done|]. lra. }
  induction m as [|m IH]; intros s Hs Ht; destruct (Hb s Hs) as (o & s1 & E1 & L1 & Hn);
    cbn [co_loop]; rewrite co_bind_eq, E1; (destruct o as [[a|]|e]; [by do 2 eexists| |by do 2 eexists]).
  - destruct (Hn eq_refl) as [H1 _]. change (inject_Z (Z.of_nat 0)) with 0%Q in Ht. exfalso. lra.
  - destruct (Hn eq_refl) as [_ H1]. rewrite inject_S in Ht.
    destruct (IH s1) as (o & s2 & E2 & L2); [by eapply lframe_htime | lra|]. exists o, s2. split; [exact E2 | by etrans].
Qed.

Lemma good_get_ip timeout v : good (get_ip hclient timeout v).
Proof.
  unfold get_ip. destruct (ip v); [good_step|]. intros s Hs. rewrite co_bind_eq. unfold hst_now. rewrite co_bind_eq.
  cbn [co_get mret co_ret]. replace (timeout + 2) with (S (S timeout)) by lia.
  apply (loop_good _ (time_of s)); [|done|apply Qle_refl]. intros s1 Hs1.
  destruct (get_ip_round (now (env (h_ssh s)) + inject_Z (Z.of_nat timeout)) v s1 Hs1) as (o & s2 & E2 & L2 & Hn).
  exists o, s2. split; [done|]. split; [done|]. intros Ho. destruct (Hn Ho). rewrite inject_S. unfold time_of in *. lra.
Qed.
#[local] Hint Resolve good_get_ip good_new_vm good_add_net good_boot good_destroy : good.

Lemma good_run_script script envv v : good (run_script hclient vm_key script envv cb_log v).
Proof. unfold run_script. good_step. Qed.

Lemma good_shutdown timeout ws v : good (shutdown hclient vm_key storage timeout ws v).
Proof.
  unfold shutdown. destruct (ip v) as [a|]; [|good_step]. apply good_bind; [good_step|]. intros v'. apply good_bind; [good_step|].
  intros _ s Hs. replace (timeout + 2) with (S (S timeout)) by lia.
  apply (loop_good _ 0%Q); [|done|exact Hs]. intros s1 Hs1. unfold shutdown_body. rewrite co_bind_eq.
  unfold hst_sleep at 1, co_modify at 1. set (s2 := HSt _ _ _ _ _ _ _).
  assert (time_of s1 + 4 <= time_of s2)%Q as H4 by (unfold time_of; cbn; apply sleep_sleeps).
  assert (lframe s1 s2) as L1 by (constructor; [done|]; unfold later, time_of in *; cbn in *; lra).
  pose proof (lframe_htime _ _ L1 Hs1) as Hs2. rewrite co_bind_eq. unfold hrun_quiet.
  destruct (good_hrun_opts quiet_opts ("virsh list | grep -q " +:+ vm_name v') s2 Hs2) as ([err|e] & s3 & -> & L2).
  2:{ do 2 eexists. split; [done|]. split; [by etrans | done]. }
  assert (time_of s2 <= time_of s3)%Q as H5 by (destruct L2; done). pose proof (lframe_htime _ _ L2 Hs2) as Hs3.
  destruct (truthy err); [do 2 eexists; split; [done|]; split; [by etrans | done]|].
  rewrite co_bind_eq. unfold hst_now. rewrite co_bind_eq. cbn [co_get mret co_ret].
  destruct (Qle_bool _ _) eqn:Hq; cbn [negb].
  - apply Qle_bool_iff in Hq. do 2 eexists. split; [done|]. split; [by etrans|]. intros _. rewrite inject_S.
    unfold time_of in *. lra.
  - rewrite co_bind_eq. destruct (good_destroy ws v' s3 Hs3) as ([[]|e] & s4 & -> & L3);
      (do 2 eexists; split; [done|]; split; [by do 2 (etrans; [eassumption|]) | done]).
Qed.
#[local] Hint Resolve good_run_script good_shutdown : good.
End VMGood.

(** ** Images *)

Definition good_at {E} `{World E} {A} (s : hst E) (m : co (hst E) A) : Prop := exists o s', m s = Some (o, s') /\ lframe s s'.

Lemma good_at_bind {E} `{World E} {A C} (s : hst E) (m : co (hst E) A) (f : A -> co (hst E) C) :
  good_at s m -> (forall a s1, lframe s s1 -> good_at s1 (f a)) -> good_at s (m ≫= f).
Proof.
  intros (o & s1 & Hm & Hl) Hf. unfold good_at. rewrite co_bind_eq, Hm. destruct o as [a|e]; [|eauto].
  destruct (Hf a s1 Hl) as (o & s2 & -> & ?). exists o, s2. split; [done | by etrans].
Qed.

Lemma good_at_lift {E} `{World E} {A C} (s : hst E) (r : res A) (f : A -> co (hst E) C) :
  (forall a, r = Ok a -> good_at s (f a)) -> good_at s (co_lift r ≫= f).
Proof. intros Hf. unfold good_at. rewrite co_bind_eq. unfold co_lift. destruct r as [a|e]; [by apply Hf | by do 2 eexists]. Qed.

(** The parent of an image: [conf.get("parent")] of an image that has a configuration. *)
Definition parent_of (config : pydict) (name : string) : option string :=
  match (images ← dgetitem config "images"; conf ← getitem images name; get conf "parent" PNone) with
  | Ok (PStr p) => if str_eqb p "" then None else Some p
  | _ => None
  end.

Section Images.
Context {E : Type} `{WorldOk E} (hclient : client) (vm_key : string).
Context (rnds : nat -> nat -> nat) (xml_bytes : xml -> string).
Context {B : Type} `{!Storage (E := E) B} `{!StorageOk B} (storage : B).
Context (config data : pydict).

#[local] Hint Resolve good_hrun_opts good_hrun good_hrun_output good_client_run good_now good_draw good_new_id good_create
  good_list_files good_clone good_exist good_snapshot good_st_destroy good_download
  good_get_ip good_new_vm good_add_net good_boot good_destroy good_run_script good_shutdown : good.
#[local] Hint Extern 1 (good (hst_sleep _)) => apply good_sleep; lra : good.

Lemma good_boot_image name : good (boot_image hclient rnds xml_bytes storage config name).
Proof. unfold boot_image. good_step. Qed.

Lemma good_run_build_scripts scripts v : good (run_build_scripts hclient vm_key storage data scripts v).
Proof.
  unfold run_build_scripts. apply good_catch; [good_step|]. intros e k [= <-]. good_step.
Qed.
#[local] Hint Resolve good_boot_image good_run_build_scripts : good.

(** The work under the lock ends if the recursive call on the parent does. *)
Lemma build_body_good build_parent name s : htime s ->
  (forall p s1, parent_of config name = Some p -> lframe s s1 -> good_at s1 (build_parent p)) ->
  good_at s (build_body hclient vm_key rnds xml_bytes storage config data build_parent name).
Proof.
  intros Hs Hp. unfold build_body. apply good_at_bind; [by apply good_exist|]. intros [] s1 L1; [by do 2 eexists|].
  pose proof (lframe_htime _ _ L1 Hs) as Hs1. apply good_at_lift. intros conf Hconf. apply good_at_lift. intros parent Hpar.
  apply good_at_bind.
  - destruct (truthy parent) eqn:Htr.
    + apply good_at_lift. intros p Hstr. destruct parent; try done. injection Hstr as ->.
      apply good_at_bind; [|intros; assert (htime s0) by (by eapply lframe_htime); apply good_bind; good_step].
      apply Hp; [|done]. unfold parent_of. destruct (dgetitem config "images") as [images|]; [|done]. cbn in Hconf |- *.
      rewrite Hconf. cbn [mbind res_bind]. rewrite Hpar. cbn in Htr. apply negb_true_iff in Htr. by rewrite Htr.
    + revert s1 L1 Hs1. intros s1 _. revert s1. change (good (E := E) (url ← co_lift (get conf "url" PNone);
         if truthy url then
           u ← co_lift (as_str url); _ ← st_download storage name u; _ ← st_snapshot storage name; mret true
         else mret false)). good_step.
  - intros fin s2 L2. assert (htime s2) as Hs2 by (by eapply lframe_htime). destruct fin; [by do 2 eexists|].
    revert s2 L2 Hs2. intros s2 _. revert s2. match goal with |- forall s2, htime s2 -> good_at s2 ?m => change (good m) end. good_step.
Qed.

(** With the lock: taken, and given back however the work ends. *)
Lemma with_image_lock_good {A} name (m : co (hst E) A) s : name ∉ h_locks s ->
  good_at (with_locks (name :: h_locks s) s) m -> good_at s (with_image_lock name m).
Proof.
  intros Hn (o & s' & Hm & [Hl Ht]). unfold good_at, with_image_lock. rewrite decide_False by done. rewrite Hm.
  do 2 eexists. split; [done|]. constructor; [|exact Ht]. cbn [with_locks h_locks] in *. rewrite Hl. cbn [List.filter].
  rewrite str_eqb_refl. cbn [negb]. clear -Hn. induction (h_locks s) as [|x l IH]; [done|].
  apply not_elem_of_cons in Hn as [Hx Hn]. cbn [List.filter]. assert (str_eqb x name = false) as -> by (by apply str_eqb_false).
  cbn [negb]. by rewrite IH.
Qed.

(** Every chain of parents goes down in rank. *)
Definition acyclic (rank : string -> nat) : Prop := forall n p, parent_of config n = Some p -> rank p < rank n.

Lemma build_image_good rank fuel : acyclic rank -> forall name s, htime s -> rank name < fuel ->
  (forall n, n ∈ h_locks s -> rank name < rank n) ->
  good_at s (build_image hclient vm_key rnds xml_bytes storage config data fuel name).
Proof.
  intros Ha. induction fuel as [|fuel IH]; intros name s Hs Hr Hl; [lia|]. cbn [build_image].
  apply with_image_lock_good; [intros Hin; specialize (Hl _ Hin); lia|].
  apply build_body_good; [done|]. intros p s1 Hp L1. specialize (Ha name p Hp). apply IH; [by eapply lframe_htime | lia|].
  intros n. rewrite (lf_locks _ _ L1). cbn [with_locks h_locks]. rewrite elem_of_cons. intros [->|Hn]; [done|].
  specialize (Hl n Hn). lia.
Qed.
End Images.

(** C12: when the parents of the images form no cycle, [build_image] ends, whatever the commands on the host and in the
    VMs give, and every image lock it took is free again, also when it raises. *)
Theorem build_image_terminates {E} `{WorldOk E} hclient vm_key rnds xml_bytes {B} `{!Storage (E := E) B} `{!StorageOk B}
    (storage : B) config data rank name (s : hst E) :
  acyclic config rank -> htime s -> h_locks s = [] ->
  exists o s', build_image hclient vm_key rnds xml_bytes storage config data (S (rank name)) name s = Some (o, s') /\
    h_locks s' = [].
Proof.
  intros Ha Hs Hl.
  destruct (build_image_good hclient vm_key rnds xml_bytes storage config data rank (S (rank name)) Ha name s)
    as (o & s' & Hb & [Hl' _]); [done | lia | rewrite Hl; intros n Hn; by apply not_elem_of_nil in Hn|].
  exists o, s'. split; [done | congruence].
Qed.

(** [test] is built from [base], which is downloaded. *)
Definition images_ex : pydict :=
  [("images", PDict [("base", PDict [("url", PStr "http://x/i.qcow2")]); ("test", PDict [("parent", PStr "base")])])].
Definition rank_ex (n : string) : nat := if str_eqb n "test" then 1 else 0.

Lemma acyclic_ex : acyclic images_ex rank_ex.
Proof.
  intros n p. unfold parent_of, dgetitem, getitem, get. cbn. unfold rank_ex.
  repeat (case_decide; subst; cbn; try done). intros [= <-]. vm_compute. lia.
Qed.

Lemma build_image_terminates_witness : exists o s',
  build_image client_ex "key" (fun _ => rnd_ex) (fun _ => "") (B := BTRFS) (MkBTRFS "ci") (Storage0 := btrfs_storage client_ex)
    images_ex [] (S (rank_ex "test")) "test" (host_2015 []) = Some (o, s') /\ h_locks s' = [].
Proof.
  apply (build_image_terminates client_ex "key" (fun _ => rnd_ex) (fun _ => "") (B := BTRFS)
    (Storage0 := btrfs_storage client_ex) (MkBTRFS "ci") images_ex [] rank_ex "test" (host_2015 [])).
  - exact acyclic_ex.
  - vm_compute. discriminate.
  - reflexivity.
Defined.
