(* ===== verification/VirshNet.v ===== *)
(** * The network of a job's VMs

    [Host.get_vms] connects the VMs of a job: the interfaces whose name ends in a percent sign get dynamic bridges, one
    per name and job. *)

From Stdlib Require Import QArith.
From S2P Require Import Prelude Coro PyStr PyVal PyRe Utils AsyncSSH VirshStorage VirshVM VirshHost.
Open Scope nat_scope.

Definition first_word (n : string) : string := default "" (head (split " " n)).

(** The bridge an interface of the configuration stands for, once the dynamic bridges [ifs] are known. *)
Definition resolve (ifs : list (string * string)) (n : string) : option string :=
  if ends_with "%" (first_word n) then dict_get ifs (first_word n) else Some (first_word n).

Definition extends (ifs ifs' : list (string * string)) : Prop := forall k b, dict_get ifs k = Some b -> dict_get ifs' k = Some b.
#[export] Instance extends_refl : Reflexive extends. Proof. by intros ifs k b. Qed.
#[export] Instance extends_trans : Transitive extends. Proof. intros a b c H1 H2 k v Hk. auto. Qed.

Lemma resolve_extends ifs ifs' n b : extends ifs ifs' -> resolve ifs n = Some b -> resolve ifs' n = Some b.
Proof. unfold resolve. intros He. destruct (ends_with _ _); auto. Qed.

Definition no_space (b : string) : Prop := " "%char ∉ chars b.

Lemma first_word_no_space n : no_space (first_word n).
Proof.
  unfold first_word, no_space. pose proof (split_no_sep " " n) as Hs. destruct (split " " n) as [|w ws]; [apply not_elem_of_nil|].
  by apply Forall_cons in Hs as [? _].
Qed.

(** The first word of a configuration line with its first word replaced. *)
Lemma first_word_set b n : no_space b -> first_word (join " " (set_head b (split " " n))) = b.
Proof.
  intros Hb. unfold first_word. destruct (split " " n) as [|w ws] eqn:E; [by apply split_not_nil in E|]. cbn [set_head].
  rewrite (split_join " "); [done|done|]. constructor; [done|]. pose proof (split_no_sep " " n) as Hs. rewrite E in Hs.
  by apply Forall_cons in Hs as [_ ?].
Qed.

Lemma first_word_join n : first_word (join " " (split " " n)) = first_word n.
Proof. by rewrite (join_split " "). Qed.

Lemma no_space_digits z : (0 <= z)%Z -> no_space (str_of_Z z).
Proof.
  intros Hz Hin. pose proof (str_of_Z_digits z Hz) as Hd. unfold all_chars in Hd. rewrite Forall_forall in Hd.
  by apply Hd in Hin.
Qed.

Lemma no_space_app a b : no_space a -> no_space b -> no_space (a +:+ b).
Proof. unfold no_space. rewrite chars_app, elem_of_app. tauto. Qed.

Lemma no_space_drop_last s : no_space s -> no_space (drop_last s).
Proof.
  unfold no_space, drop_last. rewrite chars_of_chars. intros Hs Hin. apply Hs. destruct (chars s) as [|c l] eqn:E using rev_ind; [done|].
  rewrite removelast_last in Hin. apply elem_of_app. by left.
Qed.

Section Net.
Context {E : Type} `{World E} (hclient : client).

Lemma get_bridge_no_space prefix s b (s' : hst E) : no_space prefix ->
  get_bridge hclient prefix s = Some (Ok b, s') -> no_space b.
Proof.
  intros Hp. unfold get_bridge. rewrite co_bind_Ok. intros (out & s1 & _ & Hg).
  destruct (free_num_spec (iface_nums prefix out)) as (i & Hi & Hr & _). rewrite Hi in Hg.
  rewrite co_bind_Ok in Hg. destruct Hg as (? & s2 & _ & Hg). rewrite co_bind_Ok in Hg. destruct Hg as (? & s3 & _ & [= <- <-]).
  apply no_space_app; [done | apply no_space_digits; lia].
Qed.

Definition ifs_ok (ifs : list (string * string)) : Prop := forall k b, dict_get ifs k = Some b -> no_space b.

(** One interface: the dynamic bridges only grow, and the line written names the bridge the interface stands for. *)
Lemma map_net_spec ifs br acc net s ifs' br' acc' (s' : hst E) : ifs_ok ifs ->
  map_net hclient (ifs, br, acc) net s = Some (Ok (ifs', br', acc'), s') ->
  extends ifs ifs' /\ ifs_ok ifs' /\
  exists n c, net = PStr n /\ acc' = acc ++ [c] /\ resolve ifs' n = Some (first_word c).
Proof.
  intros Hok. unfold map_net. rewrite co_bind_Ok. intros (n & s1 & Hn & Hm). destruct net; try done. injection Hn as -> ->.
  fold (first_word n) in Hm. destruct (ends_with "%" (first_word n)) eqn:Ee.
  - destruct (dict_get ifs (first_word n)) as [b|] eqn:Eb.
    + injection Hm as <- <- <- <-. split; [done|]. split; [done|]. exists n, (join " " (set_head b (split " " n))).
      split; [done|]. split; [done|]. unfold resolve. rewrite Ee, first_word_set; [done | eauto].
    + rewrite co_bind_Ok in Hm. destruct Hm as (b & s2 & Hg & [= <- <- <- <-]).
      assert (no_space b) as Hb by (eapply get_bridge_no_space; [apply no_space_drop_last, first_word_no_space | exact Hg]).
      split; [intros k v Hk; rewrite dict_get_set_ne; [done | congruence]|]. split.
      * intros k v. rewrite dict_get_set. case_decide; [by intros [= <-] | apply Hok].
      * exists n, (join " " (set_head b (split " " n))). split; [done|]. split; [done|].
        unfold resolve. by rewrite Ee, first_word_set, dict_get_set_eq.
  - injection Hm as <- <- <- <-. split; [done|]. split; [done|]. exists n, (join " " (split " " n)).
    split; [done|]. split; [done|]. unfold resolve. by rewrite Ee, first_word_join.
Qed.

(** All the interfaces of a VM. *)
Lemma map_nets_spec nets : forall ifs br acc s ifs' br' acc' (s' : hst E), ifs_ok ifs ->
  co_fold (map_net hclient) (ifs, br, acc) nets s = Some (Ok (ifs', br', acc'), s') ->
  extends ifs ifs' /\ ifs_ok ifs' /\
  exists cs ns, acc' = acc ++ cs /\ nets = PStr <$> ns /\ Forall2 (fun n c => resolve ifs' n = Some (first_word c)) ns cs.
Proof.
  induction nets as [|net nets IH]; intros ifs br acc s ifs' br' acc' s' Hok; cbn [co_fold].
  - intros [= <- <- <- <-]. split; [done|]. split; [done|]. exists [], []. by rewrite app_nil_r.
  - rewrite co_bind_Ok. intros ([[ifs1 br1] acc1] & s1 & Hm & Hf).
    apply map_net_spec in Hm as (He1 & Hok1 & n & c & -> & -> & Hr); [|done].
    apply IH in Hf as (He2 & Hok2 & cs & ns & -> & -> & HF); [|done]. split; [by etrans|]. split; [done|].
    exists (c :: cs), (n :: ns). split; [by rewrite <- app_assoc|]. split; [done|]. constructor; [by eapply resolve_extends | done].
Qed.
End Net.

(** ** The bridges of a VM *)

Section Bridges.
Context {E : Type} `{World E} (hclient : client) (vm_key : string).
Context (rnds : nat -> nat -> nat) (xml_bytes : xml -> string).
Context {B : Type} `{!Storage (E := E) B} (storage : B).
Context (config data : pydict).

Lemma add_net_bridges br mac v s v' (s' : hst E) : add_net rnds br mac v s = Some (Ok v', s') -> bridges v' = bridges v ++ [br].
Proof. unfold add_net. rewrite co_bind_Ok. by intros (m & s1 & _ & [= <- <-]). Qed.

Lemma add_nets_bridges nets : forall v s v' (s' : hst E),
  co_fold (fun v net =>
        net ← co_lift (as_str net);
        match split " " net with
        | [n] => add_net rnds n "" v
        | n :: mac :: _ => add_net rnds n mac v
        | [] => mret v
        end) v (PStr <$> nets) s = Some (Ok v', s') ->
  bridges v' = bridges v ++ (first_word <$> nets).
Proof.
  induction nets as [|n nets IH]; intros v s v' s'; csimpl; cbn [co_fold].
  - intros [= <- <-]. by rewrite app_nil_r.
  - rewrite co_bind_Ok. intros (v1 & s1 & Hv & Hf). apply IH in Hf as ->. rewrite co_bind_Ok in Hv.
    destruct Hv as (n' & s2 & [= <- <-] & Hv). unfold first_word.
    destruct (split " " n) as [|w ws] eqn:Es; [by apply split_not_nil in Es|].
    assert (bridges v1 = bridges v ++ [w]) as -> by (destruct ws; by apply add_net_bridges in Hv). by rewrite <- app_assoc.
Qed.

Lemma add_disks_bridges files v : bridges (fold_left (fun v f => add_disk f v) files v) = bridges v.
Proof. revert v. induction files as [|f files IH]; intros v; [done|]. cbn [fold_left]. by rewrite IH. Qed.

Lemma new_vm_bridges cfg local s v (s' : hst E) : new_vm rnds cfg local s = Some (Ok v, s') -> bridges v = [].
Proof.
  unfold new_vm. do 5 (rewrite co_bind_Ok; intros (? & ? & _ & Hv); revert Hv). by intros [= <- <-].
Qed.

(** A VM has one bridge per line of its network configuration, in order. *)
Lemma get_vm_bridges fuel local d cs s v (s' : hst E) :
  dict_get d "net" = Some (PList (PStr <$> cs)) ->
  get_vm hclient vm_key rnds xml_bytes storage config data fuel local (PDict d) s = Some (Ok v, s') ->
  bridges v = first_word <$> cs.
Proof.
  intros Hnet. unfold get_vm. do 6 (rewrite co_bind_Ok; intros (? & ? & _ & Hv); revert Hv).
  rewrite co_bind_Ok. intros (v0 & s1 & Hnew & Hv). apply new_vm_bridges in Hnew.
  rewrite co_bind_Ok in Hv. destruct Hv as (files & s2 & _ & Hv). rewrite co_bind_Ok in Hv. destruct Hv as (nets & s3 & Hn & Hv).
  cbn [getitem] in Hn. rewrite Hnet in Hn. injection Hn as <- <-.
  rewrite co_bind_Ok in Hv. destruct Hv as (v1 & s4 & Hf & Hv). apply add_nets_bridges in Hf.
  do 2 (rewrite co_bind_Ok in Hv; destruct Hv as (? & ? & _ & Hv)). injection Hv as <- <-.
  rewrite Hf, add_disks_bridges. cbn [add_disk_name bridges]. by rewrite Hnew.
Qed.

(** The interfaces the configuration gives a VM of a job, by the VM's name. *)
Definition nets_of (vm_conf : pyval) : res (list pyval) :=
  name ← (x ← getitem vm_conf "name"; as_str x);
  conf ← (vs ← dgetitem config "vms"; getitem vs name);
  x ← getitem conf "net"; iter x.

Lemma get_vms_step_spec fuel ifs vms vm_conf s ifs' vms' (s' : hst E) : ifs_ok ifs ->
  get_vms_step hclient vm_key rnds xml_bytes storage config data fuel (ifs, vms) vm_conf s = Some (Ok (ifs', vms'), s') ->
  extends ifs ifs' /\ ifs_ok ifs' /\
  exists v ns, vms' = vms ++ [v] /\ nets_of vm_conf = Ok (PStr <$> ns) /\ Forall2 (fun n b => resolve ifs' n = Some b) ns (bridges v).
Proof.
  intros Hok. unfold get_vms_step. rewrite co_bind_Ok. intros (name & s1 & Hn & Hv). rewrite co_bind_Ok in Hv.
  destruct Hv as (conf & s2 & Hc & Hv). rewrite co_bind_Ok in Hv. destruct Hv as (nets & s3 & Hx & Hv).
  rewrite co_bind_Ok in Hv. destruct Hv as ([[ifs1 br] cs] & s4 & Hm & Hv).
  apply map_nets_spec in Hm as (He & Hok' & cs' & ns & -> & -> & HF); [|done]. cbn [app] in Hv.
  rewrite co_bind_Ok in Hv. destruct Hv as (conf' & s5 & Hset & Hv). rewrite co_bind_Ok in Hv.
  destruct Hv as (v & s6 & Hg & Hv). rewrite co_bind_Ok in Hv. destruct Hv as (? & s7 & _ & [= <- <- <-]).
  split; [done|]. split; [done|]. exists v, ns. split; [done|]. split.
  - unfold nets_of. injection Hn as -> _. injection Hc as Hc _. injection Hx as Hx _. cbn [mbind res_bind].
    rewrite Hc. cbn [mbind res_bind]. exact Hx.
  - destruct conf; try done. injection Hset as <- <-.
    apply (get_vm_bridges fuel vm_conf _ cs') in Hg; [|apply dict_get_set_eq]. rewrite Hg.
    clear -HF. induction HF; csimpl; constructor; auto.
Qed.
End Bridges.

(** C20: VMs of one job that name the same dynamic bridge are on the same bridge: there is one assignment of bridges to
    the names ending in a percent sign such that every VM that [get_vms] returns has, in order, one bridge per interface
    of its configuration, the assigned one for a dynamic name and the named one otherwise. *)
Theorem get_vms_shared_bridges {E} `{World E} hclient vm_key rnds xml_bytes {B} `{!Storage (E := E) B} (storage : B)
    config data fuel vm_confs vms (s s' : hst E) :
  get_vms hclient vm_key rnds xml_bytes storage config data fuel vm_confs s = Some (Ok vms, s') ->
  exists ifs, Forall2 (fun vm_conf v => exists ns, nets_of config vm_conf = Ok (PStr <$> ns) /\
    Forall2 (fun n b => resolve ifs n = Some b) ns (bridges v)) vm_confs vms.
Proof.
  unfold get_vms. rewrite co_bind_Ok. intros ([ifs' vms'] & s1 & Hf & [= <- <-]). exists ifs'. cbn [snd].
  cut (forall confs ifs vms0 s, ifs_ok ifs ->
    co_fold (get_vms_step hclient vm_key rnds xml_bytes storage config data fuel) (ifs, vms0) confs s = Some (Ok (ifs', vms'), s1) ->
    extends ifs ifs' /\ exists new, vms' = vms0 ++ new /\ Forall2 (fun vm_conf v => exists ns, nets_of config vm_conf = Ok (PStr <$> ns) /\
      Forall2 (fun n b => resolve ifs' n = Some b) ns (bridges v)) confs new).
  { intros Hc. destruct (Hc vm_confs [] [] s (fun _ _ E => ltac:(done)) Hf) as (_ & new & -> & HF). done. }
  clear Hf. induction confs as [|c confs IH]; intros ifs vms0 s0 Hok; cbn [co_fold].
  - intros [= -> -> _]. split; [done|]. exists []. by rewrite app_nil_r.
  - rewrite co_bind_Ok. intros ([ifs1 vms1] & s2 & Hst & Hf). apply get_vms_step_spec in Hst as (He & Hok1 & v & ns & -> & Hn & HF); [|done].
    apply IH in Hf as (He' & new & -> & HF'); [|done]. split; [by etrans|]. exists (v :: new). split; [by rewrite <- app_assoc|].
    constructor; [|done]. exists ns. split; [done|]. eapply Forall2_impl; [exact HF|]. intros. by eapply resolve_extends.
Qed.

(** Two VMs on the dynamic bridge [tmp%], one of them also on [virbr0]. *)
Definition net_config : pydict :=
  [("vms", PDict [("a", PDict [("net", PList [PStr "tmp%"; PStr "virbr0 02:00:00:00:00:01"])]);
                  ("b", PDict [("net", PList [PStr "tmp%"])])])].
Definition job_vms : list pyval := [PDict [("name", PStr "a")]; PDict [("name", PStr "b")]].
Definition get_vms_ex : option (res (list vm) * hst sim) := Eval vm_compute in
  get_vms client_ex "key" (fun i k => i + rnd_ex k) (fun _ => "") (B := BTRFS) (Storage0 := btrfs_storage client_ex) (MkBTRFS "ci")
    net_config [] 1 job_vms (host_2015 []).
Definition vms_ex : list vm := match get_vms_ex with Some (Ok vms, _) => vms | _ => [] end.
Definition vms_host : hst sim := match get_vms_ex with Some (_, s) => s | None => host_2015 [] end.

Lemma get_vms_shared_bridges_witness :
  (exists ifs, Forall2 (fun vm_conf v => exists ns, nets_of net_config vm_conf = Ok (PStr <$> ns) /\
    Forall2 (fun n b => resolve ifs n = Some b) ns (bridges v)) job_vms vms_ex) /\
  bridges <$> vms_ex = [["tmp0"; "virbr0"]; ["tmp0"]].
Proof.
  split; [|vm_compute; reflexivity].
  apply (get_vms_shared_bridges client_ex "key" (fun i k => i + rnd_ex k) (fun _ => "") (B := BTRFS)
    (Storage0 := btrfs_storage client_ex) (MkBTRFS "ci") net_config [] 1 job_vms vms_ex (host_2015 []) vms_host).
  vm_compute. reflexivity.
Defined.
