(* ===== verification/BridgeRace.v ===== *)
(** * The dynamic bridges of a host, shared by concurrent jobs

    [Host._get_bridge], [Host.cleanup_net] and the parts of [Host.get_vms] and [VM.destroy] that touch [br_vm], interleaved: each
    [yield from] is a point where other coroutines run, and the two coroutines that list, add and delete bridges hold
    [DYNAMIC_BRIDGE_LOCK].  Which bridge a job gets, and when it is deleted. *)

From S2P Require Import Prelude PyStr PyVal PyRe VirshHost.
Open Scope nat_scope.

(** A bridge is known by its name: the prefix that was asked for and a number. *)
Notation link := string (only parsing).
Definition lname (prefix : string) (i : Z) : link := prefix +:+ str_of_Z i.

(** The coroutines.  A call of [get_vms] that asks for several bridges is one coroutine for each of them.  It waits for the
    lock, has it, has chosen a number, has added the bridge, holds the bridge while [get_vms] boots the VMs of the job, and
    has all its VMs.  The code registers a VM in [br_vm] for the last of its dynamic bridges only, so the coroutines of its
    other bridges register nothing for it.  A [cleanup_net] waits for the lock, is at a position of its loop over the [size]
    entries of [br_vm] with the bridges deleted so far, or is deleting one.  The entry [None], of the VMs without a dynamic
    bridge, is never empty: [destroy] looks under names only. *)
Inductive cstate : Type :=
| GWait (prefix : string)
| GIn (prefix : string)
| GListed (prefix : string) (l : link)
| GAdded (l : link)
| GHas (l : link)
| GReg (l : link)
| GFailed
| CWait
| CIter (pos size : nat) (clean : list link)
| CDel (pos size : nat) (clean : list link) (l : link)
| CDone
| CFailed.

(** The interfaces on the host (those without a peer, as bridges are), the owner of the lock, [br_vm] (a VM is named by the
    coroutine of the bridge it is registered for), the coroutines; and for the record: for whom each bridge was added, which
    were deleted, and whether a [cleanup_net] ended with an exception. *)
Record net := Net { links : gset link; lock : option nat; br_vm : list (option link * list nat); procs : gmap nat cstate;
                    owners : gmap link nat; deleted : list (nat * link); failed : bool }.

Definition net0 (ls : gset link) : net := Net ls None [] ∅ ∅ [] false.

Definition go (pid : nat) (p : cstate) (s : net) : net :=
  Net (links s) (lock s) (br_vm s) (<[pid := p]> (procs s)) (owners s) (deleted s) (failed s).
Definition with_lock (o : option nat) (s : net) : net := Net (links s) o (br_vm s) (procs s) (owners s) (deleted s) (failed s).
Definition with_br (d : list (option link * list nat)) (s : net) : net :=
  Net (links s) (lock s) d (procs s) (owners s) (deleted s) (failed s).
Definition fail (s : net) : net := Net (links s) (lock s) (br_vm s) (procs s) (owners s) (deleted s) true.

(** What [ip link list] may print: a line for every interface, and other lines.  The code finds the numbers in it with
    [IFACE_RE] ([iface_nums] of [VirshHost]). *)
Definition listing (ls : gset link) (out : string) : Prop :=
  set_Forall (fun name => Exists (fun line => line_of name line = true) (splitlines out)) ls.

(** [ip link add], [ip link del] *)
Definition add_link (pid : nat) (l : link) (s : net) : net :=
  Net ({[l]} ∪ links s) (lock s) (br_vm s) (procs s) (<[l := pid]> (owners s)) (deleted s) (failed s).
Definition del_link (l : link) (s : net) : net :=
  Net (links s ∖ {[l]}) (lock s) (br_vm s) (procs s) (delete l (owners s))
      (deleted s ++ match owners s !! l with Some pid => [(pid, l)] | None => [] end) (failed s).

(** [self.br_vm.setdefault(br, []); self.br_vm[br].append(vm)] *)
Definition reg_vm (br : option link) (vm : nat) (d : list (option link * list nat)) : list (option link * list nat) :=
  dict_set d br (default [] (dict_get d br) ++ [vm]).

(** [if lst and self in lst: lst.remove(self)] *)
Definition leave_vm (br : option link) (vm : nat) (d : list (option link * list nat)) : list (option link * list nat) :=
  match dict_get d br with
  | Some lst => match list_remove vm lst with Ok lst => dict_set d br lst | Raise _ => d end
  | None => d
  end.

(** [for br in clean: del self.br_vm[br]] *)
Definition forget (clean : list link) (d : list (option link * list nat)) : list (option link * list nat) :=
  fold_left (fun d l => dict_del d (Some l)) clean d.

(** A coroutine that starts; a prefix comes from [net.split(" ")], so it has no space. *)
Definition word (s : string) : bool := bool_decide (" "%char ∉ chars s).
Definition starting (p : cstate) : bool := match p with GWait prefix => word prefix | CWait => true | _ => false end.

(** The coroutine is inside [with (yield from DYNAMIC_BRIDGE_LOCK)], in [_get_bridge] and in either function. *)
Definition getting (p : cstate) : bool := match p with GIn _ | GListed _ _ | GAdded _ => true | _ => false end.
Definition inside (p : cstate) : bool := match p with CIter _ _ _ | CDel _ _ _ _ => true | _ => getting p end.

Inductive nstep : net -> net -> Prop :=
| n_spawn s pid p : procs s !! pid = None -> starting p = true -> nstep s (go pid p s)
(* _get_bridge *)
| n_lock_get s pid prefix : procs s !! pid = Some (GWait prefix) -> lock s = None ->
    nstep s (go pid (GIn prefix) (with_lock (Some pid) s))
| n_list s pid prefix out i : procs s !! pid = Some (GIn prefix) -> listing (links s) out ->
    free_num (iface_nums prefix out) = Some i -> nstep s (go pid (GListed prefix (lname prefix i)) s)
| n_add s pid prefix l : procs s !! pid = Some (GListed prefix l) -> l ∉ links s -> nstep s (go pid (GAdded l) (add_link pid l s))
| n_up s pid l : procs s !! pid = Some (GAdded l) -> nstep s (go pid (GHas l) (with_lock None s))
| n_get_fails s pid p : procs s !! pid = Some p -> getting p = true ->
    nstep s (go pid GFailed (with_lock None s))
(* get_vms and destroy *)
| n_register s pid l : procs s !! pid = Some (GHas l) -> nstep s (with_br (reg_vm (Some l) pid (br_vm s)) s)
| n_plain s vm : nstep s (with_br (reg_vm None vm (br_vm s)) s)
| n_booted s pid l : procs s !! pid = Some (GHas l) -> nstep s (go pid (GReg l) s)
| n_leave s pid l : procs s !! pid = Some (GReg l) -> nstep s (with_br (leave_vm (Some l) pid (br_vm s)) s)
(* cleanup_net *)
| n_lock_clean s pid : procs s !! pid = Some CWait -> lock s = None ->
    nstep s (go pid (CIter 0 (length (br_vm s)) []) (with_lock (Some pid) s))
| n_changed s pid pos size clean : procs s !! pid = Some (CIter pos size clean) -> length (br_vm s) <> size ->
    nstep s (go pid CFailed (with_lock None (fail s)))
| n_next s pid pos size clean k vms : procs s !! pid = Some (CIter pos size clean) -> length (br_vm s) = size ->
    br_vm s !! pos = Some (k, vms) -> vms <> [] -> nstep s (go pid (CIter (S pos) size clean) s)
| n_unused s pid pos size clean l : procs s !! pid = Some (CIter pos size clean) -> length (br_vm s) = size ->
    br_vm s !! pos = Some (Some l, []) -> nstep s (go pid (CDel pos size clean l) s)
| n_del s pid pos size clean l : procs s !! pid = Some (CDel pos size clean l) -> l ∈ links s ->
    nstep s (go pid (CIter (S pos) size (clean ++ [l])) (del_link l s))
| n_del_fails s pid pos size clean l : procs s !! pid = Some (CDel pos size clean l) ->
    nstep s (go pid CFailed (with_lock None (fail s)))
| n_del_lost s pid pos size clean l : procs s !! pid = Some (CDel pos size clean l) -> l ∈ links s ->
    nstep s (go pid CFailed (with_lock None (fail (del_link l s))))
| n_end s pid pos size clean : procs s !! pid = Some (CIter pos size clean) -> length (br_vm s) = size ->
    br_vm s !! pos = None -> nstep s (go pid CDone (with_lock None (with_br (forget clean (br_vm s)) s))).

Definition net_reachable (s : net) : Prop := exists ls, rtc nstep (net0 ls) s.

(** ** The lock *)

Lemma getting_inside p : getting p = true -> inside p = true.
Proof. by destruct p. Qed.
Lemma starting_outside p : starting p = true -> inside p = false.
Proof. by destruct p. Qed.

Record locked (s : net) : Prop := {
  k_lock pid p : procs s !! pid = Some p -> inside p = true -> lock s = Some pid;
  k_fresh pid prefix l : procs s !! pid = Some (GListed prefix l) -> letters prefix = true -> l ∉ links s;
  k_owned l pid : owners s !! l = Some pid -> l ∈ links s }.

(** At most one coroutine is inside. *)
Lemma locked_one s pid pid' p p' : locked s -> procs s !! pid = Some p -> procs s !! pid' = Some p' ->
  inside p = true -> inside p' = true -> pid = pid'.
Proof. intros [Hk _ _] Hp Hp' Hi Hi'. pose proof (Hk _ _ Hp Hi). pose proof (Hk _ _ Hp' Hi'). congruence. Qed.

(** The coroutine that moved and the others. *)
Ltac movers :=
  repeat match goal with
  | H : <[_ := _]> _ !! _ = Some _ |- _ => apply lookup_insert_Some in H as [[? ?]|[? ?]]; simplify_eq/=
  | H : getting _ = true |- _ => pose proof (getting_inside _ H); revert H
  | H : starting _ = true |- _ => pose proof (starting_outside _ H); revert H
  end; intros.

(** Two coroutines inside, or one although the lock is free. *)
Ltac lock_clash :=
  exfalso; first
  [ match goal with
    | K : locked ?s, H : procs ?s !! ?a = Some _, H' : procs ?s !! ?b = Some _, N : ?a <> ?b |- _ =>
        apply N; eapply (locked_one _ _ _ _ _ K H H'); done
    | K : locked ?s, H : procs ?s !! ?a = Some _, N : lock ?s = None |- _ =>
        let L := fresh in assert (lock s = Some a) as L by (eapply (k_lock _ K _ _ H); done); rewrite N in L; done
    end
  | congruence ].

(** A number that is not in a listing is free, for a prefix the expression can find. *)
Lemma listing_fresh prefix i ls out : listing ls out -> letters prefix = true -> free_num (iface_nums prefix out) = Some i ->
  lname prefix i ∉ ls.
Proof.
  intros Hl Hp Hi Hin. destruct (free_num_spec (iface_nums prefix out)) as (j & Hj & Hr & Hn & _). rewrite Hi in Hj. injection Hj as <-.
  specialize (Hl _ Hin). apply Exists_exists in Hl as (line & Hline & Hof). apply Hn.
  apply (iface_nums_line prefix i out line); [done | lia | done | done].
Qed.

Lemma locked_step s s' : nstep s s' -> locked s -> locked s'.
Proof.
  intros Hs K. split.
  - intros pid' p' Hp Hi. destruct Hs; cbn in *; movers; first [done | by eapply (k_lock _ K) | lock_clash].
  - intros pid' pre l' Hp Hpre. destruct Hs; cbn in *; movers; try (by eapply (k_fresh _ K)); try lock_clash.
    by eapply listing_fresh.
  - intros l' pid' Ho. destruct Hs; cbn in *; try (by eapply (k_owned _ K)).
    + apply lookup_insert_Some in Ho as [[-> ->]|[? Ho]]; [set_solver|]. pose proof (k_owned _ K _ _ Ho). set_solver.
    + apply lookup_delete_Some in Ho as [? Ho]. pose proof (k_owned _ K _ _ Ho). set_solver.
    + apply lookup_delete_Some in Ho as [? Ho]. pose proof (k_owned _ K _ _ Ho). set_solver.
Qed.

Lemma locked0 ls : locked (net0 ls).
Proof. by split. Qed.

(** ** What a bridge is kept for *)

(** The bridges a [cleanup_net] has deleted and not yet removed from [br_vm]. *)
Definition cleaning (p : cstate) : list link :=
  match p with CIter _ _ clean | CDel _ _ clean _ => clean | _ => [] end.

(** The entry of a bridge is of the job it was added for, and empty only after the job has its VMs; or the bridge has just been
    deleted. *)
Definition entry_ok (s : net) (l : link) (vms : list nat) : Prop :=
  (exists pid, owners s !! l = Some pid /\ (forall v, v ∈ vms -> v = pid) /\
     (procs s !! pid = Some (GHas l) /\ vms <> [] \/ procs s !! pid = Some (GReg l))) \/
  (vms = [] /\ exists c p, procs s !! c = Some p /\ l ∈ cleaning p).

Record kept (s : net) : Prop := {
  b_dict : dict_ok (br_vm s);
  b_has pid l : procs s !! pid = Some (GAdded l) \/ procs s !! pid = Some (GHas l) -> owners s !! l = Some pid;
  b_entry l vms : dict_get (br_vm s) (Some l) = Some vms -> entry_ok s l vms;
  b_clean c p l : procs s !! c = Some p -> l ∈ cleaning p -> l ∉ links s;
  b_del c pos size clean l : procs s !! c = Some (CDel pos size clean l) -> dict_get (br_vm s) (Some l) = Some [] }.

Lemma forget_ok clean : forall d, dict_ok d -> dict_ok (forget clean d).
Proof. induction clean as [|l clean IH]; [done|]. intros d Hd. cbn. apply IH. by apply dict_ok_del. Qed.

Lemma forget_get clean k : forall d, dict_ok d ->
  dict_get (forget clean d) k = if decide (k ∈ Some <$> clean) then None else dict_get d k.
Proof.
  induction clean as [|l clean IH]; intros d Hd; cbn; [done|]. rewrite IH by by apply dict_ok_del. rewrite dict_get_del by done.
  repeat case_decide; try done; set_solver.
Qed.

Lemma leave_ok br vm d : dict_ok d -> dict_ok (leave_vm br vm d).
Proof. unfold leave_vm. intros. repeat case_match; [by apply dict_ok_set | done | done]. Qed.

Lemma list_remove_incl {A} `{EqDecision A} (x : A) l l' : list_remove x l = Ok l' -> x ∈ l /\ l' ⊆ l.
Proof.
  revert l'. induction l as [|y l IH]; intros l'; cbn; [done|]. case_decide; [intros [= ->]; subst; set_solver|].
  destruct (list_remove x l) as [l1|]; [|done]. intros [= <-]. destruct (IH l1 eq_refl). set_solver.
Qed.

(** What a leaving VM changes: its own entry, which had it. *)
Lemma leave_get br vm d k vms' : dict_get (leave_vm br vm d) k = Some vms' ->
  dict_get d k = Some vms' \/ k = br /\ exists vms, dict_get d br = Some vms /\ vm ∈ vms /\ vms' ⊆ vms.
Proof.
  unfold leave_vm. destruct (dict_get d br) as [vms|] eqn:E; [|by left]. destruct (list_remove vm vms) as [l|] eqn:Er; [|by left].
  rewrite dict_get_set. case_decide; [|by left]. intros [= <-]. right. split; [done|]. exists vms. split; [done|].
  by apply list_remove_incl.
Qed.

(** A coroutine that holds no bridge with VMs moves and the entry of [l] stays all right. *)
Lemma entry_ok_move s s' pid q l vms : procs s' = <[pid := q]> (procs s) -> owners s' !! l = owners s !! l ->
  procs s !! pid <> Some (GHas l) -> procs s !! pid <> Some (GReg l) ->
  (forall p, procs s !! pid = Some p -> l ∈ cleaning p -> l ∈ cleaning q) ->
  entry_ok s l vms -> entry_ok s' l vms.
Proof.
  intros Hp Ho Hh Hr Hc [(j & Hj & Hv & Hs)|[-> (c & p & Hcp & Hl)]].
  - left. exists j. rewrite Ho. split; [done|]. split; [done|]. rewrite Hp.
    destruct (decide (j = pid)) as [->|]; [naive_solver|]. by rewrite lookup_insert_ne.
  - right. split; [done|]. destruct (decide (c = pid)) as [->|].
    + exists pid, q. rewrite Hp, lookup_insert_eq. eauto.
    + exists c, p. by rewrite Hp, lookup_insert_ne.
Qed.

(** A bridge with an empty entry that is on the host is of a job that has its VMs. *)
Lemma unused_done s l : kept s -> dict_get (br_vm s) (Some l) = Some [] -> l ∈ links s ->
  exists pid, owners s !! l = Some pid /\ procs s !! pid = Some (GReg l).
Proof.
  intros G Hd Hl. destruct (b_entry _ G _ _ Hd) as [(j & Hj & _ & [[_ ?]|?])|[_ (c & p & Hc & Hin)]]; [done | eauto |].
  by destruct (b_clean _ G _ _ _ Hc Hin).
Qed.

(** The bridge of a job that is still booting its VMs has no empty entry. *)
Lemma booting_used s pid l vms : locked s -> kept s -> procs s !! pid = Some (GHas l) ->
  dict_get (br_vm s) (Some l) = Some vms -> vms <> [] /\ forall v, v ∈ vms -> v = pid.
Proof.
  intros K G Hp Hd. pose proof (b_has _ G _ _ (or_intror Hp)) as Ho. pose proof (k_owned _ K _ _ Ho) as Hl.
  destruct (b_entry _ G _ _ Hd) as [(j & Hj & Hv & [[? ?]|?])|[_ (c & p & Hc & Hin)]]; simplify_eq/=; [done|].
  by destruct (b_clean _ G _ _ _ Hc Hin).
Qed.

(** A bridge that is not on the host and that no [cleanup_net] has just deleted has no entry. *)
Lemma fresh_no_entry s pid prefix l : locked s -> kept s -> procs s !! pid = Some (GListed prefix l) -> l ∉ links s ->
  dict_get (br_vm s) (Some l) = None.
Proof.
  intros K G Hp Hl. destruct (dict_get _ _) as [vms|] eqn:Hd; [|done]. exfalso.
  destruct (b_entry _ G _ _ Hd) as [(j & Hj & _)|[_ (c & p & Hc & Hin)]]; [by apply Hl, (k_owned _ K _ _ Hj)|].
  assert (inside p = true) by (by destruct p; try set_solver).
  assert (c = pid) as -> by (by eapply (locked_one _ _ _ _ _ K)). simplify_eq/=. set_solver.
Qed.

Lemma kept_dict s s' : nstep s s' -> dict_ok (br_vm s) -> dict_ok (br_vm s').
Proof. intros Hs Hd. destruct Hs; cbn; try done; [by apply dict_ok_set | by apply dict_ok_set | by apply leave_ok | by apply forget_ok]. Qed.

Lemma kept_has s s' : nstep s s' -> locked s -> kept s -> failed s' = false ->
  forall pid l, procs s' !! pid = Some (GAdded l) \/ procs s' !! pid = Some (GHas l) -> owners s' !! l = Some pid.
Proof.
  intros Hs K G Hf pid' l' Hp. destruct Hs; cbn in *; try done; try (by eapply (b_has _ G)).
  all: rewrite ?lookup_insert_Some in Hp.
  all: try (apply (b_has _ G); naive_solver).
  - destruct Hp as [[[-> [= ->]]|[? Hp]]|[[? ?]|[? Hp]]]; [by rewrite lookup_insert_eq | lock_clash | done |].
    rewrite lookup_insert_ne; [apply (b_has _ G); naive_solver|]. intros ->. apply H0. eapply (k_owned _ K).
    apply (b_has _ G). by right.
  - assert (owners s !! l' = Some pid') as Ho by (apply (b_has _ G); naive_solver).
    rewrite lookup_delete_ne; [done|]. intros ->. destruct (unused_done s l' G (b_del _ G _ _ _ _ _ H) H0) as (j & Hj & Hr).
    simplify_eq/=. naive_solver.
Qed.

Lemma cleaning_inside p l : l ∈ cleaning p -> inside p = true.
Proof. by destruct p; try set_solver. Qed.

Lemma kept_clean s s' : nstep s s' -> locked s -> kept s ->
  forall c p l, procs s' !! c = Some p -> l ∈ cleaning p -> l ∉ links s'.
Proof.
  intros Hs K G c p' l' Hp Hl. pose proof (cleaning_inside _ _ Hl) as Hins.
  destruct Hs; cbn in *; movers; try (by eapply (b_clean _ G)); try lock_clash.
  - by apply not_elem_of_nil in Hl.
  - apply elem_of_app in Hl as [Hl|Hl]; [|set_solver]. pose proof (b_clean _ G _ _ _ H Hl). set_solver.
Qed.

Lemma kept_del s s' : nstep s s' -> locked s -> kept s ->
  forall c pos size clean l, procs s' !! c = Some (CDel pos size clean l) -> dict_get (br_vm s') (Some l) = Some [].
Proof.
  intros Hs K G c pos' size' clean' l' Hp.
  destruct Hs; cbn in *; movers; try done; try (by eapply (b_del _ G)); try lock_clash.
  - pose proof (b_del _ G _ _ _ _ _ Hp) as Hd. unfold reg_vm. rewrite dict_get_set. case_decide; [|done].
    simplify_eq/=. by destruct (booting_used s pid l' [] K G H Hd).
  - pose proof (b_del _ G _ _ _ _ _ Hp) as Hd. unfold reg_vm. by rewrite dict_get_set_ne.
  - pose proof (b_del _ G _ _ _ _ _ Hp) as Hd. unfold leave_vm. destruct (dict_get (br_vm s) (Some l)) as [vms|] eqn:E; [|done].
    destruct (list_remove pid vms) as [r|] eqn:Er; [|done]. rewrite dict_get_set. case_decide; [|done].
    simplify_eq/=.
  - apply dict_get_lookup; [apply (b_dict _ G)|]. by eapply list_elem_of_lookup_2.
Qed.

(** One more VM, of the job that has the bridge. *)
Lemma entry_register s pid l l' vms : locked s -> kept s -> procs s !! pid = Some (GHas l) ->
  dict_get (reg_vm (Some l) pid (br_vm s)) (Some l') = Some vms -> entry_ok s l' vms.
Proof.
  intros K G Hp. unfold reg_vm. rewrite dict_get_set. case_decide as Hl; [|apply (b_entry _ G)]. injection Hl as <-. intros [= <-].
  left. exists pid. split; [apply (b_has _ G); by right|]. split; [|left; split; [done | by destruct (default _ _)]].
  intros v [Hv|?%list_elem_of_singleton]%elem_of_app; [|done]. destruct (dict_get _ _) as [vms|] eqn:Hd; [|by apply not_elem_of_nil in Hv].
  by eapply (booting_used s pid l vms K G).
Qed.

(** One VM less. *)
Lemma entry_leave s pid l l' vms' : kept s -> procs s !! pid = Some (GReg l) ->
  dict_get (leave_vm (Some l) pid (br_vm s)) (Some l') = Some vms' -> entry_ok s l' vms'.
Proof.
  intros G Hp [Hd|[[= ->] (vms & Hd & Hin & Hsub)]]%leave_get; [by apply (b_entry _ G)|].
  destruct (b_entry _ G _ _ Hd) as [(j & Hj & Hv & _)|[-> _]]; [|by apply not_elem_of_nil in Hin].
  pose proof (Hv _ Hin) as <-. left. exists pid. split; [done|]. split; [auto|]. by right.
Qed.

(** The bridge of an empty entry is deleted. *)
Lemma entry_del s pid pos size clean l l' vms : kept s -> procs s !! pid = Some (CDel pos size clean l) ->
  dict_get (br_vm s) (Some l') = Some vms -> entry_ok (go pid (CIter (S pos) size (clean ++ [l])) (del_link l s)) l' vms.
Proof.
  intros G Hp Hd. destruct (decide (l = l')) as [<-|].
  - right. rewrite (b_del _ G _ _ _ _ _ Hp) in Hd. injection Hd as <-. split; [done|].
    exists pid, (CIter (S pos) size (clean ++ [l])). split; [apply lookup_insert_eq | cbn; set_solver].
  - eapply (entry_ok_move s); [done | by apply (lookup_delete_ne (owners s)) | congruence | congruence | | by apply (b_entry _ G)].
    intros p Hp'. simplify_eq/=. set_solver.
Qed.

(** The deleted bridges go from [br_vm]. *)
Lemma entry_end s pid pos size clean d l' vms : locked s -> kept s -> procs s !! pid = Some (CIter pos size clean) ->
  dict_get (forget clean (br_vm s)) (Some l') = Some vms -> entry_ok (go pid CDone (with_lock None (with_br d s))) l' vms.
Proof.
  intros K G Hp. rewrite forget_get by apply (b_dict _ G). case_decide as Hin; [done|]. intros Hd.
  eapply (entry_ok_move s); [done | done | cbn; congruence | cbn; congruence | | by apply (b_entry _ G)].
  intros p Hp' Hl. simplify_eq/=. destruct Hin. set_solver.
Qed.

Lemma kept_entry s s' : nstep s s' -> locked s -> kept s -> failed s' = false ->
  forall l vms, dict_get (br_vm s') (Some l) = Some vms -> entry_ok s' l vms.
Proof.
  intros Hs K G Hf l' vms' Hd. destruct Hs; cbn in *; try done.
  all: try (eapply (entry_ok_move s); [done | done | | | | by apply (b_entry _ G)]; cbn; [congruence | congruence |];
            intros; simplify_eq/=; done).
  - eapply (entry_ok_move s); [done | apply (lookup_insert_ne (owners s)) | | | | by apply (b_entry _ G)]; cbn; try congruence.
    + intros <-. by rewrite (fresh_no_entry s pid _ l K G H H0) in Hd.
    + intros p Hp. by simplify_eq/=.
  - eapply (entry_ok_move s); [done | done | | | | by apply (b_entry _ G)]; cbn.
    1, 2: intros ?; by simplify_eq/=.
    intros p' Hp Hl. rewrite H in Hp. injection Hp as <-. by destruct p; try by apply not_elem_of_nil in Hl.
  - exact (entry_register s pid l l' vms' K G H Hd).
  - unfold reg_vm in Hd. rewrite dict_get_set_ne in Hd by done. exact (b_entry _ G _ _ Hd).
  - destruct (b_entry _ G _ _ Hd) as [(j & Hj & Hv & Hs)|[-> (c & p & Hc & Hl)]].
    + left. exists j. split; [done|]. split; [done|]. cbn. destruct (decide (j = pid)) as [->|].
      * right. rewrite lookup_insert_eq. naive_solver.
      * by rewrite lookup_insert_ne.
    + right. split; [done|]. exists c, p. split; [|done]. cbn. rewrite lookup_insert_ne; [done|]. intros ->. simplify_eq/=.
      by apply not_elem_of_nil in Hl.
  - exact (entry_leave s pid l l' vms' G H Hd).
  - by eapply entry_del.
  - by eapply entry_end.
Qed.

Lemma failed_mono s s' : nstep s s' -> failed s' = false -> failed s = false.
Proof. by intros []. Qed.

Lemma kept_step s s' : nstep s s' -> locked s -> kept s -> failed s' = false -> kept s'.
Proof.
  intros Hs K G Hf. split.
  - eapply kept_dict; [done | apply G].
  - by eapply kept_has.
  - by eapply kept_entry.
  - by eapply kept_clean.
  - by eapply kept_del.
Qed.

Lemma kept0 ls : kept (net0 ls).
Proof. split; cbn; try done; [constructor | by intros pid l [?|?]]. Qed.

Lemma reachable_inv s : net_reachable s -> locked s /\ (failed s = false -> kept s).
Proof.
  intros [ls Hr]. revert Hr. generalize (locked0 ls), (kept0 ls). generalize (net0 ls). intros s0 K0 G0 Hr.
  assert (failed s0 = false -> kept s0) as G by done. clear G0. induction Hr as [|s0 s1 s2 Hs _ IH]; [done|].
  apply IH; [by eapply locked_step|]. intros Hf. eapply kept_step; [done | done | by eapply G, failed_mono | done].
Qed.

(** ** Names are words, and the entry of the VMs without a bridge is not empty *)

Definition names (p : cstate) : list string :=
  match p with GWait p | GIn p => [p] | GListed _ l | GAdded l | GHas l | GReg l => [l] | _ => [] end.
Definition entry_good (e : option link * list nat) : Prop :=
  match e with (Some l, _) => word l = true | (None, vms) => vms <> [] end.

Record worded (s : net) : Prop := {
  o_names pid p l : procs s !! pid = Some p -> l ∈ names p -> word l = true;
  o_br : Forall entry_good (br_vm s) }.

Lemma lname_word prefix i : word prefix = true -> (0 <= i)%Z -> word (lname prefix i) = true.
Proof.
  unfold word, lname. rewrite !bool_decide_eq_true, chars_app, elem_of_app. intros Hp Hi [Hin|Hin]; [done|].
  pose proof (str_of_Z_digits i Hi) as Hd. unfold all_chars in Hd. rewrite Forall_forall in Hd. by apply Hd in Hin.
Qed.

Lemma leave_good l vm d : word l = true -> Forall entry_good d -> Forall entry_good (leave_vm (Some l) vm d).
Proof. intros Hl Hd. unfold leave_vm. repeat case_match; [by apply Forall_dict_set | done | done]. Qed.

Lemma forget_good clean : forall d, Forall entry_good d -> Forall entry_good (forget clean d).
Proof.
  induction clean as [|l clean IH]; intros d Hd; cbn; [done|]. apply IH. rewrite Forall_forall in Hd |- *. intros e He. apply Hd.
  eapply elem_of_submseteq; [exact He | apply sublist_submseteq, dict_del_sublist].
Qed.

Lemma worded_step s s' : nstep s s' -> worded s -> worded s'.
Proof.
  intros Hs [Hn Hb]. split.
  - intros pid' p' l' Hp Hl.
    destruct Hs; cbn in *; movers; try (by eapply Hn); try (by apply not_elem_of_nil in Hl); try (by eapply (Hn pid); [eassumption|]).
    + destruct p'; cbn in *; try done; [|by apply not_elem_of_nil in Hl]. by apply list_elem_of_singleton in Hl as ->.
    + apply list_elem_of_singleton in Hl as ->. destruct (free_num_spec (iface_nums prefix0 out)) as (j & Hj & Hr & _).
      rewrite H1 in Hj. injection Hj as <-. apply lname_word; [|lia]. eapply Hn; [done|]. by apply list_elem_of_singleton.
  - destruct Hs; cbn in *; try done; unfold reg_vm.
    + apply Forall_dict_set; [done|]. eapply Hn; [done|]. by apply list_elem_of_singleton.
    + apply Forall_dict_set; [done|]. cbn. by destruct (default _ _).
    + apply leave_good; [|done]. eapply Hn; [done|]. by apply list_elem_of_singleton.
    + by apply forget_good.
Qed.

Lemma worded_reachable s : net_reachable s -> worded s.
Proof.
  intros [ls Hr]. assert (worded (net0 ls)) as H by (split; [done | constructor]). revert H. induction Hr; eauto using worded_step.
Qed.

(** ** The theorems *)

(** The job holds the bridge while it boots its VMs, or has a VM registered for it. *)
Definition uses (s : net) (pid : nat) (l : link) : Prop :=
  procs s !! pid = Some (GHas l) \/ exists vms, dict_get (br_vm s) (Some l) = Some vms /\ pid ∈ vms.

Lemma uses_owner s pid l : locked s -> kept s -> uses s pid l -> owners s !! l = Some pid.
Proof.
  intros K G [Hp|(vms & Hd & Hin)]; [apply (b_has _ G); by right|].
  destruct (b_entry _ G _ _ Hd) as [(j & Hj & Hv & _)|[-> _]]; [by rewrite (Hv _ Hin) | by apply not_elem_of_nil in Hin].
Qed.

(** C16: (safety) However jobs and cleanups interleave, and whatever listing of its interfaces the host prints, the number a
    job has chosen for a bridge whose prefix is of small letters is not taken when it adds the bridge; and as long as no
    [cleanup_net] has ended with an exception, a bridge stays on the host while the [get_vms] that asked for it boots VMs or
    VMs are registered for it in [br_vm], and it is registered for VMs of that call only.  (A VM is registered for its last
    dynamic bridge only; nothing is said of a bridge no VM is registered for any more.) *)
Theorem bridge_own s : net_reachable s ->
  (forall pid prefix l, procs s !! pid = Some (GListed prefix l) -> letters prefix = true -> l ∉ links s) /\
  (failed s = false -> forall pid l, uses s pid l -> l ∈ links s /\ forall pid', uses s pid' l -> pid' = pid).
Proof.
  intros [K HG]%reachable_inv. split; [apply K|]. intros Hf pid l Hu. specialize (HG Hf). pose proof (uses_owner _ _ _ K HG Hu) as Ho.
  split; [by eapply K|]. intros pid' Hu'. pose proof (uses_owner _ _ _ K HG Hu'). congruence.
Qed.

(** The number of entries the loop of a [cleanup_net] has started with. *)
Definition iterating (p : cstate) : option nat :=
  match p with CIter _ size _ | CDel _ size _ _ => Some size | _ => None end.

(** Only the [cleanup_net] that has the lock deletes entries. *)
Lemma entries_step s s' c p : locked s -> nstep s s' -> procs s !! c = Some p -> is_Some (iterating p) ->
  length (br_vm s) <= length (br_vm s') \/ procs s' !! c = Some CDone.
Proof.
  intros K Hs Hp Hi. assert (inside p = true) as Hin by (destruct p; done || by destruct Hi).
  assert (forall (d : list (option link * list nat)) k v, length d <= length (dict_set d k v)) as Hset.
  { intros d k v. rewrite <- !(length_fmap fst). change (length (dict_keys d) <= length (dict_keys (dict_set d k v))).
    rewrite dict_keys_set. case_decide; [done|]. rewrite length_app. lia. }
  destruct Hs; cbn; try (left; lia); try (left; apply Hset).
  - left. unfold leave_vm. repeat case_match; [apply Hset | done | done].
  - right. assert (c = pid) as -> by (by eapply (locked_one _ _ _ _ _ K Hp H)). apply lookup_insert_eq.
Qed.

(** A [cleanup_net] that has failed stays so; one that iterates over fewer entries than there are goes on or fails. *)
Lemma failed_step s s' c : nstep s s' -> procs s !! c = Some CFailed -> procs s' !! c = Some CFailed.
Proof.
  intros Hs Hp. destruct Hs; cbn; try done; destruct (decide (c = pid)) as [->|]; rewrite ?lookup_insert_ne by done; try done;
    simplify_eq/=.
Qed.

Lemma iterating_step s s' c p size : nstep s s' -> procs s !! c = Some p -> iterating p = Some size -> size < length (br_vm s) ->
  exists p', procs s' !! c = Some p' /\ (iterating p' = Some size \/ p' = CFailed).
Proof.
  intros Hs Hp Hi Hl. destruct Hs; cbn; try (by eauto); destruct (decide (c = pid)) as [->|];
    rewrite ?lookup_insert_eq, ?lookup_insert_ne by done; eauto; simplify_eq/=; try lia; eauto.
  match goal with H : getting ?q = true |- _ => by destruct q end.
Qed.

Lemma outgrown_step s s' c p size : locked s -> nstep s s' -> procs s !! c = Some p ->
  iterating p = Some size /\ size < length (br_vm s) \/ p = CFailed ->
  exists p', procs s' !! c = Some p' /\ (iterating p' = Some size /\ size < length (br_vm s') \/ p' = CFailed).
Proof.
  intros K Hs Hp [[Hi Hl]| ->]; [|exists CFailed; split; [by eapply failed_step | by right]].
  destruct (iterating_step _ _ _ _ _ Hs Hp Hi Hl) as (p' & Hp' & [Hi'| ->]); [|eauto]. exists p'. split; [done|]. left. split; [done|].
  destruct (entries_step _ _ _ _ K Hs Hp) as [?|Hd]; [by eexists | lia|]. rewrite Hp' in Hd. injection Hd as ->. done.
Qed.

Lemma outgrown_fails s s' c p size : net_reachable s -> rtc nstep s s' -> procs s !! c = Some p ->
  iterating p = Some size -> size < length (br_vm s) ->
  exists p', procs s' !! c = Some p' /\ (iterating p' = Some size \/ p' = CFailed).
Proof.
  intros Hn Hr Hp Hi Hl. cut (exists p', procs s' !! c = Some p' /\ (iterating p' = Some size /\ size < length (br_vm s') \/ p' = CFailed)).
  { naive_solver. }
  assert (iterating p = Some size /\ size < length (br_vm s) \/ p = CFailed) as H by (by left). clear Hi Hl.
  destruct (reachable_inv _ Hn) as [K _]. clear Hn. revert p Hp H. induction Hr as [s|s s1 s2 Hs _ IH]; intros p Hp H; [eauto|].
  destruct (outgrown_step _ _ _ _ _ K Hs Hp H) as (p1 & Hp1 & H1). eapply IH; [by eapply locked_step | done | done].
Qed.


(** Two jobs with a bridge each, the second with a VM on it. *)
Definition net_two : net :=
  with_br [(Some "br1", [2])] (go 2 (GHas "br1") (add_link 2 "br1" (go 1 (GHas "br0") (add_link 1 "br0" (net0 ∅))))).

Example net_two_reached : rtc nstep (net0 ∅) net_two.
Proof.
  now_step (n_spawn _ 1 (GWait "br")). now_step (n_spawn _ 2 (GWait "br")). now_step (n_lock_get _ 1 "br").
  now_step (n_list _ 1 "br" "" 0%Z). now_step (n_add _ 1 "br" "br0"). now_step (n_up _ 1 "br0"). now_step (n_lock_get _ 2 "br").
  now_step (n_list _ 2 "br" "3: br0: <BROADCAST,UP>" 1%Z). now_step (n_add _ 2 "br" "br1"). now_step (n_up _ 2 "br1").
  now_step (n_register _ 2 "br1"). match goal with |- rtc _ ?a ?b => replace a with b by reflexivity end. constructor.
Qed.

Lemma bridge_own_witness : net_reachable net_two /\ "br1" ∈ links net_two.
Proof.
  assert (net_reachable net_two) as Hr by (exists ∅; apply net_two_reached). split; [exact Hr|].
  apply (proj2 (bridge_own net_two Hr) eq_refl 2). left. reflexivity.
Defined.
