(* ===== verification/BridgeSim.v ===== *)
(** * The bridge operations implement the interleaved model

    [get_bridge] and [cleanup_net] (of [VirshHost] and [VirshVM]: the whole functions, over the ssh client) against the steps of
    [BridgeRace]: a call that nobody interrupts is a run of its steps.  What [ip] prints and what it does to the interfaces of the
    host is stated by [IpLaws]; which numbers are in its output is found by the code's expression. *)

From Stdlib Require Import QArith.
From stdpp Require Import pretty.
From S2P Require Import Prelude Coro PyStr PyVal PyRe Utils AsyncSSH VirshStorage VirshVM VirshHost BridgeRace.
Open Scope nat_scope.

Lemma forget_names clean : forall d, fold_left (fun d br => dict_del d br) (Some <$> clean) d = forget clean d.
Proof. induction clean as [|l clean IH]; intros d; [done|]. cbn. apply IH. Qed.

Section Sim.
Context {E : Type} `{World E} (hclient : client).

(** One command without options that matter, and one whose output is read. *)
Notation ip cmd := (run hclient cb_log (CmdStr cmd) default_opts).
Notation ip_out cmd := (run hclient cb_log (CmdStr cmd) output_opts).

(** What [ip] does: [shows x ls] says that behind the client's state [x] the host has the interfaces [ls].  The list has a line
    for every interface; a command that fails may have done its work (the connection can break afterwards). *)
Record IpLaws (shows : sst E -> gset link -> Prop) : Prop := {
  ip_list ls x v x' : shows x ls -> ip_out "ip link list" x = Some (v, x') ->
    shows x' ls /\ forall out, v = Ok (PStr out) -> listing ls out;
  ip_add l ls x v x' : word l = true -> shows x ls -> ip ("ip link add " +:+ l +:+ " type bridge") x = Some (v, x') ->
    match v with
    | Ok _ => l ∉ ls /\ shows x' ({[l]} ∪ ls)
    | Raise _ => shows x' ls \/ l ∉ ls /\ shows x' ({[l]} ∪ ls)
    end;
  ip_up l ls x v x' : word l = true -> shows x ls -> ip ("ip link set " +:+ l +:+ " up") x = Some (v, x') -> shows x' ls;
  ip_del l ls x v x' : word l = true -> shows x ls -> ip ("ip link del " +:+ l) x = Some (v, x') ->
    match v with
    | Ok _ => l ∈ ls /\ shows x' (ls ∖ {[l]})
    | Raise _ => shows x' ls \/ l ∈ ls /\ shows x' (ls ∖ {[l]})
    end }.

Context (shows : sst E -> gset link -> Prop) (Hip : IpLaws shows).

(** A state of the host and a state of the model. *)
Record matches (s : hst E) (n : net) : Prop := {
  m_links : shows (h_ssh s) (links n);
  m_br : VirshStorage.br_vm s = br_vm n }.

Lemma hrun_run cmd s o (s' : hst E) : hrun hclient cmd s = Some (o, s') ->
  exists v, ip cmd (h_ssh s) = Some (v, h_ssh s') /\ VirshStorage.br_vm s' = VirshStorage.br_vm s /\
    match o with Ok _ => exists a, v = Ok a | Raise e => v = Raise e end.
Proof.
  unfold hrun. rewrite co_bind_eq. unfold hrun_opts. destruct (run _ _ _ _ _) as [[[a|e] x]|]; [| |done]; intros [= <- <-]; eauto.
Qed.

Lemma hrun_output_run cmd s o (s' : hst E) : hrun_output hclient cmd s = Some (o, s') ->
  exists v, ip_out cmd (h_ssh s) = Some (v, h_ssh s') /\ VirshStorage.br_vm s' = VirshStorage.br_vm s /\
    match o with Ok out => v = Ok (PStr out) | Raise _ => True end.
Proof.
  unfold hrun_output. rewrite co_bind_eq. unfold hrun_opts. destruct (run _ _ _ _ _) as [[[a|e] x]|]; [| |done].
  - unfold co_lift. intros [= <- <-]. exists (Ok a). by destruct a.
  - intros [= <- <-]. eauto.
Qed.

(** How a call of [get_bridge] ends in the model. *)
Definition got (pid : nat) (o : res string) (n : net) : Prop :=
  match o with
  | Ok b => procs n !! pid = Some (GHas b)
  | Raise _ => procs n !! pid = Some GFailed
  end.

Lemma get_bridge_sim prefix n pid s o s' : word prefix = true ->
  procs n !! pid = Some (GWait prefix) -> lock n = None -> matches s n -> get_bridge hclient prefix s = Some (o, s') ->
  exists n', rtc nstep n n' /\ matches s' n' /\ lock n' = None /\ got pid o n'.
Proof.
  intros Hpre Hp Hlk [Hs Hb]. unfold get_bridge. rewrite co_bind_eq.
  set (n1 := go pid (GIn prefix) (with_lock (Some pid) n)).
  assert (procs n1 !! pid = Some (GIn prefix)) as Hp1 by (cbn; apply lookup_insert_eq).
  destruct (hrun_output hclient "ip link list" s) as [[o1 s1]|] eqn:E1; [|done].
  apply hrun_output_run in E1 as (v1 & R1 & B1 & O1). destruct (ip_list _ Hip _ _ _ _ Hs R1) as [Hs1 Hlist].
  assert (rtc nstep n n1) as T1 by (apply rtc_once; by apply n_lock_get).
  destruct o1 as [out|e].
  2:{ intros [= <- <-]. exists (go pid GFailed (with_lock None n1)). split; [|split_and!; try done; [by split; cbn; congruence | cbn; apply lookup_insert_eq]].
      etrans; [exact T1|]. apply rtc_once. by eapply n_get_fails. }
  specialize (Hlist _ O1). destruct (free_num_spec (iface_nums prefix out)) as (i & Hi & Hr & _). rewrite Hi.
  change (prefix +:+ str_of_Z i) with (lname prefix i). set (l := lname prefix i).
  assert (word l = true) as Hl by (apply lname_word; [done | lia]).
  set (n2 := go pid (GListed prefix l) n1). assert (procs n2 !! pid = Some (GListed prefix l)) as Hp2 by (cbn; apply lookup_insert_eq).
  assert (rtc nstep n n2) as T2 by (etrans; [exact T1|]; apply rtc_once; by eapply n_list).
  set (n3 := go pid (GAdded l) (add_link pid l n2)). assert (procs n3 !! pid = Some (GAdded l)) as Hp3 by (cbn; apply lookup_insert_eq).
  assert (l ∉ links n -> rtc nstep n n3) as T3 by (intros; etrans; [exact T2|]; apply rtc_once; by eapply n_add).
  assert (forall m x, rtc nstep n m -> (exists p, procs m !! pid = Some p /\ getting p = true) -> shows (h_ssh x) (links m) ->
    VirshStorage.br_vm x = br_vm m -> exists n', rtc nstep n n' /\ matches x n' /\ lock n' = None /\ procs n' !! pid = Some GFailed) as Hfail.
  { intros m x Tm (p & Hpm & Hg) Hsm Hbm. exists (go pid GFailed (with_lock None m)). split; [etrans; [exact Tm|]; apply rtc_once; by eapply n_get_fails|].
    split; [by split|]. split; [done|]. cbn. apply lookup_insert_eq. }
  rewrite co_bind_eq. destruct (hrun hclient ("ip link add " +:+ l +:+ " type bridge") s1) as [[o2 s2]|] eqn:E2; [|done].
  apply hrun_run in E2 as (v2 & R2 & B2 & O2). pose proof (ip_add _ Hip l _ _ _ _ Hl Hs1 R2) as Ha.
  destruct o2 as [[]|e].
  2:{ subst v2. intros [= <- <-]. destruct Ha as [Ha|[Hn Ha]].
      - apply (Hfail n2); [done | by eexists | done | cbn; congruence].
      - apply (Hfail n3); [auto | by eexists | done | cbn; congruence]. }
  destruct O2 as [a ->]. destruct Ha as [Hn Ha]. rewrite co_bind_eq.
  destruct (hrun hclient ("ip link set " +:+ l +:+ " up") s2) as [[o3 s3]|] eqn:E3; [|done].
  apply hrun_run in E3 as (v3 & R3 & B3 & O3). pose proof (ip_up _ Hip l _ _ _ _ Hl Ha R3) as Hu.
  destruct o3 as [[]|e]; intros [= <- <-]; [|apply (Hfail n3); [auto | by eexists | done | cbn; congruence]].
  exists (go pid (GHas l) (with_lock None n3)). split; [etrans; [by apply T3|]; apply rtc_once; by eapply n_up|].
  split; [split; cbn; [done | congruence]|]. split; [done|]. cbn. apply lookup_insert_eq.
Qed.

(** The loop of [cleanup_net], from a position in [br_vm]. *)
Lemma loop_sim pid l : forall n pos clean s o s1, procs n !! pid = Some (CIter pos (length (br_vm n)) clean) ->
  drop pos (br_vm n) = l -> Forall entry_good l -> shows (h_ssh s) (links n) ->
  co_fold (fun clean kv =>
      match kv.2 with
      | [] => _ ← hrun hclient ("ip link del " +:+ br_str kv.1); mret (clean ++ [kv.1])
      | _ => mret clean
      end) (Some <$> clean) l s = Some (o, s1) ->
  exists n', rtc nstep n n' /\ br_vm n' = br_vm n /\ shows (h_ssh s1) (links n') /\
    match o with
    | Ok cl => exists clean' pos', cl = (Some <$> clean') /\
        procs n' !! pid = Some (CIter pos' (length (br_vm n)) clean') /\ br_vm n !! pos' = None
    | Raise _ => procs n' !! pid = Some CFailed /\ lock n' = None
    end.
Proof.
  induction l as [|[k vms] l IH]; intros n pos clean s o s1 Hp Hd Hg Hs; cbn [co_fold].
  - intros [= <- <-]. exists n. split; [done|]. split_and!; try done. exists clean, pos. split_and!; try done.
    apply lookup_ge_None. apply (f_equal length) in Hd. rewrite length_drop in Hd. cbn in Hd. lia.
  - apply Forall_cons in Hg as [Hk Hg]. rewrite co_bind_eq. cbn [fst snd].
    assert (br_vm n !! pos = Some (k, vms)) as Hpos by (rewrite <- (Nat.add_0_r pos), <- lookup_drop, Hd; done).
    assert (drop (S pos) (br_vm n) = l) as Hd' by (by rewrite (drop_S _ _ _ Hpos) in Hd; injection Hd).
    destruct vms as [|x vms].
    + destruct k as [l0|]; [|done]. change (br_str (Some l0)) with l0. rewrite co_bind_eq.
      set (n1 := go pid (CDel pos (length (br_vm n)) clean l0) n).
      assert (procs n1 !! pid = Some (CDel pos (length (br_vm n)) clean l0)) as Hp1 by (cbn; apply lookup_insert_eq).
      assert (rtc nstep n n1) as T1 by (apply rtc_once; by eapply n_unused).
      destruct (hrun hclient ("ip link del " +:+ l0) s) as [[o1 s2]|] eqn:E1; [|done].
      apply hrun_run in E1 as (v1 & R1 & _ & O1). pose proof (ip_del _ Hip l0 _ _ _ _ Hk Hs R1) as Hdel.
      destruct o1 as [[]|e].
      * destruct O1 as [a ->]. destruct Hdel as [Hin Hdel]. cbn [mret co_ret].
        set (n2 := go pid (CIter (S pos) (length (br_vm n)) (clean ++ [l0])) (del_link l0 n1)).
        intros Hf.
        destruct (IH n2 (S pos) (clean ++ [l0]) s2 o s1) as (n' & Tn & Hb & Hsn & Ho); try done.
        { cbn. apply lookup_insert_eq. }
        { by rewrite fmap_app. }
        exists n'. split; [|done]. etrans; [exact T1|]. eapply rtc_l; [by eapply n_del | exact Tn].
      * subst v1. intros [= <- <-]. destruct Hdel as [Hdel|[Hin Hdel]].
        -- exists (go pid CFailed (with_lock None (fail n1))). split; [etrans; [exact T1|]; apply rtc_once; by eapply n_del_fails|].
           split_and!; try done. cbn. apply lookup_insert_eq.
        -- exists (go pid CFailed (with_lock None (fail (del_link l0 n1)))).
           split; [etrans; [exact T1|]; apply rtc_once; by eapply n_del_lost|]. split_and!; try done. cbn. apply lookup_insert_eq.
    + cbn [mret co_ret]. intros Hf. set (n1 := go pid (CIter (S pos) (length (br_vm n)) clean) n).
      destruct (IH n1 (S pos) clean s o s1) as (n' & Tn & Hb & Hsn & Ho); try done; [cbn; apply lookup_insert_eq|].
      exists n'. split; [|done]. eapply rtc_l; [by eapply n_next | exact Tn].
Qed.

Lemma cleanup_net_sim n pid s o s' : procs n !! pid = Some CWait -> lock n = None -> matches s n -> Forall entry_good (br_vm n) ->
  cleanup_net hclient s = Some (o, s') ->
  exists n', rtc nstep n n' /\ matches s' n' /\ lock n' = None /\
    procs n' !! pid = Some (match o with Ok _ => CDone | Raise _ => CFailed end).
Proof.
  intros Hp Hlk [Hs Hb] Hg. unfold cleanup_net. rewrite co_bind_eq. cbn [co_get]. rewrite co_bind_eq.
  set (n1 := go pid (CIter 0 (length (br_vm n)) []) (with_lock (Some pid) n)).
  assert (rtc nstep n n1) as T1 by (apply rtc_once; by apply n_lock_clean).
  destruct (co_fold _ _ _ _) as [[o1 s1]|] eqn:Hf; [|done]. pose proof (cleanup_loop _ _ _ _ _ _ Hf) as [Hb1 _].
  rewrite Hb in Hf. destruct (loop_sim pid (br_vm n) n1 0 [] s o1 s1) as (n' & Tn & Hbn & Hsn & Ho); try done.
  { cbn. apply lookup_insert_eq. }
  cbn [br_vm n1 go with_lock] in Hbn, Ho. destruct o1 as [cl|e].
  - destruct Ho as (clean & pos & -> & Hp' & Hend). intros [= <- <-].
    exists (go pid CDone (with_lock None (with_br (forget clean (br_vm n')) n'))).
    split; [etrans; [exact T1|]; etrans; [exact Tn|]; apply rtc_once; eapply n_end; [exact Hp' | by rewrite Hbn | by rewrite Hbn]|].
    split_and!; [split; [done|] | done | cbn; apply lookup_insert_eq]. cbn [VirshStorage.br_vm VirshStorage.with_br br_vm go with_lock with_br].
    rewrite Hb1, Hb, Hbn. apply forget_names.
  - intros [= <- <-]. destruct Ho as [Hp' Hl']. exists n'. split; [by etrans|]. split_and!; try done. split; [done | congruence].
Qed.
End Sim.

(** Both operations end. *)
Section Ends.
Context {E : Type} `{WorldOk E} (hclient : client).

Lemma hrun_ends cmd (s : hst E) : exists o s', hrun hclient cmd s = Some (o, s').
Proof.
  unfold hrun. rewrite co_bind_eq. unfold hrun_opts. destruct (run_log_ends hclient (CmdStr cmd) default_opts (h_ssh s)) as ([v|e] & x & -> & _);
    by do 2 eexists.
Qed.
Lemma hrun_output_ends cmd (s : hst E) : exists o s', hrun_output hclient cmd s = Some (o, s').
Proof.
  unfold hrun_output. rewrite co_bind_eq. unfold hrun_opts. destruct (run_log_ends hclient (CmdStr cmd) output_opts (h_ssh s)) as ([v|e] & x & -> & _);
    by do 2 eexists.
Qed.

Lemma get_bridge_total prefix (s : hst E) : exists o s', get_bridge hclient prefix s = Some (o, s').
Proof.
  unfold get_bridge. rewrite co_bind_eq. destruct (hrun_output_ends "ip link list" s) as ([out|e] & s1 & ->); [|by do 2 eexists].
  destruct (free_num _) as [i|]; [|by do 2 eexists]. rewrite co_bind_eq.
  destruct (hrun_ends ("ip link add " +:+ (prefix +:+ str_of_Z i) +:+ " type bridge") s1) as ([[]|e] & s2 & ->); [|by do 2 eexists].
  rewrite co_bind_eq. destruct (hrun_ends ("ip link set " +:+ (prefix +:+ str_of_Z i) +:+ " up") s2) as ([[]|e] & s3 & ->); by do 2 eexists.
Qed.

Lemma cleanup_net_total (s : hst E) : exists o s', cleanup_net hclient s = Some (o, s').
Proof.
  unfold cleanup_net. rewrite co_bind_eq. cbn [co_get]. rewrite co_bind_eq.
  match goal with |- context [co_fold ?f ?b ?l s] => assert (ends (fun _ : hst E => True) (co_fold f b l)) as Hf end.
  { apply ends_fold. intros b [k [|x vms]] s1 _; [|by do 2 eexists]. cbn [snd fst]. rewrite co_bind_eq.
    destruct (hrun_ends ("ip link del " +:+ br_str k) s1) as ([[]|e] & s2 & -> ); by do 2 eexists. }
  destruct (Hf s I) as ([cl|e] & s1 & -> & _); by do 2 eexists.
Qed.
End Ends.

(** C17: (refinement) The code implements the interleaved model of the bridges.  When [ip] on the host does what [IpLaws] says, an
    uninterrupted call of [_get_bridge], and one of [cleanup_net], always ends, and is a sequence of steps of the model from
    any reachable state of it that matches the host and in which the lock is free, to a state that matches the host again, with
    the lock released: with the bridge returned in the job's hands or the job failed; with the cleanup done or failed. *)
Theorem bridge_ops_refine {E} `{WorldOk E} hclient shows : IpLaws hclient shows ->
  forall n pid s, net_reachable n -> lock n = None -> matches shows s n ->
  (forall prefix, procs n !! pid = Some (GWait prefix) ->
     exists o s' n', get_bridge hclient prefix s = Some (o, s') /\
       rtc nstep n n' /\ matches shows s' n' /\ lock n' = None /\ got pid o n') /\
  (procs n !! pid = Some CWait ->
     exists o s' n', cleanup_net hclient s = Some (o, s') /\
       rtc nstep n n' /\ matches shows s' n' /\ lock n' = None /\
       procs n' !! pid = Some (match o with Ok _ => CDone | Raise _ => CFailed end)).
Proof.
  intros Hip n pid s Hr Hl Hm. pose proof (worded_reachable _ Hr) as [Hn Hb]. split.
  - intros prefix Hp. destruct (get_bridge_total hclient prefix s) as (o & s' & Hg). exists o, s'.
    destruct (get_bridge_sim hclient shows Hip prefix n pid s o s') as (n' & ?); [| |done..|eauto];
      [eapply Hn; [done|]; by apply list_elem_of_singleton | done].
  - intros Hp. destruct (cleanup_net_total hclient s) as (o & s' & Hc). exists o, s'.
    destruct (cleanup_net_sim hclient shows Hip n pid s o s') as (n' & ?); eauto.
Qed.

(** ** A host with two interfaces that come and go *)

Record two := Two { tw_time : Q; tw_br : bool * bool }.
Definition two_set (e : bool * bool) : gset link := (if e.1 then {["br0"]} else ∅) ∪ (if e.2 then {["br1"]} else ∅).

Definition fails (e : bool * bool) : proc * (bool * bool) := (Proc ["RTNETLINK answers: error"] (Ok 2%Z), e).

(** [ip link list], [add], [set] and [del], by their number of words. *)
Definition two_ip (ws : list string) (e : bool * bool) : proc * (bool * bool) :=
  match ws with
  | [_; _; _] => (Proc ((if e.1 then ["3: br0: <UP>" +:+ String nl ""] else []) ++ (if e.2 then ["4: br1: <UP>" +:+ String nl ""] else [])) (Ok 0%Z), e)
  | [_; _; _; b; _; _] =>
      if str_eqb b "br0" then if e.1 then fails e else (Proc [] (Ok 0%Z), (true, e.2))
      else if str_eqb b "br1" then if e.2 then fails e else (Proc [] (Ok 0%Z), (e.1, true))
      else fails e
  | [_; _; _; b; _] => (Proc [] (Ok 0%Z), e)
  | [_; _; _; b] =>
      if str_eqb b "br0" then if e.1 then (Proc [] (Ok 0%Z), (false, e.2)) else fails e
      else if str_eqb b "br1" then if e.2 then (Proc [] (Ok 0%Z), (e.1, false)) else fails e
      else fails e
  | _ => fails e
  end.

#[export] Instance two_world : World two := {
  now := tw_time; sleep q e := Two (tw_time e + q) (tw_br e); connect _ _ e := (Ok tt, e);
  spawn argv _ e := let '(p, b) := two_ip (drop 7 argv) (tw_br e) in (p, Two (tw_time e) b); reaped _ := true; log_line _ e := e }.
#[export] Instance two_world_ok : WorldOk two.
Proof. constructor; intros; cbn; try apply Qle_refl. destruct (two_ip _ _). apply Qle_refl. Qed.

Definition two_shows (x : sst two) (ls : gset link) : Prop := ready x = true /\ ls = two_set (tw_br (env x)).

Lemma run_two c e : run client_ex cb_log (CmdStr c) default_opts (SSt true e) =
  let '(p, b) := two_ip (split " " c) (tw_br e) in Some (proc_outcome p default_opts, SSt true (Two (tw_time e) b)).
Proof.
  destruct (spawn (ssh_argv client_ex (effective_user client_ex default_opts) (CmdStr c)) None e) as [p e1] eqn:Hs.
  rewrite (run_ready cb_log (fun _ _ => eq_refl) client_ex (CmdStr c) default_opts (SSt true e) p e1) by done.
  cbn [spawn two_world] in Hs. change (drop 7 (ssh_argv client_ex _ (CmdStr c))) with (split " " c) in Hs.
  destruct (two_ip (split " " c) (tw_br e)) as [p' b]. injection Hs as -> <-. do 3 f_equal.
  by induction (p_reads p).
Qed.

Lemma split_words l a c : Forall (fun p => word p = true) (a ++ l :: c) -> split " " (join " " (a ++ l :: c)) = a ++ l :: c.
Proof. intros Hac. apply (split_join " "); [by destruct a|]. eapply Forall_impl; [exact Hac|]. intros p. apply bool_decide_eq_true. Qed.

Lemma add_words l : word l = true -> split " " ("ip link add " +:+ l +:+ " type bridge") = ["ip"; "link"; "add"; l; "type"; "bridge"].
Proof. intros Hl. by apply (split_words l ["ip"; "link"; "add"] ["type"; "bridge"]); repeat constructor. Qed.
Lemma set_words l : word l = true -> split " " ("ip link set " +:+ l +:+ " up") = ["ip"; "link"; "set"; l; "up"].
Proof. intros Hl. by apply (split_words l ["ip"; "link"; "set"] ["up"]); repeat constructor. Qed.
Lemma del_words l : word l = true -> split " " ("ip link del " +:+ l) = ["ip"; "link"; "del"; l].
Proof. intros Hl. by apply (split_words l ["ip"; "link"; "del"] []); repeat constructor. Qed.

(** Each command, by cases on the interfaces and on the name. *)
Ltac two_cases e :=
  unfold str_eqb in *; destruct e as [tm [[] []]]; cbn [tw_br tw_time fst snd env] in *; repeat case_bool_decide; subst;
  repeat match goal with H : _ = Some (_, _) |- _ => cbn in H; injection H as <- <- end; cbn; try (left; done);
  (split; [by apply (bool_decide_unpack _); vm_compute | split; [done | by apply leibniz_equiv; apply (bool_decide_unpack _); vm_compute]]).

Lemma two_laws : IpLaws client_ex two_shows.
Proof.
  split.
  - intros ls [rd e] v x' [Hr ->] Hrun. cbn in Hr. subst rd. destruct e as [tm [[] []]]; vm_compute in Hrun; injection Hrun as <- <-;
      (split; [done|]); intros out [= <-]; by apply (bool_decide_unpack _); vm_compute.
  - intros l ls [rd e] v x' Hl [Hr ->] Hrun. cbn in Hr. subst rd. rewrite run_two, add_words in Hrun by done. cbn [two_ip env] in Hrun |- *.
    two_cases e.
  - intros l ls [rd e] v x' Hl [Hr ->] Hrun. cbn in Hr. subst rd. rewrite run_two, set_words in Hrun by done. by injection Hrun as <- <-.
  - intros l ls [rd e] v x' Hl [Hr ->] Hrun. cbn in Hr. subst rd. rewrite run_two, del_words in Hrun by done. cbn [two_ip env] in Hrun |- *.
    two_cases e.
Qed.

(** One interface is there; a job that waits for the lock gets the other one. *)
Definition host_two : hst two := HSt (SSt true (Two 0 (true, false))) [] 0 0 [] [] [].
Definition net_br0 : net := go 7 (GWait "br") (net0 (two_set (true, false))).

Lemma bridge_ops_refine_witness : exists s' n', get_bridge client_ex "br" host_two = Some (Ok "br1", s') /\ rtc nstep net_br0 n' /\
  matches two_shows s' n' /\ procs n' !! 7 = Some (GHas "br1").
Proof.
  assert (net_reachable net_br0) as Hr by (exists (two_set (true, false)); apply rtc_once; by apply n_spawn).
  assert (matches two_shows host_two net_br0) as Hm0 by by split.
  destruct (proj1 (bridge_ops_refine client_ex two_shows two_laws net_br0 7 host_two Hr eq_refl Hm0) "br" eq_refl)
    as (o & s' & n' & Hg & Hrtc & Hm & _ & Hgot).
  assert (o = Ok "br1") as -> by (vm_compute in Hg; by injection Hg).
  exists s', n'. split; [exact Hg|]. split; [exact Hrtc|]. split; [exact Hm | exact Hgot].
Defined.
