(* ===== verification/ImageRace.v ===== *)
(** * The images of a host, built by concurrent jobs

    [Host.build_image] interleaved: every [yield from] is a point where other coroutines run, and each image has a lock which
    is held while the image is built, its parents included.  That concurrent builds end and never block each other for good,
    and that a job gets a complete image. *)

From S2P Require Import Prelude PyStr PyVal Coro VirshHost VirshBuild.
Open Scope nat_scope.

(** What the configuration of an image calls for. *)
Inductive iplan : Type :=
| PlanClone (parent : string)
| PlanDownload
| PlanNone.

Definition plan_of (config : pydict) (name : string) : res iplan :=
  images ← dgetitem config "images"; conf ← getitem images name; parent ← get conf "parent" PNone;
  if truthy parent then p ← as_str parent; Ok (PlanClone p)
  else url ← get conf "url" PNone; Ok (if truthy url then PlanDownload else PlanNone).

Definition has_scripts (config : pydict) (name : string) : bool :=
  match (images ← dgetitem config "images"; conf ← getitem images name; get conf "build-scripts" PNone) with
  | Ok scripts => truthy scripts
  | Raise _ => false
  end.

Lemma plan_parent config n p : plan_of config n = Ok (PlanClone p) -> parent_of config n = Some p.
Proof.
  unfold plan_of, parent_of. destruct (dgetitem config "images") as [images|]; cbn; [|done].
  destruct (getitem images n) as [conf|]; cbn; [|done]. destruct (get conf "parent" PNone) as [par|]; cbn; [|done].
  destruct (truthy par) eqn:Ht; cbn.
  - destruct par; cbn in *; try done. intros [= ->]. apply negb_true_iff in Ht. by rewrite Ht.
  - destruct (get conf "url" PNone) as [url|]; cbn; [by destruct (truthy url) | done].
Qed.

(** An activation of [build_image(name)]: it waits for the lock; holds it and looks for the image; waits for the build of its
    parent, then clones it; if there are build scripts, boots a VM on the image; runs the scripts in it and shuts it down;
    downloads what was created, or sleeps, and takes the snapshot.  (The scripts are one step: the image's lock is held, so
    no other coroutine can see how far they have come.) *)
Inductive frame : Type :=
| FWant (name : string)
| FHeld (name : string)
| FClone (name parent : string)
| FBoot (name : string)
| FScript (name : string)
| FSnap (name : string).

Definition fname (f : frame) : string :=
  match f with FWant n | FHeld n | FClone n _ | FBoot n | FScript n | FSnap n => n end.
Definition waits (f : frame) : bool := match f with FWant _ => true | _ => false end.
(** The image of the activation is there and not complete. *)
Definition unfinished (f : frame) : bool := match f with FBoot _ | FScript _ | FSnap _ => true | _ => false end.

(** The images whose locks the activations hold. *)
Definition held (st : list frame) : list string := fname <$> filter (fun f => waits f = false) st.

(** A job inside [build_image], innermost activation first; with its image; or after an exception. *)
Inductive jstate : Type :=
| JRun (st : list frame)
| JGot (name : string)
| JFailed.

(** An image: created or cloned, with none of its build scripts run; with all of them run; complete. *)
Inductive istate : Type := Cloned | Scripted | Built.
#[global] Instance istate_eq_dec : EqDecision istate.
Proof. solve_decision. Defined.

(** The images in the storage, the locks and their owners, the jobs; and whether a build has ended with an exception and left
    its image behind. *)
Record imgs := Imgs { images : gmap string istate; locks : gmap string nat; jobs : gmap nat jstate; dirty : bool }.

(** The daemon starts on a host with some images, all complete. *)
Definition imgs0 (built : gset string) : imgs := Imgs (gset_to_gmap Built built) ∅ ∅ false.

Definition job_at (pid : nat) (j : jstate) (s : imgs) : imgs := Imgs (images s) (locks s) (<[pid := j]> (jobs s)) (dirty s).
Definition put_image (n : string) (i : istate) (s : imgs) : imgs := Imgs (<[n := i]> (images s)) (locks s) (jobs s) (dirty s).
Definition drop_image (n : string) (s : imgs) : imgs := Imgs (delete n (images s)) (locks s) (jobs s) (dirty s).
Definition take (n : string) (pid : nat) (s : imgs) : imgs := Imgs (images s) (<[n := pid]> (locks s)) (jobs s) (dirty s).

(** The innermost activation returns and releases its lock. *)
Definition ret (pid : nat) (n : string) (rest : list frame) (s : imgs) : imgs :=
  job_at pid (match rest with [] => JGot n | _ => JRun rest end) (Imgs (images s) (delete n (locks s)) (jobs s) (dirty s)).

(** An exception leaves all activations and their locks. *)
Definition unwind (pid : nat) (st : list frame) (left : bool) (s : imgs) : imgs :=
  job_at pid JFailed (Imgs (images s) (filter (fun kv => kv.1 ∉ held st) (locks s)) (jobs s) (dirty s || left)).

(** The scripts change the image, if there is one; the snapshot completes it (with BTRFS it does nothing). *)
Definition scripted (n : string) (s : imgs) : imgs :=
  match images s !! n with Some _ => put_image n Scripted s | None => s end.
Definition snapshot (n : string) (s : imgs) : imgs :=
  match images s !! n with Some _ => put_image n Built s | None => s end.

(** Who moves: a new job, a job that is cancelled while it waits for a lock, a build. *)
Inductive mover : Type := Call | Cancel | Work.

Section Images.
Context (config : pydict).

Inductive istep : mover -> imgs -> imgs -> Prop :=
| i_call s pid n : jobs s !! pid = None -> istep Call s (job_at pid (JRun [FWant n]) s)
| i_cancel s pid n rest : jobs s !! pid = Some (JRun (FWant n :: rest)) -> istep Cancel s (unwind pid (FWant n :: rest) false s)
| i_lock s pid n rest : jobs s !! pid = Some (JRun (FWant n :: rest)) -> locks s !! n = None ->
    istep Work s (job_at pid (JRun (FHeld n :: rest)) (take n pid s))
| i_exists s pid n rest i : jobs s !! pid = Some (JRun (FHeld n :: rest)) -> images s !! n = Some i ->
    istep Work s (ret pid n rest s)
| i_parent s pid n rest p : jobs s !! pid = Some (JRun (FHeld n :: rest)) -> images s !! n = None ->
    plan_of config n = Ok (PlanClone p) -> istep Work s (job_at pid (JRun (FWant p :: FClone n p :: rest)) s)
| i_clone s pid n p rest i : jobs s !! pid = Some (JRun (FClone n p :: rest)) -> images s !! p = Some i ->
    istep Work s (job_at pid (JRun (FBoot n :: rest)) (put_image n Cloned s))
| i_download s pid n rest : jobs s !! pid = Some (JRun (FHeld n :: rest)) -> images s !! n = None ->
    plan_of config n = Ok PlanDownload -> istep Work s (job_at pid (JRun (FSnap n :: rest)) (put_image n Cloned s))
| i_none s pid n rest : jobs s !! pid = Some (JRun (FHeld n :: rest)) -> images s !! n = None ->
    plan_of config n = Ok PlanNone -> istep Work s (job_at pid (JRun (FBoot n :: rest)) s)
| i_no_scripts s pid n rest : jobs s !! pid = Some (JRun (FBoot n :: rest)) -> has_scripts config n = false ->
    istep Work s (job_at pid (JRun (FSnap n :: rest)) s)
| i_boot s pid n rest : jobs s !! pid = Some (JRun (FBoot n :: rest)) -> has_scripts config n = true ->
    istep Work s (job_at pid (JRun (FScript n :: rest)) s)
| i_scripts s pid n rest : jobs s !! pid = Some (JRun (FScript n :: rest)) ->
    istep Work s (job_at pid (JRun (FSnap n :: rest)) (scripted n s))
| i_script_fails s pid n rest : jobs s !! pid = Some (JRun (FScript n :: rest)) ->
    istep Work s (unwind pid (FScript n :: rest) false (drop_image n s))
| i_snap s pid n rest : jobs s !! pid = Some (JRun (FSnap n :: rest)) -> istep Work s (ret pid n rest (snapshot n s))
| i_fail s pid f rest : jobs s !! pid = Some (JRun (f :: rest)) -> waits f = false ->
    istep Work s (unwind pid (f :: rest) (unfinished f) s).

Definition img_step (s s' : imgs) : Prop := exists k, istep k s s'.
Definition img_reachable (s : imgs) : Prop := exists built, rtc img_step (imgs0 built) s.
(** No new job. *)
Definition img_quiet (s s' : imgs) : Prop := istep Cancel s s' \/ istep Work s s'.

(** ** Locks and stacks *)

(** Below the innermost activation each one waits for the build of its parent. *)
Fixpoint linked (st : list frame) : Prop :=
  match st with
  | [] => True
  | f :: rest =>
      match rest with
      | [] => True
      | FClone n p :: _ => fname f = p /\ plan_of config n = Ok (PlanClone p)
      | _ => False
      end /\ linked rest
  end.

Record iinv (s : imgs) : Prop := {
  v_stack pid st : jobs s !! pid = Some (JRun st) -> st <> [] /\ linked st /\ NoDup (held st);
  v_locks n pid : locks s !! n = Some pid <-> exists st, jobs s !! pid = Some (JRun st) /\ n ∈ held st }.

(** The locks of a job that moved. *)
Definition held_by (j : jstate) : list string := match j with JRun st => held st | _ => [] end.

(** One job moves and the locks follow. *)
Lemma iinv_move s s' pid j : iinv s -> jobs s' = <[pid := j]> (jobs s) ->
  (forall st, j = JRun st -> st <> [] /\ linked st /\ NoDup (held st)) ->
  (forall n, locks s' !! n = if decide (n ∈ held_by j) then Some pid
                             else if decide (locks s !! n = Some pid) then None else locks s !! n) ->
  (forall n, n ∈ held_by j -> locks s !! n = None \/ locks s !! n = Some pid) -> iinv s'.
Proof.
  intros [Hst Hl] Hj Hok Hlk Hnew. split.
  - intros q st. rewrite Hj, lookup_insert_Some. intros [[<- ->]|[? Hq]]; eauto.
  - intros n q. rewrite Hlk, Hj. destruct (decide (q = pid)) as [->|Hne].
    + rewrite lookup_insert_eq. case_decide as Hd; [destruct j; cbn in *; try set_solver; naive_solver|].
      split; [case_decide; [done|]; naive_solver|]. intros (st & [= ->] & Hin). done.
    + rewrite lookup_insert_ne by done. rewrite <- Hl. case_decide as Hd; [destruct (Hnew _ Hd) as [->| ->]; naive_solver|].
      case_decide as Hd'; [rewrite Hd'; naive_solver | done].
Qed.

Lemma held_cons f rest : held (f :: rest) = if waits f then held rest else fname f :: held rest.
Proof. unfold held. rewrite filter_cons. by destruct (waits f). Qed.

Lemma own_locks s pid st n : iinv s -> jobs s !! pid = Some (JRun st) -> locks s !! n = Some pid <-> n ∈ held st.
Proof. intros I Hp. rewrite (v_locks _ I). naive_solver. Qed.

(** A job goes on with the same locks. *)
Lemma iinv_same s s' pid st st' : iinv s -> jobs s !! pid = Some (JRun st) -> jobs s' = <[pid := JRun st']> (jobs s) ->
  locks s' = locks s -> st' <> [] -> linked st' -> held st' = held st -> iinv s'.
Proof.
  intros I Hp Hj Hl Hn Hk Hh. destruct (v_stack _ I _ _ Hp) as (_ & _ & Hd). pose proof (fun n => own_locks s pid st n I Hp) as Ho.
  apply (iinv_move s s' pid (JRun st') I Hj); cbn; rewrite ?Hh, ?Hl.
  - intros ? [= <-]. by rewrite Hh.
  - intros n. case_decide as Hin; [by apply Ho|]. case_decide as E; [by apply Ho in E | done].
  - intros n Hin. right. by apply Ho.
Qed.

Lemma linked_tail f rest : linked (f :: rest) -> linked rest.
Proof. by intros [_ ?]. Qed.

Lemma linked_swap f g rest : fname f = fname g -> linked (f :: rest) -> linked (g :: rest).
Proof. intros Hf [Hr Hl]. split; [|done]. by destruct rest as [|[] ?]; rewrite <- ?Hf. Qed.

Lemma iinv_ret s s0 pid f rest : iinv s -> jobs s !! pid = Some (JRun (f :: rest)) -> waits f = false ->
  jobs s0 = jobs s -> locks s0 = locks s -> iinv (ret pid (fname f) rest s0).
Proof.
  intros I Hp Hw Hj Hl. destruct (v_stack _ I _ _ Hp) as (_ & Hk & Hd). pose proof (fun n => own_locks s pid _ n I Hp) as Ho.
  rewrite held_cons, Hw in Hd. apply NoDup_cons in Hd as [Hni Hd].
  eapply (iinv_move s _ pid _ I); [cbn; by rewrite Hj | | |].
  - intros st E. destruct rest as [|g rest]; [done|]. injection E as <-. split; [done|]. split; [by eapply linked_tail | done].
  - intros n. cbn. rewrite Hl. assert (held_by match rest with [] => JGot (fname f) | _ => JRun rest end = held rest) as -> by by destruct rest.
    destruct (decide (n = fname f)) as [->|Hne].
    + rewrite lookup_delete_eq. case_decide; [done|]. case_decide as E; [done|]. destruct E. apply Ho. rewrite held_cons, Hw. by left.
    + rewrite lookup_delete_ne by done. specialize (Ho n). rewrite held_cons, Hw, elem_of_cons in Ho.
      case_decide; [tauto|]. case_decide; [tauto | done].
  - intros n Hin. right. apply Ho. rewrite held_cons, Hw. right. by destruct rest.
Qed.

Lemma iinv_unwind s s0 pid st b : iinv s -> jobs s !! pid = Some (JRun st) -> jobs s0 = jobs s -> locks s0 = locks s ->
  iinv (unwind pid st b s0).
Proof.
  intros I Hp Hj Hl. pose proof (fun n => own_locks s pid _ n I Hp) as Ho.
  eapply (iinv_move s _ pid JFailed I); [cbn; by rewrite Hj | done | | by intros n ?%not_elem_of_nil].
  intros n. cbn. rewrite Hl. rewrite decide_False by apply not_elem_of_nil. specialize (Ho n).
  destruct (locks s !! n) as [q|] eqn:E; [|rewrite map_lookup_filter, E; by case_decide].
  rewrite map_lookup_filter, E. cbn. case_guard as Hg; case_decide; cbn; try done; tauto.
Qed.

Lemma iinv_step k s s' : istep k s s' -> iinv s -> iinv s'.
Proof.
  intros Hs I. destruct Hs.
  all: try (by eapply (iinv_unwind s)); try (by eapply (iinv_ret s)).
  all: try (destruct (v_stack _ I _ _ H) as (_ & Hk & Hd);
            eapply (iinv_same s); [done | exact H | done | done | done | | by rewrite !held_cons]; by eapply linked_swap).
  - eapply (iinv_move s _ pid _ I); [done | | | by intros m ?%not_elem_of_nil].
    + intros st [= <-]. split; [done|]. split; [done | constructor].
    + intros m. cbn. rewrite decide_False by apply not_elem_of_nil. case_decide as E; [|done].
      apply (v_locks _ I) in E as (st & Hst & _). congruence.
  - destruct (v_stack _ I _ _ H) as (_ & Hk & Hd). pose proof (fun m => own_locks s pid _ m I H) as Ho.
    rewrite held_cons in Hd. cbn in Hd. assert (n ∉ held rest) as Hni.
    { intros Hin. specialize (Ho n). rewrite held_cons in Ho. cbn in Ho. apply Ho in Hin. congruence. }
    eapply (iinv_move s _ pid _ I); [done | | |].
    + intros st [= <-]. split; [done|]. split; [by eapply linked_swap | by rewrite held_cons; constructor].
    + intros m. cbn [held_by job_at take locks]. specialize (Ho m). rewrite held_cons in Ho |- *. cbn in Ho |- *.
      rewrite lookup_insert. repeat case_decide; try set_solver; try tauto.
    + intros m. cbn [held_by]. rewrite held_cons. cbn. intros [->|Hin]%elem_of_cons; [by left|]. right. apply Ho. by rewrite held_cons.
  - by apply (iinv_ret s s pid (FHeld n)).
  - destruct (v_stack _ I _ _ H) as (_ & Hk & Hd).
    eapply (iinv_same s _ pid (FScript n :: rest) (FSnap n :: rest)); [done | exact H | | | done | by eapply linked_swap | by rewrite !held_cons]; cbn; unfold scripted; by case_match.
  - apply (iinv_ret s _ pid (FSnap n)); try done; unfold snapshot; by case_match.
Qed.

Lemma iinv0 built : iinv (imgs0 built).
Proof. split; [done|]. intros n pid. cbn. rewrite !lookup_empty. naive_solver. Qed.

Lemma reachable_iinv s : img_reachable s -> iinv s.
Proof.
  intros [built Hr]. eapply (rtc_ind_r iinv); [apply (iinv0 built) | | exact Hr]. intros s1 s2 _ [k Hs] I. by eapply iinv_step.
Qed.

(** ** The builds end *)

Section Ends.
Context (rank : string -> nat) (Ha : acyclic config rank).

Definition weight (f : frame) : nat :=
  match f with
  | FWant n => 7 * rank n + 7 | FHeld n => 7 * rank n + 6 | FClone _ _ => 4 | FBoot _ => 3 | FScript _ => 2 | FSnap _ => 1
  end.
Definition left_of (j : jstate) : nat := match j with JRun st => sum_list_with weight st | _ => 0 end.
Definition total (m : gmap nat jstate) : nat := map_fold (fun _ j n => left_of j + n) 0 m.

Lemma total_insert m pid j : m !! pid = None -> total (<[pid := j]> m) = left_of j + total m.
Proof. intros Hn. unfold total. rewrite map_fold_insert_L; [done | intros; lia | done]. Qed.

Lemma total_less m pid j j' : m !! pid = Some j -> left_of j' < left_of j -> total (<[pid := j']> m) < total m.
Proof.
  intros Hj Hl. rewrite <- (insert_delete_id m pid j Hj) at 2. rewrite <- insert_delete_eq.
  rewrite !total_insert by apply lookup_delete_eq. lia.
Qed.

(** Every step of a job that is there leaves less to do. *)
Lemma quiet_less s s' : img_quiet s s' -> total (jobs s') < total (jobs s).
Proof.
  intros [Hs|Hs]; inversion Hs; subst; unfold ret, unwind, job_at; cbn [jobs take put_image drop_image].
  all: try (unfold snapshot, scripted; match goal with |- context [images ?s !! ?n] => destruct (images s !! n) end; cbn [jobs put_image]).
  all: try (eapply total_less; [eassumption|]; cbn; try destruct rest; cbn; lia).
  all: try (eapply total_less; [eassumption|]; cbn; destruct f; cbn; lia).
  - eapply total_less; [eassumption|]. cbn. pose proof (Ha _ _ (plan_parent _ _ _ H1)). lia.
Qed.

(** The images whose locks a job holds while it waits for another come later in the order of parents. *)
Lemma linked_rank f rest : linked (f :: rest) -> forall n, n ∈ held rest -> rank (fname f) < rank n.
Proof.
  revert f. induction rest as [|g rest IH]; intros f; [by intros _ n ?%not_elem_of_nil|]. intros [Hg Hl] n.
  destruct g as [| |n' p| | |]; try done. destruct Hg as [Hf Hp]. rewrite held_cons. cbn.
  pose proof (Ha _ _ (plan_parent _ _ _ Hp)) as Hr. intros [->|Hin]%elem_of_cons; [by rewrite Hf|].
  specialize (IH _ Hl _ Hin). cbn in IH. rewrite Hf. lia.
Qed.

(** The jobs never wait for each other in a circle. *)
Lemma someone_ready s : iinv s -> forall k pid f rest, jobs s !! pid = Some (JRun (f :: rest)) -> rank (fname f) <= k ->
  exists q g rest', jobs s !! q = Some (JRun (g :: rest')) /\ (waits g = true -> locks s !! fname g = None).
Proof.
  intros I. induction k as [k IH] using lt_wf_ind. intros pid f rest Hp Hk.
  destruct (waits f) eqn:Hw; [|exists pid, f, rest; split; [done | congruence]].
  destruct (locks s !! fname f) as [q|] eqn:Hl; [|eauto 10]. apply (v_locks _ I) in Hl as (st & Hq & Hin).
  destruct (v_stack _ I _ _ Hq) as (Hne & Hlk & _). destruct st as [|g st]; [done|].
  destruct (waits g) eqn:Hg; [|exists q, g, st; split; [done | congruence]].
  rewrite held_cons, Hg in Hin. pose proof (linked_rank _ _ Hlk _ Hin).
  eapply (IH (rank (fname g))); [lia | exact Hq | done].
Qed.

Lemma builds_sn s : sn img_quiet s.
Proof.
  induction s as [s IH] using (induction_ltof1 _ (fun s => total (jobs s))). constructor. intros s' Hs. apply IH. by apply quiet_less.
Qed.
End Ends.

(** ** A job gets a complete image *)

(** The image of an activation: absent while the parent is built, then there and incomplete. *)
Definition frame_fits (s : imgs) (f : frame) : Prop :=
  match f with
  | FWant _ | FHeld _ => True
  | FClone n _ => images s !! n = None
  | FBoot n | FScript n | FSnap n =>
      (exists i, images s !! n = Some i /\ i <> Built) \/ images s !! n = None /\ plan_of config n = Ok PlanNone
  end.

Definition complete (s : imgs) (n : string) : Prop := images s !! n = Some Built \/ plan_of config n = Ok PlanNone.

Record whole (s : imgs) : Prop := {
  w_frame pid st g : jobs s !! pid = Some (JRun st) -> g ∈ st -> frame_fits s g;
  w_partial n i : images s !! n = Some i -> i <> Built ->
    exists pid f rest, jobs s !! pid = Some (JRun (f :: rest)) /\ fname f = n /\ unfinished f = true;
  w_got pid n : jobs s !! pid = Some (JGot n) -> complete s n }.

Lemma held_elem g st : g ∈ st -> waits g = false -> fname g ∈ held st.
Proof. intros Hg Hw. apply list_elem_of_fmap. exists g. split; [done|]. by apply list_elem_of_filter. Qed.

(** No other activation is about an image whose lock an innermost one holds. *)
Lemma only_frame s pid f rest q st g : iinv s -> jobs s !! pid = Some (JRun (f :: rest)) -> waits f = false ->
  jobs s !! q = Some (JRun st) -> g ∈ (if decide (q = pid) then rest else st) -> waits g = false -> fname g <> fname f.
Proof.
  intros I Hp Hw Hq Hg Hwg E. case_decide as D.
  - destruct (v_stack _ I _ _ Hp) as (_ & _ & Hn). rewrite held_cons, Hw in Hn. apply NoDup_cons in Hn as [Hn _].
    apply Hn. rewrite <- E. by apply held_elem.
  - assert (locks s !! fname f = Some pid) by (apply (own_locks _ _ _ _ I Hp), held_elem; [by left | done]).
    assert (locks s !! fname g = Some q) by (apply (own_locks _ _ _ _ I Hq), held_elem; done). congruence.
Qed.

Lemma fits_same s s' g : (waits g = false -> images s' !! fname g = images s !! fname g) -> frame_fits s g -> frame_fits s' g.
Proof. destruct g; cbn; intros E; try rewrite E; done. Qed.

(** One job moves; the image of its innermost activation may change. *)
Lemma whole_move s s' pid f rest j : iinv s -> whole s -> jobs s !! pid = Some (JRun (f :: rest)) ->
  jobs s' = <[pid := j]> (jobs s) -> images s' = images s \/ waits f = false ->
  (forall m, m <> fname f -> images s' !! m = images s !! m) ->
  (images s !! fname f = Some Built -> images s' !! fname f = Some Built) ->
  (forall st g, j = JRun st -> g ∈ st -> g ∈ rest \/ frame_fits s' g) ->
  (forall i, images s' !! fname f = Some i -> i <> Built -> images s' = images s /\ unfinished f = false \/
     exists g rest', j = JRun (g :: rest') /\ fname g = fname f /\ unfinished g = true) ->
  (forall m, j = JGot m -> complete s' m) -> whole s'.
Proof.
  intros I W Hp Hj Him Hne Hbu Hst Hpa Hgot.
  assert (forall q st g, jobs s !! q = Some (JRun st) -> g ∈ (if decide (q = pid) then rest else st) -> frame_fits s' g) as Hkeep.
  { intros q st g Hq Hg. apply (fits_same s).
    - intros Hwg. destruct Him as [->|Hw]; [done|]. apply Hne. by eapply only_frame.
    - case_decide; [apply (w_frame _ W _ _ g Hp); by right | by eapply (w_frame _ W)]. }
  assert (forall m, complete s m -> complete s' m) as Hco.
  { intros m [Hb|?]; [left | by right]. destruct (decide (m = fname f)) as [->|Hm]; [auto | by rewrite Hne]. }
  split.
  - intros q st g. rewrite Hj, lookup_insert_Some. intros [[<- ->]|[Hq Hq']] Hg.
    + destruct (Hst _ _ eq_refl Hg) as [Hr|]; [|done]. apply (Hkeep pid _ g Hp). by rewrite decide_True.
    + apply (Hkeep q _ g Hq'). by rewrite decide_False.
  - intros n i Hn Hi. rewrite Hj. destruct (decide (n = fname f)) as [->|Hm].
    + destruct (Hpa _ Hn Hi) as [[E Hu]|(g & rest' & -> & Hg)]; [|exists pid; rewrite lookup_insert_eq; eauto]. rewrite E in Hn.
      destruct (w_partial _ W _ _ Hn Hi) as (q & g & rest' & Hq & Hgn & Hgu). exists q, g, rest'.
      rewrite lookup_insert_ne; [done|]. intros ->. congruence.
    + rewrite Hne in Hn by done. destruct (w_partial _ W _ _ Hn Hi) as (q & g & rest' & Hq & Hgn & Hgu). exists q, g, rest'.
      rewrite lookup_insert_ne; [done|]. intros ->. congruence.
  - intros q m. rewrite Hj, lookup_insert_Some. intros [[<- ->]|[_ Hq]]; [auto|]. by apply Hco, (w_got _ W q).
Qed.

(** A job that finds its image finds it complete. *)
Lemma found_complete s pid n rest i : iinv s -> whole s -> jobs s !! pid = Some (JRun (FHeld n :: rest)) ->
  images s !! n = Some i -> i = Built.
Proof.
  intros I W Hp Hi. destruct (decide (i = Built)) as [|Hne]; [done|]. destruct (w_partial _ W _ _ Hi Hne) as (q & g & rest' & Hq & Hgn & Hgu).
  exfalso. destruct (decide (q = pid)) as [->|Hq']; [rewrite Hp in Hq; injection Hq as <- <-; done|].
  eapply (only_frame s pid (FHeld n) rest q (g :: rest') g); try done; [|by destruct g]. rewrite decide_False by done. by left.
Qed.

Lemma ret_rest pid n rest s st g : match rest with [] => JGot n | _ => JRun rest end = JRun st -> g ∈ st -> g ∈ rest \/ frame_fits (ret pid n rest s) g.
Proof. destruct rest; [done|]. intros [= <-]. by left. Qed.

Lemma ret_got (n m : string) (rest : list frame) : match rest with [] => JGot n | _ => JRun rest end = JGot m -> m = n.
Proof. destruct rest; [by intros [= ->] | done]. Qed.

Lemma whole_snap s pid n rest : iinv s -> whole s -> jobs s !! pid = Some (JRun (FSnap n :: rest)) ->
  whole (ret pid n rest (snapshot n s)).
Proof.
  intros I W H. pose proof (w_frame _ W _ _ (FSnap n) H (list_elem_of_here _ _)) as Hf. cbn in Hf.
  assert (images (snapshot n s) = match images s !! n with Some _ => <[n := Built]> (images s) | None => images s end) as E
    by (unfold snapshot; by destruct (images s !! n)).
  assert (jobs (snapshot n s) = jobs s) as Ej by (unfold snapshot; by destruct (images s !! n)).
  eapply (whole_move s _ pid (FSnap n) rest); try done; cbn; rewrite ?E, ?Ej; [done | by right | | | apply ret_rest | |].
  - intros m Hm. case_match; [by rewrite lookup_insert_ne | done].
  - intros ->. by rewrite lookup_insert_eq.
  - intros i. destruct Hf as [(i' & En & _)|[En _]]; rewrite En; [by rewrite lookup_insert_eq; intros [= <-] | by rewrite En].
  - intros m ->%ret_got. unfold complete. cbn. rewrite E. destruct Hf as [(i & -> & _)|[_ Hpl]]; [left; apply lookup_insert_eq | by right].
Qed.

Lemma whole_scripts s pid n rest : iinv s -> whole s -> jobs s !! pid = Some (JRun (FScript n :: rest)) ->
  whole (job_at pid (JRun (FSnap n :: rest)) (scripted n s)).
Proof.
  intros I W H. pose proof (w_frame _ W _ _ (FScript n) H (list_elem_of_here _ _)) as Hf. cbn in Hf.
  assert (images (scripted n s) = match images s !! n with Some _ => <[n := Scripted]> (images s) | None => images s end) as E
    by (unfold scripted; by destruct (images s !! n)).
  assert (jobs (scripted n s) = jobs s) as Ej by (unfold scripted; by destruct (images s !! n)).
  eapply (whole_move s _ pid (FScript n) rest); try done; cbn; rewrite ?E, ?Ej; [done | by right | | | | | done].
  - intros m Hm. case_match; [by rewrite lookup_insert_ne | done].
  - destruct Hf as [(i & -> & Hi)|[-> _]]; [by intros [= ->] | done].
  - intros st g [= <-] [->|Hg]%elem_of_cons; [|by left]. right. cbn. rewrite E. destruct Hf as [(i & -> & Hi)|[En Hpl]].
    + left. exists Scripted. by rewrite lookup_insert_eq.
    + right. by rewrite En.
  - intros i _ _. right. by exists (FSnap n), rest.
Qed.

(** A step that leaves the images alone and with them no image incomplete. *)
Lemma whole_same s s' pid f rest j : iinv s -> whole s -> jobs s !! pid = Some (JRun (f :: rest)) ->
  jobs s' = <[pid := j]> (jobs s) -> images s' = images s ->
  (unfinished f = true -> exists g rest', j = JRun (g :: rest') /\ fname g = fname f /\ unfinished g = true) ->
  (forall st g, j = JRun st -> g ∈ st -> g ∈ rest \/ frame_fits s' g) -> (forall m, j = JGot m -> complete s' m) -> whole s'.
Proof.
  intros I W Hp Hj Hi Hu Hst Hg. eapply (whole_move s s' pid f rest j); rewrite ?Hi; eauto. intros i _ _.
  destruct (unfinished f); [right; auto | by left].
Qed.

Lemma whole_step k s s' : istep k s s' -> iinv s -> whole s -> dirty s' = false -> whole s'.
Proof.
  intros Hs I W Hd. destruct Hs; cbn in Hd.
  - split.
    + intros q st g. cbn. rewrite lookup_insert_Some. intros [[<- [= <-]]|[_ Hq]] Hg; [|by apply (w_frame _ W q st)].
      by apply list_elem_of_singleton in Hg as ->.
    + intros m i Hm Hi. destruct (w_partial _ W _ _ Hm Hi) as (q & g & rest' & Hq & Hgn). exists q, g, rest'. cbn.
      rewrite lookup_insert_ne; [done | congruence].
    + intros q m. cbn. rewrite lookup_insert_Some. intros [[_ ?]|[_ Hq]]; [done | by apply (w_got _ W q)].
  - by eapply (whole_same s).
  - eapply (whole_same s); try done. intros st g [= <-] [->|Hg]%elem_of_cons; [by right | by left].
  - eapply (whole_same s); try done; [apply ret_rest|]. intros m ->%ret_got. left. cbn. by rewrite H0, (found_complete s pid n rest i).
  - eapply (whole_same s); try done. intros st g [= <-]. rewrite !elem_of_cons. intros [->|[->|Hg]]; [by right | by right | by left].
  - pose proof (w_frame _ W _ _ (FClone n p) H (list_elem_of_here _ _)) as Hf. cbn in Hf.
    eapply (whole_move s _ pid (FClone n p) rest); try done; cbn; [by right | | by rewrite Hf | |].
    + intros m Hm. by rewrite lookup_insert_ne.
    + intros st g [= <-] [->|Hg]%elem_of_cons; [|by left]. right. left. exists Cloned. cbn. by rewrite lookup_insert_eq.
    + intros i0 _ _. right. by exists (FBoot n), rest.
  - eapply (whole_move s _ pid (FHeld n) rest); try done; cbn; [by right | | by rewrite H0 | |].
    + intros m Hm. by rewrite lookup_insert_ne.
    + intros st g [= <-] [->|Hg]%elem_of_cons; [|by left]. right. left. exists Cloned. cbn. by rewrite lookup_insert_eq.
    + intros i _ _. right. by exists (FSnap n), rest.
  - eapply (whole_same s); try done. intros st g [= <-] [->|Hg]%elem_of_cons; [right; by right | by left].
  - pose proof (w_frame _ W _ _ (FBoot n) H (list_elem_of_here _ _)) as Hf. eapply (whole_same s); try done.
    + intros _. by exists (FSnap n), rest.
    + intros st g [= <-] [->|Hg]%elem_of_cons; [by right | by left].
  - pose proof (w_frame _ W _ _ (FBoot n) H (list_elem_of_here _ _)) as Hf. eapply (whole_same s); try done.
    + intros _. by exists (FScript n), rest.
    + intros st g [= <-] [->|Hg]%elem_of_cons; [by right | by left].
  - by apply whole_scripts.
  - pose proof (w_frame _ W _ _ (FScript n) H (list_elem_of_here _ _)) as Hf. cbn in Hf.
    eapply (whole_move s _ pid (FScript n) rest); try done; cbn; [by right | | | ].
    + intros m Hm. by rewrite lookup_delete_ne.
    + destruct Hf as [(i & -> & Hi)|[-> _]]; [by intros [= ->] | done].
    + intros i. by rewrite lookup_delete_eq.
  - by apply whole_snap.
  - apply orb_false_iff in Hd as [_ Hd]. eapply (whole_same s); try done. intros ?. congruence.
Qed.

Lemma dirty_mono k s s' : istep k s s' -> dirty s' = false -> dirty s = false.
Proof. intros []; cbn; try done; try by intros [? _]%orb_false_iff. all: unfold snapshot, scripted; by case_match. Qed.

Lemma whole0 built : whole (imgs0 built).
Proof. split; cbn; [done | | done]. intros n i Hn Hi. apply lookup_gset_to_gmap_Some in Hn as [_ ?]. congruence. Qed.

Lemma reachable_whole s : img_reachable s -> dirty s = false -> whole s.
Proof.
  intros [built Hr] Hd. enough (iinv s /\ (dirty s = false -> whole s)) as [_ ?] by auto. clear Hd.
  refine (rtc_ind_r (fun s => iinv s /\ (dirty s = false -> whole s)) (imgs0 built) _ _ s Hr).
  - split; [apply iinv0 | intros; apply whole0].
  - intros s1 s2 _ [k Hs] [I W]. split; [by eapply iinv_step|]. intros Hd. eapply whole_step; eauto using dirty_mono.
Qed.
End Images.

(** ** The theorems *)

(** C18: (termination) When the parents of the images form no cycle, concurrent builds end: without new jobs every sequence of steps
    from any reachable state is finite, whatever fails and whoever is cancelled; as long as a job is inside [build_image], one
    of them is not waiting for a lock another one holds, and works on; and when none is, all locks are free. *)
Theorem concurrent_builds_end config rank s : acyclic config rank -> img_reachable config s ->
  sn (img_quiet config) s /\
  ((exists pid st, jobs s !! pid = Some (JRun st)) ->
     (exists pid f rest, jobs s !! pid = Some (JRun (f :: rest)) /\ (waits f = true -> locks s !! fname f = None)) /\
     exists s', istep config Work s s') /\
  ((forall pid st, jobs s !! pid <> Some (JRun st)) -> locks s = ∅).
Proof.
  intros Ha Hr. pose proof (reachable_iinv _ _ Hr) as I. split; [by eapply builds_sn|]. split.
  - intros (pid & st & Hp). destruct (v_stack _ _ I _ _ Hp) as [Hne _]. destruct st as [|f rest]; [done|].
    destruct (someone_ready config rank Ha s I _ pid f rest Hp (le_n _)) as (q & g & rest' & Hq & Hg).
    split; [eauto 10|]. destruct (waits g) eqn:Hw; [|eexists; by eapply i_fail]. destruct g; try done.
    eexists. eapply i_lock; [done | by apply Hg].
  - intros Hn. apply map_eq. intros n. rewrite lookup_empty. destruct (locks s !! n) as [pid|] eqn:E; [|done].
    apply (v_locks _ _ I) in E as (st & Hst & _). by destruct (Hn pid st).
Qed.

(** C19: (safety) At most one job at a time works on an image; and unless a build has ended with an exception and left its image
    behind, an image is complete whenever [build_image] returns to a job that wants to clone it (or its configuration names
    neither a parent nor a download). *)
Theorem image_is_complete config s : img_reachable config s ->
  (forall n pid pid' st st', jobs s !! pid = Some (JRun st) -> jobs s !! pid' = Some (JRun st') -> n ∈ held st -> n ∈ held st' ->
     pid = pid') /\
  (dirty s = false -> forall pid n, jobs s !! pid = Some (JGot n) -> images s !! n = Some Built \/ plan_of config n = Ok PlanNone).
Proof.
  intros Hr. pose proof (reachable_iinv _ _ Hr) as I. split.
  - intros n pid pid' st st' Hp Hp' Hin Hin'. apply (own_locks _ _ _ _ n I Hp) in Hin. apply (own_locks _ _ _ _ n I Hp') in Hin'.
    congruence.
  - intros Hd pid n Hg. by apply (w_got _ _ (reachable_whole _ _ Hr Hd) pid).
Qed.

(** [test] is cloned from [base] and has a build script. *)
Definition images_script : pydict :=
  [("images", PDict [("base", PDict [("url", PStr "http://x/i.qcow2")]);
                     ("test", PDict [("parent", PStr "base"); ("build-scripts", PList [PStr "setup"])])])].

(** C35: (error) The VM that runs the build scripts is booted before the [try].  Whenever a job has cloned the parent of an image
    with build scripts and is about to boot that VM, the boot can fail so that the job's build ends with an exception and the
    clone, on which none of the scripts has run, stays in the storage; and the next job that asks for the image then gets
    this clone: it finds it and returns. *)
Theorem unbuilt_image_used config s pid n rest next : img_reachable config s -> jobs s !! pid = Some (JRun (FBoot n :: rest)) ->
  has_scripts config n = true -> images s !! n = Some Cloned -> jobs s !! next = None ->
  exists s1 s2, istep config Work s s1 /\ jobs s1 !! pid = Some JFailed /\ images s1 !! n = Some Cloned /\
    rtc (img_step config) s1 s2 /\ jobs s2 !! next = Some (JGot n) /\ images s2 !! n = Some Cloned.
Proof.
  intros Hr Hp _ Hi Hn. set (s1 := unwind pid (FBoot n :: rest) true s). set (s2 := job_at next (JRun [FWant n]) s1).
  set (s3 := job_at next (JRun [FHeld n]) (take n next s2)). exists s1, (ret next n [] s3).
  assert (jobs s1 !! next = None) as Hn1 by (cbn; rewrite lookup_insert_ne; [done | congruence]).
  assert (locks s2 !! n = None) as Hl.
  { cbn. apply map_lookup_filter_None. right. intros q _ Hq. apply Hq. change (n ∈ held (FBoot n :: rest)). rewrite held_cons. by left. }
  split; [by apply (i_fail config s pid (FBoot n) rest)|]. split; [apply lookup_insert_eq|]. split; [done|]. split.
  - eapply rtc_l; [exists Call; by apply (i_call config s1 next n)|].
    eapply rtc_l; [exists Work; apply (i_lock config s2 next n []); [apply lookup_insert_eq | exact Hl]|].
    apply rtc_once. exists Work. apply (i_exists config s3 next n [] Cloned); [apply lookup_insert_eq | done].
  - split; [apply lookup_insert_eq | done].
Qed.

(** Job 1 has cloned [base] and is about to boot the VM. *)
Definition img_boot : imgs :=
  Imgs (<["test" := Cloned]> {["base" := Built]}) {["test" := 1]} {[1 := JRun [FBoot "test"]]} false.

Example img_boot_reached : img_reachable images_script img_boot.
Proof.
  exists {["base"]}. now_step (i_call _ _ 1 "test"). now_step (i_lock _ _ 1 "test" []). now_step (i_parent _ _ 1 "test" [] "base").
  now_step (i_lock _ _ 1 "base" [FClone "test" "base"]). now_step (i_exists _ _ 1 "base" [FClone "test" "base"] Built).
  now_step (i_clone _ _ 1 "test" "base" [] Built).
  match goal with |- rtc _ ?a ?b => replace a with b by reflexivity end. constructor.
Qed.

Lemma unbuilt_image_used_witness : has_scripts images_script "test" = true /\
  exists s2, rtc (img_step images_script) img_boot s2 /\ jobs s2 !! 2 = Some (JGot "test") /\ images s2 !! "test" = Some Cloned.
Proof.
  split; [reflexivity|].
  destruct (unbuilt_image_used images_script img_boot 1 "test" [] 2 img_boot_reached eq_refl eq_refl eq_refl eq_refl)
    as (s1 & s2 & H1 & _ & _ & Hr & Hj & Hi).
  exists s2. split; [eapply rtc_l; [by exists Work | exact Hr]|]. split; [exact Hj | exact Hi].
Defined.

(** ** A cycle of parents *)

(** From [n] the parents lead through the images [ms] to [last]. *)
Fixpoint leads (config : pydict) (n : string) (ms : list string) (last : string) : Prop :=
  match ms with
  | [] => plan_of config n = Ok (PlanClone last)
  | m :: ms => plan_of config n = Ok (PlanClone m) /\ leads config m ms last
  end.

(** A job walks along the parents of images that are not there, taking their locks. *)
Lemma walk_parents config pid last ms : forall n s rest, jobs s !! pid = Some (JRun (FWant n :: rest)) -> leads config n ms last ->
  NoDup (n :: ms) -> (forall m, m ∈ n :: ms -> images s !! m = None /\ locks s !! m = None) ->
  exists s' rest', rtc (istep config Work) s s' /\ jobs s' !! pid = Some (JRun (FWant last :: rest')) /\
    locks s' !! n = Some pid /\ forall k, locks s !! k = Some pid -> locks s' !! k = Some pid.
Proof.
  assert (forall n p s rest, jobs s !! pid = Some (JRun (FWant n :: rest)) -> images s !! n = None -> locks s !! n = None ->
    plan_of config n = Ok (PlanClone p) ->
    rtc (istep config Work) s (job_at pid (JRun (FWant p :: FClone n p :: rest)) (job_at pid (JRun (FHeld n :: rest)) (take n pid s)))) as Hone.
  { intros n p s rest Hp Hi Hl Hpl. eapply rtc_l; [by eapply i_lock|]. apply rtc_once. eapply i_parent; [apply lookup_insert_eq | done | done]. }
  induction ms as [|m ms IH]; intros n s rest Hp Hlead Hnd Hfree.
  - destruct (Hfree n) as [Hi Hl]; [by left|]. do 2 eexists. split; [by apply Hone|]. split; [apply lookup_insert_eq|].
    split; [apply lookup_insert_eq|]. intros k Hk. cbn. rewrite lookup_insert_ne; [done | congruence].
  - destruct Hlead as [Hpl Hlead]. destruct (Hfree n) as [Hi Hl]; [by left|]. apply NoDup_cons in Hnd as [Hni Hnd].
    set (s1 := job_at pid (JRun (FWant m :: FClone n m :: rest)) (job_at pid (JRun (FHeld n :: rest)) (take n pid s))).
    destruct (IH m s1 (FClone n m :: rest)) as (s' & rest' & Hr & Hj & _ & Hk); [apply lookup_insert_eq | done | done| |].
    { intros k Hin. destruct (Hfree k) as [? ?]; [by right|]. split; [done|]. cbn. rewrite lookup_insert_ne; [done | set_solver]. }
    exists s', rest'. split; [etrans; [by apply Hone | exact Hr]|]. split; [done|].
    split; [apply Hk, lookup_insert_eq|]. intros k Hl'. apply Hk. cbn. rewrite lookup_insert_ne; [done | congruence].
Qed.

(** A job that waits for a lock it holds itself goes on waiting unless it is cancelled. *)
Lemma self_wait_step config pid n rest k s s' : iinv config s -> jobs s !! pid = Some (JRun (FWant n :: rest)) -> locks s !! n = Some pid ->
  istep config k s s' -> jobs s' !! pid <> Some JFailed -> jobs s' !! pid = Some (JRun (FWant n :: rest)) /\ locks s' !! n = Some pid.
Proof.
  intros I Hp Hl Hs Hf. pose proof (iinv_step config k s s' Hs I) as I'.
  assert (jobs s' !! pid = Some (JRun (FWant n :: rest))) as Hp'.
  { destruct Hs; cbn in *; try (unfold snapshot, scripted in *; repeat case_match; cbn in *);
      (destruct (decide (pid = pid0)) as [<-|]; [rewrite ?lookup_insert_eq in Hf; simplify_eq/=; try done; congruence | by rewrite lookup_insert_ne]). }
  split; [done|]. apply (own_locks config s' pid _ n I' Hp'). by apply (own_locks config s pid _ n I Hp).
Qed.

(** C36: (error) An image that is its own ancestor makes [build_image] deadlock: when none of the images of a cycle of parents is
    there or being built, a job that asks for one of them comes, without anyone else moving, to a point where it waits for the
    lock of that image, which it holds itself; and it stays there, whatever the other jobs do, until it is cancelled. *)
Theorem parent_cycle_deadlock config s pid n ms : img_reachable config s -> jobs s !! pid = None ->
  leads config n ms n -> NoDup (n :: ms) -> (forall m, m ∈ n :: ms -> images s !! m = None /\ locks s !! m = None) ->
  exists s' rest, rtc (istep config Work) (job_at pid (JRun [FWant n]) s) s' /\
    forall s2, rtc (fun a b => img_step config a b /\ jobs b !! pid <> Some JFailed) s' s2 ->
      jobs s2 !! pid = Some (JRun (FWant n :: rest)) /\ locks s2 !! n = Some pid.
Proof.
  intros Hr Hp Hl Hnd Hfree. pose proof (reachable_iinv _ _ Hr) as I.
  destruct (walk_parents config pid n ms n (job_at pid (JRun [FWant n]) s) []) as (s1 & rest & Hw & Hj & Hlk & _);
    [apply lookup_insert_eq | done | done | done|]. exists s1, rest. split; [done|]. intros s2 Hs2.
  assert (iinv config s1) as I1.
  { eapply (rtc_ind_r (iinv config)); [| |exact Hw]; [eapply iinv_step; [by apply (i_call config s pid n) | done]|].
    intros a b _ Hab Ia. by eapply iinv_step. }
  clear Hw. induction Hs2 as [a|a b c [[k Hab] Hnf] _ IH]; [done|].
  destruct (self_wait_step _ _ _ _ _ _ _ I1 Hj Hlk Hab Hnf) as [? ?]. apply IH; [done | done | by eapply iinv_step].
Qed.

(** Each image is the parent of the other. *)
Definition cycle_config : pydict :=
  [("images", PDict [("a", PDict [("parent", PStr "b")]); ("b", PDict [("parent", PStr "a")])])].

Lemma parent_cycle_deadlock_witness : exists s' rest, rtc (istep cycle_config Work) (job_at 1 (JRun [FWant "a"]) (imgs0 ∅)) s' /\
  jobs s' !! 1 = Some (JRun (FWant "a" :: rest)) /\ locks s' !! "a" = Some 1.
Proof.
  destruct (parent_cycle_deadlock cycle_config (imgs0 ∅) 1 "a" ["b"]) as (s' & rest & Hr & Hd).
  - exists ∅. constructor.
  - reflexivity.
  - by split.
  - by apply (bool_decide_unpack _); vm_compute.
  - intros m _. split; reflexivity.
  - exists s', rest. split; [exact Hr|]. apply Hd. constructor.
Defined.

(** Two jobs that want the same image: the first has its lock and waits for the parent, which a third one has just got. *)
Definition img_three : imgs :=
  Imgs {["base" := Built]} {["test" := 1]}
    (<[1 := JRun [FWant "base"; FClone "test" "base"]]> (<[2 := JRun [FWant "test"]]> {[3 := JGot "base"]})) false.

Example img_three_reached : img_reachable images_ex img_three.
Proof.
  exists ∅. now_step (i_call _ _ 3 "base"). now_step (i_lock _ _ 3 "base" []). now_step (i_call _ _ 1 "test").
  now_step (i_lock _ _ 1 "test" []). now_step (i_call _ _ 2 "test"). now_step (i_parent _ _ 1 "test" [] "base").
  now_step (i_download _ _ 3 "base" []). now_step (i_snap _ _ 3 "base" []).
  match goal with |- rtc _ ?a ?b => replace a with b by reflexivity end. constructor.
Qed.

Lemma concurrent_builds_end_witness : sn (img_quiet images_ex) img_three /\ exists s', istep images_ex Work img_three s'.
Proof.
  destruct (concurrent_builds_end images_ex rank_ex img_three acyclic_ex img_three_reached) as (Hsn & Hw & _). split; [exact Hsn|].
  apply Hw. exists 1. eexists. reflexivity.
Defined.

Lemma image_is_complete_witness : images img_three !! "base" = Some Built \/ plan_of images_ex "base" = Ok PlanNone.
Proof. apply (proj2 (image_is_complete images_ex img_three img_three_reached) eq_refl 3 "base"). reflexivity. Defined.
