(* ===== verification/VirshProvider.v ===== *)
(** * [rallyci/providers/virsh.py]: the provider

    [Provider.get_vms] chooses a host for the VMs of a job.  A host is what it asks of one: its statistics and its own
    [get_vms]; [VirshHost] has both. *)

From Stdlib Require Import QArith Lqa.
From S2P Require Import Prelude Coro PyStr PyVal AsyncSSH VirshStorage VirshVM VirshHost.
Open Scope nat_scope.

(** A value used as a number. *)
Definition as_num (v : pyval) : res Q :=
  match v with
  | PInt n => Ok (inject_Z n)
  | PFloat q => Ok q
  | PBool b => Ok (if b then 1 else 0)%Q
  | _ => Raise TypeError
  end.

(** The hosts of a provider and their VMs, on a common state [W] (the machines and the clock). *)
Class Hosts (W Hh V : Type) := {
  host_stats : Hh -> co W (Q * Z);                    (* update_stats: load average and free memory *)
  host_get_vms : Hh -> list pyval -> co W (list V);
  w_now : W -> Q;
  w_sleep : Q -> W -> W }.

Section Provider.
Context {W Hh V : Type} `{Hosts W Hh V}.
Context (config : pydict).
(** [random.shuffle], by the number of the round. *)
Context (shuffle : nat -> list Hh -> list Hh).

Record pst := PSt { p_w : W; p_hosts : list Hh; p_last : Q; p_round : nat }.

Definition p_lift {A} (m : co W A) : co pst A := fun s =>
  match m (p_w s) with
  | Some (r, w) => Some (r, PSt w (p_hosts s) (p_last s) (p_round s))
  | None => None
  end.
Definition p_sleep (q : Q) : co pst unit := p_lift (co_modify (w_sleep q)).

(** The memory of one VM of the job. *)
Definition vm_memory_conf (cfg : pyval) : res Q :=
  name ← (x ← getitem cfg "name"; as_str x);
  conf ← (vs ← dgetitem config "vms"; getitem vs name);
  m ← getitem conf "memory";
  as_num m.

(** [memory_required] *)
Definition memory_required (vm_confs : list pyval) : res Q :=
  freemb ← as_num (dget config "freemb" (PInt 1024));
  res_fold (fun n cfg => m ← vm_memory_conf cfg; Ok (n + m)%Q) freemb vm_confs.

Definition maxla : res Q := as_num (dget config "maxla" (PInt 4)).

(** [host.free >= memory_required and host.la < self.config.get("maxla", 4)] *)
Definition fits (required : Q) (stats : Q * Z) : res bool :=
  if Qle_bool required (inject_Z stats.2)
  then m ← maxla; Ok (negb (Qle_bool m stats.1))
  else Ok false.

(** One pass over the hosts: the first that fits. *)
Fixpoint first_fit (required : Q) (hosts : list Hh) : co pst (option Hh) :=
  match hosts with
  | [] => mret None
  | h :: hosts =>
      stats ← p_lift (host_stats h);
      ok ← co_lift (fits required stats);
      if (ok : bool) then mret (Some h) else first_fit required hosts
  end.

(** A round: shuffle, look at each host, or wait for half a minute. *)
Definition choose_round (required : Q) : co pst (option Hh) :=
  _ ← co_modify (fun s => PSt (p_w s) (shuffle (p_round s) (p_hosts s)) (p_last s) (S (p_round s)));
  s ← co_get;
  best ← first_fit required (p_hosts s);
  match best with
  | Some h => mret (Some h)
  | None => _ ← p_sleep 30; mret None
  end.

(** [Provider.get_vms(vm_confs)]; the fuel bounds the rounds. *)
Definition get_vms (fuel : nat) (vm_confs : list pyval) : co pst (list V) :=
  required ← co_lift (memory_required vm_confs);
  s ← co_get;
  let pause := (p_last s + 5 - w_now (p_w s))%Q in
  _ ← (if negb (Qle_bool pause 1) then p_sleep pause else mret tt);
  host ← co_loop fuel (choose_round required);
  _ ← co_modify (fun s => PSt (p_w s) (p_hosts s) (w_now (p_w s)) (p_round s));
  p_lift (host_get_vms host vm_confs).

(** ** Properties *)

(** The sum of the memory of the VMs, and the margin. *)
Lemma memory_required_sum vm_confs r : memory_required vm_confs = Ok r ->
  exists freemb ms, as_num (dget config "freemb" (PInt 1024)) = Ok freemb /\
    Forall2 (fun cfg m => vm_memory_conf cfg = Ok m) vm_confs ms /\ (r == freemb + fold_right Qplus 0 ms)%Q.
Proof.
  unfold memory_required. intros (freemb & Hf & Hr)%res_bind_Ok. exists freemb. revert r Hr.
  cut (forall confs b r, res_fold (fun n cfg => m ← vm_memory_conf cfg; Ok (n + m)%Q) b confs = Ok r ->
    exists ms, Forall2 (fun cfg m => vm_memory_conf cfg = Ok m) confs ms /\ (r == b + fold_right Qplus 0 ms)%Q).
  { intros Hc r Hr. destruct (Hc _ _ _ Hr) as (ms & ? & ?). eauto. }
  clear Hf. induction confs as [|c confs IH]; intros b r; cbn [res_fold].
  - intros [= <-]. exists []. split; [constructor|]. cbn. lra.
  - intros (b1 & Hb & Hr)%res_bind_Ok. apply res_bind_Ok in Hb as (m & Hm & [= <-]).
    apply IH in Hr as (ms & HF & Hr). exists (m :: ms). split; [by constructor|]. cbn. lra.
Qed.

(** A host asked for its statistics, and whether they were good enough; hosts asked one after the other, none of which was. *)
Definition asked (required : Q) (h : Hh) (ok : bool) (w w' : W) : Prop :=
  exists stats, host_stats h w = Some (Ok stats, w') /\ fits required stats = Ok ok.
Fixpoint turned_down (required : Q) (hosts : list Hh) (w w' : W) : Prop :=
  match hosts with
  | [] => w' = w
  | h :: hosts => exists w1, asked required h false w w1 /\ turned_down required hosts w1 w'
  end.

(** The first host that fits: those before it were asked first and did not. *)
Lemma first_fit_spec required hosts s h s' : first_fit required hosts s = Some (Ok (Some h), s') ->
  exists before after w1, hosts = before ++ h :: after /\ turned_down required before (p_w s) w1 /\
    asked required h true w1 (p_w s').
Proof.
  revert s. induction hosts as [|g hosts IH]; intros s; cbn [first_fit]; [done|]. rewrite co_bind_Ok.
  intros (stats & s1 & Hs & Hf). unfold p_lift in Hs. destruct (host_stats g (p_w s)) as [[r w1]|] eqn:Eg; [|done].
  injection Hs as -> <-. rewrite co_bind_Ok in Hf. destruct Hf as (ok & s2 & Hok & Hf). unfold co_lift in Hok.
  injection Hok as Hok <-. destruct ok.
  - injection Hf as -> <-. exists [], hosts, (p_w s). split_and!; [done | done | by eexists].
  - apply IH in Hf as (before & after & w2 & -> & Ht & Ha). exists (g :: before), after, w2.
    split_and!; [done | exists w1; split; [by eexists | done] | done].
Qed.

(** A round that found no host keeps the hosts, in the order of the shuffle. *)
Definition no_room (required : Q) (s s' : pst) : Prop := choose_round required s = Some (Ok None, s').

Lemma p_lift_hosts {A} (m : co W A) s o s' : p_lift m s = Some (o, s') -> p_hosts s' = p_hosts s.
Proof. unfold p_lift. destruct (m (p_w s)) as [[? ?]|]; [|done]. by intros [= <- <-]. Qed.

Lemma first_fit_hosts required hosts s o s' : first_fit required hosts s = Some (o, s') -> p_hosts s' = p_hosts s.
Proof.
  revert s. induction hosts as [|g hosts IH]; intros s; cbn [first_fit]; [by intros [= <- <-]|]. rewrite co_bind_Some.
  intros [(st & s1 & Hl%p_lift_hosts & Hf)|(e & Hl%p_lift_hosts & ->)]; [|done]. rewrite co_bind_Some in Hf.
  destruct Hf as [(ok & s2 & Hok & Hf)|(e & Hok & ->)]; unfold co_lift in Hok; injection Hok as Hok <-; [|done].
  rewrite <- Hl. destruct ok; [by injection Hf as <- <- | by apply IH].
Qed.

Lemma choose_round_Some required s h s' : choose_round required s = Some (Ok (Some h), s') ->
  first_fit required (shuffle (p_round s) (p_hosts s))
    (PSt (p_w s) (shuffle (p_round s) (p_hosts s)) (p_last s) (S (p_round s))) = Some (Ok (Some h), s').
Proof.
  unfold choose_round. rewrite co_bind_eq. cbn [co_modify]. rewrite co_bind_eq. cbn [co_get p_hosts]. rewrite co_bind_Ok.
  intros (best & s1 & Hf & Hc). destruct best as [g|]; [by injection Hc as -> <-|].
  rewrite co_bind_Ok in Hc. by destruct Hc as (? & ? & _ & ?).
Qed.

Lemma no_room_hosts required s s' : (forall n l, shuffle n l ≡ₚ l) -> no_room required s s' -> p_hosts s' ≡ₚ p_hosts s.
Proof.
  intros Hsh. unfold no_room, choose_round. rewrite co_bind_eq. cbn [co_modify]. rewrite co_bind_eq. cbn [co_get p_hosts]. rewrite co_bind_Ok.
  intros (best & s1 & Hf%first_fit_hosts & Hc). cbn [p_hosts] in Hf. destruct best as [g|]; [by injection Hc|].
  rewrite co_bind_Ok in Hc. destruct Hc as (? & s2 & Hl%p_lift_hosts & [= <-]). by rewrite Hl, Hf, Hsh.
Qed.
End Provider.
Arguments pst : clear implicits.

(** C22: the VMs of a job come from a host that had room.  After the pause that keeps two calls apart, and after rounds in
    which no host had room, there is a round in which the hosts of the provider, shuffled, are asked in turn: those before
    the chosen one do not fit; the chosen one reports free memory of at least the configured margin plus the memory of all
    the job's VMs, and a load below the limit; and its [get_vms] runs from the state that report left, and gives the VMs. *)
Theorem provider_host_has_room {W Hh V} `{Hosts W Hh V} config shuffle fuel vm_confs vms (s s' : pst W Hh) :
  (forall n l, shuffle n l ≡ₚ l) -> get_vms config shuffle fuel vm_confs s = Some (Ok vms, s') ->
  exists required limit s0 k s1 (host : Hh) la free before after w1 w2,
    memory_required config vm_confs = Ok required /\ maxla config = Ok limit /\
    (s0 = s \/ exists pause, s0 = PSt (w_sleep pause (p_w s)) (p_hosts s) (p_last s) (p_round s)) /\
    nsteps (no_room config shuffle required) k s0 s1 /\
    shuffle (p_round s1) (p_hosts s1) = before ++ host :: after /\ host ∈ p_hosts s /\
    turned_down config required before (p_w s1) w1 /\
    host_stats host w1 = Some (Ok (la, free), w2) /\ (required <= inject_Z free)%Q /\ (la < limit)%Q /\
    host_get_vms host vm_confs w2 = Some (Ok vms, p_w s').
Proof.
  intros Hsh. unfold get_vms. rewrite co_bind_Ok. intros (required & s00 & Hr & Hg). unfold co_lift in Hr. injection Hr as Hr <-.
  rewrite co_bind_Ok in Hg. destruct Hg as (? & ? & [= <- <-] & Hg). rewrite co_bind_Ok in Hg.
  destruct Hg as (? & s0 & Hpause & Hg). rewrite co_bind_Ok in Hg. destruct Hg as (host & s3 & Hl & Hg).
  rewrite co_bind_Ok in Hg. destruct Hg as (? & s4 & [= <- <-] & Hg). unfold p_lift in Hg. cbn [p_w] in Hg.
  destruct (host_get_vms host vm_confs _) as [[o w4]|] eqn:Ev; [|done]. injection Hg as -> <-.
  apply co_loop_trace in Hl as (k & s1 & _ & Hk & Hc%choose_round_Some).
  apply first_fit_spec in Hc as (before & after & w1 & Heq & Ht & [la free] & Hst & Hfit). cbn [p_w] in Ht.
  unfold fits in Hfit. cbn [fst snd] in Hfit. destruct (Qle_bool required (inject_Z free)) eqn:Hq; [|done].
  apply res_bind_Ok in Hfit as (limit & Hlim & Hlt). injection Hlt as Hlt%negb_true_iff.
  assert (s0 = s \/ exists pause, s0 = PSt (w_sleep pause (p_w s)) (p_hosts s) (p_last s) (p_round s)) as H0.
  { destruct (negb _); [right | left; by injection Hpause]. injection Hpause as <-. by eexists. }
  exists required, limit, s0, k, s1, host, la, free, before, after, w1, (p_w s3). split_and!; try done.
  - assert (p_hosts s1 ≡ₚ p_hosts s) as <-.
    { assert (p_hosts s0 = p_hosts s) as <- by (by destruct H0 as [->|[? ->]]). clear -Hk Hsh.
      induction Hk as [|k a b c Hs _ IH]; [done|]. rewrite IH. by eapply no_room_hosts. }
    rewrite <- (Hsh (p_round s1)), Heq. set_solver.
  - by apply Qle_bool_iff.
  - apply Qnot_le_lt. rewrite <- Qle_bool_iff. by rewrite Hlt.
Qed.

(** Two hosts, the first short of memory; the state is the clock. *)
#[export] Instance hosts_ex : Hosts Q nat vm := {
  host_stats h := mret (match h with 0 => (1 # 2, 2000%Z) | _ => (3 # 2, 9000%Z) end);
  host_get_vms h _ := mret [MkVM h "vm" PNone PNone PNone [] [] [] [] None];
  w_now w := w;
  w_sleep q w := (w + q)%Q }.
Definition provider_conf_ex : pydict := [("vms", PDict [("a", PDict [("memory", PInt 4096)])])].

Lemma provider_host_has_room_witness : exists host : nat,
  get_vms provider_conf_ex (fun _ l => l) 1 [PDict [("name", PStr "a")]] (PSt 100%Q [0; 1] 0%Q 0) =
    Some (Ok [MkVM host "vm" PNone PNone PNone [] [] [] [] None], PSt 100%Q [0; 1] 100%Q 1) /\ host = 1 /\ host ∈ [0; 1].
Proof.
  exists 1. split; [vm_compute; reflexivity|]. split; [done|].
  destruct (provider_host_has_room provider_conf_ex (fun _ l => l) 1 [PDict [("name", PStr "a")]]
    [MkVM 1 "vm" PNone PNone PNone [] [] [] [] None] (PSt 100%Q [0; 1] 0%Q 0) (PSt 100%Q [0; 1] 100%Q 1))
    as (required & limit & s0 & k & s1 & host & la & free & before & after & w1 & w2 & _ & _ & _ & _ & _ & Hin & _ & _ & _ & _ & Hg);
    [done | vm_compute; reflexivity|].
  injection Hg as -> _. exact Hin.
Defined.

(** ** Waiting for room *)

(** What the provider relies on: the operations of a host end, and time does not go back. *)
Class HostsOk (W Hh V : Type) `{Hosts W Hh V} (P : W -> Prop) : Prop := {
  stats_end : forall h, ends P (host_stats h);
  stats_later : forall h w r w', host_stats h w = Some (r, w') -> (w_now w <= w_now w')%Q;
  get_vms_end : forall h l, ends P (host_get_vms h l);
  sleep_now : forall q w, (w_now w + q <= w_now (w_sleep q w))%Q;
  sleep_ok : forall q w, (0 <= q)%Q -> P w -> P (w_sleep q w) }.

Section Liveness.
Context {W Hh V : Type} `{Hosts W Hh V} (P : W -> Prop) `{!HostsOk W Hh V P}.
Context (config : pydict) (shuffle : nat -> list Hh -> list Hh) (shuffle_perm : forall n l, shuffle n l ≡ₚ l).
Context (required limit : Q) (limit_ok : maxla config = Ok limit).

Definition time_at (s : pst W Hh) : Q := w_now (p_w s).

(** From [deadline] on the host reports enough memory and a low load. *)
Definition roomy (host : Hh) (deadline : Q) : Prop := forall w, P w -> (deadline <= w_now w)%Q ->
  exists la free w', host_stats host w = Some (Ok (la, free), w') /\ (required <= inject_Z free)%Q /\ (la < limit)%Q.

(** An exception of [update_stats] of one of the hosts. *)
Definition stats_raise (hosts : list Hh) (e : exn) : Prop := exists h w w', h ∈ hosts /\ host_stats h w = Some (Raise e, w').

Lemma fits_spec la free : fits config required (la, free) =
  Ok (Qle_bool required (inject_Z free) && negb (Qle_bool limit la)).
Proof. unfold fits. cbn [fst snd]. destruct (Qle_bool required (inject_Z free)); [|done]. by rewrite limit_ok. Qed.

Lemma first_fit_ends hosts : forall s, P (p_w s) -> exists o s', first_fit config required hosts s = Some (o, s') /\
  P (p_w s') /\ (time_at s <= time_at s')%Q /\ p_hosts s' = p_hosts s /\
  match o with
  | Ok (Some h) => h ∈ hosts
  | Ok None => forall h t, h ∈ hosts -> roomy h t -> (time_at s < t)%Q
  | Raise e => stats_raise hosts e
  end.
Proof.
  induction hosts as [|h hosts IH]; intros s Hs.
  - exists (Ok None), s. split_and!; [done | done | apply Qle_refl | done|]. by intros h t ?%not_elem_of_nil.
  - cbn [first_fit]. rewrite co_bind_eq. unfold p_lift at 1.
    destruct (stats_end (P := P) h (p_w s) Hs) as (r & w1 & Hw & Hp1). pose proof (stats_later (P := P) _ _ _ _ Hw) as Ht.
    rewrite Hw. destruct r as [[la free]|e].
    2:{ do 2 eexists. split_and!; try done. exists h, (p_w s), w1. split; [left | done]. }
    rewrite co_bind_eq. unfold co_lift. rewrite fits_spec. destruct (_ && _) eqn:Ef.
    { do 2 eexists. split_and!; try done. left. }
    destruct (IH (PSt w1 (p_hosts s) (p_last s) (p_round s)) Hp1) as (o & s' & -> & Hp' & Ht' & Hh' & Ho).
    do 2 eexists. split_and!; try done; [by eapply Qle_trans|]. destruct o as [[h'|]|e].
    + by right.
    + intros h' t [->|Hin]%elem_of_cons Hr; [|by apply (Qle_lt_trans _ _ _ Ht), (Ho h')]. apply Qnot_le_lt. intros Hle.
      destruct (Hr _ Hs Hle) as (la' & free' & w' & Hw' & Hq & Hl). rewrite Hw in Hw'. injection Hw' as <- <- <-.
      apply Qle_bool_iff in Hq. rewrite Hq in Ef. cbn in Ef. apply negb_false_iff, Qle_bool_iff in Ef. lra.
    + destruct Ho as (g & w & w' & ? & ?). exists g, w, w'. split; [by right | done].
Qed.

(** One round: it ends; when it finds no host, no host had room by then, and half a minute passes. *)
Lemma choose_round_ends s : P (p_w s) -> exists o s', choose_round config shuffle required s = Some (o, s') /\
  P (p_w s') /\ p_hosts s' ≡ₚ p_hosts s /\
  match o with
  | Ok (Some h) => h ∈ p_hosts s
  | Ok None => (time_at s + 30 <= time_at s')%Q /\ forall h t, h ∈ p_hosts s -> roomy h t -> (time_at s < t)%Q
  | Raise e => stats_raise (p_hosts s) e
  end.
Proof.
  intros Hs. pose proof (shuffle_perm (p_round s) (p_hosts s)) as Hperm. unfold choose_round. rewrite co_bind_eq.
  cbn [co_modify]. rewrite co_bind_eq. cbn [co_get p_hosts].
  set (s1 := PSt (p_w s) (shuffle (p_round s) (p_hosts s)) (p_last s) (S (p_round s))).
  destruct (first_fit_ends (shuffle (p_round s) (p_hosts s)) s1 Hs) as (o & s2 & E & Hp & Ht & Hho & Ho).
  rewrite co_bind_eq. cbn [co_get p_hosts s1]. fold s1. rewrite E.
  assert (p_hosts s2 ≡ₚ p_hosts s) as Hh2 by (rewrite Hho; apply Hperm).
  destruct o as [[h|]|e].
  - exists (Ok (Some h)), s2. split_and!; try done. by rewrite <- Hperm.
  - rewrite co_bind_eq. unfold p_sleep, p_lift. cbn. eexists (Ok None), _. split_and!; [reflexivity | by apply sleep_ok | done | |].
    + pose proof (sleep_now (P := P) 30 (p_w s2)) as Hn. unfold time_at in *. cbn in *. lra.
    + intros h t Hin. rewrite <- Hperm in Hin. by apply Ho.
  - exists (Raise e), s2. split_and!; try done. destruct Ho as (h & w & w' & Hin & ?). exists h, w, w'. by rewrite <- Hperm.
Qed.

(** The rounds left until [deadline]. *)
Definition soon (hosts : list Hh) (h : Hh) (deadline : Q) (s : pst W Hh) (k : nat) : Prop :=
  P (p_w s) /\ p_hosts s ≡ₚ hosts /\ h ∈ hosts /\ (deadline <= time_at s + 30 * inject_Z (Z.of_nat k))%Q.

Lemma choose_ends hosts h deadline s n : roomy h deadline -> soon hosts h deadline s n ->
  exists o s', co_loop (S n) (choose_round config shuffle required) s = Some (o, s') /\ P (p_w s') /\
    match o with Ok g => g ∈ hosts | Raise e => stats_raise hosts e end.
Proof.
  intros Hr Hs. destruct (co_loop_ends (soon hosts h deadline) (choose_round config shuffle required) n s) as (o & s' & E).
  - intros s1 k (Hp & Hho & Hin & Hk). destruct (choose_round_ends s1 Hp) as (o & s2 & E & Hp2 & Hh2 & Ho).
    exists o, s2. split; [done|]. intros ->. destruct Ho as [Ht Ho]. specialize (Ho h deadline).
    rewrite Hho in Ho. specialize (Ho Hin Hr). destruct k as [|k].
    { change (inject_Z (Z.of_nat 0)) with 0%Q in Hk. lra. }
    exists k. split; [lia|]. split_and!; [done | by rewrite Hh2 | done|].
    rewrite Nat2Z.inj_succ in Hk. unfold Z.succ in Hk. rewrite inject_Z_plus in Hk. change (inject_Z 1) with 1%Q in Hk. lra.
  - done.
  - exists o, s'. split; [done|]. destruct Hs as (Hp & Hho & _).
    refine (co_loop_inv (fun s => P (p_w s) /\ p_hosts s ≡ₚ hosts)
      (fun o s => P (p_w s) /\ match o with Ok g => g ∈ hosts | Raise e => stats_raise hosts e end)
      _ _ _ _ _ _ (conj Hp Hho) E).
    intros s1 o1 s2 [Hp1 Hh1] E1. destruct (choose_round_ends s1 Hp1) as (o2 & s3 & E2 & Hp2 & Hh2 & Ho).
    rewrite E1 in E2. injection E2 as <- <-. destruct o1 as [[g|]|e].
    + by rewrite <- Hh1.
    + by rewrite Hh2.
    + split; [done|]. destruct Ho as (g & w & w' & ? & ?). exists g, w, w'. by rewrite <- Hh1.
Qed.
End Liveness.

(** C11: waiting for a host ends once there is room: when one of the hosts reports enough memory and a low load from some
    time on, at most [n] half minutes away, [get_vms] ends within [n + 1] rounds, whatever the other hosts report and
    however the hosts are shuffled; its outcome is that of [host.get_vms] of one of the hosts, or the exception of a host
    that could not be asked. *)
Theorem provider_waits_for_room {W Hh V} `{Hosts W Hh V} (P : W -> Prop) `{!HostsOk W Hh V P} config shuffle vm_confs
    required limit host deadline n (s : pst W Hh) :
  (forall k l, shuffle k l ≡ₚ l) -> memory_required config vm_confs = Ok required -> maxla config = Ok limit ->
  P (p_w s) -> host ∈ p_hosts s -> roomy P required limit host deadline ->
  (deadline <= time_at s + 30 * inject_Z (Z.of_nat n))%Q ->
  exists o s', get_vms config shuffle (S n) vm_confs s = Some (o, s') /\ P (p_w s') /\
    ((exists g w, g ∈ p_hosts s /\ host_get_vms g vm_confs w = Some (o, p_w s')) \/
     (exists e, o = Raise e /\ stats_raise (p_hosts s) e)).
Proof.
  intros Hsh Hreq Hlim Hp Hin Hroom Hd. unfold get_vms. rewrite co_bind_eq. unfold co_lift at 1. rewrite Hreq, co_bind_eq.
  cbn [co_get]. rewrite co_bind_eq. set (pause := (p_last s + 5 - w_now (p_w s))%Q).
  assert (exists s1, (if negb (Qle_bool pause 1) then p_sleep pause else mret tt) s = Some (Ok tt, s1) /\
    P (p_w s1) /\ p_hosts s1 = p_hosts s /\ (time_at s <= time_at s1)%Q) as (s1 & E1 & Hp1 & Hh1 & Ht1).
  { destruct (Qle_bool pause 1) eqn:Eq; cbn [negb]; [exists s; split_and!; try done; apply Qle_refl|].
    assert (0 <= pause)%Q as Hpos.
    { apply Qlt_le_weak, (Qlt_trans _ 1); [done|]. apply Qnot_le_lt. by rewrite <- Qle_bool_iff, Eq. }
    eexists. split; [reflexivity|]. cbn [p_w p_hosts]. split_and!; [by apply sleep_ok | done|].
    pose proof (sleep_now (P := P) pause (p_w s)) as Hn. unfold time_at. cbn. lra. }
  unfold co_get. rewrite E1, co_bind_eq.
  destruct (choose_ends P config shuffle Hsh required limit Hlim (p_hosts s) host deadline s1 n Hroom)
    as (o & s2 & -> & Hp2 & Ho).
  { split_and!; [done | by rewrite Hh1 | done | lra]. }
  destruct o as [g|e]; [|do 2 eexists; split_and!; [done | done | right; eauto]].
  rewrite co_bind_eq. cbn [co_modify]. unfold p_lift. cbn [p_w].
  destruct (get_vms_end (P := P) g vm_confs (p_w s2) Hp2) as (o & w & Hg & Hw). rewrite Hg.
  do 2 eexists. split_and!; [reflexivity | done | left; eauto].
Qed.

(** Two hosts, overloaded for two minutes; the state is the clock. *)
Definition busy_stats (h : nat) : co Q (Q * Z) := fun w => Some (Ok ((if Qle_bool 120 w then 1 # 2 else 9)%Q, 9000%Z), w).
Definition busy_hosts : Hosts Q nat nat := {|
  host_stats := busy_stats;
  host_get_vms h _ := mret [h];
  w_now w := w;
  w_sleep q w := (w + q)%Q |}.

Lemma busy_ok : HostsOk Q nat nat (H := busy_hosts) (fun w => (0 <= w)%Q).
Proof.
  constructor; cbn.
  - intros h w Hw. by do 2 eexists.
  - intros h w r w' [= <- <-]. apply Qle_refl.
  - intros h l w Hw. by do 2 eexists.
  - intros q w. apply Qle_refl.
  - intros q w ? ?. lra.
Qed.

Lemma provider_waits_for_room_witness :
  get_vms (H := busy_hosts) provider_conf_ex (fun _ l => reverse l) 1 [PDict [("name", PStr "a")]] (PSt 0%Q [0; 1] 0%Q 0) = None /\
  exists o s', get_vms (H := busy_hosts) provider_conf_ex (fun _ l => reverse l) 5 [PDict [("name", PStr "a")]]
    (PSt 0%Q [0; 1] 0%Q 0) = Some (o, s').
Proof.
  split; [by vm_compute|].
  destruct (@provider_waits_for_room Q nat nat busy_hosts (fun w => (0 <= w)%Q) busy_ok provider_conf_ex (fun _ l => reverse l)
    [PDict [("name", PStr "a")]] 5120%Q 4%Q 0 120%Q 4 (PSt 0%Q [0; 1] 0%Q 0)) as (o & s' & E & _).
  - intros _ l. apply reverse_Permutation.
  - by vm_compute.
  - by vm_compute.
  - done.
  - left.
  - intros w Hw Ht. cbn. unfold busy_stats. do 3 eexists. split; [reflexivity|].
    cbn in Ht. apply Qle_bool_iff in Ht. rewrite Ht. by vm_compute.
  - by vm_compute.
  - exists o, s'. exact E.
Defined.
