(* ===== verification/Runner.v ===== *)
(** * [rallyci/runners/ssh.py]: the ssh runner

    The runner boots the VMs of a job, runs their scripts one after another, and at the end copies files and gives the
    VMs back.  What it uses of the provider and of the VMs is the class [Vms]; the state of the machines is [W]. *)

From Stdlib Require Import QArith.
From S2P Require Import Prelude Coro PyStr PyVal Utils Job.
Open Scope nat_scope.

Class Vms (W V : Type) := {
  prov_get_vms : list pyval -> co W (list V);         (* Provider.get_vms *)
  vm_run_script : V -> pyval -> pydict -> co W unit;  (* VM.run_script(script, cb=..., env=...) *)
  vm_scp : V -> string -> string -> co W unit;        (* get_ssh, then scp_get(src, dst) *)
  vm_destroy : V -> co W unit;                        (* VM.destroy *)
  vm_scp_list : V -> res (list pyval) }.              (* for ... in local_cfg.get("scp", []) *)

Section Runner.
Context {W V : Type} `{Vms W V}.
(** The root's configuration, the outcome of the handlers that [Job.set_status] calls, and [root.providers[...]]. *)
Context (data : pydict) (notify : string -> res unit) (find_provider : pyval -> res unit).

(** The runner: its VMs, the statuses announced, the VMs given to [destroy], whether the log file is open, and whether
    [self.prov] has been set. *)
Record rst := RSt { r_w : W; r_vms : list V; r_announced : list string; r_destroyed : list V; r_logfile : bool; r_prov : bool }.

Definition r_lift {A} (m : co W A) : co rst A := fun s =>
  match m (r_w s) with
  | Some (r, w) => Some (r, RSt w (r_vms s) (r_announced s) (r_destroyed s) (r_logfile s) (r_prov s))
  | None => None
  end.

(** [self.log_path], and the path of the console log. *)
Definition runner_log_path (cfg : pyval) (job_log_path : string) : res string :=
  logs ← (x ← getitem cfg "logs"; as_str x);
  Ok (path_join logs job_log_path).

Definition announce (status : string) : co rst unit :=
  _ ← co_modify (fun s => RSt (r_w s) (r_vms s) (r_announced s ++ [status]) (r_destroyed s) (r_logfile s) (r_prov s));
  co_lift (notify status).

(** [self.job.root.config.data["script"][script]] *)
Definition find_script (script : pyval) : res (string * pyval) :=
  scripts ← dgetitem data "script";
  n ← as_str script;
  s ← getitem scripts n;
  Ok (n, s).

(** One script on one VM: [Some 1] when the runner returns. *)
Definition run_one (env : pydict) (v : V) (script : pyval) : co rst (option pyval) :=
  s ← co_lift (find_script script);
  _ ← announce s.1;
  co_catch (_ ← r_lift (vm_run_script v s.2 env); mret None)
    (fun e => match e with SSHError => Some (mret (Some (PInt 1))) | _ => None end).

Fixpoint run_scripts (env : pydict) (v : V) (scripts : list pyval) : co rst (option pyval) :=
  match scripts with
  | [] => mret None
  | x :: scripts =>
      r ← run_one env v x;
      match r with Some a => mret (Some a) | None => run_scripts env v scripts end
  end.

Fixpoint run_vms (env : pydict) (l : list (V * pyval)) : co rst (option pyval) :=
  match l with
  | [] => mret None
  | (v, scripts) :: l =>
      names ← co_lift (iter scripts);
      r ← run_scripts env v names;
      match r with Some a => mret (Some a) | None => run_vms env l end
  end.

(** [run()]: 1 when a script failed, [None] otherwise. *)
Definition run (cfg local_cfg : pyval) (env : pydict) : co rst pyval :=
  _ ← co_lift (p ← getitem cfg "provider"; find_provider p);
  _ ← co_modify (fun s => RSt (r_w s) (r_vms s) (r_announced s) (r_destroyed s) (r_logfile s) true);
  confs ← co_lift (x ← getitem local_cfg "vms"; iter x);
  scripts ← co_lift (res_map (fun c => get c "scripts" (PList [])) confs);
  vms ← r_lift (prov_get_vms confs);
  _ ← co_modify (fun s => RSt (r_w s) vms (r_announced s) (r_destroyed s) (r_logfile s) (r_prov s));
  r ← run_vms env (zip vms scripts);
  mret (default PNone r).

(** [Provider.cleanup(vms)] *)
Definition provider_cleanup (vms : list V) : co rst unit :=
  co_iter (fun v =>
    _ ← co_modify (fun s => RSt (r_w s) (r_vms s) (r_announced s) (r_destroyed s ++ [v]) (r_logfile s) (r_prov s));
    r_lift (vm_destroy v)) vms.

(** [src, dst = x] *)
Definition scp_pair (x : pyval) : res (string * string) :=
  l ← iter x;
  match l with
  | [a; b] => src ← as_str a; dst ← as_str b; Ok (src, dst)
  | _ => Raise ValueError
  end.

(** The files of every VM, to the directory of the logs. *)
Definition copy_files (log_path : string) (vms : list V) : co rst unit :=
  co_iter (fun v =>
    files ← co_lift (vm_scp_list v);
    co_iter (fun x => sd ← co_lift (scp_pair x); r_lift (vm_scp v sd.1 (path_join log_path sd.2))) files) vms.

Definition close_log (s : rst) : rst := RSt (r_w s) (r_vms s) (r_announced s) (r_destroyed s) false (r_prov s).

(** [cleanup()]; there is no [self.prov] when [run] was not called or found no provider. *)
Definition cleanup (log_path : string) : co rst unit :=
  _ ← co_modify close_log;
  s ← co_get;
  _ ← copy_files log_path (r_vms s);
  if r_prov s then provider_cleanup (r_vms s) else co_raise AttributeError.

(** ** Properties *)

(** The scripts of the job in the order they are to run. *)
Definition script_names (l : list pyval) : list string := omap (fun x => match x with PStr n => Some n | _ => None end) l.

Lemma r_lift_frame {A} (m : co W A) s o s' : r_lift m s = Some (o, s') ->
  r_announced s' = r_announced s /\ r_vms s' = r_vms s /\ r_destroyed s' = r_destroyed s.
Proof. unfold r_lift. destruct (m (r_w s)) as [[r w]|]; [|done]. by intros [= <- <-]. Qed.

(** How one script ends: announced first, then run; the runner returns 1 on [SSHError] and goes on only after a success. *)
Lemma run_one_spec env v x s o s' : run_one env v x s = Some (Ok o, s') ->
  exists n sc, x = PStr n /\ find_script x = Ok (n, sc) /\ r_announced s' = r_announced s ++ [n] /\
    (o = None /\ vm_run_script v sc env (r_w s) = Some (Ok tt, r_w s') \/
     o = Some (PInt 1) /\ vm_run_script v sc env (r_w s) = Some (Raise SSHError, r_w s')).
Proof.
  unfold run_one. rewrite co_bind_Ok. intros ([n sc] & s1 & Hf & Hr). unfold co_lift in Hf. injection Hf as Hf <-.
  assert (x = PStr n) as ->.
  { unfold find_script in Hf. apply res_bind_Ok in Hf as (ss & _ & Hf). apply res_bind_Ok in Hf as (n' & Hn & Hf).
    apply res_bind_Ok in Hf as (? & _ & [= -> _]). destruct x; try done. by injection Hn as ->. }
  rewrite co_bind_Ok in Hr. destruct Hr as (? & s2 & Ha & Hr). unfold announce in Ha. rewrite co_bind_Ok in Ha.
  destruct Ha as (? & s3 & [= <- <-] & Ha). unfold co_lift in Ha. injection Ha as _ <-.
  exists n, sc. split; [done|]. split; [done|]. unfold co_catch in Hr. rewrite co_bind_eq in Hr. cbn [snd] in Hr.
  destruct (r_lift (vm_run_script v sc env) _) as [[[[]|e] s4]|] eqn:El; [| |done]; pose proof El as (Hann & _ & _)%r_lift_frame;
    unfold r_lift in El; cbn [r_w] in El; destruct (vm_run_script v sc env (r_w s)) as [[r w]|] eqn:Er; [|done| |done].
  - injection El as -> <-. injection Hr as <- <-. split; [done|]. by left.
  - injection El as -> <-. destruct e; try done. injection Hr as <- <-. split; [done|]. by right.
Qed.

(** Scripts run one after the other, each with success, from one state of the machines to another. *)
Fixpoint all_ran (env : pydict) (p : list (V * string)) (w w' : W) : Prop :=
  match p with
  | [] => w' = w
  | (v, n) :: p => exists sc w1, find_script (PStr n) = Ok (n, sc) /\ vm_run_script v sc env w = Some (Ok tt, w1) /\ all_ran env p w1 w'
  end.

Lemma all_ran_app env p q w w1 w2 : all_ran env p w w1 -> all_ran env q w1 w2 -> all_ran env (p ++ q) w w2.
Proof.
  revert w. induction p as [|[v n] p IH]; intros w; [by intros ->|]. intros (sc & w3 & ? & ? & ?) ?. exists sc, w3. auto.
Qed.

(** What a part of [run] has done of its scripts: all of them, or those before the first that failed, and that one. *)
Definition did (env : pydict) (p : list (V * string)) (s : rst) (o : option pyval) (s' : rst) : Prop :=
  o = None /\ all_ran env p (r_w s) (r_w s') /\ r_announced s' = r_announced s ++ p.*2 \/
  o = Some (PInt 1) /\ exists before v n after sc w, p = before ++ (v, n) :: after /\ all_ran env before (r_w s) w /\
    find_script (PStr n) = Ok (n, sc) /\ vm_run_script v sc env w = Some (Raise SSHError, r_w s') /\
    r_announced s' = r_announced s ++ before.*2 ++ [n].

Lemma did_app env p q s s1 o s2 : did env p s None s1 -> did env q s1 o s2 -> did env (p ++ q) s o s2.
Proof.
  intros [(_ & Hp & Ha)|[? _]] Hq; [|done]. destruct Hq as [(-> & Hq & Ha')|(-> & b & v & n & a & sc & w & -> & Hb & Hf & Hv & Ha')].
  - left. split; [done|]. split; [by eapply all_ran_app|]. by rewrite Ha', Ha, fmap_app, app_assoc.
  - right. split; [done|]. exists (p ++ b), v, n, a, sc, w. split; [by rewrite app_assoc|]. split; [by eapply all_ran_app|].
    do 2 (split; [done|]). by rewrite Ha', Ha, fmap_app, !app_assoc.
Qed.

Lemma did_stop env p q s v s' : did env p s (Some v) s' -> did env (p ++ q) s (Some v) s'.
Proof.
  intros [[? _]|([= ->] & b & u & n & a & sc & w & -> & H')]; [done|]. right. split; [done|]. exists b, u, n, (a ++ q), sc, w.
  split; [by rewrite <- app_assoc | done].
Qed.

Lemma run_scripts_spec env v scripts : forall s o s', run_scripts env v scripts s = Some (Ok o, s') ->
  did env (pair v <$> script_names scripts) s o s'.
Proof.
  induction scripts as [|x scripts IH]; intros s o s'; cbn [run_scripts].
  - intros [= <- <-]. left. by rewrite app_nil_r.
  - rewrite co_bind_Ok. intros (r & s1 & Hr & Hk). apply run_one_spec in Hr as (n & sc & -> & Hf & Ha & Ho).
    change (pair v <$> script_names (PStr n :: scripts)) with ([(v, n)] ++ (pair v <$> script_names scripts)).
    assert (did env [(v, n)] s r s1) as Hd.
    { destruct Ho as [[-> Hv]|[-> Hv]]; [left | right]; (split; [done|]).
      - split; [by exists sc, (r_w s1) | done].
      - by exists [], v, n, [], sc, (r_w s). }
    destruct r as [a|]; [injection Hk as <- <-; by apply did_stop | eapply did_app; [done | by apply IH]].
Qed.

(** The scripts of all the VMs, VM after VM. *)
Definition plan (l : list (V * pyval)) : list (V * string) :=
  flat_map (fun vs => match iter vs.2 with Ok names => pair vs.1 <$> script_names names | Raise _ => [] end) l.

Lemma run_vms_spec env l : forall s o s', run_vms env l s = Some (Ok o, s') -> did env (plan l) s o s'.
Proof.
  induction l as [|[v scripts] l IH]; intros s o s'; cbn [run_vms].
  - intros [= <- <-]. left. by rewrite app_nil_r.
  - rewrite co_bind_Ok. intros (names & s1 & Hn & Hk). unfold co_lift in Hn. injection Hn as Hn <-.
    rewrite co_bind_Ok in Hk. destruct Hk as (r & s2 & Hr%run_scripts_spec & Hk). unfold plan. cbn [flat_map snd fst]. rewrite Hn.
    fold (plan l). destruct r as [a|]; [injection Hk as <- <-; by apply did_stop | eapply did_app; [done | by apply IH]].
Qed.

(** Running scripts does not change which VMs the runner has. *)
Lemma run_vms_vms env l : within (fun s s' : rst => r_vms s' = r_vms s) (run_vms env l).
Proof.
  assert (Transitive (fun s s' : rst => r_vms s' = r_vms s)) by (intros ? ? ?; congruence).
  assert (Reflexive (fun s s' : rst => r_vms s' = r_vms s)) by done.
  assert (forall v x, within (fun s s' : rst => r_vms s' = r_vms s) (run_one env v x)) as Hone.
  { intros v x. apply within_bind; [done | by apply within_lift|]. intros sc. apply within_bind; [done| |].
    - apply within_bind; [done | by apply within_modify|]. intros _. by apply within_lift.
    - intros _. apply within_catch; [done| |].
      + apply within_bind; [done| |intros; by apply within_ret]. intros s o s' Hs. by apply r_lift_frame in Hs as (_ & ? & _).
      + intros e k. destruct e; try done. intros [= <-]. by apply within_ret. }
  assert (forall v l, within (fun s s' : rst => r_vms s' = r_vms s) (run_scripts env v l)) as Hl.
  { intros v. induction l0 as [|x l0 IH]; cbn [run_scripts]; [by apply within_ret|].
    apply within_bind; [done | apply Hone|]. intros [a|]; [by apply within_ret | done]. }
  induction l as [|[v scripts] l IH]; cbn [run_vms]; [by apply within_ret|]. apply within_bind; [done | by apply within_lift|].
  intros names. apply within_bind; [done | apply Hl|]. intros [a|]; [by apply within_ret | done].
Qed.

Lemma copy_files_frame log_path l s o s' : copy_files log_path l s = Some (o, s') -> r_destroyed s' = r_destroyed s.
Proof.
  set (R := fun s s' : rst => r_destroyed s' = r_destroyed s).
  assert (Transitive R) by (intros ? ? ? ? ?; unfold R in *; congruence). assert (Reflexive R) by done.
  revert s o s'. change (within R (copy_files log_path l)).
  apply within_iter; [done | done|]. intros v. apply within_bind; [done | by apply within_lift|]. intros files.
  apply within_iter; [done | done|]. intros x. apply within_bind; [done | by apply within_lift|].
  intros sd s o s' Hs. by apply r_lift_frame in Hs as (_ & _ & ?).
Qed.

Lemma provider_cleanup_spec vms : forall s o s', provider_cleanup vms s = Some (o, s') ->
  exists gone, gone `prefix_of` vms /\ r_destroyed s' = r_destroyed s ++ gone /\ (o = Ok tt -> gone = vms).
Proof.
  unfold provider_cleanup. induction vms as [|v vms IH]; intros s o s'; cbn [co_iter].
  - intros [= <- <-]. exists []. by rewrite app_nil_r.
  - rewrite co_bind_eq, co_bind_eq. cbn [co_modify].
    destruct (r_lift (vm_destroy v) _) as [[[[]|e] s1]|] eqn:Hv; [| |done]; apply r_lift_frame in Hv as (_ & _ & Hv); cbn in Hv.
    + intros (gone & Hp & Hd & Ho)%IH. exists (v :: gone). split; [by apply prefix_cons|].
      split; [by rewrite Hd, Hv, <- app_assoc | by intros ->%Ho].
    + intros [= <- <-]. exists [v]. split; [apply prefix_cons, prefix_nil|]. by split.
Qed.
End Runner.
Arguments rst : clear implicits.

(** C23: the ssh runner's result, when [run] returns: the provider was asked for the VMs; from the state it left, the
    scripts run in order, VM after VM, each announced as the job's status and then run on its VM with the job's
    environment.  If all succeed [run] returns [None] and the job ends in SUCCESS; it returns 1, and the job ends in
    FAILURE, if one of them raises [SSHError]: that is the last one announced, those before it succeeded, and nothing is
    run after it. *)
Theorem ssh_runner_result {W V} `{Vms W V} data notify find_provider cfg local_cfg env (s : rst W V) r s' :
  run data notify find_provider cfg local_cfg env s = Some (Ok r, s') ->
  exists confs scripts w0, (x ← getitem local_cfg "vms"; iter x) = Ok confs /\
    res_map (fun c => get c "scripts" (PList [])) confs = Ok scripts /\
    prov_get_vms confs (r_w s) = Some (Ok (r_vms s'), w0) /\
    (r = PNone /\ final_status (Ok r) = "SUCCESS" /\
       all_ran data env (plan (zip (r_vms s') scripts)) w0 (r_w s') /\
       r_announced s' = r_announced s ++ (plan (zip (r_vms s') scripts)).*2 \/
     r = PInt 1 /\ final_status (Ok r) = "FAILURE" /\
       exists before v n after sc w, plan (zip (r_vms s') scripts) = before ++ (v, n) :: after /\
         all_ran data env before w0 w /\ find_script data (PStr n) = Ok (n, sc) /\
         vm_run_script v sc env w = Some (Raise SSHError, r_w s') /\
         r_announced s' = r_announced s ++ before.*2 ++ [n]).
Proof.
  unfold run. rewrite co_bind_Ok. intros (? & s1 & Hp & Hr). unfold co_lift in Hp. injection Hp as _ <-.
  rewrite co_bind_Ok in Hr. destruct Hr as (? & s2 & [= <- <-] & Hr).
  rewrite co_bind_Ok in Hr. destruct Hr as (confs & s3 & Hc & Hr). unfold co_lift in Hc. injection Hc as Hc <-.
  rewrite co_bind_Ok in Hr. destruct Hr as (scripts & s4 & Hs & Hr). unfold co_lift in Hs. injection Hs as Hs <-.
  rewrite co_bind_Ok in Hr. destruct Hr as (vms & s5 & Hv & Hr). unfold r_lift in Hv. cbn [r_w] in Hv.
  destruct (prov_get_vms confs (r_w s)) as [[ov w0]|] eqn:Eg; [|done]. injection Hv as -> <-.
  rewrite co_bind_Ok in Hr. destruct Hr as (? & s6 & [= <- <-] & Hr). rewrite co_bind_Ok in Hr.
  destruct Hr as (o & s7 & Hr & [= <- <-]). exists confs, scripts, w0.
  assert (r_vms s7 = vms) as Hvms.
  { assert (within (fun s s' : rst W V => r_vms s' = r_vms s) (run_vms data notify env (zip vms scripts))) as Hw; [|by apply Hw in Hr].
    apply run_vms_vms. }
  rewrite Hvms. do 3 (split; [done|]).
  apply run_vms_spec in Hr as [(-> & Hd & Ha)|(-> & Hd)]; [left | right]; by split_and!.
Qed.

(** Two VMs, 0 with the scripts [s0] and [s1], 1 with [s2]; [s1] fails. *)
#[export] Instance vms_sim : Vms (list string) nat := {
  prov_get_vms confs := mret (seq 0 (length confs));
  vm_run_script v sc _ :=
    n ← co_lift (as_str sc);
    _ ← co_modify (fun w => w ++ [n]);
    if str_eqb n "one" then co_raise SSHError else mret tt;
  vm_scp v src dst := if str_eqb src "/none" then co_raise (ExceptionMsg "no ip") else mret tt;
  vm_destroy v := mret tt;
  vm_scp_list v := Ok (if decide (v = 1) then [PList [PStr "/none"; PStr "d"]] else []) }.
Definition scripts_ex : pydict := [("script", PDict [("s0", PStr "zero"); ("s1", PStr "one"); ("s2", PStr "two")])].
Definition local_ex : pyval :=
  PDict [("vms", PList [PDict [("scripts", PList [PStr "s0"; PStr "s1"])]; PDict [("scripts", PList [PStr "s2"])]])].
Definition runner_cfg_ex : pyval := PDict [("provider", PStr "virsh")].
Definition runner_start : rst (list string) nat := RSt [] [] ["queued"] [] true false.

Lemma ssh_runner_result_witness :
  run scripts_ex (fun _ => Ok tt) (fun _ => Ok tt) runner_cfg_ex local_ex [] runner_start =
    Some (Ok (PInt 1), RSt ["zero"; "one"] [0; 1] ["queued"; "s0"; "s1"] [] true true) /\
  exists before n, ["queued"; "s0"; "s1"] = ["queued"] ++ before ++ [n] /\ n = "s1".
Proof.
  assert (run scripts_ex (fun _ => Ok tt) (fun _ => Ok tt) runner_cfg_ex local_ex [] runner_start =
    Some (Ok (PInt 1), RSt ["zero"; "one"] [0; 1] ["queued"; "s0"; "s1"] [] true true)) as Hr by (vm_compute; reflexivity).
  split; [exact Hr|].
  destruct (ssh_runner_result _ _ _ _ _ _ _ _ _ Hr) as (confs & scripts & w0 & _ & _ & _ & [(? & _)|(_ & _ & Hd)]); [discriminate|].
  destruct Hd as (before & v & n & after & sc & w & _ & _ & _ & _ & Ha). exists (before.*2), n. split; [exact Ha|].
  apply (f_equal last) in Ha. cbn [r_announced runner_start] in Ha. rewrite app_assoc, last_snoc in Ha. by injection Ha.
Defined.

(** C37: the runner's [cleanup] gives the VMs of the job to [destroy] in order, each once; when it ends well, all of them.
    But an exception while a file of any VM is copied ends it before the provider is called, and then no VM is
    destroyed. *)
Theorem runner_cleanup_vms {W V} `{Vms W V} log_path (s : rst W V) o s' : cleanup log_path s = Some (o, s') ->
  exists gone, gone `prefix_of` r_vms s /\ r_destroyed s' = r_destroyed s ++ gone /\ (o = Ok tt -> gone = r_vms s) /\
    (forall e s1, copy_files log_path (r_vms s) (close_log s) = Some (Raise e, s1) -> o = Raise e /\ gone = []).
Proof.
  unfold cleanup. rewrite co_bind_eq. cbn [co_modify]. rewrite co_bind_eq. cbn [co_get]. rewrite co_bind_eq.
  change (r_vms (close_log s)) with (r_vms s).
  destruct (copy_files log_path (r_vms s) (close_log s)) as [[[[]|e] s1]|] eqn:Hc; [| |done];
    apply copy_files_frame in Hc as Hf; cbn in Hf.
  - change (r_prov (close_log s)) with (r_prov s). destruct (r_prov s).
    + intros (gone & Hp & Hd & Ho)%provider_cleanup_spec. exists gone. rewrite Hd, Hf. by split_and!.
    + intros [= <- <-]. exists []. split; [apply prefix_nil|]. by rewrite app_nil_r.
  - intros [= <- <-]. exists []. split; [apply prefix_nil|]. rewrite app_nil_r. split_and!; [done | done|].
    by intros e' s' [= <- <-].
Qed.

Lemma runner_cleanup_vms_witness : exists s',
  cleanup "/log" (RSt [] [0; 1] [] [] true true : rst (list string) nat) = Some (Raise (ExceptionMsg "no ip"), s') /\ r_destroyed s' = [].
Proof.
  eexists. split; [vm_compute; reflexivity|].
  destruct (runner_cleanup_vms "/log" (RSt [] [0; 1] [] [] true true : rst (list string) nat) (Raise (ExceptionMsg "no ip"))
    (RSt [] [0; 1] [] [] false true)) as (gone & _ & Hd & _ & Hc); [by vm_compute|].
  destruct (Hc (ExceptionMsg "no ip") (RSt [] [0; 1] [] [] false true)) as [_ ->]; [by vm_compute|]. exact Hd.
Defined.
