(* ===== verification/VirshSite.v ===== *)
(** * The provider with its hosts: the components put together

    The ssh runner uses VMs, the provider hosts, the hosts their storage, all of them ssh clients on one world.  Here the
    interfaces [Vms] and [Hosts] that the runner and the provider are written against are instantiated with the hosts and
    VMs of [VirshHost.v] and [VirshVM.v], and the termination of a whole job follows from that of its parts. *)

From Stdlib Require Import QArith Lqa.
From S2P Require Import Prelude Coro PyStr PyVal PyRe Utils AsyncSSH VirshStorage VirshVM VirshHost VirshBuild VirshProvider Runner.
Open Scope nat_scope.

(** ** The storage of a host *)

(** [BACKENDS] *)
Inductive backend := BZfs (b : ZFS) | BBtrfs (b : BTRFS).

(** A required keyword argument of a constructor called with [**conf]. *)
Definition kwarg (d : pydict) (k : string) : res string :=
  match dict_get d k with Some v => as_str v | None => Raise TypeError end.

(** [BACKENDS[storage_cf["backend"]](self.ssh, **storage_cf)] *)
Definition new_backend (config : pydict) : res backend :=
  cf ← dgetitem config "storage";
  name ← getitem cf "backend";
  d ← as_dict cf;
  match name with
  | PStr "btrfs" => path ← kwarg d "path"; Ok (BBtrfs (MkBTRFS path))
  | PStr "zfs" => path ← kwarg d "path"; dataset ← kwarg d "dataset"; Ok (BZfs (MkZFS path dataset))
  | PList _ | PDict _ => Raise TypeError
  | _ => Raise KeyError
  end.

Section Backend.
Context {E : Type} `{World E} (hclient : client).

#[export] Instance backend_storage : Storage (E := E) backend := {
  st_create b := match b with BZfs z => zfs_create hclient z | BBtrfs b => btrfs_create hclient b end;
  st_list_files b := match b with BZfs z => zfs_list_files hclient z | BBtrfs b => btrfs_list_files hclient b end;
  st_clone b := match b with BZfs z => zfs_clone hclient z | BBtrfs b => btrfs_clone hclient b end;
  st_exist b := match b with BZfs z => zfs_exist hclient z | BBtrfs b => btrfs_exist hclient b end;
  st_snapshot b := match b with BZfs z => fun n => zfs_snapshot hclient z n "1" | BBtrfs b => btrfs_snapshot b end;
  st_destroy b := match b with BZfs z => zfs_destroy hclient z | BBtrfs b => btrfs_destroy hclient b end;
  st_download b := match b with BZfs z => zfs_download hclient z | BBtrfs b => btrfs_download hclient b end }.
End Backend.

#[export] Instance backend_storage_ok {E} `{WorldOk E} hclient :
  StorageOk (E := E) backend (Storage0 := backend_storage hclient).
Proof.
  pose proof (zfs_storage_ok (E := E) hclient) as [Z1 Z2 Z3 Z4 Z5 Z6 Z7].
  pose proof (btrfs_storage_ok (E := E) hclient) as [B1 B2 B3 B4 B5 B6 B7].
  constructor; intros [z|b];
    [exact (Z1 z) | exact (B1 b) | exact (Z2 z) | exact (B2 b) | exact (Z3 z) | exact (B3 b) | exact (Z4 z) | exact (B4 b)
    | exact (Z5 z) | exact (B5 b) | exact (Z6 z) | exact (B6 b) | exact (Z7 z) | exact (B7 b)].
Qed.

(** ** Several hosts on one world *)

(** The client and the storage of a host. *)
Record host_conf := HostConf { hc_client : client; hc_storage : backend }.

(** The world, the state of each host, and the addresses found so far ([vm.ip]), by host and VM. *)
Record site (E : Type) := Site { s_env : E; s_hosts : list (hst E); s_ips : gmap (nat * nat) string }.
Arguments Site {E}. Arguments s_env {E}. Arguments s_hosts {E}. Arguments s_ips {E}.

Definition at_env {E} (e : E) (s : hst E) : hst E :=
  HSt (SSt (ready (h_ssh s)) e) (h_log s) (h_draw s) (next_vm s) (br_vm s) (h_vms s) (h_locks s).

Section Site.
Context {E : Type} `{World E} (hosts : list host_conf) (vm_key : string).
Context (rnds : nat -> nat -> nat -> nat) (xml_bytes : xml -> string).
Context (config data : pydict).
(** [random.shuffle], and [str()] of the values other than strings, integers, booleans and [None]. *)
Context (shuffle : nat -> list nat -> list nat) (repr : pyval -> string).
(** The bounds on chains of parent images and on the rounds of the provider. *)
Context (fuel rounds : nat).

(** An operation of host [h]. *)
Definition on_host {A} (h : nat) (m : host_conf -> co (hst E) A) : co (site E) A := fun s =>
  match hosts !! h, s_hosts s !! h with
  | Some c, Some hs =>
      match m c (at_env (s_env s) hs) with
      | Some (r, hs') => Some (r, Site (env (h_ssh hs')) (<[h := hs']> (s_hosts s)) (s_ips s))
      | None => None
      end
  | _, _ => Some (Raise IndexError, s)
  end.

#[export] Instance site_hosts : Hosts (site E) nat (nat * vm) := {
  host_stats h := on_host h (fun c => update_stats (hc_client c));
  host_get_vms h confs :=
    vms ← on_host h (fun c => VirshHost.get_vms (Storage0 := backend_storage (hc_client c)) (hc_client c) vm_key (rnds h)
                                xml_bytes (hc_storage c) config data fuel confs);
    mret (pair h <$> vms);
  w_now s := now (s_env s);
  w_sleep q s := Site (sleep q (s_env s)) (s_hosts s) (s_ips s) }.

(** [get_ip()] of a VM object: the address is kept. *)
Definition find_ip (v : nat * vm) : co (site E) vm :=
  s ← co_get;
  let known := match s_ips s !! (v.1, vm_id v.2) with Some a => set_ip a v.2 | None => v.2 end in
  v' ← on_host v.1 (fun c => get_ip (hc_client c) 300 known);
  _ ← co_modify (fun s => Site (s_env s) (s_hosts s)
        match ip v' with Some a => <[(v.1, vm_id v.2) := a]> (s_ips s) | None => s_ips s end);
  mret v'.

(** ["%s" % v] *)
Definition py_str (v : pyval) : string :=
  match v with
  | PStr s => s
  | PInt n => str_of_Z n
  | PBool b => if b then "True" else "False"
  | PNone => "None"
  | _ => repr v
  end.

(** [vm.run_script(script, env=env)]: the address is found first and kept whatever the script does. *)
Definition site_run_script (v : nat * vm) (script : pyval) (envv : pydict) : co (site E) unit :=
  v' ← find_ip v;
  _ ← on_host v.1 (fun c => run_script (hc_client c) vm_key script ((fun kv => (kv.1, py_str kv.2)) <$> envv) cb_log v');
  mret tt.

(** [scp_get] of a client of its own. *)
Definition client_scp (c : client) (src dst : string) : co (hst E) pyval := fun s =>
  match scp_get c src dst (SSt false (env (h_ssh s))) with
  | Some (r, s') => Some (r, at_env (env s') s)
  | None => None
  end.

(** [ssh = yield from vm.get_ssh(); yield from ssh.scp_get(src, dst)] *)
Definition site_scp (v : nat * vm) (src dst : string) : co (site E) unit :=
  v' ← find_ip v;
  _ ← on_host v.1 (fun _ => client_scp (vm_ssh vm_key v' "root") src dst);
  mret tt.

#[export] Instance site_vms : Vms (pst (site E) nat) (nat * vm) := {
  prov_get_vms confs := VirshProvider.get_vms config shuffle rounds confs;
  vm_run_script v script envv := p_lift (site_run_script v script envv);
  vm_scp v src dst := p_lift (site_scp v src dst);
  vm_destroy v := p_lift (on_host v.1 (fun c =>
    destroy (Storage0 := backend_storage (hc_client c)) (hc_client c) (hc_storage c) true v.2));
  vm_scp_list v := (x ← get (vm_local v.2) "scp" (PList []); iter x) }.
End Site.

(** ** Every operation ends *)

(** Time runs from 1970 on and nobody holds an image lock. *)
Definition host_ok {E} `{World E} (s : hst E) : Prop := htime s /\ h_locks s = [].
Definition site_ok {E} `{World E} (hosts : list host_conf) (s : site E) : Prop :=
  (0 <= now (s_env s))%Q /\ Forall (fun hs => h_locks hs = []) (s_hosts s) /\ length (s_hosts s) = length hosts.

Lemma good_ends {E} `{World E} {A} (m : co (hst E) A) : good m -> ends host_ok m.
Proof.
  intros Hm s [Ht Hl]. destruct (Hm s Ht) as (o & s' & E1 & Hf). exists o, s'. split; [done|].
  split; [by eapply lframe_htime | by rewrite (lf_locks _ _ Hf)].
Qed.

Lemma on_host_ends {E} `{World E} hosts {A} h (m : host_conf -> co (hst E) A) :
  (forall c, ends host_ok (m c)) -> ends (site_ok hosts) (on_host hosts h m).
Proof.
  intros Hm s Hs. pose proof Hs as (Ht & Hl & Hn). unfold on_host. destruct (hosts !! h) as [c|]; [|eauto].
  destruct (s_hosts s !! h) as [hs|] eqn:Eh; [|eauto].
  destruct (Hm c (at_env (s_env s) hs)) as (o & hs' & -> & Ht' & Hl').
  { split; [done|]. cbn. by apply (Forall_lookup_1 _ _ _ _ Hl Eh). }
  do 2 eexists. split; [done|]. split; [done|]. cbn. rewrite length_insert. split; [by apply Forall_insert | done].
Qed.

Section HostEnds.
Context {E : Type} `{WorldOk E} (hclient : client) (vm_key : string).
Context (rnds : nat -> nat -> nat) (xml_bytes : xml -> string) (b : backend).
Context (config data : pydict) (fuel : nat) (rank : string -> nat).
Context (no_cycle : acyclic config rank) (enough : forall n, rank n < fuel).
#[local] Hint Extern 0 (Storage backend) => exact (backend_storage hclient) : typeclass_instances.

#[local] Hint Extern 1 (ends host_ok _) => apply good_ends : co.
#[local] Hint Resolve good_hrun good_hrun_output good_draw good_new_vm good_add_net good_boot : co.
#[local] Hint Extern 0 (ends host_ok (st_clone _ _ _)) => apply good_ends, good_clone : co.
#[local] Hint Extern 0 (ends host_ok (st_list_files _ _)) => apply good_ends, good_list_files : co.

Lemma build_image_ends name : ends host_ok (build_image (Storage0 := backend_storage hclient) hclient vm_key rnds xml_bytes b
  config data fuel name).
Proof.
  intros s [Ht Hl]. destruct (build_image_good hclient vm_key rnds xml_bytes b config data rank fuel no_cycle name s Ht)
    as (o & s' & E1 & Hf); [done | rewrite Hl; by intros n ?%not_elem_of_nil|].
  exists o, s'. split; [done|]. split; [by eapply lframe_htime | by rewrite (lf_locks _ _ Hf)].
Qed.

Lemma get_bridge_ends prefix : ends (S := hst E) host_ok (get_bridge hclient prefix).
Proof. unfold get_bridge. co_step. Qed.

Lemma get_vm_ends local_cfg conf : ends host_ok (get_vm hclient vm_key rnds xml_bytes b config data fuel local_cfg conf).
Proof. pose proof build_image_ends. unfold get_vm. co_step. Qed.

Lemma map_net_ends st net : ends (S := hst E) host_ok (map_net hclient st net).
Proof. pose proof get_bridge_ends. unfold map_net. destruct st as [[ifs br] net_conf]. co_step. Qed.

Lemma get_vms_ends confs : ends host_ok (VirshHost.get_vms hclient vm_key rnds xml_bytes b config data fuel confs).
Proof.
  pose proof get_vm_ends. pose proof map_net_ends. unfold VirshHost.get_vms, get_vms_step. co_step.
Qed.

Lemma update_stats_ends : ends host_ok (update_stats (E := E) hclient).
Proof. unfold update_stats. co_step. Qed.
End HostEnds.

(** ** The interfaces are implemented *)

Lemma lift_ends {S W A} (get : S -> W) (put : W -> S -> S) (P : W -> Prop) (m : co W A) :
  (forall w s, get (put w s) = w) -> ends P m ->
  ends (fun s => P (get s)) (fun s => match m (get s) with Some (r, w) => Some (r, put w s) | None => None end).
Proof.
  intros Hg Hm s Hs. destruct (Hm _ Hs) as (o & w & -> & Hw). do 2 eexists. split; [done|]. by rewrite Hg.
Qed.

Lemma p_lift_ends {W Hh A} (P : W -> Prop) (m : co W A) : ends P m -> ends (fun s : pst W Hh => P (p_w s)) (p_lift m).
Proof. by apply (lift_ends p_w (fun w s => PSt w (p_hosts s) (p_last s) (p_round s))). Qed.

Lemma r_lift_ends {W V A} (P : W -> Prop) (m : co W A) : ends P m -> ends (fun s : rst W V => P (r_w s)) (r_lift m).
Proof. by apply (lift_ends r_w (fun w s => RSt w (r_vms s) (r_announced s) (r_destroyed s) (r_logfile s) (r_prov s))). Qed.

Section SiteEnds.
Context {E : Type} `{WorldOk E} (hosts : list host_conf) (vm_key : string).
Context (rnds : nat -> nat -> nat -> nat) (xml_bytes : xml -> string) (config data : pydict).
Context (fuel : nat) (rank : string -> nat) (no_cycle : acyclic config rank) (enough : forall n, rank n < fuel).

(** The hosts keep what the provider relies on. *)
Lemma site_hosts_ok : HostsOk (site E) nat (nat * vm) (H := site_hosts hosts vm_key rnds xml_bytes config data fuel) (site_ok hosts).
Proof.
  constructor; cbn [host_stats host_get_vms w_now w_sleep site_hosts].
  - intros h. apply on_host_ends. intros c. apply update_stats_ends.
  - intros h s r s'. unfold on_host. destruct (hosts !! h) as [c|]; [|intros [= <- <-]; apply Qle_refl].
    destruct (s_hosts s !! h) as [hs|]; [|intros [= <- <-]; apply Qle_refl].
    destruct (update_stats _ _) as [[r' hs']|] eqn:Eu; [|done]. intros [= <- <-]. cbn [s_env].
    assert (within hframe (update_stats (E := E) (hc_client c))) as Hw
      by (apply pair_bind; [apply hrun_output_frame | intros; apply pair_lift]).
    apply Hw, hf_later in Eu. exact Eu.
  - intros h l. apply ends_bind; [|intros; apply ends_ret]. apply on_host_ends. intros c. by eapply get_vms_ends.
  - intros q s. apply sleep_sleeps.
  - intros q s Hq (Ht & Hl). split; [|done]. cbn. pose proof (sleep_sleeps q (s_env s)). lra.
Qed.

Lemma find_ip_ends v : ends (site_ok hosts) (find_ip (E := E) hosts v).
Proof.
  unfold find_ip. apply ends_bind; [apply ends_get|]. intros s. apply ends_bind.
  - apply on_host_ends. intros c. apply good_ends, good_get_ip.
  - intros v'. apply ends_bind; [|intros; apply ends_ret]. apply ends_modify. by intros s' [].
Qed.

Lemma site_run_script_ends repr v script envv : ends (site_ok hosts) (site_run_script (E := E) hosts vm_key repr v script envv).
Proof.
  unfold site_run_script. apply ends_bind; [apply find_ip_ends|]. intros v'. apply ends_bind; [|intros; apply ends_ret].
  apply on_host_ends. intros c. apply good_ends, good_run_script.
Qed.

Lemma good_client_scp c src dst : good (client_scp (E := E) c src dst).
Proof.
  assert (within later (scp_get (E := E) c src dst)) as Hw.
  { unfold scp_get. apply within_bind; [exact _ | apply later_env_op, spawn_mono|]. intros p.
    apply within_bind; [exact _| |].
    - apply within_iter; [exact _..|]. intros l. apply within_modify. intros s. apply log_mono.
    - intros _. apply within_bind; [exact _ | apply within_lift; exact _|]. intros rc.
      apply within_bind; [exact _ | apply within_get; exact _|]. intros s. apply within_ret; exact _. }
  assert (ends (fun _ => True) (scp_get (E := E) c src dst)) as He.
  { unfold scp_get. apply ends_bind; [intros s _; unfold env_op; destruct (spawn _ _ _); eauto|]. intros p.
    apply ends_bind; [apply ends_iter; intros l; by apply ends_modify|]. intros _.
    apply ends_bind; [apply ends_lift|]. intros rc. apply ends_bind; [apply ends_get|]. intros s. apply ends_ret. }
  intros s Hs. destruct (He (SSt false (env (h_ssh s))) I) as (o & s' & Eg & _). exists o, (at_env (env s') s).
  unfold client_scp. rewrite Eg. split; [done|]. constructor; [done|]. apply Hw in Eg. exact Eg.
Qed.

Lemma site_scp_ends v src dst : ends (site_ok hosts) (site_scp (E := E) hosts vm_key v src dst).
Proof.
  unfold site_scp. apply ends_bind; [apply find_ip_ends|]. intros v'. apply ends_bind; [|intros; apply ends_ret].
  apply on_host_ends. intros c. apply good_ends, good_client_scp.
Qed.

Lemma site_destroy_ends (v : nat * vm) : ends (site_ok hosts) (on_host (E := E) hosts v.1 (fun c =>
  destroy (Storage0 := backend_storage (hc_client c)) (hc_client c) (hc_storage c) true v.2)).
Proof. apply on_host_ends. intros c. apply good_ends. apply (good_destroy (hc_client c) (Storage0 := backend_storage (hc_client c))). Qed.
End SiteEnds.

(** ** The runner *)

Section RunnerEnds.
Context {W V : Type} `{Vms W V} (P : W -> Prop) (data : pydict) (notify : string -> res unit) (find_provider : pyval -> res unit).
Context (script_ends : forall v sc envv, ends P (vm_run_script v sc envv)).
Notation ok := (fun s : rst W V => P (r_w s)).

Lemma run_one_ends envv v x : ends ok (run_one data notify envv v x).
Proof.
  unfold run_one, announce. apply ends_bind; [apply ends_lift|]. intros s.
  apply ends_bind; [apply ends_bind; [by apply ends_modify | intros; apply ends_lift]|]. intros _.
  apply ends_catch; [apply ends_bind; [by apply r_lift_ends | intros; apply ends_ret]|].
  intros [] k [= <-]. apply ends_ret.
Qed.

Lemma run_scripts_ends envv v scripts : ends ok (run_scripts data notify envv v scripts).
Proof.
  induction scripts as [|x scripts IH]; [apply ends_ret|]. cbn [run_scripts]. apply ends_bind; [apply run_one_ends|].
  intros [a|]; [apply ends_ret | exact IH].
Qed.

Lemma run_vms_ends envv l : ends ok (run_vms data notify envv l).
Proof.
  induction l as [|[v scripts] l IH]; [apply ends_ret|]. cbn [run_vms]. apply ends_bind; [apply ends_lift|]. intros names.
  apply ends_bind; [apply run_scripts_ends|]. intros [a|]; [apply ends_ret | exact IH].
Qed.

(** [run()] ends when the provider's [get_vms] does. *)
Lemma runner_run_ends cfg local_cfg envv s : P (r_w s) ->
  (forall confs, (x ← getitem local_cfg "vms"; iter x) = Ok confs ->
     exists o w, prov_get_vms confs (r_w s) = Some (o, w) /\ P w) ->
  exists o s', run data notify find_provider cfg local_cfg envv s = Some (o, s') /\ P (r_w s').
Proof.
  intros Hs Hg. unfold run. rewrite co_bind_eq. unfold co_lift at 1. destruct (p ← getitem cfg "provider"; find_provider p); [|eauto].
  rewrite co_bind_eq. cbn [co_modify]. rewrite co_bind_eq. unfold co_lift at 1. destruct (x ← getitem local_cfg "vms"; iter x) as [confs|e] eqn:Ec; [|eauto].
  rewrite co_bind_eq. unfold co_lift at 1. destruct (res_map _ confs) as [scripts|e]; [|eauto].
  rewrite co_bind_eq. unfold r_lift at 1. cbn [r_w]. destruct (Hg confs eq_refl) as (o & w & -> & Hw). destruct o as [vms|e]; [|eauto].
  rewrite co_bind_eq. cbn [co_modify].
  refine (ends_bind ok _ _ (run_vms_ends envv (zip vms scripts)) (fun r => ends_ret ok _) _ _). exact Hw.
Qed.

Lemma runner_cleanup_ends log_path : (forall v src dst, ends P (vm_scp v src dst)) -> (forall v, ends P (vm_destroy v)) ->
  ends ok (cleanup log_path).
Proof.
  intros Hscp Hd. unfold cleanup, copy_files, provider_cleanup. apply ends_bind; [by apply ends_modify|]. intros _.
  apply ends_bind; [apply ends_get|]. intros s. apply ends_bind.
  - apply ends_iter. intros v. apply ends_bind; [apply ends_lift|]. intros files. apply ends_iter. intros x.
    apply ends_bind; [apply ends_lift|]. intros sd. by apply r_lift_ends.
  - intros _. destruct (r_prov s); [|apply ends_raise].
    apply ends_iter. intros v. apply ends_bind; [by apply ends_modify|]. intros _. by apply r_lift_ends.
Qed.
End RunnerEnds.

(** ** A whole job *)

(** C6: a job of the ssh runner ends.  When the parents of the images form no cycle and one of the hosts reports room for
    the job's VMs from some time on, at most [n] half minutes away, the runner's [run] on the real provider, hosts, VMs
    and storage ends, whatever the commands on the hosts and in the VMs give and however the hosts are shuffled, and so
    does the [cleanup] after it. *)
Theorem ssh_job_terminates {E} `{WorldOk E} hosts vm_key rnds xml_bytes config data shuffle repr fuel rank
    notify find_provider cfg local_cfg envv log_path confs required limit host deadline n
    (s : rst (pst (site E) nat) (nat * vm)) :
  let Hs := site_hosts hosts vm_key rnds xml_bytes config data fuel in
  let Vs := site_vms hosts vm_key rnds xml_bytes config data shuffle repr fuel (S n) in
  acyclic config rank -> (forall name, rank name < fuel) -> (forall k l, shuffle k l ≡ₚ l) ->
  (x ← getitem local_cfg "vms"; iter x) = Ok confs -> memory_required config confs = Ok required ->
  maxla config = Ok limit ->
  site_ok hosts (p_w (r_w s)) -> host ∈ p_hosts (r_w s) -> roomy (H := Hs) (site_ok hosts) required limit host deadline ->
  (deadline <= time_at (H := Hs) (r_w s) + 30 * inject_Z (Z.of_nat n))%Q ->
  exists o s1, Runner.run (H := Vs) data notify find_provider cfg local_cfg envv s = Some (o, s1) /\
    exists o2 s2, Runner.cleanup (H := Vs) log_path s1 = Some (o2, s2).
Proof.
  intros Hs Vs Ha He Hsh Hc Hreq Hlim Hok Hin Hroom Hd.
  pose proof (site_hosts_ok hosts vm_key rnds xml_bytes config data fuel rank Ha He) as Hho.
  destruct (runner_run_ends (H := Vs) (fun w => site_ok hosts (p_w w)) data notify find_provider
    (fun v sc envv => p_lift_ends (site_ok hosts) _ (site_run_script_ends hosts vm_key repr v sc envv))
    cfg local_cfg envv s Hok) as (o & s1 & Hr & Hok1).
  { intros confs' Hc'. rewrite Hc in Hc'. injection Hc' as <-.
    destruct (provider_waits_for_room (H := Hs) (site_ok hosts) config shuffle confs required limit host deadline n (r_w s))
      as (o & w & Hg & Hw & _); eauto. }
  exists o, s1. split; [exact Hr|].
  destruct (runner_cleanup_ends (H := Vs) (fun w => site_ok hosts (p_w w)) log_path) with s1 as (o2 & s2 & Hcl & _); [| |done|eauto].
  - intros v src dst. apply p_lift_ends, site_scp_ends.
  - intros v. apply p_lift_ends, site_destroy_ends.
Qed.

(** A world where every command succeeds and prints the statistics of an idle machine; its state is the clock. *)
Definition idle_proc : proc :=
  Proc ["12:00 up 1 day, load average: 0.10, 0.20, 0.30" +:+ String nl ""; "Mem:  1 2 9000 4 5 600"] (Ok 0%Z).
Definition idle_world : World Q := {|
  now e := e; sleep q e := (e + q)%Q; connect _ _ e := (Ok tt, e); spawn _ _ e := (idle_proc, e);
  reaped _ := true; log_line _ e := e |}.
#[local] Existing Instance idle_world.
Lemma idle_world_ok : WorldOk Q.
Proof. constructor; intros; apply Qle_refl. Qed.
#[local] Existing Instance idle_world_ok.

Definition hosts_ex : list host_conf := [HostConf client_ex (BBtrfs (MkBTRFS "ci"))].
Definition job_config : pydict :=
  images_ex ++ [("vms", PDict [("a", PDict [("memory", PInt 2048); ("image", PStr "test"); ("net", PList [PStr "virbr0"])])])].
Definition job_local : pyval := PDict [("vms", PList [PDict [("name", PStr "a"); ("scripts", PList [PStr "s0"])]])].
Definition job_start : rst (pst (site Q) nat) (nat * vm) :=
  RSt (PSt (Site 0%Q [HSt (SSt false 0%Q) [] 0 0 [] [] []] ∅) [0] 0%Q 0) [] [] [] true false.

Lemma job_acyclic : acyclic job_config rank_ex.
Proof. exact acyclic_ex. Qed.

Lemma ssh_job_terminates_witness : exists o s1,
  Runner.run (H := site_vms hosts_ex "key" (fun _ _ => rnd_ex) (fun _ => "") job_config scripts_ex (fun _ l => reverse l)
    (fun _ => "") 2 1) scripts_ex (fun _ => Ok tt) (fun _ => Ok tt) runner_cfg_ex job_local [] job_start = Some (o, s1).
Proof.
  destruct (ssh_job_terminates hosts_ex "key" (fun _ _ => rnd_ex) (fun _ => "") job_config scripts_ex (fun _ l => reverse l)
    (fun _ => "") 2 rank_ex (fun _ => Ok tt) (fun _ => Ok tt) runner_cfg_ex job_local [] "logs"
    [PDict [("name", PStr "a"); ("scripts", PList [PStr "s0"])]] 3072%Q 4%Q 0 0%Q 0 job_start) as (o & s1 & Hr & _).
  - exact job_acyclic.
  - intros name. unfold rank_ex. case_match; lia.
  - intros k l. apply reverse_Permutation.
  - reflexivity.
  - by vm_compute.
  - by vm_compute.
  - split; [done|]. split; [by repeat constructor | done].
  - left.
  - intros w (Ht & Hl & Hn) _. cbn in Hn. destruct (s_hosts w) as [|hs [|]] eqn:Eh; try done.
    exists (10 # 100)%Q, 9600%Z. cbn [host_stats site_hosts]. unfold on_host. rewrite Eh. cbn [hosts_ex lookup list_lookup].
    destruct hs as [[[] e] lg dr nv br vs lk]; eexists; (split; [vm_compute; reflexivity|]); by vm_compute.
  - by vm_compute.
  - exists o, s1. exact Hr.
Defined.
