(* ===== verification/Metadata.v ===== *)
(** * [MetadataServer] of [rallyci/providers/virsh.py]

    The answers a booting VM gets from the metadata server: the JSON document with the public keys, and the user data.
    The web framework, which finds the handler and the version of a request, and the file system are parameters; a JSON
    document is the value it was dumped from. *)

From Stdlib Require Import QArith.
From stdpp Require Import pretty.
From S2P Require Import Prelude PyStr PyVal PyRe.
Open Scope nat_scope.

(** ** Text files *)

Definition carriage : ascii := "013"%char.

(** [open(path)] in text mode: the three kinds of line ends are read as newlines. *)
Fixpoint universal (s : string) : string :=
  match s with
  | "" => ""
  | String c t =>
      if bool_decide (c = carriage) then
        String nl match t with
                  | String d u => if bool_decide (d = nl) then universal u else universal t
                  | "" => ""
                  end
      else String c (universal t)
  end.

(** [readlines()]: every line with its newline; the last one may have none. *)
Fixpoint lines_from (cur : string) (s : string) : list string :=
  match s with
  | "" => if str_eqb cur "" then [] else [cur]
  | String c t => if bool_decide (c = nl) then (cur +:+ String c "") :: lines_from "" t else lines_from (cur +:+ String c "") t
  end.
Definition readlines (s : string) : list string := lines_from "" s.

(** ** The server *)

Inductive payload := Text (s : string) | Json (v : pyval).
Record response := Response { status : Z; body : option payload; content_type : option string }.

Section Server.
(** The configuration, the files, and the [uuid4()] of this call. *)
Context (config : pydict) (read_file : string -> res string) (uuid : string).

(** [for i, line in enumerate(lines): if line: keys["key-" + str(i)] = line] *)
Definition key_name (i : nat) : string := "key-" +:+ str_of_nat i.
Definition add_key (keys : pydict) (il : nat * string) : pydict :=
  if str_eqb il.2 "" then keys else dict_set keys (key_name il.1) (PStr il.2).
Definition public_keys (lines : list string) : pydict := fold_left add_key (imap pair lines) [].

Definition get_metadata : res pyval :=
  path ← (x ← dgetitem config "authorized_keys"; as_str x);
  content ← read_file path;
  Ok (PDict [("uuid", PStr uuid); ("availability_zone", PStr "nova"); ("hostname", PStr "rally-ci-vm"); ("launch_index", PInt 0);
             ("meta", PDict [("priority", PStr "low"); ("role", PStr "rally-ci-test-vm")]);
             ("public_keys", PDict (public_keys (readlines (universal content)))); ("name", PStr "test")]).

(** [version in ("2012-08-10", "latest")] *)
Definition supported (version : string) : bool := bool_decide (version ∈ ["2012-08-10"; "latest"]).

Definition user_data (version : string) : res response :=
  if supported version
  then s ← (x ← dgetitem config "user_data"; as_str x); Ok (Response 200 (Some (Text s)) None)
  else Ok (Response 404 None None).

Definition meta_data (version : string) : res response :=
  if supported version
  then md ← get_metadata; Ok (Response 200 (Some (Json md)) (Some "application/json"))
  else Ok (Response 404 None None).

(** Where [start()] listens. *)
Definition listen : pyval * pyval :=
  (dget config "listen_addr" (PStr "169.254.169.254"), dget config "listen_port" (PInt 8080)).
End Server.

(** ** Properties *)

(** What the lines of a text are: every newline ends one, and what follows the last newline is one unless it is empty. *)
Inductive text_lines : string -> list string -> Prop :=
| tl_nil : text_lines "" []
| tl_last b : nl ∉ chars b -> b <> "" -> text_lines b [b]
| tl_line b s ls : nl ∉ chars b -> text_lines s ls -> text_lines (b +:+ String nl s) ((b +:+ String nl "") :: ls).

Lemma lines_from_spec s : forall cur, nl ∉ chars cur -> text_lines (cur +:+ s) (lines_from cur s).
Proof.
  induction s as [|c s IH]; intros cur Hc; cbn [lines_from].
  - rewrite string_app_nil_r. case_match eqn:E; [apply str_eqb_true in E; subst; constructor|].
    apply str_eqb_false in E. by constructor.
  - case_bool_decide as E; [subst c; constructor; [done | apply (IH ""); set_solver]|].
    change (cur +:+ String c s) with (cur +:+ (String c "" +:+ s)). rewrite <- string_app_assoc. apply IH.
    rewrite chars_app. cbn. set_solver.
Qed.

Lemma lines_from_nonempty s : forall cur, Forall (fun l => l <> "") (lines_from cur s).
Proof.
  induction s as [|c s IH]; intros cur; cbn [lines_from].
  - case_match eqn:E; [constructor|]. apply str_eqb_false in E. by repeat constructor.
  - case_bool_decide; [|done]. constructor; [|done]. by destruct cur.
Qed.

#[local] Instance key_name_inj : Inj eq eq key_name.
Proof. intros i j E. apply (inj (String.append _)) in E. by apply (inj (pretty (A := nat))) in E. Qed.

Lemma public_keys_app lines line : line <> "" -> Forall (fun l => l <> "") lines ->
  public_keys lines = imap (fun i l => (key_name i, PStr l)) lines ->
  public_keys (lines ++ [line]) = imap (fun i l => (key_name i, PStr l)) (lines ++ [line]).
Proof.
  intros Hn Hf IH. unfold public_keys in *. rewrite !imap_app, fold_left_app, IH. cbn. unfold add_key. cbn [fst snd].
  rewrite (proj2 (str_eqb_false line "")) by done. rewrite dict_set_new; [by rewrite Nat.add_0_r|].
  unfold dict_keys. rewrite list_elem_of_fmap. intros ([k v] & Ek & Hin). apply elem_of_lookup_imap in Hin as (i & l & [= -> ->] & Hl).
  cbn in Ek. apply (inj key_name) in Ek. apply lookup_lt_Some in Hl. lia.
Qed.

Lemma public_keys_lines lines : Forall (fun l => l <> "") lines ->
  public_keys lines = imap (fun i l => (key_name i, PStr l)) lines.
Proof.
  induction lines as [|line lines IH] using rev_ind; intros Hf; [done|]. apply Forall_app in Hf as [Hf Hl].
  rewrite Forall_singleton in Hl. apply public_keys_app; [exact Hl | exact Hf | exact (IH Hf)].
Qed.

(** C31: when the configuration names an authorized keys file that can be read, a supported version gets a document whose
    public keys are the lines of the file, each with its newline, named [key-0], [key-1] and so on in order, no line left
    out, merged or split; any other version gets a 404 without the configuration or the file being looked at. *)
Theorem meta_data_keys config read_file uuid version path content :
  dict_get config "authorized_keys" = Some (PStr path) -> read_file path = Ok content ->
  (supported version = true -> exists md ls, meta_data config read_file uuid version =
      Ok (Response 200 (Some (Json md)) (Some "application/json")) /\
    getitem md "public_keys" = Ok (PDict (imap (fun i l => (key_name i, PStr l)) ls)) /\
    text_lines (universal content) ls) /\
  (supported version = false -> forall config' read_file',
    meta_data config' read_file' uuid version = Ok (Response 404 None None)).
Proof.
  intros Hp Hr. split.
  - intros Hv. unfold meta_data, get_metadata. rewrite Hv. unfold dgetitem, getitem. rewrite Hp. cbn [mbind res_bind as_str].
    rewrite Hr. cbn [mbind res_bind]. eexists _, (readlines (universal content)). split; [reflexivity|].
    pose proof (lines_from_nonempty (universal content) "") as Hl.
    split; [cbn; by rewrite public_keys_lines | apply (lines_from_spec _ ""); set_solver].
  - intros Hv config' read_file'. unfold meta_data. by rewrite Hv.
Qed.

Definition two_keys : string := "ssh-rsa AAA a" +:+ String carriage (String nl "ssh-rsa BBB b").

Lemma meta_data_keys_witness :
  meta_data [("authorized_keys", PStr "/k")] (fun _ => Ok two_keys) "u" "2009-04-04" = Ok (Response 404 None None) /\
  exists md, meta_data [("authorized_keys", PStr "/k")] (fun _ => Ok two_keys) "u" "latest" =
      Ok (Response 200 (Some (Json md)) (Some "application/json")) /\
    getitem md "public_keys" = Ok (PDict [("key-0", PStr ("ssh-rsa AAA a" +:+ String nl "")); ("key-1", PStr "ssh-rsa BBB b")]).
Proof.
  split.
  - by apply (meta_data_keys [("authorized_keys", PStr "/k")] (fun _ => Ok two_keys) "u" "2009-04-04" "/k" two_keys).
  - destruct (meta_data_keys [("authorized_keys", PStr "/k")] (fun _ => Ok two_keys) "u" "latest" "/k" two_keys)
      as [(md & ls & Hm & Hk & _) _]; try done.
    exists md. split; [exact Hm|]. vm_compute in Hm. injection Hm as <-. vm_compute. reflexivity.
Defined.
