(* ===== verification/Startup.v ===== *)
(** * Start of the daemon

    [daemon.run], [Root.load_config], [Root.start_services] and [Root.run] up to the wait for the stop signal; the
    construction and start of the libvirt provider with its hosts; the start and end of the metadata server.  The classes
    that configured modules define are parameters, those of a provider module the class [Providers] with the libvirt provider
    as an instance. *)

From Stdlib Require Import QArith.
From S2P Require Import Prelude PyStr PyVal Config AsyncSSH VirshStorage VirshSite Root Status.
Open Scope nat_scope.

(** ** The libvirt provider *)

(** [AsyncSSH(..)] called with the entries of a dictionary: only its five parameters are accepted. *)
Definition ssh_args : list string := ["username"; "hostname"; "key"; "port"; "cb"].

Definition opt_str (d : pydict) (k dflt : string) : res string :=
  match dict_get d k with None | Some PNone => Ok dflt | Some (PStr s) => Ok s | Some _ => Raise TypeError end.

Definition client_of_conf (ssh_conf : pyval) : res client :=
  match ssh_conf with
  | PDict d =>
      if forallb (fun k => bool_decide (k ∈ ssh_args)) (dict_keys d) then
        username ← opt_str d "username" "";
        hostname ← opt_str d "hostname" "None";
        key ← opt_str d "key" "";
        match dget d "port" (PInt 22) with
        | PInt port => Ok (new_client username hostname key port)
        | _ => Raise TypeError
        end
      else Raise TypeError
  | _ => Raise TypeError
  end.

(** [Host(ssh_conf, config, root, vm_key)] *)
Definition new_host (config : pydict) (ssh_conf : pyval) : res host_conf :=
  c ← client_of_conf ssh_conf;
  b ← new_backend config;
  Ok (HostConf c b).

(** The state of a new host: no locks, no VMs, no bridges, not connected. *)
Definition host0 {E} (e : E) : hst E := HSt (SSt false e) [] 0 0 [] [] [].

(** [pr_hosts] and [pr_mds] (the configuration of the metadata server) are attributes that [start] creates; [pr_cancelled]
    tells that [mds_future.cancel()] was called. *)
Record provider := Provider { pr_config : pydict; pr_name : pyval; pr_key : pyval; pr_last : Q;
                              pr_hosts : option (list host_conf); pr_mds : option pyval; pr_cancelled : bool }.

Definition new_provider (now : Q) (config : pyval) : res provider :=
  name ← getitem config "name";
  key ← get config "key" PNone;
  d ← as_dict config;
  Ok (Provider d name key now None None false).

(** [start]: the hosts, then the metadata server, whose [start()] is scheduled. *)
Definition provider_start : se provider unit :=
  p ← se_get;
  confs ← se_lift (dgetitem (pr_config p) "hosts");
  confs ← se_lift (iter confs);
  hosts ← se_lift (res_map (new_host (pr_config p)) confs);
  _ ← se_modify (fun p => Provider (pr_config p) (pr_name p) (pr_key p) (pr_last p) (Some hosts) (pr_mds p) (pr_cancelled p));
  se_modify (fun p => Provider (pr_config p) (pr_name p) (pr_key p) (pr_last p) (pr_hosts p)
                        (Some (dget (pr_config p) "metadata_server" (PDict []))) (pr_cancelled p)).

(** [stop]: [yield from] the truth value that [cancel()] returns. *)
Definition provider_stop : se provider unit :=
  p ← se_get;
  match pr_mds p with
  | None => se_raise AttributeError
  | Some _ =>
      _ ← se_modify (fun p => Provider (pr_config p) (pr_name p) (pr_key p) (pr_last p) (pr_hosts p) (pr_mds p) true);
      se_raise TypeError
  end.

(** ** The metadata server *)
Section Mds.
(** The outcomes of [create_server], [finish_connections], [wait_closed] and [app.finish]. *)
Context (config : pydict) (create_server : pyval -> pyval -> res unit) (finish_connections wait_closed app_finish : res unit).

Record mds := Mds { md_routes : list string; md_handler : bool; md_srv : bool; md_closed : bool }.

Definition mds0 : mds := Mds [] false false false.

Definition mds_start : se mds unit :=
  _ ← se_modify (fun _ => Mds ["/openstack/{version:.*}/meta_data.json"; "/openstack/{version:.*}/user_data"] true false false);
  let addr := dget config "listen_addr" (PStr "169.254.169.254") in
  let port := dget config "listen_port" (PInt 8080) in
  _ ← se_lift (create_server addr port);
  se_modify (fun s => Mds (md_routes s) (md_handler s) true (md_closed s)).

(** [x.f()] for an attribute that may not exist. *)
Definition attribute (b : bool) (r : res unit) : res unit := if b then r else Raise AttributeError.

Definition mds_stop : se mds unit :=
  s ← se_get;
  _ ← se_lift (attribute (md_handler s) finish_connections);
  _ ← se_lift (attribute (md_srv s) (Ok tt));
  _ ← se_modify (fun s => Mds (md_routes s) (md_handler s) (md_srv s) true);
  _ ← se_lift wait_closed;
  se_lift app_finish.
End Mds.

(** ** The root *)

(** What the root uses of the providers that modules define. *)
Class Providers (M P : Type) := {
  prov_init : M -> pyval -> res P;
  prov_name : P -> res string;       (* [prov.name], a key of [root.providers] *)
  prov_start : se P unit }.

#[export] Instance virsh_providers (M : Type) : Providers M provider := {
  prov_init _ cfg := new_provider 0%Q cfg;
  prov_name p := match pr_name p with PStr s => Ok s | _ => Raise TypeError end;
  prov_start := provider_start }.

Section StartUp.
Context {M P : Type} `{Providers M P}.
(** [importlib.import_module], and the constructor [Class(root, ..)] of a service module. *)
Context (import_module : string -> res M) (service_init : M -> pyval -> res unit).
Context (data : pydict).

(** The root on its event loop, the module cache of the configuration, and [root.providers]. *)
Record startup := StartUp { b_root : st; b_store : mstore (M := M); b_providers : list (string * P) }.
Definition boot0 : startup := StartUp init (MStore [] []) [].

(** [self._get_module(cfg["module"])] *)
Definition load (cfg : pyval) : se startup M := fun b =>
  let '(r, store) := get_instance import_module (b_store b) cfg in
  (mc ← r; Ok mc.1, StartUp (b_root b) store (b_providers b)).

(** One iteration of [start_services]: the [i]-th service is created and started. *)
Definition start_service (ic : nat * pyval) : se startup unit :=
  m ← load ic.2;
  _ ← se_lift (service_init m ic.2);
  se_modify (fun b => StartUp (start_obj (OService ic.1) (b_root b)).2 (b_store b) (b_providers b)).

Definition start_services : se startup unit :=
  cfgs ← se_lift (section_values data "service");
  se_iter start_service (imap pair cfgs).

(** One iteration over [config.iter_providers()]; a provider that fails to start stays registered. *)
Definition start_provider (cfg : pyval) : se startup unit :=
  m ← load cfg;
  p ← se_lift (prov_init m cfg);
  name ← se_lift (prov_name p);
  let '(r, p') := prov_start p in
  _ ← se_modify (fun b => StartUp (b_root b) (b_store b) (dict_set (b_providers b) name p'));
  se_lift r.

Definition start_providers : se startup unit :=
  cfgs ← se_lift (section_values data "provider");
  se_iter start_provider cfgs.

(** [Root.run] up to [stop_event.wait()] *)
Definition root_start : se startup unit :=
  _ ← start_services;
  start_providers.
End StartUp.
Arguments StartUp {M P}. Arguments b_root {M P}. Arguments b_store {M P}. Arguments b_providers {M P}.

(** [daemon.run]: the configuration is loaded, then [Root.run] starts; an exception of either ends the process. *)
Definition daemon_run {M P} `{Providers M P} (import_module : string -> res M) (service_init : M -> pyval -> res unit)
    (a : args) (raw : list pyval) : res unit * startup (M := M) (P := P) :=
  match Config.init a raw with
  | Raise e => (Raise e, boot0)
  | Ok (data, _) => root_start import_module service_init data boot0
  end.

(** ** The coroutines of the root *)

(** [run_obj(obj)] and [run_cleanup(obj)] around what the object's [run()] or [cleanup()] does. *)
Definition run_obj {S} (m : se S unit) : se S unit :=
  se_catch m (fun e => match e with CancelledError => Some (mret tt) | e => if is_Exception e then Some (mret tt) else None end).
Definition run_cleanup {S} (m : se S unit) : se S unit :=
  se_catch m (fun e => if is_Exception e then Some (mret tt) else None).

(** Whatever an object does, its future ends without an exception (the interrupt of the process apart), after the same
    changes; and the cleanup of an object is not kept from running by how its run ended. *)
Lemma run_obj_ends {S} (run cleanup : se S unit) s :
  (run_obj run s).2 = (run s).2 /\ ((run_obj run s).1 = Ok tt \/ (run_obj run s).1 = Raise KeyboardInterrupt) /\
  (run_cleanup cleanup (run_obj run s).2).2 = (cleanup (run s).2).2.
Proof.
  unfold run_obj, run_cleanup, se_catch. destruct (run s) as [[[]|e] s1].
  - cbn. split_and!; [done | by left|]. by destruct (cleanup s1) as [[[]|[]] s2].
  - destruct e; cbn; split_and!; auto; by destruct (cleanup s1) as [[[]|[]] s2].
Qed.

(** ** What has been started *)

Section BootLemmas.
Context {M P : Type} `{Providers M P} (import_module : string -> res M) (service_init : M -> pyval -> res unit).

Implicit Types (b : startup (M := M) (P := P)).

(** The root after the first [k] services were started and before the loop runs. *)
Record started (k : nat) (b : startup (M := M) (P := P)) : Prop := {
  sd_reach : reachable (b_root b);
  sd_phase : phase (b_root b) = PRun;
  sd_next : next (b_root b) = k;
  sd_running : running_objects (b_root b) = (fun i => (i, OService i)) <$> seq 0 k;
  sd_ready : ready (b_root b) = HStep <$> seq 0 k }.

Lemma load_frame cfg b : b_root (load import_module cfg b).2 = b_root b /\ b_providers (load import_module cfg b).2 = b_providers b.
Proof. unfold load. by destruct (get_instance _ _ _). Qed.

Lemma started_root k b b' : b_root b' = b_root b -> started k b -> started k b'.
Proof. intros E []. constructor; by rewrite E. Qed.

Lemma started_next k b : started k b ->
  started (S k) (StartUp (start_obj (OService k) (b_root b)).2 (b_store b) (b_providers b)).
Proof.
  intros []. constructor; cbn [b_root].
  - eapply rtc_r; [exact sd_reach0|]. by apply step_service.
  - done.
  - cbn. by rewrite sd_next0.
  - cbn [start_obj snd running_objects]. rewrite sd_running0, sd_next0, seq_S, fmap_app. done.
  - cbn [start_obj snd ready]. rewrite sd_ready0, sd_next0, seq_S, fmap_app. done.
Qed.

Lemma start_service_spec k cfg b r b' : started k b -> start_service import_module service_init (k, cfg) b = (r, b') ->
  b_providers b' = b_providers b /\ match r with Ok _ => started (S k) b' | Raise _ => started k b' end.
Proof.
  intros Hs. unfold start_service. rewrite se_bind_eq. pose proof (load_frame cfg b) as [Er Ep]. cbn [snd].
  destruct (load import_module cfg b) as [[m|e] b1]; cbn [snd] in *; [|intros [= <- <-]; by split; [|eapply started_root]].
  rewrite se_bind_eq. unfold se_lift. destruct (service_init m cfg) as [[]|e]; intros [= <- <-]; (split; [done|]).
  - apply started_next. by eapply started_root.
  - by eapply started_root.
Qed.

Lemma start_loop cfgs : forall k b r b', started k b ->
  se_iter (start_service import_module service_init) (imap (fun i c => (k + i, c)) cfgs) b = (r, b') ->
  b_providers b' = b_providers b /\ exists j, j <= length cfgs /\ started (k + j) b' /\ (r = Ok tt <-> j = length cfgs).
Proof.
  induction cfgs as [|cfg cfgs IH]; intros k b r b' Hs; cbn [imap se_iter].
  - intros [= <- <-]. split; [done|]. exists 0. cbn. rewrite Nat.add_0_r. done.
  - rewrite se_bind_eq, Nat.add_0_r. destruct (start_service import_module service_init (k, cfg) b) as [r1 b1] eqn:E.
    destruct (start_service_spec k cfg b r1 b1 Hs E) as [Ep H1]. destruct r1 as [[]|e].
    + replace (imap ((fun i c => (k + i, c)) ∘ S) cfgs) with (imap (fun i c => (S k + i, c)) cfgs)
        by (apply imap_ext; intros; cbn; f_equal; lia).
      intros (Ep' & j & Hj & Hst & Hr)%(IH (S k)); [|done]. split; [congruence|]. exists (S j). cbn [length].
      rewrite <- Nat.add_succ_comm. split_and!; [lia | done|]. rewrite Hr. lia.
    + intros [= <- <-]. split; [done|]. exists 0. rewrite Nat.add_0_r. split_and!; [cbn; lia | done|]. split; [done | cbn; lia].
Qed.

Lemma start_provider_root cfg b : b_root (start_provider import_module cfg b).2 = b_root b.
Proof.
  unfold start_provider. rewrite se_bind_eq. pose proof (load_frame cfg b) as [Er _].
  destruct (load import_module cfg b) as [[m|e] b1]; cbn [snd] in *; [|done]. rewrite se_bind_eq. unfold se_lift.
  destruct (prov_init m cfg) as [p|e]; [|done]. rewrite se_bind_eq. destruct (prov_name p) as [name|e]; [|done].
  destruct (prov_start p) as [r p']. done.
Qed.

Lemma start_providers_root data b : b_root (start_providers import_module data b).2 = b_root b.
Proof.
  unfold start_providers. rewrite se_bind_eq. unfold se_lift. destruct (section_values data "provider") as [cfgs|e]; [|done].
  apply (se_iter_inv (fun b' => b_root b' = b_root b)); [done|]. intros cfg b1 _ <-. apply start_provider_root.
Qed.
End BootLemmas.

(** C33: start-up.  Whatever the modules and constructors do, when [Root.run] gets to the wait for the stop signal, or fails before
    it, the root is in a reachable state of the event loop in which exactly the first [k] configured services have been started,
    in the order of the configuration, and none has run yet; [k] is their number unless one of them could not be created, and
    then no provider has been started either. *)
Theorem startup_services {M P} `{Providers M P} (import_module : string -> res M) service_init data cfgs r b :
  section_values data "service" = Ok cfgs -> root_start import_module service_init data (boot0 (P := P)) = (r, b) ->
  exists k, k <= length cfgs /\ started k b /\ (r = Ok tt -> k = length cfgs) /\
    (k < length cfgs -> b_providers b = [] /\ exists e, r = Raise e).
Proof.
  intros Hc. unfold root_start, start_services. rewrite !se_bind_eq. unfold se_lift at 1. rewrite Hc.
  assert (started 0 (boot0 (M := M) (P := P))) as H0 by (constructor; done || constructor).
  change (imap pair cfgs) with (imap (fun i c => (0 + i, c)) cfgs). destruct (se_iter _ _ boot0) as [r1 b1] eqn:E.
  destruct (start_loop import_module service_init cfgs 0 _ _ _ H0 E) as (Ep & j & Hj & Hst & Hr). cbn [plus] in Hst.
  destruct r1 as [[]|e].
  - intros E2. exists j. pose proof (start_providers_root import_module data b1) as Er. rewrite E2 in Er. cbn in Er.
    split_and!; [done | by eapply started_root | intros _; by apply Hr | intros Hlt; assert (j = length cfgs) by (by apply Hr); lia].
  - intros [= <- <-]. exists j. split_and!; [done | done | done | eauto].
Qed.

(** Two services, the second of which names a module that cannot be imported. *)
Definition boot_data : pydict :=
  [("service", PDict [("a", PDict [("module", PStr "good")]); ("b", PDict [("module", PStr "bad")])]);
   ("provider", PDict [("p", PDict [("module", PStr "good"); ("name", PStr "p"); ("hosts", PList [])])])].
Definition boot_import (name : string) : res string := if str_eqb name "bad" then Raise (ExceptionMsg "No module") else Ok name.

Lemma startup_services_witness : exists r b, root_start boot_import (fun _ _ => Ok tt) boot_data (boot0 (P := provider)) = (r, b) /\
  r = Raise (ExceptionMsg "No module") /\ dict_keys (running_objects (b_root b)) = [0] /\ b_providers b = [].
Proof.
  do 2 eexists. split; [reflexivity|].
  destruct (startup_services boot_import (fun _ _ => Ok tt) boot_data
    [PDict [("module", PStr "good")]; PDict [("module", PStr "bad")]] _ _ eq_refl eq_refl) as (k & Hk & Hs & _ & Hp).
  assert (k = 1) as -> by (pose proof (sd_next k _ Hs) as E; by vm_compute in E).
  split_and!; [done | rewrite (sd_running 1 _ Hs); done | apply Hp; cbn; lia].
Defined.

(** [Provider.stop] always raises: [AttributeError] before [start], [TypeError] after it, when the metadata server has been
    asked to stop. *)
Theorem provider_stop_raises p : exists e p', provider_stop p = (Raise e, p') /\
  (e = if pr_mds p then TypeError else AttributeError) /\ (is_Some (pr_mds p) -> pr_cancelled p' = true).
Proof. unfold provider_stop. rewrite se_bind_eq. cbn [se_get]. destruct (pr_mds p); repeat eexists; done || by intros [? ?]. Qed.

(** when [Provider.start] succeeds there is one host for every entry of the configuration, in order, each with the client its
    entry describes and the storage of the provider; when the entry of a host is wrong, neither the hosts nor the metadata
    server exist. *)
Theorem provider_start_hosts p r p' : provider_start p = (r, p') ->
  (r = Ok tt /\ exists confs hosts, (dgetitem (pr_config p) "hosts" ≫= iter) = Ok confs /\ pr_hosts p' = Some hosts /\
     Forall2 (fun c h => client_of_conf c = Ok (hc_client h) /\ new_backend (pr_config p) = Ok (hc_storage h)) confs hosts /\
     pr_mds p' = Some (dget (pr_config p) "metadata_server" (PDict []))) \/
  (exists e, r = Raise e /\ p' = p).
Proof.
  unfold provider_start. rewrite se_bind_eq. cbn [se_get]. rewrite se_bind_eq. unfold se_lift.
  destruct (dgetitem (pr_config p) "hosts") as [v|e]; [|intros [= <- <-]; eauto]. rewrite se_bind_eq.
  cbn [mbind res_bind]. destruct (iter v) as [confs|e]; [|intros [= <- <-]; eauto]. rewrite se_bind_eq.
  destruct (res_map _ confs) as [hosts|e] eqn:Eh; [|intros [= <- <-]; eauto]. intros [= <- <-]. left. split; [done|].
  exists confs, hosts. split_and!; try done. apply res_map_Ok in Eh. eapply Forall2_impl; [exact Eh|].
  intros c h Hh. unfold new_host in Hh. apply res_bind_Ok in Hh as (cl & Hc & Hh). by apply res_bind_Ok in Hh as (b & Hb & [= <-]).
Qed.

Definition demo_prov_conf : pydict :=
  [("name", PStr "p"); ("storage", PDict [("backend", PStr "btrfs"); ("path", PStr "/v")]);
   ("hosts", PList [PDict [("hostname", PStr "h1")]; PDict [("hostname", PStr "h2"); ("port", PInt 2222)]])].
Definition demo_prov : provider := Provider demo_prov_conf (PStr "p") PNone 0%Q None None false.

Lemma provider_start_hosts_witness : new_provider 0%Q (PDict demo_prov_conf) = Ok demo_prov /\ (provider_start demo_prov).1 = Ok tt /\
  exists h1 h2, pr_hosts (provider_start demo_prov).2 = Some [h1; h2] /\ hostname (hc_client h1) = "h1".
Proof.
  split; [reflexivity|]. split; [reflexivity|].
  destruct (provider_start_hosts demo_prov _ _ (surjective_pairing (provider_start demo_prov))) as [(_ & confs & hosts & Hc & Hh & HF & _)|(e & He & _)];
    [|vm_compute in He; discriminate He].
  vm_compute in Hc. injection Hc as <-. inversion HF as [|? h1 ? l1 [H1 _] HF1]; subst. inversion HF1 as [|? h2 ? l2 _ HF2]; subst.
  inversion HF2; subst. exists h1, h2. split; [exact Hh|].
  assert (Ok (hc_client h1) = Ok (new_client "" "h1" "" 22)) as E by (rewrite <- H1; reflexivity). injection E as ->. reflexivity.
Defined.

(** the metadata server: [stop] after a successful [start] closes the server with the outcome of the framework; when the server
    could not be started, or was not, [stop] raises [AttributeError]. *)
Theorem mds_lifecycle config create_server fin wc af :
  let '(r, s) := mds_start config create_server mds0 in
  let '(r', s') := mds_stop fin wc af s in
  md_routes s = ["/openstack/{version:.*}/meta_data.json"; "/openstack/{version:.*}/user_data"] /\
  (fin = Ok tt -> match r with
                  | Ok _ => md_closed s' = true /\ r' = (_ ← wc; af)
                  | Raise _ => md_closed s' = false /\ r' = Raise AttributeError
                  end).
Proof.
  unfold mds_start, mds_stop, mbind, se_bind, se_lift, se_modify, se_get, res_bind.
  destruct (create_server _ _) as [[]|e]; cbn; destruct fin as [[]|]; cbn; repeat case_match; naive_solver.
Qed.
